(** * libcpab: tesselations and constraint matrices of CPAB velocity fields

    A shallow embedding of [libcpab/core/tesselation.py]: the base class
    [Tesselation] and its variants in one, two and three dimensions; and of
    the sampling loop of [libcpab/alignment.py].

    Numbers.  The module computes with NumPy floats.  They are modelled by
    the rationals [Q]; the comparison [==] of two floats (also the one
    hidden in the hashing of tuples by [set]) is [Qeq_bool].  Rounding is
    therefore idealised: the grid breakpoints are exact.

    Errors.  A Python exception ends the construction.  Every operation of
    the module that can raise is modelled in the error monad [result]; of
    NumPy the model keeps the rules the module meets: an index outside an
    array raises, a slice is clipped, the values assigned to a slice must
    fit it, arrays joined along an axis must agree on the others.

    Objects.  The attributes of [self] are the fields of the record [tess];
    a method takes the object and returns the updated one.  The methods a
    subclass overrides are the fields of [methods].

    Cell counts are natural numbers: a negative count is not modelled.
    [np.bool] is Python's [bool], as in the NumPy releases the module was
    written for.  The [maxiter] of the aligner is any integer. *)

From Stdlib Require Import List Arith Bool ZArith QArith Lia Lqa.
Import ListNotations.

Set Implicit Arguments.
Local Open Scope nat_scope.

(** ** Exceptions and the error monad *)

Inductive exn : Type :=
| IndexError
| ValueError
| ZeroDivisionError
| NotImplementedError.

Inductive result (A : Type) : Type :=
| Ok (a : A)
| Raise (e : exn).

Arguments Ok {A} a.
Arguments Raise {A} e.

Definition bind {A B} (m : result A) (f : A -> result B) : result B :=
  match m with
  | Ok a => f a
  | Raise e => Raise e
  end.

Notation "x <- m ;; k" := (bind m (fun x => k))
  (at level 61, m at next level, right associativity).
Notation "' pat <- m ;; k" := (bind m (fun x => match x with pat => k end))
  (at level 61, pat pattern, m at next level, right associativity).

Definition is_ok {A} (m : result A) : bool :=
  match m with Ok _ => true | Raise _ => false end.

(** [for x in l: body], the loop state threaded through the body. *)
Fixpoint for_each {A S} (l : list A) (body : A -> S -> result S) (s : S)
  : result S :=
  match l with
  | [] => Ok s
  | a :: l' => s' <- body a s ;; for_each l' body s'
  end.

(** [range(n)] *)
Definition range (n : nat) : list nat := seq 0 n.

(** [l[i]] for a non-negative index. *)
Definition getitem {A} (l : list A) (i : nat) : result A :=
  match nth_error l i with
  | Some a => Ok a
  | None => Raise IndexError
  end.

(** ** The NumPy operations the module uses *)

Definition row := list Q.

(** A two-dimensional array: NumPy keeps the number of columns also when
    there is no row. *)
Record matrix : Type := Matrix { ncols : nat; rows : list row }.

(** [np.zeros(n)] *)
Definition zeros (n : nat) : row := repeat 0%Q n.

(** [np.zeros((r, c))] *)
Definition zeros2 (r c : nat) : matrix := Matrix c (repeat (zeros c) r).

(** [np.prod(nc)] *)
Definition prod (l : list nat) : nat := fold_right Nat.mul 1 l.

(** [np.linspace(start, stop, num)]: [num - 1] steps of equal size, the last
    sample overwritten by [stop]. *)
Definition linspace (start stop : Q) (num : nat) : list Q :=
  match num with
  | O => []
  | S O => [start]
  | S (S d as div) =>
      let step := ((stop - start) / inject_Z (Z.of_nat div))%Q in
      map (fun i => (inject_Z (Z.of_nat i) * step + start)%Q) (seq 0 div)
      ++ [stop]
  end.

(** [r[lo:hi] = vals] on a one-dimensional array, [lo] and [hi] non-negative:
    the slice is clipped to the array, and [vals] must have the length of the
    slice or length one (broadcast). *)
Definition set_slice (r : row) (lo hi : nat) (vals : list Q) : result row :=
  let lo' := Nat.min lo (length r) in
  let hi' := Nat.max lo' (Nat.min hi (length r)) in
  let n := hi' - lo' in
  if length vals =? n then Ok (firstn lo' r ++ vals ++ skipn hi' r)
  else match vals with
       | [x] => Ok (firstn lo' r ++ repeat x n ++ skipn hi' r)
       | _ => Raise ValueError
       end.

(** Python's reading of a slice bound that may be negative. *)
Definition slice_bound (len : nat) (z : Z) : nat :=
  if (z <? 0)%Z then Z.to_nat (Z.max 0 (z + Z.of_nat len))
  else Nat.min (Z.to_nat z) len.

Definition set_slice_Z (r : row) (lo hi : Z) (vals : list Q) : result row :=
  set_slice r (slice_bound (length r) lo) (slice_bound (length r) hi) vals.

(** [M[i, lo:hi] = vals] *)
Definition setitem_row (M : matrix) (i : nat)
  (upd : row -> result row) : result matrix :=
  r <- getitem (rows M) i ;;
  r' <- upd r ;;
  Ok (Matrix (ncols M) (firstn i (rows M) ++ r' :: skipn (S i) (rows M))).

(** [np.vstack((M, r1, ..., rn))] for one-dimensional [r1 .. rn]. *)
Definition vstack (M : matrix) (rs : list row) : result matrix :=
  if forallb (fun r => length r =? ncols M) rs
  then Ok (Matrix (ncols M) (rows M ++ rs))
  else Raise ValueError.

(** [np.concatenate((M1, M2), axis=0)] on two-dimensional arrays. *)
Definition concatenate (M1 M2 : matrix) : result matrix :=
  if ncols M1 =? ncols M2
  then Ok (Matrix (ncols M1) (rows M1 ++ rows M2))
  else Raise ValueError.

(** [np.concatenate((a, b))] of two arrays made by [np.asarray] from lists of
    equally shaped entries: an empty list gives a one-dimensional array, which
    cannot be joined to a non-empty one of more dimensions. *)
Definition concatenate_lists {A} (a b : list A) : result (list A) :=
  match a, b with
  | [], [] => Ok []
  | [], _ :: _ => Raise ValueError
  | _ :: _, [] => Raise ValueError
  | _ :: _, _ :: _ => Ok (a ++ b)
  end.

(** ** Vertices and sets of vertices *)

(** A vertex is the tuple of its homogeneous coordinates, a simplex the tuple
    of its vertices ([make_hashable]). *)
Definition vertex := list Q.
Definition simplex := list vertex.

Fixpoint vertex_eqb (v w : vertex) : bool :=
  match v, w with
  | [], [] => true
  | x :: v', y :: w' => Qeq_bool x y && vertex_eqb v' w'
  | _, _ => false
  end.

Definition vmem (v : vertex) (s : list vertex) : bool :=
  existsb (vertex_eqb v) s.

(** [set(s)]: the distinct vertices of [s].  Python leaves the order of a set
    open; the model lists the elements by first occurrence. *)
Fixpoint vset (s : list vertex) : list vertex :=
  match s with
  | [] => []
  | v :: s' => let r := vset s' in
               v :: filter (fun w => negb (vertex_eqb v w)) r
  end.

(** [set(vi).intersection(vj)] *)
Definition intersection (vi vj : simplex) : list vertex :=
  filter (fun v => vmem v vj) (vset vi).

(** [np.abs(a - b) == 1] on two indices. *)
Definition adjacent (a b : nat) : bool := (a =? b + 1) || (b =? a + 1).

(** [(j, i) in l] *)
Definition pair_in (p : nat * nat) (l : list (nat * nat)) : bool :=
  existsb (fun q => (fst p =? fst q) && (snd p =? snd q)) l.

(** [enumerate(l)] *)
Definition enumerate {A} (l : list A) : list (nat * A) :=
  combine (seq 0 (length l)) l.

(** ** The tesselation object *)

Record tess : Type := Tess {
  nc : list nat;
  domain_min : list Q;
  domain_max : list Q;
  zero_boundary : bool;
  volume_perservation : bool;
  n_params : nat;
  nC : nat;
  ndim : nat;
  verts : list simplex;
  cells : list (list nat);
  shared_v : list (list vertex);
  shared_v_idx : list (nat * nat);
  L : matrix
}.

(** The object before any attribute is assigned. *)
Definition new_object : tess :=
  Tess [] [] [] false false 0 0 0 [] [] [] [] (Matrix 0 []).

Definition set_dims (self : tess) (np n d : nat) : tess :=
  Tess (nc self) (domain_min self) (domain_max self) (zero_boundary self)
       (volume_perservation self) np n d (verts self) (cells self)
       (shared_v self) (shared_v_idx self) (L self).

Definition set_params (self : tess) (c : list nat) (dmin dmax : list Q)
  (zb vp : bool) : tess :=
  Tess c dmin dmax zb vp (n_params self) (nC self) (ndim self) (verts self)
       (cells self) (shared_v self) (shared_v_idx self) (L self).

Definition set_verts (self : tess) (vs : list simplex) (cs : list (list nat))
  : tess :=
  Tess (nc self) (domain_min self) (domain_max self) (zero_boundary self)
       (volume_perservation self) (n_params self) (nC self) (ndim self)
       vs cs (shared_v self) (shared_v_idx self) (L self).

Definition set_shared (self : tess) (sv : list (list vertex))
  (si : list (nat * nat)) : tess :=
  Tess (nc self) (domain_min self) (domain_max self) (zero_boundary self)
       (volume_perservation self) (n_params self) (nC self) (ndim self)
       (verts self) (cells self) sv si (L self).

Definition set_L (self : tess) (M : matrix) : tess :=
  Tess (nc self) (domain_min self) (domain_max self) (zero_boundary self)
       (volume_perservation self) (n_params self) (nC self) (ndim self)
       (verts self) (cells self) (shared_v self) (shared_v_idx self) M.

(** The four methods a dimension has to implement. *)
Record methods : Type := Methods {
  find_verts : tess -> result tess;
  find_verts_outside : tess -> result tess;
  create_continuity_constrains : tess -> result matrix;
  create_zero_boundary_constrains : tess -> result matrix
}.

(** ** The base class *)

Module Tesselation.

(** One step of the scan of [find_shared_verts]. *)
Definition shared_step (self : tess) (i j : nat)
  (acc : list (list vertex) * list (nat * nat))
  : result (list (list vertex) * list (nat * nat)) :=
  vi <- getitem (verts self) i ;;
  vj <- getitem (verts self) j ;;
  let shared_verts := intersection vi vj in
  if (length shared_verts =? ndim self) && negb (pair_in (j, i) (snd acc))
  then Ok (fst acc ++ [shared_verts], snd acc ++ [(i, j)])
  else Ok acc.

Definition find_shared_verts (self : tess) : result tess :=
  ' (sv, si) <-
    for_each (range (nC self))
      (fun i => for_each (range (nC self)) (fun j => shared_step self i j))
      ([], []) ;;
  Ok (set_shared self sv si).

(** [np.concatenate((np.eye(ndim), np.zeros((ndim, 1))), axis=1).flatten()] *)
Definition eye_row (d : nat) : row :=
  flat_map (fun r => map (fun c => if r =? c then 1%Q else 0%Q) (range d)
                     ++ [0%Q])
           (range d).

Definition create_zero_trace_constrains (self : tess) : result matrix :=
  let Ltemp := zeros2 (nC self) (n_params self * nC self) in
  let row := eye_row (ndim self) in
  for_each (range (nC self))
    (fun c Ltemp =>
       setitem_row Ltemp c
         (fun r => set_slice r (n_params self * c) (n_params self * (c + 1))
                     row))
    Ltemp.

Definition init (m : methods) (self : tess) (c : list nat)
  (dmin dmax : list Q) (zb vp : bool) : result tess :=
  let self := set_params self c dmin dmax zb vp in
  self <- find_verts m self ;;
  self <- find_shared_verts self ;;
  self <- (if negb zb then find_verts_outside m self else Ok self) ;;
  M <- create_continuity_constrains m self ;;
  let self := set_L self M in
  self <- (if zb
           then temp <- create_zero_boundary_constrains m self ;;
                M <- concatenate (L self) temp ;;
                Ok (set_L self M)
           else Ok self) ;;
  self <- (if vp
           then temp <- create_zero_trace_constrains self ;;
                M <- concatenate (L self) temp ;;
                Ok (set_L self M)
           else Ok self) ;;
  Ok self.

End Tesselation.

(** ** One dimension *)

Module Tesselation1D.

Definition find_verts (self : tess) : result tess :=
  dmin0 <- getitem (domain_min self) 0 ;;
  dmax0 <- getitem (domain_max self) 0 ;;
  nc0 <- getitem (nc self) 0 ;;
  let Vx := linspace dmin0 dmax0 (nc0 + 1) in
  ' (cs, vs) <-
    for_each (range nc0)
      (fun i (acc : list (list nat) * list simplex) =>
         x1 <- getitem Vx i ;;
         x2 <- getitem Vx (i + 1) ;;
         let v1 := [x1; 1%Q] in
         let v2 := [x2; 1%Q] in
         Ok (fst acc ++ [[i]], snd acc ++ [[v1; v2]]))
      ([], []) ;;
  Ok (set_verts self vs cs).

(** [pass] *)
Definition find_verts_outside (self : tess) : result tess := Ok self.

(** [np.zeros(shape=(nC - 1, 2 * nC))] rejects a negative number of rows. *)
Definition create_continuity_constrains (self : tess) : result matrix :=
  if nC self =? 0 then Raise ValueError
  else
    let Ltemp := zeros2 (nC self - 1) (2 * nC self) in
    for_each (enumerate (shared_v self))
      (fun (iv : nat * list vertex) Ltemp =>
         let idx := fst iv in
         v0 <- getitem (snd iv) 0 ;;
         setitem_row Ltemp idx
           (fun r => set_slice r (2 * idx) (2 * (idx + 2))
                       (v0 ++ map Qopp v0)))
      Ltemp.

Definition create_zero_boundary_constrains (self : tess) : result matrix :=
  let Ltemp := zeros2 2 (2 * nC self) in
  dmin0 <- getitem (domain_min self) 0 ;;
  Ltemp <- setitem_row Ltemp 0
             (fun r => set_slice_Z r 0 2 [dmin0; 1%Q]) ;;
  dmax0 <- getitem (domain_max self) 0 ;;
  setitem_row Ltemp 1
    (fun r => set_slice_Z r (-2) (Z.of_nat (length r)) [dmax0; 1%Q]).

Definition impl : methods :=
  Methods find_verts find_verts_outside create_continuity_constrains
          create_zero_boundary_constrains.

Definition init (c : list nat) (dmin dmax : list Q) (zb vp : bool)
  : result tess :=
  let self := set_dims new_object 2 (prod c) 1 in
  Tesselation.init impl self c dmin dmax zb vp.

End Tesselation1D.

(** ** Two dimensions *)

Module Tesselation2D.

(** The body of the two loops of [find_verts]: cell [(j, i)]. *)
Definition cell_step (Vx Vy : list Q) (i j : nat)
  (acc : list (list nat) * list simplex)
  : result (list (list nat) * list simplex) :=
  xj <- getitem Vx j ;;
  yi <- getitem Vy i ;;
  let ul := [xj; yi; 1%Q] in
  xj1 <- getitem Vx (j + 1) ;;
  let ur := [xj1; yi; 1%Q] in
  yi1 <- getitem Vy (i + 1) ;;
  let ll := [xj; yi1; 1%Q] in
  let lr := [xj1; yi1; 1%Q] in
  let center := [((xj + xj1) / 2)%Q; ((yi + yi1) / 2)%Q; 1%Q] in
  Ok (fst acc ++ [[j; i; 0]; [j; i; 1]; [j; i; 2]; [j; i; 3]],
      snd acc ++ [[center; ul; ur]; [center; ur; lr];
                  [center; lr; ll]; [center; ll; ul]]).

Definition find_verts (self : tess) : result tess :=
  dmin0 <- getitem (domain_min self) 0 ;;
  dmax0 <- getitem (domain_max self) 0 ;;
  nc0 <- getitem (nc self) 0 ;;
  let Vx := linspace dmin0 dmax0 (nc0 + 1) in
  dmin1 <- getitem (domain_min self) 1 ;;
  dmax1 <- getitem (domain_max self) 1 ;;
  nc1 <- getitem (nc self) 1 ;;
  let Vy := linspace dmin1 dmax1 (nc1 + 1) in
  ' (cs, vs) <-
    for_each (range nc1)
      (fun i => for_each (range nc0) (fun j => cell_step Vx Vy i j))
      ([], []) ;;
  Ok (set_verts self vs cs).

(** The four tests of [find_verts_outside] on the multi-indices [mi], [mj];
    [x == nc - 1] is written [x + 1 == nc]. The arrays [left], [right],
    [top] and [bottom] are written and read at [[i, j]] only, within one
    pass of the loop body, so each is the value of its test. *)
Definition left_of (mi mj : list nat) : result bool :=
  mi0 <- getitem mi 0 ;; mj0 <- getitem mj 0 ;;
  if (mi0 =? mj0) && (mj0 =? 0) then
    mi2 <- getitem mi 2 ;; mj2 <- getitem mj 2 ;;
    if (mi2 =? mj2) && (mj2 =? 3) then
      mi1 <- getitem mi 1 ;; mj1 <- getitem mj 1 ;;
      Ok (adjacent mi1 mj1)
    else Ok false
  else Ok false.

Definition right_of (c : list nat) (mi mj : list nat) : result bool :=
  mi0 <- getitem mi 0 ;; mj0 <- getitem mj 0 ;;
  if mi0 =? mj0 then
    nc0 <- getitem c 0 ;;
    if mj0 + 1 =? nc0 then
      mi2 <- getitem mi 2 ;; mj2 <- getitem mj 2 ;;
      if (mi2 =? mj2) && (mj2 =? 1) then
        mi1 <- getitem mi 1 ;; mj1 <- getitem mj 1 ;;
        Ok (adjacent mi1 mj1)
      else Ok false
    else Ok false
  else Ok false.

Definition top_of (mi mj : list nat) : result bool :=
  mi1 <- getitem mi 1 ;; mj1 <- getitem mj 1 ;;
  if (mi1 =? mj1) && (mj1 =? 0) then
    mi2 <- getitem mi 2 ;; mj2 <- getitem mj 2 ;;
    if (mi2 =? mj2) && (mj2 =? 0) then
      mi0 <- getitem mi 0 ;; mj0 <- getitem mj 0 ;;
      Ok (adjacent mi0 mj0)
    else Ok false
  else Ok false.

Definition bottom_of (c : list nat) (mi mj : list nat) : result bool :=
  mi1 <- getitem mi 1 ;; mj1 <- getitem mj 1 ;;
  if mi1 =? mj1 then
    nc1 <- getitem c 1 ;;
    if mj1 + 1 =? nc1 then
      mi2 <- getitem mi 2 ;; mj2 <- getitem mj 2 ;;
      if (mi2 =? mj2) && (mj2 =? 2) then
        mi0 <- getitem mi 0 ;; mj0 <- getitem mj 0 ;;
        Ok (adjacent mi0 mj0)
      else Ok false
    else Ok false
  else Ok false.

(** [v_aux[a] -= 10] *)
Definition offset (v : vertex) (a : nat) : result vertex :=
  x <- getitem v a ;;
  Ok (firstn a v ++ (x - 10)%Q :: skipn (S a) v).

Definition outside_step (self : tess) (i j : nat)
  (acc : list (list vertex) * list (nat * nat))
  : result (list (list vertex) * list (nat * nat)) :=
  vi <- getitem (verts self) i ;;
  vj <- getitem (verts self) j ;;
  let shared_verts := intersection vi vj in
  mi <- getitem (cells self) i ;;
  mj <- getitem (cells self) j ;;
  left <- left_of mi mj ;;
  right <- right_of (nc self) mi mj ;;
  top <- top_of mi mj ;;
  bottom <- bottom_of (nc self) mi mj ;;
  if (length shared_verts =? 1)
     && (left || right || top || bottom)
     && negb (pair_in (j, i) (snd acc))
  then
    v <- getitem shared_verts 0 ;;
    v_aux <- (if left || right then offset v 0
              else if top || bottom then offset v 1
              else Raise ValueError) ;;
    Ok (fst acc ++ [[v; v_aux]], snd acc ++ [(i, j)])
  else Ok acc.

(** The two loops of [find_verts_outside]. *)
Definition outside_scan (self : tess)
  : result (list (list vertex) * list (nat * nat)) :=
  for_each (range (nC self))
    (fun i => for_each (range (nC self)) (fun j => outside_step self i j))
    ([], []).

Definition find_verts_outside (self : tess) : result tess :=
  ' (sv, si) <- outside_scan self ;;
  sv' <- concatenate_lists (shared_v self) sv ;;
  si' <- concatenate_lists (shared_v_idx self) si ;;
  Ok (set_shared self sv' si').

(** [np.append(a, b)] flattens both arguments. *)
Definition pair_rows (self : tess) (ij : nat * nat) (V : list vertex)
  : result (list row) :=
  let i := fst ij in
  let j := snd ij in
  let z3 := zeros 3 in
  let row0 := zeros (6 * nC self) in
  va <- getitem V 0 ;;
  row1 <- set_slice row0 (6 * i) (6 * (i + 1)) (va ++ z3) ;;
  row1 <- set_slice row1 (6 * j) (6 * (j + 1)) (map Qopp va ++ z3) ;;
  row2 <- set_slice row0 (6 * i) (6 * (i + 1)) (z3 ++ va) ;;
  row2 <- set_slice row2 (6 * j) (6 * (j + 1)) (z3 ++ map Qopp va) ;;
  vb <- getitem V 1 ;;
  row3 <- set_slice row0 (6 * i) (6 * (i + 1)) (vb ++ z3) ;;
  row3 <- set_slice row3 (6 * j) (6 * (j + 1)) (map Qopp vb ++ z3) ;;
  row4 <- set_slice row0 (6 * i) (6 * (i + 1)) (z3 ++ vb) ;;
  row4 <- set_slice row4 (6 * j) (6 * (j + 1)) (z3 ++ map Qopp vb) ;;
  Ok [row1; row2; row3; row4].

(** The loop runs over [shared_v_idx]; [count] indexes [shared_v]. *)
Definition create_continuity_constrains (self : tess) : result matrix :=
  ' (Ltemp, _) <-
    for_each (shared_v_idx self)
      (fun ij (st : matrix * nat) =>
         let count := snd st in
         V <- getitem (shared_v self) count ;;
         rs <- pair_rows self ij V ;;
         Ltemp <- vstack (fst st) rs ;;
         Ok (Ltemp, count + 1))
      (Matrix (6 * nC self) [], 0) ;;
  Ok Ltemp.

(** The two tests on one vertex [v] of simplex [c]. *)
Definition boundary_step (self : tess) (xmin ymin xmax ymax : Q)
  (c : nat) (v : vertex) (Ltemp : matrix) : result matrix :=
  v0 <- getitem v 0 ;;
  Ltemp <- (if Qeq_bool v0 xmin || Qeq_bool v0 xmax
            then row <- set_slice (zeros (6 * nC self))
                          (6 * c) (6 * (c + 1)) (zeros 3 ++ v) ;;
                 vstack Ltemp [row]
            else Ok Ltemp) ;;
  v1 <- getitem v 1 ;;
  if Qeq_bool v1 ymin || Qeq_bool v1 ymax
  then row <- set_slice (zeros (6 * nC self))
                (6 * c) (6 * (c + 1)) (v ++ zeros 3) ;;
       vstack Ltemp [row]
  else Ok Ltemp.

(** [a, b = l] *)
Definition unpack2 {A} (l : list A) : result (A * A) :=
  match l with
  | [a; b] => Ok (a, b)
  | _ => Raise ValueError
  end.

Definition create_zero_boundary_constrains (self : tess) : result matrix :=
  ' (xmin, ymin) <- unpack2 (domain_min self) ;;
  ' (xmax, ymax) <- unpack2 (domain_max self) ;;
  for_each (range (nC self))
    (fun c Ltemp =>
       vs <- getitem (verts self) c ;;
       for_each vs (boundary_step self xmin ymin xmax ymax c) Ltemp)
    (Matrix (6 * nC self) []).

Definition impl : methods :=
  Methods find_verts find_verts_outside create_continuity_constrains
          create_zero_boundary_constrains.

Definition init (c : list nat) (dmin dmax : list Q) (zb vp : bool)
  : result tess :=
  let self := set_dims new_object 6 (4 * prod c) 2 in
  Tesselation.init impl self c dmin dmax zb vp.

End Tesselation2D.

(** ** Three dimensions *)

Module Tesselation3D.

(** The body of the three loops of [find_verts]: box [(k, j, i)]. *)
Definition box_step (Vx Vy Vz : list Q) (i j k : nat)
  (acc : list (list nat) * list simplex)
  : result (list (list nat) * list simplex) :=
  xk <- getitem Vx k ;;
  xk1 <- getitem Vx (k + 1) ;;
  yj <- getitem Vy j ;;
  yj1 <- getitem Vy (j + 1) ;;
  zi <- getitem Vz i ;;
  zi1 <- getitem Vz (i + 1) ;;
  let cnt := [((xk + xk1) / 2)%Q; ((yj + yj1) / 2)%Q; ((zi + zi1) / 2)%Q;
              1%Q] in
  let lnl := [xk; yj; zi; 1%Q] in
  let lnu := [xk; yj; zi1; 1%Q] in
  let lfl := [xk; yj1; zi; 1%Q] in
  let lfu := [xk; yj1; zi1; 1%Q] in
  let rnl := [xk1; yj; zi; 1%Q] in
  let rnu := [xk1; yj; zi1; 1%Q] in
  let rfl := [xk1; yj1; zi; 1%Q] in
  let rfu := [xk1; yj1; zi1; 1%Q] in
  Ok (fst acc ++ [[k; j; i; 0]; [k; j; i; 1]; [k; j; i; 2];
                  [k; j; i; 3]; [k; j; i; 4]; [k; j; i; 5]],
      snd acc ++ [[cnt; lnl; lnu; lfl; lfu];
                  [cnt; lnl; lnu; rnl; rnu];
                  [cnt; lnl; lfl; rnl; rnu];
                  [cnt; rnl; rnu; rfl; rfu];
                  [cnt; lfl; lfu; rfl; rfu];
                  [cnt; lnu; lfu; rnu; rfu]]).

(** [Vz] is sampled from the entries of index 1, as the source has it. *)
Definition find_verts (self : tess) : result tess :=
  dmin0 <- getitem (domain_min self) 0 ;;
  dmax0 <- getitem (domain_max self) 0 ;;
  nc0 <- getitem (nc self) 0 ;;
  let Vx := linspace dmin0 dmax0 (nc0 + 1) in
  dmin1 <- getitem (domain_min self) 1 ;;
  dmax1 <- getitem (domain_max self) 1 ;;
  nc1 <- getitem (nc self) 1 ;;
  let Vy := linspace dmin1 dmax1 (nc1 + 1) in
  let Vz := linspace dmin1 dmax1 (nc1 + 1) in
  nc2 <- getitem (nc self) 2 ;;
  ' (cs, vs) <-
    for_each (range nc2)
      (fun i =>
         for_each (range nc1)
           (fun j => for_each (range nc0) (fun k => box_step Vx Vy Vz i j k)))
      ([], []) ;;
  Ok (set_verts self vs cs).

Definition find_verts_outside (self : tess) : result tess :=
  Raise NotImplementedError.

(** The row of one shared vertex [vidx] and one output dimension [k]. *)
Definition continuity_row (self : tess) (idx i j vidx k : nat)
  : result row :=
  let index1 := n_params self * i + k * (ndim self + 1) in
  let index2 := n_params self * j + k * (ndim self + 1) in
  let row := zeros (n_params self * nC self) in
  V <- getitem (shared_v self) idx ;;
  v <- getitem V vidx ;;
  row <- set_slice row index1 (index1 + (ndim self + 1)) v ;;
  set_slice row index2 (index2 + (ndim self + 1)) (map Qopp v).

Definition create_continuity_constrains (self : tess) : result matrix :=
  for_each (enumerate (shared_v_idx self))
    (fun (e : nat * (nat * nat)) =>
       let idx := fst e in
       let i := fst (snd e) in
       let j := snd (snd e) in
       for_each (range (ndim self))
         (fun vidx =>
            for_each (range (ndim self))
              (fun k Ltemp =>
                 row <- continuity_row self idx i j vidx k ;;
                 vstack Ltemp [row])))
    (Matrix (n_params self * nC self) []).

(** [a, b, c = l] *)
Definition unpack3 {A} (l : list A) : result (A * A * A) :=
  match l with
  | [a; b; c] => Ok (a, b, c)
  | _ => Raise ValueError
  end.

(** [a / b] on two Python integers. *)
Definition truediv (a b : Z) : result Q :=
  if (b =? 0)%Z then Raise ZeroDivisionError
  else Ok (inject_Z a / inject_Z b)%Q.

(** [Ltemp[sr, c_idx*12:(c_idx+1)*12] = np.matrix(vrt + onehot)] followed
    by [sr += 1]. *)
Definition put_row (c_idx : Z) (vrt onehot : list Q) (st : matrix * nat)
  : result (matrix * nat) :=
  let sr := snd st in
  Ltemp <- setitem_row (fst st) sr
             (fun r => set_slice_Z r (c_idx * 12) ((c_idx + 1) * 12)
                         (vrt ++ onehot)) ;;
  Ok (Ltemp, sr + 1).

Definition create_zero_boundary_constrains (self : tess) : result matrix :=
  ' (nx', ny', nz') <- unpack3 (nc self) ;;
  let nx := Z.of_nat nx' in
  let ny := Z.of_nat ny' in
  let nz := Z.of_nat nz' in
  let Ltemp :=
    zeros2 (2 * ((nx' + 1) * (ny' + 1) + (nx' + 1) * (nz' + 1)
                 + (ny' + 1) * (nz' + 1)))
           (n_params self * nC self) in
  let zrange n := map Z.of_nat (range (n + 1)) in
  (* xy-plane *)
  st <- for_each [0; nz - 1]%Z
    (fun i => for_each (zrange ny')
       (fun j => for_each (zrange nx')
          (fun k st =>
             let c_idx := (6 * (nx * ny * i + nx * Z.min j (ny - 1)
                                + Z.min k (nx - 1)))%Z in
             let c_idx := (c_idx + (if i =? 0 then 2 else 3))%Z in
             a <- truediv k nx ;;
             b <- truediv j ny ;;
             c <- truediv i (nz - 1) ;;
             put_row c_idx [a; b; c] [0%Q; 0%Q; 1%Q] st)))
    (Ltemp, 0) ;;
  (* xz-plane *)
  st <- for_each [0; ny - 1]%Z
    (fun j => for_each (zrange nz')
       (fun i => for_each (zrange nx')
          (fun k st =>
             let c_idx := (6 * (nx * ny * Z.min i (nz - 1) + nx * j
                                + Z.min k (nx - 1)))%Z in
             let c_idx := (c_idx + (if j =? 0 then 1 else 4))%Z in
             a <- truediv k nx ;;
             b <- truediv j (ny - 1) ;;
             c <- truediv i nz ;;
             put_row c_idx [a; b; c] [0%Q; 1%Q; 0%Q] st)))
    st ;;
  (* yz-plane *)
  st <- for_each [0; nx - 1]%Z
    (fun k => for_each (zrange nz')
       (fun i => for_each (zrange ny')
          (fun j st =>
             let c_idx := (6 * (nx * ny * Z.min i (nz - 1)
                                + nx * Z.min j (ny - 1) + k))%Z in
             let c_idx := (c_idx + (if k =? 0 then 0 else 5))%Z in
             a <- truediv k (nx - 1) ;;
             b <- truediv j ny ;;
             c <- truediv i nz ;;
             put_row c_idx [a; b; c] [1%Q; 0%Q; 0%Q] st)))
    st ;;
  Ok (fst st).

Definition impl : methods :=
  Methods find_verts find_verts_outside create_continuity_constrains
          create_zero_boundary_constrains.

Definition init (c : list nat) (dmin dmax : list Q) (zb vp : bool)
  : result tess :=
  let self := set_dims new_object 12 (6 * prod c) 3 in
  Tesselation.init impl self c dmin dmax zb vp.

End Tesselation3D.

(** ** Specification of the pairwise scans

    Both [find_shared_verts] and [find_verts_outside] scan all ordered pairs
    and record [(i, j)] when a test holds and [(j, i)] is not yet recorded.
    [scan_step] is one pass of such a scan without its look-ups, and
    [scan_pairs] the list of pairs it is meant to record: those with
    [i <= j] that pass the test, row by row. *)

Definition scan_step {X} (P : nat -> nat -> bool) (val : nat -> nat -> X)
  (i j : nat) (acc : list X * list (nat * nat)) : list X * list (nat * nat) :=
  if P i j && negb (pair_in (j, i) (snd acc))
  then (fst acc ++ [val i j], snd acc ++ [(i, j)])
  else acc.

Definition scan_body {X} (P : nat -> nat -> bool) (val : nat -> nat -> X)
  (i j : nat) (acc : list X * list (nat * nat))
  : result (list X * list (nat * nat)) :=
  Ok (scan_step P val i j acc).

Definition scan_row (n : nat) (P : nat -> nat -> bool) (i : nat)
  : list (nat * nat) :=
  map (pair i) (filter (fun j => (i <=? j) && P i j) (range n)).

Definition scan_pairs (n : nat) (P : nat -> nat -> bool) : list (nat * nat) :=
  flat_map (scan_row n P) (range n).

(** The simplex of index [i], the vertices two simplices share, and the test
    of [find_shared_verts]. *)
Definition simplex_at (self : tess) (i : nat) : simplex :=
  nth i (verts self) [].

Definition shares (self : tess) (i j : nat) : list vertex :=
  intersection (simplex_at self i) (simplex_at self j).

Definition is_facet (self : tess) (i j : nat) : bool :=
  length (shares self i j) =? ndim self.

(** The vertices of a list are pairwise different. *)
Fixpoint distinct (s : list vertex) : Prop :=
  match s with
  | [] => True
  | v :: s' => vmem v s' = false /\ distinct s'
  end.

(** ** Shapes *)

(** A matrix of [W] columns all of whose rows have [W] entries. *)
Definition shaped (W : nat) (M : matrix) : Prop :=
  ncols M = W /\ Forall (fun r => length r = W) (rows M).

(** The breakpoint of index [i] among the [n + 1] of an axis. *)
Definition breakpoint (a b : Q) (n i : nat) : Q :=
  nth i (linspace a b (n + 1)) 0%Q.

(** The simplices and the multi-indices [find_verts] lists in 1D. *)
Definition interval (a b : Q) (n i : nat) : simplex :=
  [[breakpoint a b n i; 1%Q]; [breakpoint a b n (i + 1); 1%Q]].

Definition intervals (a b : Q) (n : nat) : list simplex :=
  map (interval a b n) (range n).

(** The state a constructor hands to [find_verts]. *)
Definition configured (np k d : nat) (c : list nat) (dmin dmax : list Q)
  (zb vp : bool) : tess :=
  set_params (set_dims new_object np k d) c dmin dmax zb vp.

(** ** Rows as the specification words them *)

(** Equality of two rows, entry by entry. *)
Definition row_eqb (r1 r2 : row) : bool := vertex_eqb r1 r2.

(** The zero-boundary row of simplex [c], vertex [v] and axis [a] in 2D:
    [v] in the columns [6c + 3a .. 6c + 3(a+1)) of a row of [6 * k] zeros. *)
Definition boundary_row (k c a : nat) (v : vertex) : row :=
  map (fun col =>
         if (6 * c + 3 * a <=? col) && (col <? 6 * c + 3 * (a + 1))
         then nth (col - (6 * c + 3 * a)) v 0%Q
         else 0%Q)
      (range (6 * k)).


(** The continuity row of the pair [(i, j)], the shared vertex [v] and the
    output dimension [k], in a matrix of [W] columns with [np] parameters per
    simplex and vertices of [d1] coordinates: [v] in the columns
    [np * i + k * d1 .. np * i + (k + 1) * d1), [-v] in the same columns of
    simplex [j], zero elsewhere. *)
Definition cont_row (np d1 W i j k : nat) (v : vertex) : row :=
  map (fun c =>
         let bi := np * i + k * d1 in
         let bj := np * j + k * d1 in
         if (bj <=? c) && (c <? bj + d1) then (- nth (c - bj) v 0%Q)%Q
         else if (bi <=? c) && (c <? bi + d1) then nth (c - bi) v 0%Q
         else 0%Q)
      (range W).

(** The rows of one pair: for each shared vertex, one row per output
    dimension. *)
Definition cont_block (nd np W : nat) (ij : nat * nat) (V : list vertex)
  : list row :=
  flat_map (fun v => map (fun k => cont_row np (nd + 1) W (fst ij) (snd ij) k v)
                         (range nd))
           V.

(** The continuity block: the rows of the recorded pairs, in their order. *)
Definition cont_rows (nd np W : nat) (idx : list (nat * nat))
  (sv : list (list vertex)) : list row :=
  flat_map (fun p => cont_block nd np W (fst p) (snd p)) (combine idx sv).

(** How many rows of [rs] equal [r]. *)
Definition count_rows (r : row) (rs : list row) : nat :=
  length (filter (row_eqb r) rs).

Fixpoint distinctb (s : list vertex) : bool :=
  match s with
  | [] => true
  | v :: s' => negb (vmem v s') && distinctb s'
  end.

Fixpoint nodupb (l : list (nat * nat)) : bool :=
  match l with
  | [] => true
  | p :: l' => negb (pair_in p l') && nodupb l'
  end.

(** The adjacency data a valid configuration leaves behind, for simplices
    with [nd] shared vertices of [d1] homogeneous coordinates: one vertex set
    per pair, pairs [(i, j)] with [i < j < nC] and without repetition, vertex
    sets of [nd] different vertices that end in 1. *)
Definition adjacency_ok (nd d1 : nat) (self : tess) : bool :=
  (length (shared_v self) =? length (shared_v_idx self))
  && forallb (fun p => (fst p <? snd p) && (snd p <? nC self))
             (shared_v_idx self)
  && nodupb (shared_v_idx self)
  && forallb (fun V => (length V =? nd) && distinctb V
                       && forallb (fun v : vertex =>
                                     (length v =? d1)
                                     && Qeq_bool (nth (d1 - 1) v 0%Q) 1)
                                  V)
             (shared_v self).

(** ** Virtual boundary pairs as the specification words them *)

Inductive edge : Type := LeftEdge | RightEdge | TopEdge | BottomEdge.

Definition edges : list edge := [LeftEdge; RightEdge; TopEdge; BottomEdge].

(** The multi-index of simplex [i] and its column, row and sub-triangle. *)
Definition cell_at (self : tess) (i : nat) : list nat :=
  nth i (cells self) [].

Definition col (m : list nat) : nat := nth 0 m 0.
Definition row_of (m : list nat) : nat := nth 1 m 0.
Definition sub (m : list nat) : nat := nth 2 m 0.

(** Two triangles lie on the external edge [e] of a grid with cell counts
    [c], in neighbouring cells: leftmost column and sub-triangle 3, rightmost
    column and sub-triangle 1, top row and sub-triangle 0, or bottom row and
    sub-triangle 2, the other cell index differing by exactly one. *)
Definition on_edge (c : list nat) (e : edge) (mi mj : list nat) : bool :=
  match e with
  | LeftEdge =>
      (col mi =? 0) && (col mj =? 0) && (sub mi =? 3) && (sub mj =? 3)
      && adjacent (row_of mi) (row_of mj)
  | RightEdge =>
      (col mi + 1 =? nth 0 c 0) && (col mj + 1 =? nth 0 c 0)
      && (sub mi =? 1) && (sub mj =? 1)
      && adjacent (row_of mi) (row_of mj)
  | TopEdge =>
      (row_of mi =? 0) && (row_of mj =? 0) && (sub mi =? 0) && (sub mj =? 0)
      && adjacent (col mi) (col mj)
  | BottomEdge =>
      (row_of mi + 1 =? nth 1 c 0) && (row_of mj + 1 =? nth 1 c 0)
      && (sub mi =? 2) && (sub mj =? 2)
      && adjacent (col mi) (col mj)
  end.

(** The axis perpendicular to an edge. *)
Definition edge_axis (e : edge) : nat :=
  match e with
  | LeftEdge | RightEdge => 0
  | TopEdge | BottomEdge => 1
  end.

(** The ghost of [v]: [v] moved by the constant -10 along axis [a]. *)
Definition ghost (v : vertex) (a : nat) : vertex :=
  firstn a v ++ (nth a v 0 - 10)%Q :: skipn (S a) v.

Definition on_some_edge (self : tess) (i j : nat) : bool :=
  existsb (fun e => on_edge (nc self) e (cell_at self i) (cell_at self j))
          edges.

(** The test of [find_verts_outside] and the vertex set it records. *)
Definition is_virtual (self : tess) (i j : nat) : bool :=
  (length (shares self i j) =? 1) && on_some_edge self i j.

Definition virtual_set (self : tess) (i j : nat) : list vertex :=
  let v := nth 0 (shares self i j) [] in
  let mi := cell_at self i in
  let mj := cell_at self j in
  [v; ghost v (if on_edge (nc self) LeftEdge mi mj
                  || on_edge (nc self) RightEdge mi mj then 0 else 1)].

(** The tables [find_verts] leaves in two dimensions: one simplex and one
    multi-index of three entries per simplex number, at least two cell
    counts, vertices of at least two coordinates. *)
Definition tables_ok (self : tess) : bool :=
  (nC self =? length (verts self))
  && (nC self =? length (cells self))
  && (2 <=? length (nc self))
  && forallb (fun m => length m =? 3) (cells self)
  && forallb (forallb (fun v : vertex => 2 <=? length v)) (verts self).

(** ** Objects of small configurations *)

Definition value_of (r : result tess) : tess :=
  match r with
  | Ok s => s
  | Raise _ => new_object
  end.

(** The 2D object over one cell of the unit square, after [find_verts]. *)
Definition one_cell_2D : tess :=
  value_of (Tesselation2D.find_verts
              (configured 6 4 2 [1; 1] [0%Q; 0%Q] [1%Q; 1%Q] true false)).

(** The 2D object over 2 x 2 cells of the unit square, zero boundary
    switched off, after [find_shared_verts] and after
    [find_verts_outside]. *)
Definition grid22_shared : tess :=
  value_of (s <- Tesselation2D.find_verts
                   (configured 6 16 2 [2; 2] [0%Q; 0%Q] [1%Q; 1%Q]
                      false true) ;;
            Tesselation.find_shared_verts s).

Definition grid22_outside : tess :=
  value_of (Tesselation2D.find_verts_outside grid22_shared).

(** The 3D object over one box of the unit cube, after
    [find_shared_verts]. *)
Definition one_box_3D : tess :=
  value_of (s <- Tesselation3D.find_verts
                   (configured 12 6 3 [1; 1; 1] [0%Q; 0%Q; 0%Q]
                      [1%Q; 1%Q; 1%Q] true false) ;;
            Tesselation.find_shared_verts s).

(** ** The tables of the grid decomposer in closed form *)

(** The four triangles of the cell in row [i] and column [j], over the
    breakpoints of the two axes, and their multi-indices. *)
Definition triangles (a0 b0 : Q) (n0 : nat) (a1 b1 : Q) (n1 : nat)
  (i j : nat) : list simplex :=
  let xj := breakpoint a0 b0 n0 j in
  let xj1 := breakpoint a0 b0 n0 (j + 1) in
  let yi := breakpoint a1 b1 n1 i in
  let yi1 := breakpoint a1 b1 n1 (i + 1) in
  let ul := [xj; yi; 1%Q] in
  let ur := [xj1; yi; 1%Q] in
  let ll := [xj; yi1; 1%Q] in
  let lr := [xj1; yi1; 1%Q] in
  let center := [((xj + xj1) / 2)%Q; ((yi + yi1) / 2)%Q; 1%Q] in
  [[center; ul; ur]; [center; ur; lr]; [center; lr; ll]; [center; ll; ul]].

Definition triangle_cells (i j : nat) : list (list nat) :=
  [[j; i; 0]; [j; i; 1]; [j; i; 2]; [j; i; 3]].

Definition grid_verts (a0 b0 : Q) (n0 : nat) (a1 b1 : Q) (n1 : nat)
  : list simplex :=
  flat_map (fun i => flat_map (triangles a0 b0 n0 a1 b1 n1 i) (range n0))
           (range n1).

Definition grid_cells (n0 n1 : nat) : list (list nat) :=
  flat_map (fun i => flat_map (triangle_cells i) (range n0)) (range n1).

(** The six simplices of the box in layer [i], row [j] and column [k]; the
    layers are cut at breakpoints of the second axis, as [find_verts] in 3D
    has it. *)
Definition box_simplices (a0 b0 : Q) (n0 : nat) (a1 b1 : Q) (n1 : nat)
  (i j k : nat) : list simplex :=
  let xk := breakpoint a0 b0 n0 k in
  let xk1 := breakpoint a0 b0 n0 (k + 1) in
  let yj := breakpoint a1 b1 n1 j in
  let yj1 := breakpoint a1 b1 n1 (j + 1) in
  let zi := breakpoint a1 b1 n1 i in
  let zi1 := breakpoint a1 b1 n1 (i + 1) in
  let cnt := [((xk + xk1) / 2)%Q; ((yj + yj1) / 2)%Q; ((zi + zi1) / 2)%Q;
              1%Q] in
  let lnl := [xk; yj; zi; 1%Q] in
  let lnu := [xk; yj; zi1; 1%Q] in
  let lfl := [xk; yj1; zi; 1%Q] in
  let lfu := [xk; yj1; zi1; 1%Q] in
  let rnl := [xk1; yj; zi; 1%Q] in
  let rnu := [xk1; yj; zi1; 1%Q] in
  let rfl := [xk1; yj1; zi; 1%Q] in
  let rfu := [xk1; yj1; zi1; 1%Q] in
  [[cnt; lnl; lnu; lfl; lfu]; [cnt; lnl; lnu; rnl; rnu];
   [cnt; lnl; lfl; rnl; rnu]; [cnt; rnl; rnu; rfl; rfu];
   [cnt; lfl; lfu; rfl; rfu]; [cnt; lnu; lfu; rnu; rfu]].

Definition box_cells (i j k : nat) : list (list nat) :=
  [[k; j; i; 0]; [k; j; i; 1]; [k; j; i; 2];
   [k; j; i; 3]; [k; j; i; 4]; [k; j; i; 5]].

Definition box_verts (a0 b0 : Q) (n0 : nat) (a1 b1 : Q) (n1 n2 : nat)
  : list simplex :=
  flat_map (fun i =>
    flat_map (fun j =>
      flat_map (box_simplices a0 b0 n0 a1 b1 n1 i j) (range n0))
      (range n1))
    (range n2).

Definition box_table (n0 n1 n2 : nat) : list (list nat) :=
  flat_map (fun i =>
    flat_map (fun j => flat_map (box_cells i j) (range n0)) (range n1))
    (range n2).


(** ** The accessors of the base class *)

Definition get_constrain_matrix (self : tess) : matrix := L self.

(** [np.mean] of the entries [xs]. *)
Definition mean (xs : list Q) : Q :=
  (fold_left Qplus xs 0 / inject_Z (Z.of_nat (length xs)))%Q.

(** [np.asarray] of the table has three axes: there is a simplex, every
    simplex has as many vertices as the first, at least one, and every
    vertex as many coordinates as the first.  [find_verts] builds such
    tables or the empty one; any other table becomes an array of objects
    with fewer axes. *)
Definition regular (vs : list simplex) : bool :=
  match vs with
  | ((v0 :: _) as s0) :: _ =>
      forallb (fun s : simplex =>
                 (length s =? length s0)
                 && forallb (fun v : vertex => length v =? length v0) s)
              vs
  | _ => false
  end.

(** [np.mean(self.verts[:, :, :self.ndim], axis=1)]: indexing an array of
    fewer than three axes with three indices raises. *)
Definition get_cell_centers (self : tess) : result (list (list Q)) :=
  if regular (verts self)
  then
    let d1 := length (hd [] (hd [] (verts self))) in
    Ok (map (fun s : simplex =>
               map (fun k => mean (map (fun v : vertex => nth k v 0%Q) s))
                   (range (Nat.min (ndim self) d1)))
            (verts self))
  else Raise IndexError.

(** ** The constraint matrix applied to a parameter vector *)

(** The product of the row [r] with the entries of [theta] from index [k]
    on. *)
Fixpoint dot_from (k : nat) (r : row) (theta : list Q) : Q :=
  match r with
  | [] => 0%Q
  | x :: r' => (x * nth k theta 0 + dot_from (S k) r' theta)%Q
  end.

Definition dot (r : row) (theta : list Q) : Q := dot_from 0 r theta.

(** [theta] satisfies every constraint of [M]: [M @ theta] is zero. *)
Definition in_kernel (M : matrix) (theta : list Q) : Prop :=
  Forall (fun r => (dot r theta == 0)%Q) (rows M).

(** The velocity at [x] of the affine map that [theta] holds for the
    interval [c] in 1D: the entries [2c] and [2c + 1] applied to [(x, 1)]. *)
Definition velocity1D (theta : list Q) (c : nat) (x : Q) : Q :=
  (nth (2 * c) theta 0 * x + nth (2 * c + 1) theta 0)%Q.

(** The component [k] of the velocity at the vertex [v] under the affine
    map that [theta] holds for the triangle [c] in 2D: the entries
    [6c + 3k ..] applied to the homogeneous vertex. *)
Definition velocity2D (theta : list Q) (c k : nat) (v : vertex) : Q :=
  dot_from (6 * c + 3 * k) v theta.

(** Column [col] lies on the diagonal of the linear part of the block of
    simplex [c]. *)
Definition on_diagonal (np d c col : nat) : bool :=
  existsb (fun r => col =? np * c + r * (d + 1) + r) (range d).


(** ** The 2D grid in closed form *)

(** The number of the triangle [t] of the cell in row [r] and column [c],
    for [n0] cells per row. *)
Definition triangle_number (n0 r c t : nat) : nat := 4 * (r * n0 + c) + t.

(** Two triangles of the grid, given by row, column and sub-triangle, have
    an edge in common: neighbours within one cell, or the two triangles on
    either side of the border between two neighbouring cells. *)
Definition neighbour (r c t r' c' t' : nat) : bool :=
  ((r =? r') && (c =? c')
   && ((t' =? (t + 1) mod 4) || (t =? (t' + 1) mod 4)))
  || ((r =? r') && (c + 1 =? c') && (t =? 1) && (t' =? 3))
  || ((r =? r') && (c =? c' + 1) && (t =? 3) && (t' =? 1))
  || ((c =? c') && (r + 1 =? r') && (t =? 2) && (t' =? 0))
  || ((c =? c') && (r =? r' + 1) && (t =? 0) && (t' =? 2)).

(** The numbers of the neighbours of triangle [(r, c, t)] that come after
    it, on a grid of [n0 x n1] cells. *)
Definition later_neighbours (n0 n1 r c t : nat) : list nat :=
  let I := triangle_number n0 r c t in
  match t with
  | 0 => [I + 1; I + 3]
  | 1 => (I + 1) :: (if c + 1 <? n0 then [I + 6] else [])
  | 2 => (I + 1) :: (if r + 1 <? n1 then [I + 4 * n0 - 2] else [])
  | _ => []
  end.

(** Two triangles of the grid lie next to each other along one of its four
    outer edges: the same sub-triangle of two cells of the left or right
    column in neighbouring rows, or of the top or bottom row in
    neighbouring columns. *)
Definition edge_neighbour (n0 n1 r c t r' c' t' : nat) : bool :=
  ((c =? 0) && (c' =? 0) && (t =? 3) && (t' =? 3) && adjacent r r')
  || ((c + 1 =? n0) && (c' + 1 =? n0) && (t =? 1) && (t' =? 1)
      && adjacent r r')
  || ((r =? 0) && (r' =? 0) && (t =? 0) && (t' =? 0) && adjacent c c')
  || ((r + 1 =? n1) && (r' + 1 =? n1) && (t =? 2) && (t' =? 2)
      && adjacent c c').

(** The triangles after [(r, c, t)] that [find_verts_outside] pairs with
    it: the next one along the outer edge that the triangle lies on. *)
Definition later_virtual (n0 n1 r c t : nat) : list nat :=
  let I := triangle_number n0 r c t in
  match t with
  | 0 => if (r =? 0) && (c + 1 <? n0) then [I + 4] else []
  | 1 => if (c + 1 =? n0) && (r + 1 <? n1) then [I + 4 * n0] else []
  | 2 => if (r + 1 =? n1) && (c + 1 <? n0) then [I + 4] else []
  | _ => if (c =? 0) && (r + 1 <? n1) then [I + 4 * n0] else []
  end.

(** How many rows [boundary_step] adds for the vertex [v]: one if its
    first coordinate is a bound of the first axis, one if its second
    coordinate is a bound of the second. *)
Definition boundary_hits (xmin ymin xmax ymax : Q) (v : vertex) : nat :=
  (if Qeq_bool (nth 0 v 0%Q) xmin || Qeq_bool (nth 0 v 0%Q) xmax
   then 1 else 0)
  + (if Qeq_bool (nth 1 v 0%Q) ymin || Qeq_bool (nth 1 v 0%Q) ymax
     then 1 else 0).


(** ** Alignment by sampling ([libcpab/alignment.py])

    The aligner drives a transformation object [T] of the class [Cpab] and
    the functions of its backend, which live in other modules.  What it
    needs of them is the interface [Cpab] below: each operation returns or
    raises; [sample_transformation] draws from a random source, whose
    state [rng] it takes and hands back.  The progress bar and the printed
    acceptance ratio are not modelled, the division that computes the
    ratio is. *)

Module CpabAligner.

(** What ends a call early: a failed [assert], an exception of the
    aligner's own indexing and arithmetic, or an exception [f] out of
    the transformation object or the backend. *)
Inductive failure (F : Type) : Type :=
| AssertionError
| Python (e : exn)
| External (f : F).

Arguments AssertionError {F}.
Arguments Python {F} e.
Arguments External {F} f.

Inductive outcome (F A : Type) : Type :=
| Returns (a : A)
| Fails (f : failure F).

Arguments Returns {F A} a.
Arguments Fails {F A} f.

Definition then_ {F A B} (m : outcome F A) (k : A -> outcome F B)
  : outcome F B :=
  match m with
  | Returns a => k a
  | Fails f => Fails f
  end.

(** A call into the transformation object or the backend. *)
Definition call {F A} (r : F + A) : outcome F A :=
  match r with
  | inl f => Fails (External f)
  | inr a => Returns a
  end.

(** An indexing or a division of the aligner itself. *)
Definition own {F A} (r : result A) : outcome F A :=
  match r with
  | Ok a => Returns a
  | Raise e => Fails (Python e)
  end.

(** The transformation object [self.T] with the backend [self.backend]:
    arrays of type [data], parameter vectors of type [params]. *)
Record Cpab (data params rng F : Type) : Type := {
  _check_type : data -> F + unit;
  shape : data -> list nat;
  minus : data -> data -> F + data;
  identity : nat -> F + params;
  flatten : params -> params;
  sample_transformation : rng -> nat -> params -> F + params * rng;
  transform_data : data -> params -> nat * nat -> F + data;
  norm : data -> F + Q
}.

(** The state of the sampling loop: [current_sample], [current_error],
    [accept_ratio] and the random source. *)
Definition state (params rng : Type) : Type := (params * Q * nat * rng)%type.

Section Sampling.

Context {data params rng F : Type}.
Variable T : Cpab data params rng F.

(** [new_error < current_error] *)
Definition less (x y : Q) : bool := negb (Qle_bool y x).

(** [(x2.shape[1], x2.shape[2])]: [self.backend] is a module, never equal
    to the string it is compared with, so this branch is always taken. *)
Definition outsize (x2 : data) : outcome F (nat * nat) :=
  then_ (own (getitem (shape T x2) 1)) (fun h =>
  then_ (own (getitem (shape T x2) 2)) (fun w =>
  Returns (h, w))).

(** The error of the sample [theta]: the norm of what is left between the
    transformed [x1] and [x2]. *)
Definition error_of (x1 x2 : data) (size : nat * nat) (theta : params)
  : outcome F Q :=
  then_ (call (transform_data T x1 theta size)) (fun x1_trans =>
  then_ (call (minus T x1_trans x2)) (fun d =>
  call (norm T d))).

Definition sampling_step (x1 x2 : data) (size : nat * nat) (st : state params rng)
  : outcome F (state params rng) :=
  let '(current_sample, current_error, accept_ratio, g) := st in
  then_ (call (sample_transformation T g 1 (flatten T current_sample)))
    (fun tg =>
  let theta := fst tg in
  then_ (error_of x1 x2 size theta) (fun new_error =>
  if less new_error current_error
  then Returns (theta, new_error, accept_ratio + 1, snd tg)
  else Returns (current_sample, current_error, accept_ratio, snd tg))).

(** [for i in range(maxiter)], run [iterations] times: the body does not
    read [i]. *)
Fixpoint sampling_loop (x1 x2 : data) (size : nat * nat) (iterations : nat)
  (st : state params rng) : outcome F (state params rng) :=
  match iterations with
  | O => Returns st
  | S k => then_ (sampling_step x1 x2 size st)
                 (sampling_loop x1 x2 size k)
  end.

(** [accept_ratio / maxiter * 100] on two Python integers. *)
Definition ratio (accept_ratio : nat) (maxiter : Z) : result Q :=
  if (maxiter =? 0)%Z then Raise ZeroDivisionError
  else Ok (inject_Z (Z.of_nat accept_ratio) / inject_Z maxiter * 100)%Q.

(** [maxiter] is any Python integer: [range(maxiter)] has [maxiter]
    elements, none if [maxiter] is negative. *)
Definition alignment_by_sampling (x1 x2 : data) (maxiter : Z) (g : rng)
  : outcome F params :=
  then_ (call (_check_type T x1)) (fun _ =>
  then_ (call (_check_type T x2)) (fun _ =>
  if list_eq_dec Nat.eq_dec (shape T x1) (shape T x2)
  then
    then_ (outsize x2) (fun size =>
    then_ (call (identity T 1)) (fun current_sample =>
    then_ (call (minus T x1 x2)) (fun d =>
    then_ (call (norm T d)) (fun current_error =>
    then_ (sampling_loop x1 x2 size (Z.to_nat maxiter)
             (current_sample, current_error, 0, g)) (fun st =>
    let '(current_sample, _, accept_ratio, _) := st in
    then_ (own (ratio accept_ratio maxiter)) (fun _ =>
    Returns current_sample))))))
  else Fails AssertionError)).

(** What the loop keeps: the first sample with the first error, or a
    sample whose error is smaller than the first. *)
Definition improved (x1 x2 : data) (size : nat * nat) (theta0 : params)
  (e0 : Q) (st : state params rng) : Prop :=
  let '(cs, ce, acc, _) := st in
  (acc = 0 /\ cs = theta0 /\ ce = e0) \/
  (0 < acc /\ error_of x1 x2 size cs = Returns ce /\ (ce < e0)%Q).

End Sampling.

End CpabAligner.

(** A transformation object to run the aligner on: the data are single
    numbers of shape [(1, 1, 1)], the transformations are the translations
    [x + theta], the norm is the square, and the random source is a list
    of steps still to be drawn. *)
Definition translations : CpabAligner.Cpab Q Q (list Q) unit :=
  {| CpabAligner._check_type := fun _ => inr tt;
     CpabAligner.shape := fun _ => [1; 1; 1];
     CpabAligner.minus := fun x y => inr (x - y)%Q;
     CpabAligner.identity := fun _ => inr 0%Q;
     CpabAligner.flatten := fun theta => theta;
     CpabAligner.sample_transformation :=
       fun g _ mean => match g with
                       | [] => inl tt
                       | z :: g' => inr ((mean + z)%Q, g')
                       end;
     CpabAligner.transform_data := fun x theta _ => inr (x + theta)%Q;
     CpabAligner.norm := fun d => inr (d * d)%Q |}.



(** * Properties *)

(** ** The error monad and the loops *)

Lemma bind_Ok {A B} (m : result A) (f : A -> result B) (b : B) :
  bind m f = Ok b -> exists a, m = Ok a /\ f a = Ok b.
Proof.
  destruct m as [a|e]; simpl; intros H.
  - now exists a.
  - discriminate.
Qed.

Lemma bind_assoc {A B C} (m : result A) (f : A -> result B)
  (g : B -> result C) :
  bind (bind m f) g = (x <- m ;; bind (f x) g).
Proof. now destruct m. Qed.

Lemma bind_Raise {A B} (e : exn) (f : A -> result B) :
  bind (Raise e) f = Raise e.
Proof. reflexivity. Qed.

Lemma for_each_app {A S} (l1 l2 : list A) (body : A -> S -> result S) s :
  for_each (l1 ++ l2) body s = (s' <- for_each l1 body s ;; for_each l2 body s').
Proof.
  revert s; induction l1 as [|a l1 IH]; intros s; simpl.
  - reflexivity.
  - destruct (body a s) as [s'|e]; simpl; [apply IH | reflexivity].
Qed.

Lemma for_each_ext {A S} (l : list A) (f g : A -> S -> result S) :
  (forall a s, In a l -> f a s = g a s) ->
  forall s, for_each l f s = for_each l g s.
Proof.
  induction l as [|a l IH]; intros H s; simpl.
  - reflexivity.
  - rewrite (H a s) by now left.
    destruct (g a s) as [s'|e]; simpl; [|reflexivity].
    apply IH. intros b t Hb. apply H. now right.
Qed.

(** A loop whose body keeps an invariant and never raises ends in a state
    that satisfies the invariant. *)
Lemma for_each_inv {A S} (I : S -> Prop) (l : list A)
  (body : A -> S -> result S) :
  (forall a s, In a l -> I s -> exists s', body a s = Ok s' /\ I s') ->
  forall s, I s -> exists s', for_each l body s = Ok s' /\ I s'.
Proof.
  induction l as [|a l IH]; intros H s Hs; simpl.
  - now exists s.
  - destruct (H a s (or_introl eq_refl) Hs) as (s1 & E & H1).
    rewrite E; simpl. apply IH; [|exact H1].
    intros b t Hb. apply H. now right.
Qed.

(** A loop whose body appends to a pair of lists collects what each pass
    appends. *)
Definition app2 {X Y} (acc : list X * list Y) (d : list X * list Y) :=
  (fst acc ++ fst d, snd acc ++ snd d).

Definition flat2 {A X Y} (f : A -> list X * list Y) (l : list A) :=
  (flat_map (fun a => fst (f a)) l, flat_map (fun a => snd (f a)) l).

Lemma app2_nil {X Y} (acc : list X * list Y) : app2 acc ([], []) = acc.
Proof. destruct acc; unfold app2; simpl. now rewrite !app_nil_r. Qed.

Lemma app2_assoc {X Y} (a b c : list X * list Y) :
  app2 (app2 a b) c = app2 a (app2 b c).
Proof. unfold app2; simpl. now rewrite !app_assoc. Qed.

Lemma for_each_collect {A X Y} (l : list A)
  (body : A -> list X * list Y -> result (list X * list Y))
  (f : A -> list X * list Y) :
  (forall a acc, In a l -> body a acc = Ok (app2 acc (f a))) ->
  forall acc, for_each l body acc = Ok (app2 acc (flat2 f l)).
Proof.
  induction l as [|a l IH]; intros H acc; simpl.
  - unfold flat2; simpl. now rewrite app2_nil.
  - rewrite H by now left. simpl.
    rewrite IH by (intros; apply H; now right).
    rewrite app2_assoc. reflexivity.
Qed.

Lemma getitem_nth {A} (l : list A) (i : nat) (d : A) :
  i < length l -> getitem l i = Ok (nth i l d).
Proof.
  intros H. unfold getitem.
  rewrite (nth_error_nth' l d H). reflexivity.
Qed.

Lemma getitem_Ok {A} (l : list A) (i : nat) (a : A) :
  getitem l i = Ok a -> i < length l /\ forall d, nth i l d = a.
Proof.
  unfold getitem. destruct (nth_error l i) as [x|] eqn:E; [|discriminate].
  intros [= <-]. split.
  - apply nth_error_Some. congruence.
  - intros d. now apply nth_error_nth.
Qed.

Lemma getitem_out {A} (l : list A) (i : nat) :
  length l <= i -> getitem l i = Raise IndexError.
Proof.
  intros H. unfold getitem.
  now rewrite (proj2 (nth_error_None l i) H).
Qed.

(** ** Slices *)

Lemma zeros_length n : length (zeros n) = n.
Proof. apply repeat_length. Qed.

Lemma nth_zeros n c : nth c (zeros n) 0%Q = 0%Q.
Proof.
  unfold zeros. destruct (Nat.lt_ge_cases c n) as [H|H].
  - now rewrite nth_repeat_lt.
  - rewrite nth_overflow; [reflexivity | now rewrite repeat_length].
Qed.

Lemma set_slice_fits (r : row) (lo hi : nat) (vals : list Q) :
  hi = lo + length vals -> hi <= length r ->
  set_slice r lo hi vals = Ok (firstn lo r ++ vals ++ skipn hi r).
Proof.
  intros -> H. unfold set_slice.
  replace (Nat.min lo (length r)) with lo by lia.
  replace (Nat.max lo (Nat.min (lo + length vals) (length r)))
    with (lo + length vals) by lia.
  replace (lo + length vals - lo) with (length vals) by lia.
  now rewrite Nat.eqb_refl.
Qed.

Lemma splice_length (r : row) (lo : nat) (vals : list Q) :
  lo + length vals <= length r ->
  length (firstn lo r ++ vals ++ skipn (lo + length vals) r) = length r.
Proof.
  intros H. rewrite !length_app, length_firstn, length_skipn. lia.
Qed.

Lemma splice_nth (r : row) (lo : nat) (vals : list Q) (c : nat) :
  lo + length vals <= length r ->
  nth c (firstn lo r ++ vals ++ skipn (lo + length vals) r) 0%Q =
  if (lo <=? c) && (c <? lo + length vals) then nth (c - lo) vals 0%Q
  else nth c r 0%Q.
Proof.
  intros H.
  assert (Hf : length (firstn lo r) = lo) by (rewrite length_firstn; lia).
  destruct (Nat.leb_spec lo c) as [H1|H1]; simpl.
  - rewrite app_nth2 by lia. rewrite Hf.
    destruct (Nat.ltb_spec c (lo + length vals)) as [H2|H2].
    + rewrite app_nth1 by lia. reflexivity.
    + rewrite app_nth2 by lia. rewrite nth_skipn. f_equal. lia.
  - rewrite app_nth1 by lia. rewrite nth_firstn.
    destruct (Nat.ltb_spec c lo); [reflexivity | lia].
Qed.

(** A slice assignment that fails leaves no result: the values neither fit
    the slice nor are a single value. *)
Lemma set_slice_mismatch (r : row) (lo hi : nat) (vals : list Q) :
  lo <= hi -> hi <= length r -> length vals <> hi - lo -> length vals <> 1 ->
  set_slice r lo hi vals = Raise ValueError.
Proof.
  intros H1 H2 H3 H4. unfold set_slice.
  replace (Nat.min lo (length r)) with lo by lia.
  replace (Nat.max lo (Nat.min hi (length r))) with hi by lia.
  destruct (Nat.eqb_spec (length vals) (hi - lo)); [contradiction|].
  destruct vals as [|x [|y vals]]; simpl in *; try reflexivity. lia.
Qed.

(** ** The one-dimensional scenario *)


(** ** The zero-boundary rows in three dimensions *)

Lemma slice_bound_multiple (m : nat) (c : Z) :
  exists k, slice_bound (12 * m) (c * 12) = 12 * k /\ k <= m.
Proof.
  unfold slice_bound. destruct (Z.ltb_spec (c * 12) 0) as [H|H].
  - destruct (Z.max_spec 0 (c * 12 + Z.of_nat (12 * m))) as [[H1 ->]|[H1 ->]].
    + exists (Z.to_nat (c + Z.of_nat m)). lia.
    + exists 0. lia.
  - destruct (Nat.min_spec (Z.to_nat (c * 12)) (12 * m)) as [[H1 ->]|[H1 ->]].
    + exists (Z.to_nat c). lia.
    + exists m. lia.
Qed.

(** Six values do not fit a slice whose bounds are multiples of twelve in a
    row of [12 * m] entries. *)
Lemma set_slice_Z_six (r : row) (m : nat) (c : Z) (vals : list Q) :
  length r = 12 * m -> length vals = 6 ->
  set_slice_Z r (c * 12) ((c + 1) * 12) vals = Raise ValueError.
Proof.
  intros Hr Hv. unfold set_slice_Z. rewrite Hr.
  destruct (slice_bound_multiple m c) as (k1 & -> & Hk1).
  destruct (slice_bound_multiple m (c + 1)) as (k2 & -> & Hk2).
  unfold set_slice. rewrite Hr, Hv.
  destruct (Nat.eqb_spec 6
              (Nat.max (Nat.min (12 * k1) (12 * m))
                       (Nat.min (12 * k2) (12 * m))
               - Nat.min (12 * k1) (12 * m))) as [E|E].
  - exfalso. lia.
  - destruct vals as [|x [|y vals]]; simpl in Hv; try discriminate.
    reflexivity.
Qed.

Lemma put_row_raises (c_idx : Z) (a b c x y z : Q) (M : matrix) (sr m : nat) :
  Forall (fun r => length r = 12 * m) (rows M) ->
  is_ok (Tesselation3D.put_row c_idx [a; b; c] [x; y; z] (M, sr)) = false.
Proof.
  intros HM. unfold Tesselation3D.put_row, setitem_row; simpl.
  destruct (getitem (rows M) sr) as [r|e] eqn:E; simpl; [|reflexivity].
  apply getitem_Ok in E. destruct E as [Hlt Hn].
  assert (Hr : length r = 12 * m).
  { rewrite Forall_forall in HM. apply HM. rewrite <- (Hn []).
    now apply nth_In. }
  rewrite (set_slice_Z_six r m c_idx [a; b; c; x; y; z] Hr eq_refl).
  reflexivity.
Qed.

Lemma zeros2_rows_length (r c : nat) :
  Forall (fun x => length x = c) (rows (zeros2 r c)).
Proof.
  unfold zeros2; simpl. apply Forall_forall. intros x Hx.
  apply repeat_spec in Hx. subst. apply zeros_length.
Qed.

Lemma for_each_first_raises {A S} (a : A) (l : list A)
  (body : A -> S -> result S) (s : S) :
  is_ok (body a s) = false -> is_ok (for_each (a :: l) body s) = false.
Proof.
  simpl. destruct (body a s); simpl; [discriminate | reflexivity].
Qed.

Lemma bind_not_ok {A B} (m : result A) (f : A -> result B) :
  is_ok m = false -> is_ok (bind m f) = false.
Proof. destruct m; simpl; [discriminate | reflexivity]. Qed.

(** With twelve parameters per simplex the builder never returns: its first
    pass through the loop of the xy-plane already raises. *)
Lemma zero_boundary3D_never_ok (self : tess) :
  n_params self = 12 ->
  is_ok (Tesselation3D.create_zero_boundary_constrains self) = false.
Proof.
  intros Hp. unfold Tesselation3D.create_zero_boundary_constrains.
  destruct (Tesselation3D.unpack3 (nc self)) as [[[nx ny] nz]|e];
    [|reflexivity].
  unfold bind at 1. cbv beta iota zeta.
  apply bind_not_ok.
  apply for_each_first_raises.
  unfold range. rewrite (Nat.add_1_r ny). cbn [seq map].
  apply for_each_first_raises.
  rewrite (Nat.add_1_r nx). cbn [seq map].
  apply for_each_first_raises.
  unfold Tesselation3D.truediv.
  destruct (Z.of_nat 0 =? 0)%Z eqn:E0; [|discriminate].
  destruct (Z.of_nat nx =? 0)%Z; [reflexivity|]. unfold bind at 1.
  destruct (Z.of_nat ny =? 0)%Z; [reflexivity|]. unfold bind at 1.
  destruct (Z.of_nat nz - 1 =? 0)%Z; [reflexivity|]. unfold bind at 1.
  apply put_row_raises with (m := nC self).
  rewrite Hp. apply zeros2_rows_length.
Qed.

(** The steps of the pipeline leave the dimensions of the object alone. *)
Lemma find_shared_verts_dims (self s : tess) :
  Tesselation.find_shared_verts self = Ok s ->
  n_params s = n_params self /\ nC s = nC self /\ ndim s = ndim self /\
  verts s = verts self /\ cells s = cells self /\ nc s = nc self /\
  domain_min s = domain_min self /\ domain_max s = domain_max self.
Proof.
  unfold Tesselation.find_shared_verts. intros H.
  apply bind_Ok in H. destruct H as ([sv si] & _ & [= <-]).
  repeat split.
Qed.

Lemma find_verts3D_dims (self s : tess) :
  Tesselation3D.find_verts self = Ok s ->
  n_params s = n_params self /\ nC s = nC self /\ ndim s = ndim self.
Proof.
  unfold Tesselation3D.find_verts. intros H.
  repeat (apply bind_Ok in H; destruct H as (? & _ & H)).
  match type of H with context [match ?p with _ => _ end] => destruct p end.
  injection H as <-. repeat split.
Qed.

(** Whatever the cell counts and the domain, the 3D constructor raises. *)
Lemma Tesselation3D_init_never_ok c dmin dmax zb vp :
  is_ok (Tesselation3D.init c dmin dmax zb vp) = false.
Proof.
  unfold Tesselation3D.init, Tesselation.init.
  cbv zeta. unfold find_verts at 1, Tesselation3D.impl at 1.
  destruct (Tesselation3D.find_verts _) as [s1|] eqn:E1; [|reflexivity].
  unfold bind at 1.
  destruct (Tesselation.find_shared_verts s1) as [s2|] eqn:E2; [|reflexivity].
  unfold bind at 1.
  apply find_verts3D_dims in E1. apply find_shared_verts_dims in E2.
  destruct zb.
  - cbn [negb bind].
    destruct (create_continuity_constrains Tesselation3D.impl s2) as [M|];
      [|reflexivity].
    cbn [bind]. apply bind_not_ok. apply bind_not_ok.
    cbn [create_zero_boundary_constrains Tesselation3D.impl].
    apply zero_boundary3D_never_ok.
    destruct E1 as (E1 & _), E2 as (E2 & _).
    change (n_params s2 = 12). now rewrite E2, E1.
  - reflexivity.
Qed.


(** ** Equality of vertices *)

Lemma vertex_eqb_refl v : vertex_eqb v v = true.
Proof.
  induction v as [|x v IH]; simpl; [reflexivity|].
  now rewrite Qeq_bool_refl, IH.
Qed.

Lemma vertex_eqb_sym v w : vertex_eqb v w = vertex_eqb w v.
Proof.
  revert w; induction v as [|x v IH]; intros [|y w]; simpl; try reflexivity.
  rewrite IH. f_equal.
  destruct (Qeq_bool x y) eqn:E1, (Qeq_bool y x) eqn:E2; try reflexivity.
  - apply Qeq_bool_sym in E1. congruence.
  - apply Qeq_bool_sym in E2. congruence.
Qed.

Lemma vertex_eqb_trans u v w :
  vertex_eqb u v = true -> vertex_eqb v w = true -> vertex_eqb u w = true.
Proof.
  revert v w; induction u as [|x u IH]; intros [|y v] [|z w]; simpl;
    try discriminate; try reflexivity.
  rewrite !andb_true_iff. intros [H1 H2] [H3 H4]. split.
  - eapply Qeq_bool_trans; eassumption.
  - eapply IH; eassumption.
Qed.

Lemma vertex_eqb_length v w : vertex_eqb v w = true -> length v = length w.
Proof.
  revert w; induction v as [|x v IH]; intros [|y w]; simpl;
    try discriminate; try reflexivity.
  rewrite andb_true_iff. intros [_ H]. f_equal. now apply IH.
Qed.

Lemma vmem_In v s : In v s -> vmem v s = true.
Proof.
  intros H. apply existsb_exists. exists v. split; [exact H|].
  apply vertex_eqb_refl.
Qed.

Lemma vmem_eqv v w s :
  vertex_eqb v w = true -> vmem v s = vmem w s.
Proof.
  intros H. unfold vmem.
  induction s as [|x s IH]; simpl; [reflexivity|]. rewrite IH. f_equal.
  destruct (vertex_eqb v x) eqn:E1, (vertex_eqb w x) eqn:E2; try reflexivity.
  - rewrite vertex_eqb_sym in H.
    now rewrite (vertex_eqb_trans _ _ _ H E1) in E2.
  - now rewrite (vertex_eqb_trans _ _ _ H E2) in E1.
Qed.

Lemma vset_incl s v : In v (vset s) -> In v s.
Proof.
  revert v; induction s as [|x s IH]; simpl; intros v H; [exact H|].
  destruct H as [H|H]; [now left|]. right. apply IH.
  now apply filter_In in H.
Qed.

(** Every vertex of [s] has an equal one in [set(s)]. *)
Lemma vset_complete s v : vmem v s = true -> vmem v (vset s) = true.
Proof.
  induction s as [|x s IH]; simpl; [trivial|].
  destruct (vertex_eqb v x) eqn:E; simpl; [trivial|]. intros H.
  specialize (IH H). unfold vmem in *.
  apply existsb_exists in IH. destruct IH as (w & Hw & Hvw).
  apply existsb_exists. exists w. split; [|exact Hvw].
  apply filter_In. split; [exact Hw|].
  destruct (vertex_eqb x w) eqn:E2; [|reflexivity].
  rewrite vertex_eqb_sym in E2.
  now rewrite (vertex_eqb_trans _ _ _ Hvw E2) in E.
Qed.

Lemma distinct_filter f s : distinct s -> distinct (filter f s).
Proof.
  induction s as [|x s IH]; simpl; [trivial|]. intros [H1 H2].
  assert (Hm : vmem x (filter f s) = false).
  { apply not_true_iff_false. intros H. apply not_true_iff_false in H1.
    apply H1. unfold vmem in *. apply existsb_exists in H.
    destruct H as (w & Hw & E). apply existsb_exists. exists w.
    split; [|exact E]. now apply filter_In in Hw. }
  destruct (f x); simpl; auto.
Qed.

Lemma vset_distinct s : distinct (vset s).
Proof.
  induction s as [|x s IH]; simpl; [trivial|]. split.
  - apply not_true_iff_false. intros H. unfold vmem in H.
    apply existsb_exists in H. destruct H as (w & Hw & E).
    apply filter_In in Hw. destruct Hw as [_ Hw]. now rewrite E in Hw.
  - now apply distinct_filter.
Qed.

(** A list of pairwise different vertices, each equal to some vertex of a
    second list, is not longer than the second list. *)
Lemma distinct_length_le s t :
  distinct s -> (forall v, In v s -> vmem v t = true) ->
  length s <= length t.
Proof.
  revert t; induction s as [|x s IH]; simpl; intros t Hd H; [lia|].
  destruct Hd as [Hx Hd].
  pose (t' := filter (fun w => negb (vertex_eqb x w)) t).
  assert (Hlt : length t' < length t).
  { specialize (H x (or_introl eq_refl)). unfold vmem in H.
    apply existsb_exists in H. destruct H as (w & Hw & E).
    subst t'. clear -Hw E. induction t as [|y t IHt]; simpl in *; [easy|].
    destruct Hw as [->|Hw].
    - rewrite E; simpl. pose proof (filter_length_le (fun w => negb (vertex_eqb x w)) t). lia.
    - specialize (IHt Hw). destruct (negb (vertex_eqb x y)); simpl; lia. }
  assert (Hle : length s <= length t').
  { apply IH; [exact Hd|]. intros v Hv.
    specialize (H v (or_intror Hv)). unfold vmem in *.
    apply existsb_exists in H. destruct H as (w & Hw & E).
    apply existsb_exists. exists w. split; [|exact E].
    apply filter_In. split; [exact Hw|].
    destruct (vertex_eqb x w) eqn:E2; [|reflexivity].
    rewrite vertex_eqb_sym in E.
    assert (Hxv : vertex_eqb x v = true)
      by (eapply vertex_eqb_trans; eassumption).
    apply not_true_iff_false in Hx. exfalso. apply Hx.
    apply existsb_exists. exists v. auto. }
  lia.
Qed.

Lemma intersection_distinct a b : distinct (intersection a b).
Proof. apply distinct_filter, vset_distinct. Qed.

Lemma intersection_In a b v :
  In v (intersection a b) -> In v a /\ vmem v b = true.
Proof.
  unfold intersection. intros H. apply filter_In in H.
  destruct H as [H1 H2]. split; [now apply vset_incl | exact H2].
Qed.

Lemma intersection_length_le a b :
  length (intersection a b) <= length (intersection b a).
Proof.
  apply distinct_length_le; [apply intersection_distinct|].
  intros v Hv. apply intersection_In in Hv. destruct Hv as [Ha Hb].
  apply vset_complete in Hb. unfold vmem in Hb.
  apply existsb_exists in Hb. destruct Hb as (w & Hw & E).
  apply existsb_exists. exists w. split; [|exact E].
  unfold intersection. apply filter_In. split; [exact Hw|].
  rewrite vertex_eqb_sym in E. rewrite (vmem_eqv _ _ a E).
  now apply vmem_In.
Qed.

(** Two simplices share as many vertices in one order as in the other. *)
Lemma intersection_length_sym a b :
  length (intersection a b) = length (intersection b a).
Proof. apply Nat.le_antisymm; apply intersection_length_le. Qed.

Lemma intersection_self a : intersection a a = vset a.
Proof.
  unfold intersection.
  assert (H : forall l, (forall v, In v l -> In v a) ->
                        filter (fun v => vmem v a) l = l).
  { induction l as [|x l IH]; simpl; intros H; [reflexivity|].
    rewrite vmem_In by (apply H; now left). f_equal.
    apply IH. intros v Hv. apply H. now right. }
  apply H. intros v. apply vset_incl.
Qed.

(** ** The pairwise scan *)

Lemma pair_in_In p l : pair_in p l = true <-> In p l.
Proof.
  unfold pair_in. rewrite existsb_exists. split.
  - intros ([a b] & H & E). destruct p as [x y]; simpl in E.
    apply andb_true_iff in E. destruct E as [E1 E2].
    apply Nat.eqb_eq in E1, E2. now subst.
  - intros H. exists p. split; [exact H|]. now rewrite !Nat.eqb_refl.
Qed.

Lemma in_scan_row n P i a b :
  In (a, b) (scan_row n P i) <-> a = i /\ b < n /\ i <= b /\ P i b = true.
Proof.
  unfold scan_row, range. rewrite in_map_iff. split.
  - intros (j & [= <- <-] & H). apply filter_In in H. destruct H as [H1 H2].
    apply in_seq in H1. apply andb_true_iff in H2. destruct H2 as [H2 H3].
    apply Nat.leb_le in H2. repeat split; auto; lia.
  - intros (-> & H1 & H2 & H3). exists b. split; [reflexivity|].
    apply filter_In. split; [apply in_seq; lia|].
    apply andb_true_iff. split; [now apply Nat.leb_le | exact H3].
Qed.

Lemma in_scan_pairs n P a b :
  In (a, b) (scan_pairs n P) <-> a <= b /\ b < n /\ P a b = true.
Proof.
  unfold scan_pairs, range. rewrite in_flat_map. split.
  - intros (i & H1 & H2). apply in_scan_row in H2.
    destruct H2 as (-> & ? & ? & ?). auto.
  - intros (H1 & H2 & H3). exists a. split; [apply in_seq; lia|].
    apply in_scan_row. auto.
Qed.

Lemma scan_row_NoDup n P i : NoDup (scan_row n P i).
Proof.
  unfold scan_row, range.
  assert (H : NoDup (filter (fun j => (i <=? j) && P i j) (seq 0 n)))
    by apply NoDup_filter, seq_NoDup.
  induction H as [|x l Hx Hl IH]; simpl; constructor; auto.
  rewrite in_map_iff. intros (y & [= ->] & Hy). contradiction.
Qed.

Lemma scan_pairs_NoDup n P : NoDup (scan_pairs n P).
Proof.
  unfold scan_pairs, range. generalize n at 2. intros k.
  induction k as [|k IH]; [constructor|].
  rewrite seq_S, flat_map_app; simpl. rewrite app_nil_r.
  apply NoDup_app; [exact IH | apply scan_row_NoDup |].
  intros [a b] Ha Hb. apply in_flat_map in Ha.
  destruct Ha as (i & Hi & Ha). apply in_seq in Hi.
  apply in_scan_row in Ha, Hb. lia.
Qed.

Section Scan.

Context {X : Type}.
Variable n : nat.
Variable P : nat -> nat -> bool.
Variable val : nat -> nat -> X.
Hypothesis P_sym : forall i j, P i j = P j i.

(** One row of the scan, started from pairs [L0] among which [(j, i)]
    occurs exactly when it belongs to an earlier row. *)
Lemma scan_inner (i : nat) (X0 : list X) (L0 : list (nat * nat)) :
  (forall j, pair_in (j, i) L0 = (j <? i) && P j i) ->
  forall m,
    for_each (seq 0 m) (scan_body P val i) (X0, L0) =
    Ok (X0 ++ map (fun p => val (fst p) (snd p)) (scan_row m P i),
        L0 ++ scan_row m P i).
Proof.
  intros HL0. induction m as [|m IH].
  - simpl. now rewrite !app_nil_r.
  - rewrite seq_S, for_each_app, IH. cbn [for_each bind Nat.add].
    unfold scan_body, scan_step. cbn [fst snd].
    assert (E : pair_in (m, i) (L0 ++ scan_row m P i) = (m <? i) && P m i).
    { unfold pair_in. rewrite existsb_app.
      change (existsb _ L0) with (pair_in (m, i) L0). rewrite HL0.
      change (existsb _ (scan_row m P i))
        with (pair_in (m, i) (scan_row m P i)).
      replace (pair_in (m, i) (scan_row m P i)) with false;
        [apply orb_false_r|].
      symmetry. apply not_true_iff_false. intros H.
      apply pair_in_In, in_scan_row in H. lia. }
    assert (R : scan_row (S m) P i =
                scan_row m P i
                ++ (if (i <=? m) && P i m then [(i, m)] else [])).
    { unfold scan_row, range. rewrite seq_S, filter_app, map_app. simpl.
      now destruct ((i <=? m) && P i m). }
    rewrite E, R, (P_sym m i), !map_app.
    destruct (Nat.ltb_spec m i) as [H|H];
      [destruct (Nat.leb_spec i m) as [H'|_]; [lia|]
      |destruct (Nat.leb_spec i m) as [_|H']; [|lia]];
      destruct (P i m); simpl; rewrite ?app_nil_r, ?app_assoc; reflexivity.
Qed.

Lemma scan_rows_upto (k : nat) :
  k <= n ->
  for_each (seq 0 k) (fun i => for_each (range n) (scan_body P val i)) ([], []) =
  Ok (map (fun p => val (fst p) (snd p)) (flat_map (scan_row n P) (seq 0 k)),
      flat_map (scan_row n P) (seq 0 k)).
Proof.
  induction k as [|k IH]; intros Hk; [reflexivity|].
  rewrite seq_S, for_each_app, IH by lia. simpl.
  unfold range. rewrite scan_inner.
  - rewrite flat_map_app, map_app. simpl. now rewrite !app_nil_r.
  - intros j. apply eq_true_iff_eq. rewrite pair_in_In, in_flat_map.
    rewrite andb_true_iff, Nat.ltb_lt. split.
    + intros (i & Hi & H). apply in_seq in Hi. apply in_scan_row in H.
      destruct H as (-> & ? & ? & ?). split; [lia | assumption].
    + intros [H1 H2]. exists j. split; [apply in_seq; lia|].
      apply in_scan_row. repeat split; auto; lia.
Qed.

(** The scan records exactly [scan_pairs], in that order. *)
Lemma scan_correct :
  for_each (range n) (fun i => for_each (range n) (scan_body P val i)) ([], []) =
  Ok (map (fun p => val (fst p) (snd p)) (scan_pairs n P), scan_pairs n P).
Proof. apply scan_rows_upto. lia. Qed.

End Scan.

(** ** Interior adjacency *)

Lemma is_facet_sym self i j : is_facet self i j = is_facet self j i.
Proof.
  unfold is_facet, shares. now rewrite intersection_length_sym.
Qed.

Lemma shared_step_pure self i j acc :
  i < length (verts self) -> j < length (verts self) ->
  Tesselation.shared_step self i j acc =
  Ok (scan_step (is_facet self) (shares self) i j acc).
Proof.
  intros Hi Hj. unfold Tesselation.shared_step.
  rewrite (@getitem_nth simplex _ _ [] Hi), (@getitem_nth simplex _ _ [] Hj).
  simpl.
  unfold scan_step, is_facet, shares, simplex_at.
  now destruct (_ && _).
Qed.

Lemma in_range n a : In a (range n) <-> a < n.
Proof. unfold range. rewrite in_seq. lia. Qed.

(** [find_shared_verts] records the pairs of [scan_pairs] and, for each, the
    vertices the two simplices share. *)
Lemma find_shared_verts_scan self :
  nC self <= length (verts self) ->
  Tesselation.find_shared_verts self =
  Ok (set_shared self
        (map (fun p => shares self (fst p) (snd p))
             (scan_pairs (nC self) (is_facet self)))
        (scan_pairs (nC self) (is_facet self))).
Proof.
  intros Hn. unfold Tesselation.find_shared_verts.
  rewrite for_each_ext
    with (g := fun i => for_each (range (nC self))
                 (scan_body (is_facet self) (shares self) i)).
  - rewrite scan_correct by apply is_facet_sym. reflexivity.
  - intros i s Hi. apply in_range in Hi.
    apply for_each_ext. intros j t Hj. apply in_range in Hj.
    apply shared_step_pure; lia.
Qed.

(** C2: [find_shared_verts] records two simplices exactly when they share
    [ndim] vertices; a recorded pair [(i, j)] has [i < j], no pair is
    recorded twice or in both orders, and no simplex is paired with itself.
    The simplices are those of a valid configuration: as many as [nC], none
    with exactly [ndim] distinct vertices. *)
Theorem find_shared_verts_adjacency (self : tess)
  (Hn : nC self = length (verts self))
  (Hv : forall i, i < nC self ->
                  length (vset (simplex_at self i)) <> ndim self) :
  exists s,
    Tesselation.find_shared_verts self = Ok s /\
    (forall i j, i < nC self -> j < nC self ->
       (In (i, j) (shared_v_idx s) \/ In (j, i) (shared_v_idx s)) <->
       length (intersection (simplex_at self i) (simplex_at self j))
       = ndim self) /\
    (forall i j, In (i, j) (shared_v_idx s) -> i < j < nC self) /\
    NoDup (shared_v_idx s) /\
    (forall i j, In (i, j) (shared_v_idx s) -> ~ In (j, i) (shared_v_idx s)) /\
    (forall i, ~ In (i, i) (shared_v_idx s)) /\
    shared_v s =
      map (fun p => intersection (simplex_at self (fst p))
                                 (simplex_at self (snd p)))
          (shared_v_idx s).
Proof.
  eexists. split; [apply find_shared_verts_scan; lia|]. simpl.
  assert (Hlt : forall i j,
            In (i, j) (scan_pairs (nC self) (is_facet self)) ->
            i < j < nC self).
  { intros i j H. apply in_scan_pairs in H. destruct H as (H1 & H2 & H3).
    split; [|exact H2]. destruct (Nat.eq_dec i j) as [->|]; [|lia].
    exfalso. apply (Hv j H2). unfold is_facet, shares in H3.
    rewrite intersection_self in H3. now apply Nat.eqb_eq in H3. }
  split; [|split; [exact Hlt | split; [apply scan_pairs_NoDup|]]].
  - intros i j Hi Hj. rewrite !in_scan_pairs.
    fold (shares self i j). rewrite <- Nat.eqb_eq.
    change (length (shares self i j) =? ndim self) with (is_facet self i j).
    rewrite (is_facet_sym self j i). split.
    + intros [(_ & _ & H)|(_ & _ & H)]; exact H.
    + intros H. destruct (Nat.le_ge_cases i j); [left | right]; auto.
  - split; [|split; [|reflexivity]].
    + intros i j H1 H2. apply Hlt in H1, H2. lia.
    + intros i H. apply Hlt in H. lia.
Qed.


(** ** Breakpoints *)

Lemma nth_map_seq {A} (f : nat -> A) (n i : nat) (d : A) :
  i < n -> nth i (map f (seq 0 n)) d = f i.
Proof.
  intros H.
  rewrite (nth_indep _ d (f 0)) by (rewrite length_map, length_seq; lia).
  rewrite (map_nth f), seq_nth by lia. reflexivity.
Qed.

Lemma linspace_length a b num : length (linspace a b num) = num.
Proof.
  destruct num as [|[|d]]; simpl; try reflexivity.
  rewrite length_app, length_map, length_seq. simpl. lia.
Qed.

Lemma getitem_breakpoint a b n i :
  i <= n -> getitem (linspace a b (n + 1)) i = Ok (breakpoint a b n i).
Proof.
  intros H. unfold breakpoint. apply getitem_nth.
  rewrite linspace_length. lia.
Qed.

(** The breakpoints are equally spaced from [a] to [b]. *)
Lemma breakpoint_value a b n i :
  0 < n -> i <= n ->
  (breakpoint a b n i ==
   a + inject_Z (Z.of_nat i) * ((b - a) / inject_Z (Z.of_nat n)))%Q.
Proof.
  intros Hn Hi. unfold breakpoint. rewrite Nat.add_1_r.
  destruct n as [|d]; [lia|].
  assert (Hd : ~ (inject_Z (Z.of_nat (S d)) == 0)%Q).
  { change 0%Q with (inject_Z 0). rewrite inject_Z_injective. lia. }
  unfold linspace.
  destruct (Nat.eq_dec i (S d)) as [->|Hne].
  - rewrite app_nth2 by (rewrite length_map, length_seq; lia).
    rewrite length_map, length_seq, Nat.sub_diag. simpl nth.
    field. exact Hd.
  - rewrite app_nth1 by (rewrite length_map, length_seq; lia).
    rewrite nth_map_seq by lia. apply Qplus_comm.
Qed.

Lemma breakpoint_first a b n : (breakpoint a b n 0 == a)%Q.
Proof.
  unfold breakpoint. rewrite Nat.add_1_r. destruct n as [|d]; simpl.
  - reflexivity.
  - change (inject_Z 0) with 0%Q. now rewrite Qmult_0_l, Qplus_0_l.
Qed.

Lemma breakpoint_last a b n : 0 < n -> breakpoint a b n n = b.
Proof.
  intros Hn. unfold breakpoint. rewrite Nat.add_1_r.
  destruct n as [|d]; [lia|]. unfold linspace.
  rewrite app_nth2 by (rewrite length_map, length_seq; lia).
  now rewrite length_map, length_seq, Nat.sub_diag.
Qed.

(** Different indices give different breakpoints when the domain is not a
    single point. *)
Lemma breakpoint_inj a b n i j :
  ~ (a == b)%Q -> i <= n -> j <= n ->
  (breakpoint a b n i == breakpoint a b n j)%Q -> i = j.
Proof.
  intros Hab Hi Hj H.
  destruct (Nat.eq_dec n 0) as [->|Hn]; [lia|].
  rewrite !breakpoint_value in H by lia.
  assert (Hd : ~ (inject_Z (Z.of_nat n) == 0)%Q).
  { change 0%Q with (inject_Z 0). rewrite inject_Z_injective. lia. }
  assert (E : (inject_Z (Z.of_nat i) == inject_Z (Z.of_nat j))%Q).
  { assert (Hs : ~ ((b - a) / inject_Z (Z.of_nat n) == 0)%Q).
    { intros Hs. apply Hab.
      assert (Hba : (b - a == 0)%Q).
      { setoid_replace (b - a)%Q
          with ((b - a) / inject_Z (Z.of_nat n) * inject_Z (Z.of_nat n))%Q
          by (field; exact Hd).
        rewrite Hs. ring. }
      lra. }
    apply (Qmult_inj_r _ _ _ Hs).
    apply (Qplus_inj_l _ _ a). exact H. }
  apply (proj1 (inject_Z_injective _ _)) in E. now apply Nat2Z.inj.
Qed.

Lemma breakpoint_eqb a b n i j :
  ~ (a == b)%Q -> i <= n -> j <= n ->
  Qeq_bool (breakpoint a b n i) (breakpoint a b n j) = (i =? j).
Proof.
  intros Hab Hi Hj. apply eq_true_iff_eq.
  rewrite Qeq_bool_iff, Nat.eqb_eq. split.
  - now apply breakpoint_inj.
  - intros ->. reflexivity.
Qed.


(** ** Shapes of the row blocks *)

Lemma set_slice_length (r : row) (lo hi : nat) (vals : list Q) :
  hi = lo + length vals -> hi <= length r ->
  exists r', set_slice r lo hi vals = Ok r' /\ length r' = length r.
Proof.
  intros H1 H2. rewrite set_slice_fits by assumption.
  eexists. split; [reflexivity|]. subst hi. now apply splice_length.
Qed.

Lemma in_firstn {A} (l : list A) (n : nat) (x : A) :
  In x (firstn n l) -> In x l.
Proof.
  intros H. rewrite <- (firstn_skipn n l). apply in_or_app. now left.
Qed.

Lemma in_skipn {A} (l : list A) (n : nat) (x : A) :
  In x (skipn n l) -> In x l.
Proof.
  intros H. rewrite <- (firstn_skipn n l). apply in_or_app. now right.
Qed.

Lemma setitem_row_shaped (W : nat) (M : matrix) (i : nat)
  (upd : row -> result row) :
  shaped W M -> i < length (rows M) ->
  (forall r, length r = W -> exists r', upd r = Ok r' /\ length r' = W) ->
  exists M', setitem_row M i upd = Ok M' /\ shaped W M' /\
             length (rows M') = length (rows M).
Proof.
  intros [Hc Hr] Hi Hupd. unfold setitem_row.
  rewrite (@getitem_nth row _ _ [] Hi). cbn [bind].
  assert (Hl : length (nth i (rows M) []) = W).
  { rewrite Forall_forall in Hr. apply Hr. now apply nth_In. }
  destruct (Hupd _ Hl) as (r' & -> & Hr'). cbn [bind].
  eexists. split; [reflexivity|]. split; [split|]; cbn [rows ncols].
  - exact Hc.
  - apply Forall_app. split.
    + apply Forall_forall. intros x Hx. rewrite Forall_forall in Hr.
      apply Hr. exact (in_firstn _ _ _ Hx).
    + constructor; [exact Hr'|].
      apply Forall_forall. intros x Hx. rewrite Forall_forall in Hr.
      apply Hr. apply (in_skipn (rows M) (S i)). exact Hx.
  - rewrite length_app. cbn [length].
    rewrite length_firstn, length_skipn. lia.
Qed.

Lemma zeros2_shaped r c : shaped c (zeros2 r c) /\ length (rows (zeros2 r c)) = r.
Proof.
  split; [split; [reflexivity | apply zeros2_rows_length]|].
  unfold zeros2; simpl. apply repeat_length.
Qed.

Lemma vstack_shaped (W : nat) (M : matrix) (rs : list row) :
  shaped W M -> Forall (fun r => length r = W) rs ->
  vstack M rs = Ok (Matrix W (rows M ++ rs)) /\
  shaped W (Matrix W (rows M ++ rs)).
Proof.
  intros [Hc Hr] Hrs. unfold vstack. rewrite Hc.
  rewrite (proj2 (forallb_forall _ _)).
  - split; [reflexivity|]. split; [reflexivity|]. simpl.
    apply Forall_app. now split.
  - intros r Hin. rewrite Forall_forall in Hrs.
    apply Nat.eqb_eq. now apply Hrs.
Qed.

Lemma concatenate_shaped (W : nat) (M1 M2 : matrix) :
  shaped W M1 -> shaped W M2 ->
  concatenate M1 M2 = Ok (Matrix W (rows M1 ++ rows M2)) /\
  shaped W (Matrix W (rows M1 ++ rows M2)).
Proof.
  intros [Hc1 Hr1] [Hc2 Hr2]. unfold concatenate.
  rewrite Hc1, Hc2, Nat.eqb_refl. split; [reflexivity|].
  split; [reflexivity|]. simpl. apply Forall_app. now split.
Qed.

Lemma length_flat_map_const {A B} (f : A -> list B) (l : list A) (k : nat) :
  (forall a, In a l -> length (f a) = k) ->
  length (flat_map f l) = length l * k.
Proof.
  induction l as [|a l IH]; intros H; simpl; [reflexivity|].
  rewrite length_app, H, IH; [reflexivity | | now left].
  intros b Hb. apply H. now right.
Qed.

Lemma eye_row_length d : length (Tesselation.eye_row d) = d * (d + 1).
Proof.
  unfold Tesselation.eye_row.
  rewrite length_flat_map_const with (k := d + 1).
  - unfold range. now rewrite length_seq.
  - intros r _. rewrite length_app, length_map. unfold range.
    now rewrite length_seq.
Qed.

(** The trace rows: one row per simplex, each of [n_params * nC] entries. *)
Lemma zero_trace_shaped (self : tess) :
  n_params self = ndim self * (ndim self + 1) ->
  exists M, Tesselation.create_zero_trace_constrains self = Ok M /\
            shaped (n_params self * nC self) M /\
            length (rows M) = nC self.
Proof.
  intros Hp. unfold Tesselation.create_zero_trace_constrains.
  destruct (zeros2_shaped (nC self) (n_params self * nC self)) as [H1 H2].
  apply for_each_inv
    with (I := fun M => shaped (n_params self * nC self) M /\
                        length (rows M) = nC self); [|now split].
  intros c M Hc [HM HR]. apply in_range in Hc.
  destruct (setitem_row_shaped (W := n_params self * nC self) (M := M)
              (i := c)
              (fun r => set_slice r (n_params self * c)
                          (n_params self * (c + 1))
                          (Tesselation.eye_row (ndim self))))
    as (M' & E & HM' & HR'); [exact HM | lia | |].
  - intros r Hr. rewrite <- Hr. apply set_slice_length.
    + rewrite eye_row_length. nia.
    + rewrite Hr. nia.
  - exists M'. split; [exact E|]. split; [exact HM' | lia].
Qed.

(** ** The one-dimensional pipeline *)

Lemma flat_map_singleton {A B} (f : A -> B) (l : list A) :
  flat_map (fun a => [f a]) l = map f l.
Proof. induction l as [|a l IH]; simpl; [reflexivity | now rewrite IH]. Qed.

Lemma find_verts1D_ok self a b n ra rb rn :
  domain_min self = a :: ra -> domain_max self = b :: rb ->
  nc self = n :: rn ->
  Tesselation1D.find_verts self =
  Ok (set_verts self (intervals a b n) (map (fun i => [i]) (range n))).
Proof.
  intros Ha Hb Hn. unfold Tesselation1D.find_verts.
  rewrite Ha, Hb, Hn. cbn [getitem nth_error bind].
  rewrite for_each_collect
    with (f := fun i => ([[i]], [interval a b n i])).
  - cbn [bind app2 flat2 fst snd app].
    now rewrite !flat_map_singleton.
  - intros i acc Hi. apply in_range in Hi.
    rewrite !getitem_breakpoint by lia. reflexivity.
Qed.

Lemma vertex_eqb_1D x y : vertex_eqb [x; 1%Q] [y; 1%Q] = Qeq_bool x y.
Proof. simpl. now rewrite andb_true_r. Qed.

Lemma intervals_nth a b n i :
  i < n -> nth i (intervals a b n) [] = interval a b n i.
Proof.
  intros H. unfold intervals, range. now apply nth_map_seq.
Qed.

(** Two intervals share exactly one vertex when their indices differ by
    one. *)
Lemma interval_facet a b n i j :
  ~ (a == b)%Q -> i < n -> j < n ->
  (length (intersection (interval a b n i) (interval a b n j)) =? 1)
  = adjacent i j.
Proof.
  intros Hab Hi Hj.
  unfold intersection, interval, vset, vmem, adjacent.
  repeat (cbn [filter existsb vertex_eqb negb andb orb length];
          change (Qeq_bool 1 1) with true;
          rewrite ?andb_true_r, ?orb_false_r;
          rewrite ?breakpoint_eqb by (assumption || lia);
          try match goal with
              | |- context [?x =? ?y] =>
                  lazymatch x with
                  | context [length _] => fail
                  | _ => destruct (Nat.eqb_spec x y)
                  end
              end);
    try reflexivity; lia.
Qed.

Lemma flat_map_ext_in {A B} (f g : A -> list B) (l : list A) :
  (forall a, In a l -> f a = g a) -> flat_map f l = flat_map g l.
Proof.
  induction l as [|a l IH]; intros H; simpl; [reflexivity|].
  rewrite H by now left. f_equal. apply IH. intros b Hb. apply H. now right.
Qed.

Lemma scan_pairs_ext n P Q' :
  (forall i j, i < n -> j < n -> P i j = Q' i j) ->
  scan_pairs n P = scan_pairs n Q'.
Proof.
  intros H. unfold scan_pairs, range.
  apply flat_map_ext_in. intros i Hi. apply in_seq in Hi.
  unfold scan_row. f_equal. apply filter_ext_in. intros j Hj.
  apply in_range in Hj. rewrite H by lia. reflexivity.
Qed.

Lemma filter_seq_single (f : nat -> bool) (k n : nat) :
  (forall j, j < n -> f j = (j =? k)) ->
  filter f (seq 0 n) = if k <? n then [k] else [].
Proof.
  induction n as [|n IH]; intros H; [reflexivity|].
  rewrite seq_S, filter_app, IH by (intros; apply H; lia).
  simpl. rewrite H by lia.
  destruct (Nat.eqb_spec n k) as [->|Hne].
  - destruct (Nat.ltb_spec k k); [lia|].
    destruct (Nat.ltb_spec k (S k)); [reflexivity | lia].
  - destruct (Nat.ltb_spec k n), (Nat.ltb_spec k (S n));
      simpl; try reflexivity; lia.
Qed.

(** The pairs recorded for a chain of [n] intervals. *)
Lemma scan_pairs_chain n :
  scan_pairs n adjacent = map (fun i => (i, i + 1)) (range (n - 1)).
Proof.
  unfold scan_pairs.
  assert (Hrow : forall i, scan_row n adjacent i =
                           if i + 1 <? n then [(i, i + 1)] else []).
  { intros i. unfold scan_row, range.
    rewrite filter_seq_single with (k := i + 1).
    - now destruct (i + 1 <? n).
    - intros j Hj. unfold adjacent.
      destruct (Nat.leb_spec i j), (Nat.eqb_spec i (j + 1)),
        (Nat.eqb_spec j (i + 1)); simpl; try reflexivity; lia. }
  destruct n as [|m]; [reflexivity|].
  unfold range. rewrite seq_S, flat_map_app. simpl.
  rewrite Hrow, app_nil_r.
  destruct (Nat.ltb_spec (m + 1) (S m)); [lia|]. rewrite app_nil_r.
  rewrite Nat.sub_0_r.
  rewrite <- flat_map_singleton. apply flat_map_ext_in.
  intros i Hi. apply in_seq in Hi. rewrite Hrow.
  destruct (Nat.ltb_spec (i + 1) (S m)); [reflexivity | lia].
Qed.

Lemma in_enumerate {A} (l : list A) (i : nat) (x : A) :
  In (i, x) (enumerate l) -> i < length l /\ In x l.
Proof.
  unfold enumerate. intros H. split.
  - apply in_combine_l in H. apply in_seq in H. lia.
  - now apply in_combine_r in H.
Qed.

(** The continuity rows in 1D: one row per recorded pair, provided there are
    at most [nC - 1] pairs. *)
Lemma continuity1D_shaped (self : tess) :
  0 < nC self -> length (shared_v self) <= nC self - 1 ->
  (forall V, In V (shared_v self) ->
             exists v rest, V = v :: rest /\ length v = 2) ->
  exists M, Tesselation1D.create_continuity_constrains self = Ok M /\
            shaped (2 * nC self) M /\ length (rows M) = nC self - 1.
Proof.
  intros Hn Hlen HV. unfold Tesselation1D.create_continuity_constrains.
  destruct (Nat.eqb_spec (nC self) 0) as [E|_]; [lia|].
  destruct (zeros2_shaped (nC self - 1) (2 * nC self)) as [H1 H2].
  apply for_each_inv
    with (I := fun M => shaped (2 * nC self) M /\
                        length (rows M) = nC self - 1); [|now split].
  intros [idx V] M Hin [HM HR]. apply in_enumerate in Hin.
  destruct Hin as [Hidx HinV].
  destruct (HV V HinV) as (v & rest & -> & Hv).
  cbn [fst snd getitem nth_error bind].
  destruct (setitem_row_shaped (W := 2 * nC self) (M := M) (i := idx)
              (fun r => set_slice r (2 * idx) (2 * (idx + 2))
                          (v ++ map Qopp v)))
    as (M' & E & HM' & HR'); [exact HM | lia | |].
  - intros r Hr. rewrite <- Hr. apply set_slice_length.
    + rewrite length_app, length_map, Hv. lia.
    + lia.
  - exists M'. split; [exact E|]. split; [exact HM' | lia].
Qed.

Lemma set_slice_Z_head (r : row) (k : nat) (vals : list Q) :
  length vals = k -> k <= length r ->
  exists r', set_slice_Z r 0 (Z.of_nat k) vals = Ok r' /\
             length r' = length r.
Proof.
  intros Hv Hk. unfold set_slice_Z, slice_bound.
  destruct (Z.ltb_spec 0 0); [lia|].
  destruct (Z.ltb_spec (Z.of_nat k) 0); [lia|].
  apply set_slice_length; lia.
Qed.

Lemma set_slice_Z_tail (r : row) (k : nat) (vals : list Q) :
  length vals = k -> 0 < k -> k <= length r ->
  exists r', set_slice_Z r (- Z.of_nat k) (Z.of_nat (length r)) vals = Ok r'
             /\ length r' = length r.
Proof.
  intros Hv H0 Hk. unfold set_slice_Z, slice_bound.
  destruct (Z.ltb_spec (Z.of_nat (length r)) 0); [lia|].
  destruct (Z.ltb_spec (- Z.of_nat k) 0); [|lia].
  apply set_slice_length; lia.
Qed.

Lemma zero_boundary1D_shaped (self : tess) a ra b rb :
  domain_min self = a :: ra -> domain_max self = b :: rb -> 0 < nC self ->
  exists M, Tesselation1D.create_zero_boundary_constrains self = Ok M /\
            shaped (2 * nC self) M /\ length (rows M) = 2.
Proof.
  intros Ha Hb Hn. unfold Tesselation1D.create_zero_boundary_constrains.
  rewrite Ha, Hb. cbn [getitem nth_error bind].
  destruct (zeros2_shaped 2 (2 * nC self)) as [H1 H2].
  destruct (setitem_row_shaped (W := 2 * nC self) (i := 0)
              (fun r => set_slice_Z r 0 2 [a; 1%Q]) H1)
    as (M1 & E1 & HM1 & HR1); [lia | |].
  { intros r Hr. rewrite <- Hr.
    apply (@set_slice_Z_head r 2); [reflexivity | lia]. }
  rewrite E1. cbn [bind].
  destruct (setitem_row_shaped (W := 2 * nC self) (i := 1)
              (fun r => set_slice_Z r (-2) (Z.of_nat (length r)) [b; 1%Q])
              HM1)
    as (M2 & E2 & HM2 & HR2); [lia | |].
  { intros r Hr. rewrite <- Hr.
    apply (@set_slice_Z_tail r 2); [reflexivity | lia | lia]. }
  exists M2. split; [exact E2|]. split; [exact HM2 | lia].
Qed.

(** What [find_shared_verts] leaves in [shared_v]: for every recorded pair
    the [ndim] vertices the two simplices share. *)
Lemma scan_shared_entry (self : tess) (V : list vertex) :
  In V (map (fun p => shares self (fst p) (snd p))
            (scan_pairs (nC self) (is_facet self))) ->
  exists i j, i < nC self /\ j < nC self /\ V = shares self i j /\
              length V = ndim self.
Proof.
  intros H. apply in_map_iff in H. destruct H as ([i j] & <- & H).
  apply in_scan_pairs in H. destruct H as (H1 & H2 & H3).
  exists i, j. repeat split; try lia.
  unfold is_facet in H3. now apply Nat.eqb_eq in H3.
Qed.

Lemma shares_In (self : tess) (i j : nat) (v : vertex) :
  In v (shares self i j) -> In v (simplex_at self i).
Proof. intros H. now apply intersection_In in H. Qed.

(** The pairs [find_shared_verts] records on the intervals of a domain that
    is not a single point: each interval with its successor. *)
Lemma facets1D n a b zb vp :
  ~ (a == b)%Q ->
  let s1 := set_verts (configured 2 n 1 [n] [a] [b] zb vp)
              (intervals a b n) (map (fun i => [i]) (range n)) in
  scan_pairs (nC s1) (is_facet s1) = map (fun i => (i, i + 1)) (range (n - 1)).
Proof.
  intros Hab s1.
  rewrite <- scan_pairs_chain. apply scan_pairs_ext.
  intros i j Hi Hj. simpl in Hi, Hj.
  unfold is_facet, shares, simplex_at. simpl verts. simpl ndim.
  rewrite !intervals_nth by assumption.
  now apply interval_facet.
Qed.

Lemma pipeline1D_shared n a b zb vp :
  ~ (a == b)%Q ->
  let s1 := set_verts (configured 2 n 1 [n] [a] [b] zb vp)
              (intervals a b n) (map (fun i => [i]) (range n)) in
  Tesselation.find_shared_verts s1 =
  Ok (set_shared s1
        (map (fun p => shares s1 (fst p) (snd p))
             (map (fun i => (i, i + 1)) (range (n - 1))))
        (map (fun i => (i, i + 1)) (range (n - 1)))).
Proof.
  intros Hab s1.
  assert (Hlen : length (verts s1) = n).
  { simpl. unfold intervals, range. now rewrite length_map, length_seq. }
  rewrite find_shared_verts_scan by (simpl nC; lia).
  unfold s1. now rewrite (facets1D n zb vp Hab).
Qed.

(** Every 1D construction over [n >= 1] cells of a domain that is not a
    single point completes; L has [2 * n] columns and the rows of the blocks
    that are switched on. *)
Lemma Tesselation1D_init_ok n a b zb vp :
  0 < n -> ~ (a == b)%Q ->
  exists t,
    Tesselation1D.init [n] [a] [b] zb vp = Ok t /\
    nC t = n /\ n_params t = 2 /\
    shaped (2 * n) (L t) /\
    length (rows (L t)) =
      (n - 1) + (if zb then 2 else 0) + (if vp then n else 0) /\
    shared_v_idx t = map (fun i => (i, i + 1)) (range (n - 1)).
Proof.
  intros Hn Hab. unfold Tesselation1D.init, Tesselation.init.
  unfold prod. cbn [fold_right]. rewrite Nat.mul_1_r.
  fold (configured 2 n 1 [n] [a] [b] zb vp). cbv zeta.
  cbn [find_verts Tesselation1D.impl].
  rewrite (@find_verts1D_ok _ a b n [] [] []) by reflexivity.
  cbn [bind].
  rewrite (pipeline1D_shared n zb vp Hab). cbn [bind].
  set (s1 := set_verts _ _ _).
  set (pairs := map (fun i => (i, i + 1)) (range (n - 1))).
  set (s2 := set_shared s1 _ pairs).
  assert (Hout : (if negb zb
                  then find_verts_outside Tesselation1D.impl s2
                  else Ok s2) = Ok s2) by now destruct zb.
  rewrite Hout. cbn [bind].
  destruct (@continuity1D_shaped s2) as (Mc & Ec & HMc & HRc).
  { exact Hn. }
  { subst s2 pairs. simpl. unfold range.
    rewrite !length_map, length_seq. lia. }
  { intros V HV. subst s2. simpl in HV.
    assert (E : scan_pairs (nC s1) (is_facet s1) = pairs)
      by apply (facets1D n zb vp Hab).
    rewrite <- E in HV. apply scan_shared_entry in HV.
    destruct HV as (i & j & Hi & Hj & -> & HL).
    replace (ndim s1) with 1 in HL by reflexivity.
    destruct (shares s1 i j) as [|v [|w rest]] eqn:Es; try discriminate.
    exists v, []. split; [reflexivity|].
    assert (Hv : In v (simplex_at s1 i)).
    { apply (shares_In s1 i j). rewrite Es. now left. }
    unfold simplex_at in Hv. simpl verts in Hv. simpl in Hi.
    rewrite intervals_nth in Hv by assumption.
    destruct Hv as [<-|[<-|[]]]; reflexivity. }
  cbn [create_continuity_constrains Tesselation1D.impl]. rewrite Ec.
  cbn [bind].
  set (s3 := set_L s2 Mc).
  destruct (@zero_boundary1D_shaped s3 a [] b [] eq_refl eq_refl Hn)
    as (Mz & Ez & HMz & HRz).
  destruct (concatenate_shaped (W := 2 * n) (M1 := Mc) (M2 := Mz) HMc HMz)
    as [Ecz HMcz].
  set (s4 := if zb then set_L s3 (Matrix (2 * n) (rows Mc ++ rows Mz))
             else s3).
  assert (E4 : (if zb
                then temp <- create_zero_boundary_constrains
                               Tesselation1D.impl s3 ;;
                     M <- concatenate (L s3) temp ;; Ok (set_L s3 M)
                else Ok s3) = Ok s4).
  { subst s4. destruct zb; [|reflexivity].
    cbn [create_zero_boundary_constrains Tesselation1D.impl].
    rewrite Ez. cbn [bind]. simpl L. rewrite Ecz. reflexivity. }
  rewrite E4. cbn [bind].
  assert (H4 : shaped (2 * n) (L s4) /\
               length (rows (L s4)) = (n - 1) + (if zb then 2 else 0) /\
               nC s4 = n /\ n_params s4 = 2 /\ ndim s4 = 1 /\
               shared_v_idx s4 = pairs).
  { subst s4. destruct zb; simpl.
    - split; [exact HMcz|]. rewrite length_app.
      simpl in HRc. repeat split; lia.
    - split; [exact HMc|]. simpl in HRc. repeat split; lia. }
  destruct H4 as (H4a & H4b & H4c & H4d & H4e & H4f).
  destruct (@zero_trace_shaped s4) as (Mt & Et & HMt & HRt).
  { rewrite H4d, H4e. reflexivity. }
  rewrite H4c, H4d in HMt. rewrite H4c in HRt.
  destruct (concatenate_shaped (W := 2 * n) H4a HMt) as [Ect HMct].
  destruct vp.
  - rewrite Et. cbn [bind]. rewrite Ect. cbn [bind].
    eexists. split; [reflexivity|]. simpl.
    repeat split; try assumption.
    + apply HMct.
    + rewrite length_app. lia.
  - eexists. split; [reflexivity|].
    repeat split; try assumption; try apply H4a. lia.
Qed.


(** When the domain is an interval [a < b] the shared vertices of the final
    1D object are those of its intervals. *)
Lemma Tesselation1D_no_auxiliary n a b vp :
  0 < n -> ~ (a == b)%Q ->
  exists t,
    Tesselation1D.init [n] [a] [b] false vp = Ok t /\
    shared_v_idx t = map (fun i => (i, i + 1)) (range (n - 1)) /\
    length (rows (L t)) = (n - 1) + (if vp then n else 0) /\
    shaped (2 * n) (L t).
Proof.
  intros Hn Hab.
  destruct (@Tesselation1D_init_ok n a b false vp Hn Hab)
    as (t & E & _ & _ & Hs & Hr & Hp).
  exists t. repeat split; try assumption; try apply Hs.
  rewrite Hr. lia.
Qed.

(** ** Unsupported and unchecked configurations *)

(** C9: with zero boundary switched off the 3D constructor raises, whatever
    its other arguments: it runs [find_verts] and [find_shared_verts] and
    then meets the unimplemented [find_verts_outside].  The 1D constructor
    completes on every valid configuration; its [find_verts_outside] leaves
    the object as it is, so only the pairs of neighbouring intervals are
    recorded. *)
Theorem nonzero_boundary_3D_raises_1D_completes
  (n : nat) (a b : Q) (vp : bool)
  (c : list nat) (dmin dmax : list Q) (vp' : bool)
  (Hn : 0 < n) (Hab : (a < b)%Q) :
  is_ok (Tesselation3D.init c dmin dmax false vp') = false /\
  Tesselation3D.init c dmin dmax false vp' =
    (s1 <- Tesselation3D.find_verts
             (configured 12 (6 * prod c) 3 c dmin dmax false vp') ;;
     _ <- Tesselation.find_shared_verts s1 ;;
     Raise NotImplementedError) /\
  (forall self, Tesselation3D.find_verts_outside self
                = Raise NotImplementedError) /\
  (forall self, Tesselation1D.find_verts_outside self = Ok self) /\
  exists t,
    Tesselation1D.init [n] [a] [b] false vp = Ok t /\
    shared_v_idx t = map (fun i => (i, i + 1)) (range (n - 1)) /\
    length (rows (L t)) = (n - 1) + (if vp then n else 0) /\
    shaped (2 * n) (L t).
Proof.
  split; [apply Tesselation3D_init_never_ok|].
  split.
  { unfold Tesselation3D.init, Tesselation.init, configured. cbv zeta.
    cbn [find_verts Tesselation3D.impl].
    destruct (Tesselation3D.find_verts _) as [s1|e]; [|reflexivity].
    cbn [bind].
    destruct (Tesselation.find_shared_verts s1) as [s2|e]; reflexivity. }
  split; [reflexivity|]. split; [reflexivity|].
  apply Tesselation1D_no_auxiliary; [exact Hn|].
  intros E. rewrite E in Hab. exact (Qlt_irrefl _ Hab).
Qed.

Lemma nonzero_boundary_witness :
  0 < 3 /\ (0 < 1)%Q /\
  is_ok (Tesselation3D.init [2; 2; 2] [0%Q; 0%Q; 0%Q] [1%Q; 1%Q; 1%Q]
           false true) = false /\
  exists t, Tesselation1D.init [3] [0%Q] [1%Q] false true = Ok t /\
            shared_v_idx t = [(0, 1); (1, 2)].
Proof.
  split; [lia|]. split; [reflexivity|].
  destruct (@nonzero_boundary_3D_raises_1D_completes
              3 0%Q 1%Q true [2; 2; 2] [0%Q; 0%Q; 0%Q] [1%Q; 1%Q; 1%Q] true)
    as (H1 & _ & _ & _ & t & Ht & Hp & _); [lia | reflexivity |].
  split; [exact H1|]. exists t. split; [exact Ht | exact Hp].
Defined.


(** ** Where the code departs from its specification *)

(** C10: the zero-boundary builder of the 3D class reads the cell counts,
    [n_params] and [nC] only, so its outcome is the same for any two domains;
    but it never gets to return its block of rows.  Each row is to receive six
    numbers (three grid fractions and a one-hot triple) in a slice of twelve
    columns; the first such assignment raises, here for the 2 x 2 x 2 grid
    of the module's own main program. *)
Theorem zero_boundary3D_outcome
  (c : list nat) (dmin dmax dmin' dmax' : list Q) (zb vp zb' vp' : bool)
  (vs vs' : list simplex) (cs cs' : list (list nat))
  (sv sv' : list (list vertex)) (si si' : list (nat * nat)) (M M' : matrix) :
  Tesselation3D.create_zero_boundary_constrains
    (Tess c dmin dmax zb vp 12 (6 * prod c) 3 vs cs sv si M) =
  Tesselation3D.create_zero_boundary_constrains
    (Tess c dmin' dmax' zb' vp' 12 (6 * prod c) 3 vs' cs' sv' si' M') /\
  is_ok (Tesselation3D.create_zero_boundary_constrains
           (Tess c dmin dmax zb vp 12 (6 * prod c) 3 vs cs sv si M)) = false /\
  Tesselation3D.create_zero_boundary_constrains
    (configured 12 48 3 [2; 2; 2] [0%Q; 0%Q; 0%Q] [1%Q; 1%Q; 1%Q] true true)
  = Raise ValueError /\
  Tesselation3D.put_row 2 [0%Q; 0%Q; 0%Q] [0%Q; 0%Q; 1%Q]
    (zeros2 54 576, 0) = Raise ValueError.
Proof.
  split; [reflexivity|].
  split; [now apply zero_boundary3D_never_ok|].
  split; vm_compute; reflexivity.
Qed.

(** C4: in three dimensions no final matrix L exists whose columns could be
    counted: the constructor raises on every input, on the 2 x 2 x 2 grid of
    the module's main program in the zero-boundary builder.  In two
    dimensions the construction over a single cell with zero boundary
    switched off raises as well, where the empty list of virtual pairs is
    joined to the interior ones. *)
Theorem Tesselation3D_never_constructs
  (c : list nat) (dmin dmax : list Q) (zb vp : bool) :
  is_ok (Tesselation3D.init c dmin dmax zb vp) = false /\
  Tesselation3D.init [2; 2; 2] [0%Q; 0%Q; 0%Q] [1%Q; 1%Q; 1%Q] true true
  = Raise ValueError /\
  Tesselation2D.init [1; 1] [0%Q; 0%Q] [1%Q; 1%Q] false true
  = Raise ValueError.
Proof.
  split; [apply Tesselation3D_init_never_ok|].
  split; vm_compute; reflexivity.
Qed.

(** C7: the z-coordinates of the 3D vertices are breakpoints of the y-axis.
    On one box over [0,1] x [0,2] x [0,3] every vertex has z-coordinate 0, 1
    or 2, none has 3; with more cells along z than along y, [find_verts]
    runs off the end of its table of breakpoints. *)
Theorem find_verts3D_z_from_y_axis :
  (exists s,
     Tesselation3D.find_verts
       (configured 12 6 3 [1; 1; 1] [0%Q; 0%Q; 0%Q] [1%Q; 2%Q; 3%Q]
          true false) = Ok s /\
     length (verts s) = 6 /\
     nth 2 (nth 0 (verts s) []) [] = [0%Q; 0%Q; 2%Q; 1%Q] /\
     forallb (forallb (fun v => negb (Qeq_bool (nth 2 v 0%Q) 3))) (verts s)
     = true) /\
  Tesselation3D.find_verts
    (configured 12 12 3 [1; 1; 2] [0%Q; 0%Q; 0%Q] [1%Q; 1%Q; 1%Q]
       true false) = Raise IndexError.
Proof.
  split.
  - eexists. split; [vm_compute; reflexivity|].
    repeat split; vm_compute; reflexivity.
  - vm_compute; reflexivity.
Qed.

(** C6: on the grid of 2 x 1 cells over the unit square the vertex
    (1/2, 0, 1) of simplex 0 lies on the domain minimum of axis 1 and on no
    bound of axis 0.  The row emitted for it carries the vertex in the
    columns [0, 3) of the simplex, the block of output dimension 0; no row
    carries it in the columns [3, 6), the block of output dimension 1. *)
Theorem zero_boundary2D_blocks_swapped :
  let v := [1 # 2; 0%Q; 1%Q] in
  exists s M,
    Tesselation2D.find_verts
      (configured 6 8 2 [2; 1] [0%Q; 0%Q] [1%Q; 1%Q] true false) = Ok s /\
    Tesselation2D.create_zero_boundary_constrains s = Ok M /\
    nth 2 (simplex_at s 0) [] = v /\
    Qeq_bool (nth 1 v 0%Q) 0 = true /\
    Qeq_bool (nth 0 v 0%Q) 0 = false /\
    Qeq_bool (nth 0 v 0%Q) 1 = false /\
    existsb (row_eqb (boundary_row 8 0 0 v)) (rows M) = true /\
    existsb (row_eqb (boundary_row 8 0 1 v)) (rows M) = false.
Proof.
  intros v. eexists. eexists.
  split; [vm_compute; reflexivity|].
  split; [vm_compute; reflexivity|].
  repeat split; vm_compute; reflexivity.
Qed.

(** ** Continuity rows *)

(** Two slice assignments into a row of zeros, entry by entry. *)
Lemma two_slices (W bi hi bj hj : nat) (xs ys : list Q) :
  hi = bi + length xs -> hi <= W -> hj = bj + length ys -> hj <= W ->
  exists r,
    (r1 <- set_slice (zeros W) bi hi xs ;; set_slice r1 bj hj ys) = Ok r /\
    length r = W /\
    forall c, nth c r 0%Q =
              if (bj <=? c) && (c <? hj) then nth (c - bj) ys 0%Q
              else if (bi <=? c) && (c <? hi) then nth (c - bi) xs 0%Q
              else 0%Q.
Proof.
  intros -> Hi -> Hj.
  rewrite set_slice_fits by (rewrite ?zeros_length; lia). cbn [bind].
  assert (L1 : length (firstn bi (zeros W) ++ xs
                       ++ skipn (bi + length xs) (zeros W)) = W).
  { rewrite splice_length; rewrite zeros_length; lia. }
  rewrite set_slice_fits by (rewrite ?L1; lia).
  eexists. split; [reflexivity|]. split.
  - rewrite splice_length; rewrite L1; lia.
  - intros c. rewrite splice_nth by (rewrite L1; lia).
    destruct ((bj <=? c) && (c <? bj + length ys)); [reflexivity|].
    rewrite splice_nth by (rewrite zeros_length; lia).
    destruct ((bi <=? c) && (c <? bi + length xs)); [reflexivity|].
    apply nth_zeros.
Qed.

Lemma nth_opp (v : list Q) (c : nat) :
  nth c (map Qopp v) 0%Q = (- nth c v 0%Q)%Q.
Proof. change 0%Q with (- 0)%Q at 1. apply map_nth. Qed.

Lemma cont_row_length np d1 W i j k v : length (cont_row np d1 W i j k v) = W.
Proof. unfold cont_row, range. now rewrite length_map, length_seq. Qed.

Lemma cont_row_nth np d1 W i j k v c :
  c < W ->
  nth c (cont_row np d1 W i j k v) 0%Q =
  let bi := np * i + k * d1 in
  let bj := np * j + k * d1 in
  if (bj <=? c) && (c <? bj + d1) then (- nth (c - bj) v 0%Q)%Q
  else if (bi <=? c) && (c <? bi + d1) then nth (c - bi) v 0%Q
  else 0%Q.
Proof.
  intros H. unfold cont_row, range. now rewrite nth_map_seq.
Qed.

(** The row the 3D builder makes for one vertex and one dimension. *)
Lemma continuity_row3D (self : tess) (idx i j vidx k : nat)
  (V : list vertex) (v : vertex) :
  nth_error (shared_v self) idx = Some V -> nth_error V vidx = Some v ->
  length v = ndim self + 1 ->
  n_params self * i + k * (ndim self + 1) + (ndim self + 1)
    <= n_params self * nC self ->
  n_params self * j + k * (ndim self + 1) + (ndim self + 1)
    <= n_params self * nC self ->
  Tesselation3D.continuity_row self idx i j vidx k =
  Ok (cont_row (n_params self) (ndim self + 1) (n_params self * nC self)
        i j k v).
Proof.
  intros HV Hv Hl Hi Hj. unfold Tesselation3D.continuity_row, getitem.
  rewrite HV. cbn [bind]. rewrite Hv. cbn [bind].
  destruct (@two_slices (n_params self * nC self)
              (n_params self * i + k * (ndim self + 1))
              (n_params self * i + k * (ndim self + 1) + (ndim self + 1))
              (n_params self * j + k * (ndim self + 1))
              (n_params self * j + k * (ndim self + 1) + (ndim self + 1))
              v (map Qopp v))
    as (r & E & Hr & Hn); rewrite ?length_map; try lia.
  rewrite E. f_equal.
  apply nth_ext with (d := 0%Q) (d' := 0%Q).
  - now rewrite cont_row_length.
  - intros c Hc. rewrite Hr in Hc. rewrite Hn, cont_row_nth by exact Hc.
    cbv zeta. now rewrite nth_opp.
Qed.

(** The four rows the 2D builder makes for one pair. *)
Lemma pair_rows2D (self : tess) (i j : nat) (va vb : vertex)
  (rest : list vertex) :
  length va = 3 -> length vb = 3 -> i < nC self -> j < nC self ->
  Tesselation2D.pair_rows self (i, j) (va :: vb :: rest) =
  Ok (cont_block 2 6 (6 * nC self) (i, j) [va; vb]).
Proof.
  intros Ha Hb Hi Hj. unfold Tesselation2D.pair_rows.
  cbn [getitem nth_error bind fst snd].
  assert (R : forall (k : nat) (v xs ys : list Q)
                     (K : row -> result (list row)),
             k < 2 -> length v = 3 ->
             xs = (if k =? 0 then v ++ zeros 3 else zeros 3 ++ v) ->
             ys = (if k =? 0 then map Qopp v ++ zeros 3
                   else zeros 3 ++ map Qopp v) ->
             (r1 <- set_slice (zeros (6 * nC self)) (6 * i) (6 * (i + 1)) xs ;;
              r2 <- set_slice r1 (6 * j) (6 * (j + 1)) ys ;; K r2) =
             K (cont_row 6 3 (6 * nC self) i j k v)).
  { intros k v xs ys K Hk Hv Hxs Hys.
    assert (Lx : length xs = 6).
    { subst xs. destruct (k =? 0); rewrite length_app, zeros_length; lia. }
    assert (Ly : length ys = 6).
    { subst ys. destruct (k =? 0);
        rewrite length_app, length_map, zeros_length; lia. }
    destruct (@two_slices (6 * nC self) (6 * i) (6 * (i + 1))
                (6 * j) (6 * (j + 1)) xs ys)
      as (r & E & Hr & Hn); try lia.
    rewrite <- bind_assoc, E. cbn [bind]. f_equal.
    apply nth_ext with (d := 0%Q) (d' := 0%Q).
    - now rewrite cont_row_length.
    - intros c Hc. rewrite Hr in Hc. rewrite Hn, cont_row_nth by exact Hc.
      cbv zeta. subst xs ys.
      assert (Hk' : k = 0 \/ k = 1) by lia.
      destruct Hk' as [-> | ->]; cbn [Nat.eqb];
        repeat match goal with
               | |- context [?x <=? ?y] => destruct (Nat.leb_spec x y)
               | |- context [?x <? ?y] => destruct (Nat.ltb_spec x y)
               end; cbn [andb]; try lia; try reflexivity;
        try (rewrite app_nth1 by (rewrite ?length_map, ?zeros_length; lia));
        try (rewrite app_nth2 by (rewrite ?length_map, ?zeros_length; lia));
        rewrite ?length_map, ?zeros_length, ?nth_zeros, ?nth_opp;
        try reflexivity;
        try (f_equal; lia); try (f_equal; f_equal; lia). }
  rewrite (R 0 va) by (reflexivity || lia || assumption).
  rewrite (R 1 va) by (reflexivity || lia || assumption).
  rewrite (R 0 vb) by (reflexivity || lia || assumption).
  rewrite (R 1 vb) by (reflexivity || lia || assumption).
  reflexivity.
Qed.

Lemma distinctb_spec s : distinctb s = true -> distinct s.
Proof.
  induction s as [|v s IH]; simpl; [trivial|].
  rewrite andb_true_iff, negb_true_iff. intros [H1 H2]. auto.
Qed.

Lemma nodupb_spec l : nodupb l = true -> NoDup l.
Proof.
  induction l as [|p l IH]; simpl; [constructor|].
  rewrite andb_true_iff, negb_true_iff. intros [H1 H2].
  constructor; [|auto]. intros H. apply pair_in_In in H. congruence.
Qed.

(** What [adjacency_ok] checks. *)
Lemma adjacency_ok_spec nd d1 self :
  adjacency_ok nd d1 self = true ->
  length (shared_v self) = length (shared_v_idx self) /\
  (forall p, In p (shared_v_idx self) -> fst p < snd p < nC self) /\
  NoDup (shared_v_idx self) /\
  (forall V, In V (shared_v self) ->
     length V = nd /\ distinct V /\
     forall v, In v V -> length v = d1 /\ (nth (d1 - 1) v 0 == 1)%Q).
Proof.
  unfold adjacency_ok. rewrite !andb_true_iff.
  intros [[[H1 H2] H3] H4].
  split; [now apply Nat.eqb_eq|].
  split.
  { intros p Hp. rewrite forallb_forall in H2. specialize (H2 p Hp).
    apply andb_true_iff in H2. destruct H2 as [Ha Hb].
    apply Nat.ltb_lt in Ha, Hb. lia. }
  split; [now apply nodupb_spec|].
  intros V HV. rewrite forallb_forall in H4. specialize (H4 V HV).
  rewrite !andb_true_iff in H4. destruct H4 as [[Ha Hb] Hc].
  split; [now apply Nat.eqb_eq|]. split; [now apply distinctb_spec|].
  intros v Hv. rewrite forallb_forall in Hc. specialize (Hc v Hv).
  apply andb_true_iff in Hc. destruct Hc as [Hd He].
  split; [now apply Nat.eqb_eq | now apply Qeq_bool_iff].
Qed.

(** A loop that stacks rows of the right width under a matrix. *)
Lemma for_each_rows {A} (W : nat) (l : list A)
  (body : A -> matrix -> result matrix) (g : A -> list row) :
  (forall a M, In a l -> shaped W M ->
               body a M = Ok (Matrix W (rows M ++ g a)) /\
               Forall (fun r => length r = W) (g a)) ->
  forall M, shaped W M ->
            for_each l body M = Ok (Matrix W (rows M ++ flat_map g l)) /\
            Forall (fun r => length r = W) (flat_map g l).
Proof.
  induction l as [|a l IH]; intros H M HM.
  - simpl. rewrite app_nil_r. destruct M as [c rs], HM as [Hc Hr].
    simpl in *. subst c. split; [reflexivity | constructor].
  - destruct (H a M (or_introl eq_refl) HM) as [E Hg].
    cbn [for_each flat_map]. rewrite E. cbn [bind].
    destruct (IH (fun b N Hb => H b N (or_intror Hb))
                 (Matrix W (rows M ++ g a))) as [E' Hg'].
    { split; [reflexivity|]. simpl. apply Forall_app. split; [apply HM|exact Hg]. }
    rewrite E'. cbn [rows]. rewrite <- app_assoc. split; [reflexivity|].
    apply Forall_app. now split.
Qed.

Lemma flat_map_nth_seq {A B} (h : A -> list B) (l : list A) (d : A) :
  flat_map (fun i => h (nth i l d)) (seq 0 (length l)) = flat_map h l.
Proof.
  induction l as [|a l IH]; [reflexivity|].
  cbn [length seq flat_map nth]. f_equal.
  rewrite <- IH, <- seq_shift, flat_map_concat_map, map_map.
  now rewrite <- flat_map_concat_map.
Qed.

Lemma flat_map_enumerate {A B C} (F : A -> B -> list C) (l : list A)
  (m : list B) (d : B) :
  length l <= length m ->
  flat_map (fun e => F (snd e) (nth (fst e) m d)) (enumerate l) =
  flat_map (fun p => F (fst p) (snd p)) (combine l m).
Proof.
  unfold enumerate.
  assert (G : forall (l : list A) (m0 m : list B) (s : nat),
             skipn s m0 = m -> length l <= length m ->
             flat_map (fun e => F (snd e) (nth (fst e) m0 d))
                      (combine (seq s (length l)) l) =
             flat_map (fun p => F (fst p) (snd p)) (combine l m)).
  { clear l m. induction l as [|a l IH]; intros m0 m s Hs Hl;
      [reflexivity|].
    destruct m as [|b m]; [simpl in Hl; lia|].
    cbn [length seq combine flat_map fst snd].
    assert (Hb : nth s m0 d = b).
    { rewrite <- (firstn_skipn s m0), Hs.
      assert (Hf : length (firstn s m0) = s).
      { rewrite length_firstn. apply Nat.min_l.
        apply Nat.lt_le_incl. apply Nat.nle_gt. intros Hge.
        rewrite skipn_all2 in Hs by exact Hge. discriminate. }
      rewrite app_nth2 by lia. now rewrite Hf, Nat.sub_diag. }
    rewrite Hb. f_equal. apply IH; [|simpl in Hl; lia].
    replace (S s) with (1 + s) by reflexivity.
    rewrite <- skipn_skipn, Hs. reflexivity. }
  intros H. now apply G.
Qed.

Lemma cont_block_widths nd np W ij V :
  Forall (fun r => length r = W) (cont_block nd np W ij V).
Proof.
  apply Forall_forall. intros r Hr. unfold cont_block in Hr.
  apply in_flat_map in Hr. destruct Hr as (v & _ & Hr).
  apply in_map_iff in Hr. destruct Hr as (k & <- & _).
  apply cont_row_length.
Qed.

(** The 2D builder emits the rows of [cont_rows]. *)
Lemma continuity2D_rows (self : tess) :
  length (shared_v self) = length (shared_v_idx self) ->
  (forall p, In p (shared_v_idx self) -> fst p < nC self /\ snd p < nC self) ->
  (forall V, In V (shared_v self) ->
             length V = 2 /\ forall v, In v V -> length v = 3) ->
  Tesselation2D.create_continuity_constrains self =
  Ok (Matrix (6 * nC self)
        (cont_rows 2 6 (6 * nC self) (shared_v_idx self) (shared_v self))).
Proof.
  intros Hlen Hidx HV. unfold Tesselation2D.create_continuity_constrains.
  assert (G : forall (idx : list (nat * nat)) (sv : list (list vertex))
                     (rows0 : list row) (c0 : nat),
             skipn c0 (shared_v self) = sv -> length idx <= length sv ->
             (forall p, In p idx -> fst p < nC self /\ snd p < nC self) ->
             Forall (fun r => length r = 6 * nC self) rows0 ->
             for_each idx
               (fun ij (st : matrix * nat) =>
                  let count := snd st in
                  V <- getitem (shared_v self) count ;;
                  rs <- Tesselation2D.pair_rows self ij V ;;
                  Ltemp <- vstack (fst st) rs ;;
                  Ok (Ltemp, count + 1))
               (Matrix (6 * nC self) rows0, c0) =
             Ok (Matrix (6 * nC self)
                   (rows0 ++ cont_rows 2 6 (6 * nC self) idx sv),
                 c0 + length idx)).
  { induction idx as [|[i j] idx IH]; intros sv rows0 c0 Hs Hl Hp Hr.
    - cbn [for_each]. unfold cont_rows. cbn [combine flat_map length].
      now rewrite app_nil_r, Nat.add_0_r.
    - destruct sv as [|V sv]; [simpl in Hl; lia|].
      assert (HVin : In V (shared_v self)).
      { apply (in_skipn _ c0). rewrite Hs. now left. }
      assert (Hget : getitem (shared_v self) c0 = Ok V).
      { unfold getitem.
        rewrite <- (firstn_skipn c0 (shared_v self)), Hs.
        assert (Hf : length (firstn c0 (shared_v self)) = c0).
        { rewrite length_firstn. apply Nat.min_l.
          apply Nat.lt_le_incl. apply Nat.nle_gt. intros Hge.
          rewrite skipn_all2 in Hs by exact Hge. discriminate. }
        rewrite nth_error_app2 by lia. now rewrite Hf, Nat.sub_diag. }
      destruct (HV V HVin) as [HV2 Hv3].
      destruct V as [|va [|vb [|vc rest]]]; try discriminate.
      cbn [for_each fst snd]. cbv zeta. rewrite Hget. cbn [bind].
      destruct (Hp (i, j) (or_introl eq_refl)) as [Hi Hj].
      rewrite pair_rows2D
        by (assumption || (apply Hv3; simpl; auto)).
      cbn [bind].
      destruct (@vstack_shaped (6 * nC self) (Matrix (6 * nC self) rows0)
                  (cont_block 2 6 (6 * nC self) (i, j) [va; vb]))
        as [Ev Hsh].
      { split; [reflexivity | exact Hr]. }
      { apply cont_block_widths. }
      rewrite Ev. cbn [bind rows].
      rewrite (IH sv); try (simpl in Hl; lia).
      + unfold cont_rows. cbn [combine flat_map fst snd length].
        rewrite <- app_assoc.
        replace (c0 + 1 + length idx) with (c0 + S (length idx)) by lia.
        reflexivity.
      + replace (c0 + 1) with (1 + c0) by lia.
        rewrite <- skipn_skipn, Hs. reflexivity.
      + intros p Hin. apply Hp. now right.
      + apply Hsh. }
  cbv zeta in G.
  rewrite (G (shared_v_idx self) (shared_v self) [] 0);
    try reflexivity; try lia; try assumption.
  constructor.
Qed.

(** The 3D builder emits the rows of [cont_rows]. *)
Lemma continuity3D_rows (self : tess) :
  n_params self = 12 -> ndim self = 3 ->
  length (shared_v self) = length (shared_v_idx self) ->
  (forall p, In p (shared_v_idx self) -> fst p < nC self /\ snd p < nC self) ->
  (forall V, In V (shared_v self) ->
             length V = 3 /\ forall v, In v V -> length v = 4) ->
  Tesselation3D.create_continuity_constrains self =
  Ok (Matrix (12 * nC self)
        (cont_rows 3 12 (12 * nC self) (shared_v_idx self) (shared_v self))).
Proof.
  intros Hnp Hnd Hlen Hidx HV.
  unfold Tesselation3D.create_continuity_constrains. rewrite Hnp, Hnd.
  set (W := 12 * nC self).
  pose (block := fun (e : nat * (nat * nat)) =>
                   cont_block 3 12 W (snd e) (nth (fst e) (shared_v self) [])).
  destruct (@for_each_rows _ W (enumerate (shared_v_idx self))
              (fun e => for_each (range 3)
                 (fun vidx => for_each (range 3)
                    (fun k Ltemp =>
                       row <- Tesselation3D.continuity_row self (fst e)
                                (fst (snd e)) (snd (snd e)) vidx k ;;
                       vstack Ltemp [row])))
              block) with (M := Matrix W []) as [E _].
  - intros [idx [i j]] M Hin HM. apply in_enumerate in Hin.
    destruct Hin as [Hlt Hin]. cbn [fst snd].
    destruct (Hidx _ Hin) as [Hi Hj]. cbn [fst snd] in Hi, Hj.
    assert (Hidx' : idx < length (shared_v self)) by lia.
    set (V := nth idx (shared_v self) []).
    assert (HVin : In V (shared_v self)) by now apply nth_In.
    destruct (HV V HVin) as [HV3 Hv4].
    assert (HnV : nth_error (shared_v self) idx = Some V)
      by now apply nth_error_nth'.
    split; [|apply cont_block_widths].
    destruct (@for_each_rows _ W (range 3)
                (fun vidx => for_each (range 3)
                   (fun k Ltemp =>
                      row <- Tesselation3D.continuity_row self idx i j vidx k ;;
                      vstack Ltemp [row]))
                (fun vidx => map (fun k => cont_row 12 4 W i j k (nth vidx V []))
                                 (range 3)))
      with (M := M) as [E _]; [|exact HM|].
    + intros vidx N Hvin HN. apply in_range in Hvin.
      assert (Hv : In (nth vidx V []) V) by (apply nth_In; lia).
      assert (Hnv : nth_error V vidx = Some (nth vidx V []))
        by (apply nth_error_nth'; lia).
      split.
      * destruct (@for_each_rows _ W (range 3)
                    (fun k Ltemp =>
                       row <- Tesselation3D.continuity_row self idx i j vidx k ;;
                       vstack Ltemp [row])
                    (fun k => [cont_row 12 4 W i j k (nth vidx V [])]))
          with (M := N) as [E' _]; [|exact HN|].
        -- intros k P Hk HP. apply in_range in Hk.
           rewrite (@continuity_row3D self idx i j vidx k V (nth vidx V []))
             by (try assumption; rewrite ?Hnp, ?Hnd; try lia;
                 apply Hv4; exact Hv).
           cbn [bind]. rewrite Hnp, Hnd. change (3 + 1) with 4. fold W.
           destruct (@vstack_shaped W P [cont_row 12 4 W i j k (nth vidx V [])])
             as [Ev _]; [exact HP | | ].
           ++ constructor; [apply cont_row_length | constructor].
           ++ split; [exact Ev|].
              constructor; [apply cont_row_length | constructor].
        -- rewrite E'. now rewrite flat_map_singleton.
      * apply Forall_forall. intros r Hr. apply in_map_iff in Hr.
        destruct Hr as (k & <- & _). apply cont_row_length.
    + rewrite E. f_equal. f_equal. f_equal. subst block. cbn [fst snd].
      unfold cont_block. cbn [fst snd]. change (3 + 1) with 4.
      fold V.
      rewrite <- (flat_map_nth_seq
        (fun v => map (fun k => cont_row 12 4 W i j k v) (range 3)) V []).
      now rewrite HV3.
  - split; [reflexivity | constructor].
  - rewrite E. cbn [rows app]. f_equal. f_equal.
    subst block. unfold cont_rows.
    apply (flat_map_enumerate (fun ij V => cont_block 3 12 W ij V)). lia.
Qed.

(** ** One row per pair, vertex and dimension *)

Lemma vertex_eqb_nth v w :
  vertex_eqb v w = true -> forall c, (nth c v 0 == nth c w 0)%Q.
Proof.
  revert w; induction v as [|x v IH]; intros [|y w]; simpl;
    try discriminate.
  - intros _ c. destruct c; reflexivity.
  - rewrite andb_true_iff. intros [H1 H2] [|c].
    + now apply Qeq_bool_iff.
    + now apply IH.
Qed.

Lemma nth_vertex_eqb v w :
  length v = length w ->
  (forall c, c < length v -> (nth c v 0 == nth c w 0)%Q) ->
  vertex_eqb v w = true.
Proof.
  revert w; induction v as [|x v IH]; intros [|y w]; simpl;
    try discriminate; [reflexivity|].
  intros [= Hl] H. apply andb_true_iff. split.
  - apply Qeq_bool_iff. apply (H 0). lia.
  - apply IH; [exact Hl|]. intros c Hc. apply (H (S c)). lia.
Qed.

(** Two continuity rows are equal only if they belong to the same pair, the
    same output dimension and equal vertices. *)
Lemma cont_row_inj (np d1 nd n i j k i' j' k' : nat) (v v' : vertex) :
  (np = 6 /\ d1 = 3 /\ nd = 2) \/ (np = 12 /\ d1 = 4 /\ nd = 3) ->
  i < j < n -> i' < j' < n -> k < nd -> k' < nd ->
  length v = d1 -> length v' = d1 ->
  (nth (d1 - 1) v 0 == 1)%Q -> (nth (d1 - 1) v' 0 == 1)%Q ->
  row_eqb (cont_row np d1 (np * n) i j k v)
          (cont_row np d1 (np * n) i' j' k' v') = true ->
  i = i' /\ j = j' /\ k = k' /\ vertex_eqb v v' = true.
Proof.
  intros Hdims Hij Hij' Hk Hk' Hv Hv' H1 H1' H.
  assert (Hn : forall c, c < np * n ->
             (nth c (cont_row np d1 (np * n) i j k v) 0 ==
              nth c (cont_row np d1 (np * n) i' j' k' v') 0)%Q).
  { intros c _. now apply vertex_eqb_nth. }
  clear H.
  assert (Hat : forall c, c < np * n ->
    ((if (np * j + k * d1 <=? c) && (c <? np * j + k * d1 + d1)
      then - nth (c - (np * j + k * d1)) v 0
      else if (np * i + k * d1 <=? c) && (c <? np * i + k * d1 + d1)
           then nth (c - (np * i + k * d1)) v 0 else 0) ==
     (if (np * j' + k' * d1 <=? c) && (c <? np * j' + k' * d1 + d1)
      then - nth (c - (np * j' + k' * d1)) v' 0
      else if (np * i' + k' * d1 <=? c) && (c <? np * i' + k' * d1 + d1)
           then nth (c - (np * i' + k' * d1)) v' 0 else 0))%Q).
  { intros c Hc. specialize (Hn c Hc).
    now rewrite !cont_row_nth in Hn by exact Hc. }
  clear Hn.
  (* the position of the last entry of each of the four windows *)
  assert (P : forall c, c < np * n ->
    (c = np * j + k * d1 + (d1 - 1) \/ c = np * i + k * d1 + (d1 - 1)) ->
    (np * j' + k' * d1 <= c < np * j' + k' * d1 + d1) \/
    (np * i' + k' * d1 <= c < np * i' + k' * d1 + d1)).
  { intros c Hc Hpos. specialize (Hat c Hc).
    destruct (Nat.leb_spec (np * j' + k' * d1) c),
      (Nat.ltb_spec c (np * j' + k' * d1 + d1)); cbn [andb] in Hat;
      try (left; lia);
      destruct (Nat.leb_spec (np * i' + k' * d1) c),
        (Nat.ltb_spec c (np * i' + k' * d1 + d1)); cbn [andb] in Hat;
        try (right; lia); exfalso;
        destruct Hdims as [(-> & -> & ->) | (-> & -> & ->)];
        destruct Hpos as [-> | ->];
        repeat match type of Hat with
               | context [?x <=? ?y] => destruct (Nat.leb_spec x y)
               | context [?x <? ?y] => destruct (Nat.ltb_spec x y)
               end; cbn [andb] in Hat; try lia;
        match type of Hat with
        | context [nth ?a v] =>
            (replace a with 2 in Hat by lia) || (replace a with 3 in Hat by lia)
        end; cbn [Nat.sub] in H1; lra. }
  assert (P' : forall c, c < np * n ->
    (c = np * j' + k' * d1 + (d1 - 1) \/ c = np * i' + k' * d1 + (d1 - 1)) ->
    (np * j + k * d1 <= c < np * j + k * d1 + d1) \/
    (np * i + k * d1 <= c < np * i + k * d1 + d1)).
  { intros c Hc Hpos. specialize (Hat c Hc).
    destruct (Nat.leb_spec (np * j + k * d1) c),
      (Nat.ltb_spec c (np * j + k * d1 + d1)); cbn [andb] in Hat;
      try (left; lia);
      destruct (Nat.leb_spec (np * i + k * d1) c),
        (Nat.ltb_spec c (np * i + k * d1 + d1)); cbn [andb] in Hat;
        try (right; lia); exfalso;
        destruct Hdims as [(-> & -> & ->) | (-> & -> & ->)];
        destruct Hpos as [-> | ->];
        repeat match type of Hat with
               | context [?x <=? ?y] => destruct (Nat.leb_spec x y)
               | context [?x <? ?y] => destruct (Nat.ltb_spec x y)
               end; cbn [andb] in Hat; try lia;
        match type of Hat with
        | context [nth ?a v'] =>
            (replace a with 2 in Hat by lia) || (replace a with 3 in Hat by lia)
        end; cbn [Nat.sub] in H1'; lra. }
  assert (E : i = i' /\ j = j' /\ k = k').
  { pose proof (P (np * j + k * d1 + (d1 - 1))) as Pj.
    pose proof (P (np * i + k * d1 + (d1 - 1))) as Pi.
    pose proof (P' (np * j' + k' * d1 + (d1 - 1))) as Pj'.
    pose proof (P' (np * i' + k' * d1 + (d1 - 1))) as Pi'.
    destruct Hdims as [(-> & -> & ->) | (-> & -> & ->)];
      specialize (Pj ltac:(lia) ltac:(lia));
      specialize (Pi ltac:(lia) ltac:(lia));
      specialize (Pj' ltac:(lia) ltac:(lia));
      specialize (Pi' ltac:(lia) ltac:(lia)); lia. }
  destruct E as (<- & <- & <-). repeat split.
  apply nth_vertex_eqb; [congruence|].
  intros t Ht. rewrite Hv in Ht.
  assert (Hc : np * i + k * d1 + t < np * n)
    by (destruct Hdims as [(-> & -> & ->) | (-> & -> & ->)]; lia).
  specialize (Hat _ Hc).
  destruct Hdims as [(-> & -> & ->) | (-> & -> & ->)];
    repeat match type of Hat with
           | context [?x <=? ?y] => destruct (Nat.leb_spec x y)
           | context [?x <? ?y] => destruct (Nat.ltb_spec x y)
           end; cbn [andb] in Hat; try lia;
    match type of Hat with
    | context [nth ?a v] => replace a with t in Hat by lia
    end; exact Hat.
Qed.

Lemma count_rows_app r a b :
  count_rows r (a ++ b) = count_rows r a + count_rows r b.
Proof. unfold count_rows. now rewrite filter_app, length_app. Qed.

Lemma count_rows_none r l :
  (forall x, In x l -> row_eqb r x = false) -> count_rows r l = 0.
Proof.
  unfold count_rows. induction l as [|x l IH]; intros H; [reflexivity|].
  simpl. rewrite (H x) by now left. apply IH. intros y Hy. apply H. now right.
Qed.

(** Only the block of [a] counts when no other block holds a row equal to
    [r]. *)
Lemma count_rows_flat_map {A} (r : row) (g : A -> list row)
  (l1 l2 : list A) (a : A) :
  (forall b x, In b (l1 ++ l2) -> In x (g b) -> row_eqb r x = false) ->
  count_rows r (flat_map g (l1 ++ a :: l2)) = count_rows r (g a).
Proof.
  intros H. rewrite flat_map_app. cbn [flat_map].
  rewrite !count_rows_app.
  rewrite (@count_rows_none r (flat_map g l1)),
    (@count_rows_none r (flat_map g l2)); [lia | |].
  - intros x Hx. apply in_flat_map in Hx. destruct Hx as (b & Hb & Hx).
    apply (H b); [apply in_or_app; now right | exact Hx].
  - intros x Hx. apply in_flat_map in Hx. destruct Hx as (b & Hb & Hx).
    apply (H b); [apply in_or_app; now left | exact Hx].
Qed.

Lemma map_fst_combine {A B} (l : list A) (m : list B) :
  length l <= length m -> map fst (combine l m) = l.
Proof.
  revert m; induction l as [|a l IH]; intros m H; [reflexivity|].
  destruct m as [|b m]; [simpl in H; lia|].
  simpl. f_equal. apply IH. simpl in H. lia.
Qed.

Lemma distinct_split V1 v V2 w :
  distinct (V1 ++ v :: V2) -> In w (V1 ++ V2) -> vertex_eqb v w = false.
Proof.
  induction V1 as [|x V1 IH]; simpl.
  - intros [H _] Hw. apply not_true_iff_false. intros E.
    apply not_true_iff_false in H. apply H.
    apply existsb_exists. exists w. auto.
  - intros [Hx Hd] [<-|Hw].
    + apply not_true_iff_false. intros E.
      apply not_true_iff_false in Hx. apply Hx.
      apply existsb_exists. exists v. split.
      * apply in_or_app. right. now left.
      * now rewrite vertex_eqb_sym.
    + now apply IH.
Qed.

Lemma cont_block_length nd np W ij V :
  length (cont_block nd np W ij V) = nd * length V.
Proof.
  unfold cont_block.
  rewrite length_flat_map_const with (k := nd).
  - lia.
  - intros v _. unfold range. now rewrite length_map, length_seq.
Qed.

(** Among the continuity rows of well-formed adjacency data, exactly one is
    the row of a given recorded pair, shared vertex and output dimension. *)
Lemma cont_rows_count (np d1 nd n : nat) (idx : list (nat * nat))
  (sv : list (list vertex)) (ij : nat * nat) (V : list vertex)
  (v : vertex) (k : nat) :
  (np = 6 /\ d1 = 3 /\ nd = 2) \/ (np = 12 /\ d1 = 4 /\ nd = 3) ->
  length sv = length idx ->
  (forall p, In p idx -> fst p < snd p < n) ->
  NoDup idx ->
  (forall U, In U sv ->
     length U = nd /\ distinct U /\
     forall u, In u U -> length u = d1 /\ (nth (d1 - 1) u 0 == 1)%Q) ->
  In (ij, V) (combine idx sv) -> In v V -> k < nd ->
  count_rows (cont_row np d1 (np * n) (fst ij) (snd ij) k v)
             (cont_rows nd np (np * n) idx sv) = 1.
Proof.
  intros Hdims Hlen Hidx Hnd HV Hin Hv Hk.
  assert (Hd1 : d1 = nd + 1) by (destruct Hdims as [(? & ? & ?)|(? & ? & ?)]; lia).
  assert (Hij : fst ij < snd ij < n)
    by (apply Hidx; eapply in_combine_l; destruct ij; exact Hin).
  destruct (HV V (in_combine_r _ _ _ _ Hin)) as (HVl & HVd & HVv).
  destruct (HVv v Hv) as [Hvl Hv1].
  unfold cont_rows.
  destruct (in_split _ _ Hin) as (l1 & l2 & Hsplit).
  rewrite Hsplit.
  rewrite count_rows_flat_map.
  - (* the block of the pair *)
    cbn [fst snd]. unfold cont_block.
    destruct (in_split _ _ Hv) as (V1 & V2 & HVs). rewrite HVs.
    rewrite count_rows_flat_map.
    + destruct (in_split k (range nd)) as (k1 & k2 & Hks);
        [apply in_range; exact Hk|].
      rewrite <- flat_map_singleton, Hks.
      rewrite count_rows_flat_map.
      * unfold count_rows. cbn [filter]. unfold row_eqb. rewrite <- Hd1.
        now rewrite vertex_eqb_refl.
      * intros k' x Hk' [<-|[]].
        apply not_true_iff_false. intros E. rewrite <- Hd1 in E.
        assert (Hk'r : In k' (range nd))
          by (rewrite Hks; apply in_app_or in Hk'; apply in_or_app;
              destruct Hk'; [now left | right; now right]).
        apply in_range in Hk'r.
        destruct (@cont_row_inj np d1 nd n (fst ij) (snd ij) k
                    (fst ij) (snd ij) k' v v)
          as (_ & _ & Ek & _); try assumption.
        subst k'.
        pose proof (seq_NoDup nd 0) as ND. fold (range nd) in ND.
        rewrite Hks in ND. apply NoDup_remove_2 in ND. contradiction.
    + intros w x Hw Hx. apply in_map_iff in Hx. destruct Hx as (k' & <- & Hk').
      apply in_range in Hk'.
      apply not_true_iff_false. intros E. rewrite <- Hd1 in E.
      assert (HwV : In w V)
        by (rewrite HVs; apply in_app_or in Hw; apply in_or_app;
            destruct Hw; [now left | right; now right]).
      destruct (HVv w HwV) as [Hwl Hw1].
      destruct (@cont_row_inj np d1 nd n (fst ij) (snd ij) k
                  (fst ij) (snd ij) k' v w)
        as (_ & _ & _ & Ev); try assumption.
      rewrite HVs in HVd.
      now rewrite (distinct_split _ _ _ _ HVd Hw) in Ev.
  - (* the blocks of the other pairs *)
    intros [ij' V'] x Hb Hx. cbn [fst snd] in Hx.
    unfold cont_block in Hx. apply in_flat_map in Hx.
    destruct Hx as (w & Hw & Hx). apply in_map_iff in Hx.
    destruct Hx as (k' & <- & Hk'). apply in_range in Hk'.
    apply not_true_iff_false. intros E. rewrite <- Hd1 in E.
    assert (Hin' : In (ij', V') (combine idx sv))
      by (rewrite Hsplit; apply in_app_or in Hb; apply in_or_app;
          destruct Hb; [now left | right; now right]).
    assert (Hij' : fst ij' < snd ij' < n)
      by (apply Hidx; eapply in_combine_l; destruct ij'; exact Hin').
    destruct (HV V' (in_combine_r _ _ _ _ Hin')) as (_ & _ & HVv').
    destruct (HVv' w Hw) as [Hwl Hw1].
    destruct (@cont_row_inj np d1 nd n (fst ij) (snd ij) k
                (fst ij') (snd ij') k' v w)
      as (Ei & Ej & _ & _); try assumption.
    assert (Eij : ij' = ij) by (destruct ij, ij'; simpl in *; congruence).
    subst ij'.
    assert (ND : NoDup (map fst (combine idx sv)))
      by (rewrite map_fst_combine by lia; exact Hnd).
    rewrite Hsplit, map_app in ND. cbn [map fst] in ND.
    apply NoDup_remove_2 in ND. apply ND.
    rewrite <- map_app. apply in_map_iff. exists (ij, V'). auto.
Qed.

(** C1: for the adjacency data of a valid configuration in two or three
    dimensions, the continuity builder returns, for every recorded pair
    [(i, j)] with shared vertices [V], one row per vertex [v] of [V] and
    output dimension [k < ndim]: [v] in the columns
    [i * n_params + k * (d + 1) .. i * n_params + (k + 1) * (d + 1)), [-v] in
    the same columns of [j], zero elsewhere.  The block of a pair has
    [ndim * |V|] rows (4 in 2D, 9 in 3D), and each of these rows occurs
    exactly once in the whole continuity block. *)
Theorem continuity_rows_per_pair (d : nat) (self : tess)
  (Hd : d = 2 \/ d = 3)
  (Hnp : n_params self = d * (d + 1)) (Hnd : ndim self = d)
  (Hok : adjacency_ok d (d + 1) self = true) :
  exists M,
    (if d =? 2 then Tesselation2D.create_continuity_constrains self
     else Tesselation3D.create_continuity_constrains self) = Ok M /\
    ncols M = n_params self * nC self /\
    rows M = cont_rows d (n_params self) (n_params self * nC self)
               (shared_v_idx self) (shared_v self) /\
    forall ij V,
      In (ij, V) (combine (shared_v_idx self) (shared_v self)) ->
      length V = d /\
      length (cont_block d (n_params self) (n_params self * nC self) ij V)
      = d * length V /\
      forall v k, In v V -> k < d ->
        count_rows (cont_row (n_params self) (d + 1)
                      (n_params self * nC self) (fst ij) (snd ij) k v)
                   (rows M) = 1.
Proof.
  destruct (adjacency_ok_spec _ _ _ Hok) as (Hlen & Hidx & Hnodup & HV).
  assert (Hidx' : forall p, In p (shared_v_idx self) ->
                            fst p < nC self /\ snd p < nC self)
    by (intros p Hp; specialize (Hidx p Hp); lia).
  assert (HV' : forall V, In V (shared_v self) ->
                          length V = d /\ forall v, In v V -> length v = d + 1).
  { intros V HVin. destruct (HV V HVin) as (H1 & _ & H2).
    split; [exact H1|]. intros v Hv. now apply H2. }
  assert (Hcount : forall np,
            (np = 6 /\ d + 1 = 3 /\ d = 2) \/ (np = 12 /\ d + 1 = 4 /\ d = 3) ->
            forall ij V,
              In (ij, V) (combine (shared_v_idx self) (shared_v self)) ->
              length V = d /\
              length (cont_block d np (np * nC self) ij V) = d * length V /\
              forall v k, In v V -> k < d ->
                count_rows (cont_row np (d + 1) (np * nC self)
                              (fst ij) (snd ij) k v)
                           (cont_rows d np (np * nC self)
                              (shared_v_idx self) (shared_v self)) = 1).
  { intros np Hdims ij V Hin.
    split; [apply HV'; eapply in_combine_r; exact Hin|].
    split; [apply cont_block_length|].
    intros v k Hv Hk.
    apply cont_rows_count with (V := V); assumption. }
  destruct Hd as [-> | ->]; cbn [Nat.eqb]; rewrite Hnp;
    change (2 * (2 + 1)) with 6; change (3 * (3 + 1)) with 12.
  - eexists. split; [apply continuity2D_rows; assumption|].
    split; [reflexivity|]. split; [reflexivity|].
    apply (Hcount 6). left. auto.
  - eexists. split; [apply continuity3D_rows; assumption|].
    split; [reflexivity|]. split; [reflexivity|].
    apply (Hcount 12). right. auto.
Qed.

(** ** Virtual boundary adjacency *)

Lemma adjacent_sym a b :
  adjacent a b = adjacent b a.
Proof. unfold adjacent. apply orb_comm. Qed.

Lemma adjacent_irrefl a : adjacent a a = false.
Proof.
  unfold adjacent.
  destruct (Nat.eqb_spec a (a + 1)); [lia | reflexivity].
Qed.

Lemma on_edge_sym c e mi mj : on_edge c e mi mj = on_edge c e mj mi.
Proof.
  destruct e; simpl; rewrite (adjacent_sym _ _);
    repeat match goal with
           | |- context [?x =? ?y] => destruct (Nat.eqb_spec x y)
           end; simpl; reflexivity.
Qed.

Lemma on_edge_irrefl c e m : on_edge c e m m = false.
Proof.
  destruct e; simpl; rewrite adjacent_irrefl; now rewrite andb_false_r.
Qed.

Lemma is_virtual_sym self i j : is_virtual self i j = is_virtual self j i.
Proof.
  unfold is_virtual, on_some_edge, shares.
  rewrite intersection_length_sym. f_equal.
  unfold edges. cbn [existsb].
  now rewrite !(on_edge_sym (nc self) _ (cell_at self i)).
Qed.

Lemma is_virtual_irrefl self i : is_virtual self i i = false.
Proof.
  unfold is_virtual, on_some_edge, edges. cbn [existsb].
  rewrite !on_edge_irrefl. apply andb_false_r.
Qed.

(** The four tests of the source compute [on_edge] on multi-indices of three
    entries. *)
Lemma left_of_on_edge c (mi mj : list nat) :
  length mi = 3 -> length mj = 3 ->
  Tesselation2D.left_of mi mj = Ok (on_edge c LeftEdge mi mj).
Proof.
  intros Hi Hj.
  destruct mi as [|a [|b [|s [|? ?]]]]; try discriminate.
  destruct mj as [|a' [|b' [|s' [|? ?]]]]; try discriminate.
  unfold Tesselation2D.left_of, on_edge, col, row_of, sub.
  cbn [getitem nth_error bind nth].
  destruct (Nat.eqb_spec a a'), (Nat.eqb_spec a' 0), (Nat.eqb_spec a 0);
    cbn [andb bind]; try reflexivity; try lia;
    destruct (Nat.eqb_spec s s'), (Nat.eqb_spec s' 3), (Nat.eqb_spec s 3);
    cbn [andb bind]; try reflexivity; lia.
Qed.

Lemma top_of_on_edge c (mi mj : list nat) :
  length mi = 3 -> length mj = 3 ->
  Tesselation2D.top_of mi mj = Ok (on_edge c TopEdge mi mj).
Proof.
  intros Hi Hj.
  destruct mi as [|a [|b [|s [|? ?]]]]; try discriminate.
  destruct mj as [|a' [|b' [|s' [|? ?]]]]; try discriminate.
  unfold Tesselation2D.top_of, on_edge, col, row_of, sub.
  cbn [getitem nth_error bind nth].
  destruct (Nat.eqb_spec b b'), (Nat.eqb_spec b' 0), (Nat.eqb_spec b 0);
    cbn [andb bind]; try reflexivity; try lia;
    destruct (Nat.eqb_spec s s'), (Nat.eqb_spec s' 0), (Nat.eqb_spec s 0);
    cbn [andb bind]; try reflexivity; lia.
Qed.

Lemma right_of_on_edge c (mi mj : list nat) :
  2 <= length c -> length mi = 3 -> length mj = 3 ->
  Tesselation2D.right_of c mi mj = Ok (on_edge c RightEdge mi mj).
Proof.
  intros Hc Hi Hj.
  destruct mi as [|a [|b [|s [|? ?]]]]; try discriminate.
  destruct mj as [|a' [|b' [|s' [|? ?]]]]; try discriminate.
  destruct c as [|n0 [|n1 c]]; try (simpl in Hc; lia).
  unfold Tesselation2D.right_of, on_edge, col, row_of, sub.
  cbn [getitem nth_error bind nth].
  destruct (Nat.eqb_spec a a'); cbn [bind getitem nth_error];
    destruct (Nat.eqb_spec (a' + 1) n0), (Nat.eqb_spec (a + 1) n0);
    cbn [andb bind]; try reflexivity; try lia;
    destruct (Nat.eqb_spec s s'), (Nat.eqb_spec s' 1), (Nat.eqb_spec s 1);
    cbn [andb bind]; try reflexivity; lia.
Qed.

Lemma bottom_of_on_edge c (mi mj : list nat) :
  2 <= length c -> length mi = 3 -> length mj = 3 ->
  Tesselation2D.bottom_of c mi mj = Ok (on_edge c BottomEdge mi mj).
Proof.
  intros Hc Hi Hj.
  destruct mi as [|a [|b [|s [|? ?]]]]; try discriminate.
  destruct mj as [|a' [|b' [|s' [|? ?]]]]; try discriminate.
  destruct c as [|n0 [|n1 c]]; try (simpl in Hc; lia).
  unfold Tesselation2D.bottom_of, on_edge, col, row_of, sub.
  cbn [getitem nth_error bind nth].
  destruct (Nat.eqb_spec b b'); cbn [bind getitem nth_error];
    destruct (Nat.eqb_spec (b' + 1) n1), (Nat.eqb_spec (b + 1) n1);
    cbn [andb bind]; try reflexivity; try lia;
    destruct (Nat.eqb_spec s s'), (Nat.eqb_spec s' 2), (Nat.eqb_spec s 2);
    cbn [andb bind]; try reflexivity; lia.
Qed.

Lemma offset_ghost (v : vertex) (a : nat) :
  a < length v -> Tesselation2D.offset v a = Ok (ghost v a).
Proof.
  intros H. unfold Tesselation2D.offset.
  rewrite (@getitem_nth Q _ _ 0%Q H). reflexivity.
Qed.

(** What [tables_ok] checks. *)
Lemma tables_ok_spec self :
  tables_ok self = true ->
  nC self = length (verts self) /\ nC self = length (cells self) /\
  2 <= length (nc self) /\
  (forall i, i < nC self -> length (cell_at self i) = 3) /\
  (forall i v, i < nC self -> In v (simplex_at self i) -> 2 <= length v).
Proof.
  unfold tables_ok. rewrite !andb_true_iff.
  intros [[[[H1 H2] H3] H4] H5].
  apply Nat.eqb_eq in H1, H2. apply Nat.leb_le in H3.
  repeat split; try assumption.
  - intros i Hi. rewrite forallb_forall in H4. apply Nat.eqb_eq.
    apply H4. apply nth_In. lia.
  - intros i v Hi Hv. rewrite forallb_forall in H5.
    specialize (H5 (simplex_at self i)).
    rewrite forallb_forall in H5. apply Nat.leb_le. apply H5; [|exact Hv].
    apply nth_In. lia.
Qed.

(** One pass of [find_verts_outside] is a pass of the pairwise scan. *)
Lemma outside_step_pure self i j acc :
  tables_ok self = true -> i < nC self -> j < nC self ->
  Tesselation2D.outside_step self i j acc =
  Ok (scan_step (is_virtual self) (virtual_set self) i j acc).
Proof.
  intros Hok Hi Hj.
  destruct (tables_ok_spec _ Hok) as (Hv & Hc & Hnc & Hcell & Hvert).
  unfold Tesselation2D.outside_step.
  rewrite (@getitem_nth simplex _ _ [] (eq_ind _ (fun n => i < n) Hi _ Hv)).
  rewrite (@getitem_nth simplex _ _ [] (eq_ind _ (fun n => j < n) Hj _ Hv)).
  rewrite (@getitem_nth (list nat) _ _ [] (eq_ind _ (fun n => i < n) Hi _ Hc)).
  rewrite (@getitem_nth (list nat) _ _ [] (eq_ind _ (fun n => j < n) Hj _ Hc)).
  cbn [bind].
  fold (simplex_at self i) (simplex_at self j) (cell_at self i)
    (cell_at self j). fold (shares self i j).
  rewrite (left_of_on_edge (nc self)) by (apply Hcell; assumption).
  cbn [bind].
  rewrite right_of_on_edge by (try apply Hcell; assumption). cbn [bind].
  rewrite (top_of_on_edge (nc self)) by (apply Hcell; assumption).
  cbn [bind].
  rewrite bottom_of_on_edge by (try apply Hcell; assumption). cbn [bind].
  unfold scan_step, is_virtual, on_some_edge, edges, virtual_set.
  cbn [existsb].
  set (l := on_edge (nc self) LeftEdge _ _).
  set (r := on_edge (nc self) RightEdge _ _).
  set (t := on_edge (nc self) TopEdge _ _).
  set (b := on_edge (nc self) BottomEdge _ _).
  destruct (Nat.eqb_spec (length (shares self i j)) 1) as [E1|E1];
    [|reflexivity].
  destruct (shares self i j) as [|v [|w rest]] eqn:Es; try discriminate.
  assert (Hvl : 2 <= length v).
  { apply (Hvert i v Hi). apply (shares_In self i j). rewrite Es. now left. }
  cbn [andb getitem nth_error nth].
  destruct (pair_in (j, i) (snd acc)); cbn [negb];
    [rewrite !andb_false_r; reflexivity|].
  rewrite !andb_true_r.
  destruct l, r, t, b; cbn [orb bind];
    rewrite ?offset_ghost by lia; reflexivity.
Qed.

(** [find_verts_outside] scans to the pairs of [scan_pairs] for the test
    [is_virtual], each with its shared vertex and the ghost. *)
Lemma outside_scan_pairs self :
  tables_ok self = true ->
  Tesselation2D.outside_scan self =
  Ok (map (fun p => virtual_set self (fst p) (snd p))
          (scan_pairs (nC self) (is_virtual self)),
      scan_pairs (nC self) (is_virtual self)).
Proof.
  intros Hok. unfold Tesselation2D.outside_scan.
  rewrite for_each_ext
    with (g := fun i => for_each (range (nC self))
                 (scan_body (is_virtual self) (virtual_set self) i)).
  - apply scan_correct. apply is_virtual_sym.
  - intros i s Hi. apply in_range in Hi.
    apply for_each_ext. intros j t Hj. apply in_range in Hj.
    now apply outside_step_pure.
Qed.

Lemma on_edge_sub c e mi mj :
  on_edge c e mi mj = true ->
  sub mi = match e with
           | LeftEdge => 3 | RightEdge => 1 | TopEdge => 0 | BottomEdge => 2
           end.
Proof.
  destruct e; simpl; rewrite !andb_true_iff;
    intros [[[[_ _] H] _] _]; now apply Nat.eqb_eq in H.
Qed.

(** Two triangles lie on at most one external edge. *)
Lemma on_edge_exclusive c e e' mi mj :
  on_edge c e mi mj = true -> on_edge c e' mi mj = true -> e = e'.
Proof.
  intros H H'. apply on_edge_sub in H, H'.
  destruct e, e'; try reflexivity; congruence.
Qed.

Lemma in_combine_map {A B} (f : A -> B) (l : list A) (a : A) (b : B) :
  In (a, b) (combine l (map f l)) -> b = f a /\ In a l.
Proof.
  induction l as [|x l IH]; simpl; [easy|].
  intros [[= -> ->]|H]; [auto|].
  destruct (IH H). auto.
Qed.

Lemma ghost_spec (v : vertex) (a : nat) :
  a < length v ->
  length (ghost v a) = length v /\
  nth a (ghost v a) 0%Q = (nth a v 0 - 10)%Q /\
  forall c, c <> a -> nth c (ghost v a) 0%Q = nth c v 0%Q.
Proof.
  intros H. unfold ghost.
  assert (Hf : length (firstn a v) = a) by (rewrite length_firstn; lia).
  split; [|split].
  - rewrite length_app. cbn [length]. rewrite Hf, length_skipn. lia.
  - rewrite app_nth2 by lia. now rewrite Hf, Nat.sub_diag.
  - intros c Hc. destruct (Nat.lt_ge_cases c a) as [Hlt|Hge].
    + rewrite app_nth1 by lia. rewrite nth_firstn.
      destruct (Nat.ltb_spec c a); [reflexivity | lia].
    + rewrite app_nth2 by lia. rewrite Hf.
      destruct (c - a) as [|m] eqn:E; [lia|]. cbn [nth].
      rewrite nth_skipn. f_equal. lia.
Qed.

(** C5: with zero boundary switched off, [find_verts_outside] appends to
    the recorded pairs and their vertex sets the pairs [si] and the sets
    [sv] of its scan; it completes when the recorded list and the scanned
    list are both empty or both not, and raises ValueError otherwise.  The
    scan records two triangles exactly when they lie on the same external
    edge of the domain in neighbouring cells and share exactly one vertex.
    A pair is recorded once, as [(i, j)] with [i < j], with the shared
    vertex and its ghost: the shared vertex moved by -10 along the axis
    perpendicular to the edge, all other coordinates kept.  On the grid of
    2 x 2 cells one pair per outer edge is appended to the 20 interior
    pairs, and the constructor returns the object with these 24 pairs. *)
Theorem virtual_boundary_pairs (self : tess) (Hok : tables_ok self = true) :
  (exists sv si,
     (forall s',
        Tesselation2D.find_verts_outside self = Ok s' <->
        (shared_v self = [] <-> sv = []) /\
        (shared_v_idx self = [] <-> si = []) /\
        s' = set_shared self (shared_v self ++ sv)
                        (shared_v_idx self ++ si)) /\
     (is_ok (Tesselation2D.find_verts_outside self) = false ->
      Tesselation2D.find_verts_outside self = Raise ValueError) /\
     (forall i j, i < nC self -> j < nC self ->
        (In (i, j) si \/ In (j, i) si) <->
        (exists e, on_edge (nc self) e (cell_at self i) (cell_at self j)
                   = true) /\
        length (intersection (simplex_at self i) (simplex_at self j)) = 1) /\
     (forall i j, In (i, j) si -> i < j < nC self) /\
     NoDup si /\
     length sv = length si /\
     (forall i j V, In ((i, j), V) (combine si sv) ->
        exists e v,
          on_edge (nc self) e (cell_at self i) (cell_at self j) = true /\
          intersection (simplex_at self i) (simplex_at self j) = [v] /\
          V = [v; ghost v (edge_axis e)] /\
          nth (edge_axis e) (ghost v (edge_axis e)) 0%Q
          = (nth (edge_axis e) v 0 - 10)%Q /\
          forall c, c <> edge_axis e ->
                    nth c (ghost v (edge_axis e)) 0%Q = nth c v 0%Q)) /\
  (exists s1 s2 s3 t,
     Tesselation2D.find_verts
       (configured 6 16 2 [2; 2] [0%Q; 0%Q] [1%Q; 1%Q] false true) = Ok s1 /\
     Tesselation.find_shared_verts s1 = Ok s2 /\
     Tesselation2D.find_verts_outside s2 = Ok s3 /\
     length (shared_v_idx s2) = 20 /\
     shared_v_idx s3
     = shared_v_idx s2 ++ [(0, 4); (3, 11); (5, 13); (10, 14)] /\
     length (shared_v s3) = 24 /\
     on_edge (nc s2) TopEdge (cell_at s2 0) (cell_at s2 4) = true /\
     on_edge (nc s2) LeftEdge (cell_at s2 3) (cell_at s2 11) = true /\
     on_edge (nc s2) RightEdge (cell_at s2 5) (cell_at s2 13) = true /\
     on_edge (nc s2) BottomEdge (cell_at s2 10) (cell_at s2 14) = true /\
     Tesselation2D.init [2; 2] [0%Q; 0%Q] [1%Q; 1%Q] false true = Ok t /\
     shared_v_idx t = shared_v_idx s3 /\ shared_v t = shared_v s3).
Proof.
  split.
  - destruct (tables_ok_spec _ Hok) as (Hv & Hc & Hnc & Hcell & Hvert).
    exists (map (fun p => virtual_set self (fst p) (snd p))
                (scan_pairs (nC self) (is_virtual self))),
           (scan_pairs (nC self) (is_virtual self)).
    assert (Hex : forall i j,
              on_some_edge self i j = true <->
              exists e, on_edge (nc self) e (cell_at self i) (cell_at self j)
                        = true).
    { intros i j. unfold on_some_edge. rewrite existsb_exists. split.
      - intros (e & _ & H). now exists e.
      - intros (e & H). exists e. split; [|exact H].
        destruct e; simpl; auto. }
    assert (Hlt : forall i j,
              In (i, j) (scan_pairs (nC self) (is_virtual self)) ->
              i < j < nC self).
    { intros i j H. apply in_scan_pairs in H. destruct H as (H1 & H2 & H3).
      split; [|exact H2]. destruct (Nat.eq_dec i j) as [->|]; [|lia].
      now rewrite is_virtual_irrefl in H3. }
    assert (Erun : Tesselation2D.find_verts_outside self =
                   (sv' <- concatenate_lists (shared_v self)
                             (map (fun p => virtual_set self (fst p) (snd p))
                                  (scan_pairs (nC self) (is_virtual self))) ;;
                    si' <- concatenate_lists (shared_v_idx self)
                             (scan_pairs (nC self) (is_virtual self)) ;;
                    Ok (set_shared self sv' si'))).
    { unfold Tesselation2D.find_verts_outside.
      rewrite (outside_scan_pairs self Hok). reflexivity. }
    split; [|split;
             [|split; [|split; [exact Hlt
                               | split; [apply scan_pairs_NoDup|split]]]]].
    + intros s'. rewrite Erun.
      destruct (shared_v self) as [|x xs], (shared_v_idx self) as [|y ys],
        (scan_pairs (nC self) (is_virtual self)) as [|p ps];
        cbn [map concatenate_lists bind app]; split;
        try discriminate;
        try (intros (A & B & C);
             first [ now (destruct A as [A _]; specialize (A eq_refl))
                   | now (destruct A as [_ A]; specialize (A eq_refl))
                   | now (destruct B as [B _]; specialize (B eq_refl))
                   | now (destruct B as [_ B]; specialize (B eq_refl))
                   | now subst s' ]);
        intros [= <-]; repeat split; intros; discriminate.
    + rewrite Erun.
      destruct (shared_v self) as [|x xs], (shared_v_idx self) as [|y ys],
        (scan_pairs (nC self) (is_virtual self)) as [|p ps];
        cbn [map concatenate_lists bind is_ok]; intros; first
        [ reflexivity | discriminate ].
    + intros i j Hi Hj. rewrite !in_scan_pairs.
      rewrite (is_virtual_sym self j i).
      fold (shares self i j). rewrite <- Hex.
      unfold is_virtual. rewrite andb_true_iff, Nat.eqb_eq. split.
      * intros [(_ & _ & H)|(_ & _ & H)]; tauto.
      * intros [H1 H2].
        destruct (Nat.le_ge_cases i j); [left | right]; auto.
    + now rewrite length_map.
    + intros i j V Hin.
      apply (in_combine_map (fun p => virtual_set self (fst p) (snd p)))
        in Hin.
      destruct Hin as [-> Hin]. cbn [fst snd].
      pose proof (Hlt i j Hin) as Hij.
      apply in_scan_pairs in Hin. destruct Hin as (_ & _ & H3).
      unfold is_virtual in H3. apply andb_true_iff in H3.
      destruct H3 as [H3 H4]. apply Nat.eqb_eq in H3.
      apply Hex in H4. destruct H4 as (e & He).
      fold (shares self i j).
      destruct (shares self i j) as [|v [|w rest]] eqn:Es; try discriminate.
      assert (Hvl : 2 <= length v).
      { apply (Hvert i v); [lia|].
        apply (shares_In self i j). rewrite Es. now left. }
      assert (Hax : (if on_edge (nc self) LeftEdge (cell_at self i)
                           (cell_at self j)
                        || on_edge (nc self) RightEdge (cell_at self i)
                             (cell_at self j)
                     then 0 else 1) = edge_axis e).
      { destruct (on_edge (nc self) LeftEdge _ _) eqn:El.
        - now rewrite (on_edge_exclusive _ _ _ _ _ He El).
        - destruct (on_edge (nc self) RightEdge _ _) eqn:Er.
          + now rewrite (on_edge_exclusive _ _ _ _ _ He Er).
          + destruct e; try reflexivity; congruence. }
      exists e, v. split; [exact He|]. split; [reflexivity|].
      unfold virtual_set. rewrite Es. cbn [nth]. rewrite Hax.
      split; [reflexivity|].
      apply ghost_spec. destruct e; simpl; lia.
  - eexists. eexists. eexists. eexists.
    do 12 (split; [vm_compute; reflexivity|]).
    vm_compute; reflexivity.
Qed.


(** ** The two-dimensional pipeline *)

Lemma find_verts2D_ok self a0 a1 ra b0 b1 rb n0 n1 rn :
  domain_min self = a0 :: a1 :: ra -> domain_max self = b0 :: b1 :: rb ->
  nc self = n0 :: n1 :: rn ->
  Tesselation2D.find_verts self =
  Ok (set_verts self (grid_verts a0 b0 n0 a1 b1 n1) (grid_cells n0 n1)).
Proof.
  intros Ha Hb Hn. unfold Tesselation2D.find_verts.
  rewrite Ha, Hb, Hn. cbn [getitem nth_error bind].
  rewrite for_each_collect
    with (f := fun i =>
                 flat2 (fun j => (triangle_cells i j,
                                  triangles a0 b0 n0 a1 b1 n1 i j))
                       (range n0)).
  - cbn [bind app2 flat2 fst snd app]. reflexivity.
  - intros i acc Hi. apply in_range in Hi.
    apply for_each_collect. intros j acc' Hj. apply in_range in Hj.
    unfold Tesselation2D.cell_step.
    rewrite !getitem_breakpoint by lia. reflexivity.
Qed.

Lemma grid_verts_length a0 b0 n0 a1 b1 n1 :
  length (grid_verts a0 b0 n0 a1 b1 n1) = 4 * (n0 * (n1 * 1)).
Proof.
  unfold grid_verts.
  rewrite length_flat_map_const with (k := n0 * 4).
  - unfold range. rewrite length_seq. lia.
  - intros i _. rewrite length_flat_map_const with (k := 4).
    + unfold range. now rewrite length_seq.
    + reflexivity.
Qed.

Lemma grid_cells_length n0 n1 :
  length (grid_cells n0 n1) = 4 * (n0 * (n1 * 1)).
Proof.
  unfold grid_cells.
  rewrite length_flat_map_const with (k := n0 * 4).
  - unfold range. rewrite length_seq. lia.
  - intros i _. rewrite length_flat_map_const with (k := 4).
    + unfold range. now rewrite length_seq.
    + reflexivity.
Qed.

Lemma in_grid_verts a0 b0 n0 a1 b1 n1 s :
  In s (grid_verts a0 b0 n0 a1 b1 n1) ->
  exists i j, i < n1 /\ j < n0 /\ In s (triangles a0 b0 n0 a1 b1 n1 i j).
Proof.
  unfold grid_verts. intros H. apply in_flat_map in H.
  destruct H as (i & Hi & H). apply in_flat_map in H.
  destruct H as (j & Hj & H). apply in_range in Hi, Hj. eauto.
Qed.

Lemma in_grid_cells n0 n1 m : In m (grid_cells n0 n1) -> length m = 3.
Proof.
  unfold grid_cells. intros H. apply in_flat_map in H.
  destruct H as (i & _ & H). apply in_flat_map in H.
  destruct H as (j & _ & H). simpl in H.
  repeat (destruct H as [<-|H]; [reflexivity|]). contradiction.
Qed.

(** The vertices of the grid are homogeneous points of the plane. *)
Lemma grid_vertex a0 b0 n0 a1 b1 n1 s v :
  In s (grid_verts a0 b0 n0 a1 b1 n1) -> In v s ->
  length v = 3 /\ nth 2 v 0%Q = 1%Q.
Proof.
  intros Hs Hv. apply in_grid_verts in Hs.
  destruct Hs as (i & j & _ & _ & Hs). simpl in Hs.
  repeat (destruct Hs as [<-|Hs];
          [simpl in Hv;
           repeat (destruct Hv as [<-|Hv]; [split; reflexivity|]);
           contradiction|]).
  contradiction.
Qed.

Lemma midpoint_left x y : ~ (x == y)%Q -> Qeq_bool ((x + y) / 2) x = false.
Proof.
  intros H. apply not_true_iff_false. intros E. apply Qeq_bool_iff in E.
  apply H. assert (E' : ((x + y) / 2 == (x + y) * (1 # 2))%Q) by field.
  rewrite E' in E. lra.
Qed.

Lemma midpoint_right x y : ~ (x == y)%Q -> Qeq_bool ((x + y) / 2) y = false.
Proof.
  intros H. apply not_true_iff_false. intros E. apply Qeq_bool_iff in E.
  apply H. assert (E' : ((x + y) / 2 == (x + y) * (1 # 2))%Q) by field.
  rewrite E' in E. lra.
Qed.

Lemma breakpoint_next a b n i :
  ~ (a == b)%Q -> i < n ->
  ~ (breakpoint a b n i == breakpoint a b n (i + 1))%Q.
Proof.
  intros Hab Hi E. apply breakpoint_inj in E; try assumption; lia.
Qed.

Lemma Qeq_bool_comm x y : Qeq_bool x y = Qeq_bool y x.
Proof.
  destruct (Qeq_bool x y) eqn:E1, (Qeq_bool y x) eqn:E2; try reflexivity.
  - apply Qeq_bool_sym in E1. congruence.
  - apply Qeq_bool_sym in E2. congruence.
Qed.

(** On a domain that is not flat the three vertices of a triangle are
    different. *)
Lemma grid_simplex_distinct a0 b0 n0 a1 b1 n1 s :
  ~ (a0 == b0)%Q -> ~ (a1 == b1)%Q ->
  In s (grid_verts a0 b0 n0 a1 b1 n1) -> vset s = s /\ length s = 3.
Proof.
  intros H0 H1 Hs. apply in_grid_verts in Hs.
  destruct Hs as (i & j & Hi & Hj & Hs).
  pose proof (@breakpoint_next a0 b0 n0 j H0 Hj) as Hx.
  pose proof (@breakpoint_next a1 b1 n1 i H1 Hi) as Hy.
  assert (Ex : Qeq_bool (breakpoint a0 b0 n0 j) (breakpoint a0 b0 n0 (j + 1))
               = false).
  { apply not_true_iff_false. intros E. now apply Qeq_bool_iff in E. }
  assert (Ey : Qeq_bool (breakpoint a1 b1 n1 i) (breakpoint a1 b1 n1 (i + 1))
               = false).
  { apply not_true_iff_false. intros E. now apply Qeq_bool_iff in E. }
  pose proof (midpoint_left Hx) as Mxl. pose proof (midpoint_right Hx) as Mxr.
  pose proof (midpoint_left Hy) as Myl. pose proof (midpoint_right Hy) as Myr.
  pose proof Ex as Ex'. rewrite Qeq_bool_comm in Ex'.
  pose proof Ey as Ey'. rewrite Qeq_bool_comm in Ey'.
  simpl in Hs.
  repeat (destruct Hs as [<-|Hs];
          [split; [|reflexivity];
           cbn [vset filter vertex_eqb negb];
           rewrite ?Mxl, ?Mxr, ?Myl, ?Myr, ?Ex, ?Ey, ?Ex', ?Ey',
             ?andb_false_r;
           cbn [andb negb filter];
           rewrite ?Mxl, ?Mxr, ?Myl, ?Myr, ?Ex, ?Ey, ?Ex', ?Ey',
             ?andb_false_r;
           cbn [andb negb filter]; reflexivity|]).
  contradiction.
Qed.

Lemma distinct_distinctb s : distinct s -> distinctb s = true.
Proof.
  induction s as [|v s IH]; simpl; [trivial|].
  intros [H1 H2]. now rewrite H1, IH.
Qed.

Lemma NoDup_nodupb l : NoDup l -> nodupb l = true.
Proof.
  induction 1 as [|p l Hp Hl IH]; simpl; [reflexivity|].
  rewrite IH, andb_true_r. apply negb_true_iff.
  apply not_true_iff_false. intros H. now apply pair_in_In in H.
Qed.

(** The converse of [adjacency_ok_spec]. *)
Lemma adjacency_ok_intro nd d1 self :
  length (shared_v self) = length (shared_v_idx self) ->
  (forall p, In p (shared_v_idx self) -> fst p < snd p < nC self) ->
  NoDup (shared_v_idx self) ->
  (forall V, In V (shared_v self) ->
     length V = nd /\ distinct V /\
     forall v, In v V -> length v = d1 /\ (nth (d1 - 1) v 0 == 1)%Q) ->
  adjacency_ok nd d1 self = true.
Proof.
  intros H1 H2 H3 H4. unfold adjacency_ok. rewrite !andb_true_iff.
  repeat split.
  - now apply Nat.eqb_eq.
  - apply forallb_forall. intros p Hp. specialize (H2 p Hp).
    apply andb_true_iff. split; apply Nat.ltb_lt; lia.
  - now apply NoDup_nodupb.
  - apply forallb_forall. intros V HV.
    destruct (H4 V HV) as (Ha & Hb & Hc).
    rewrite !andb_true_iff. repeat split.
    + now apply Nat.eqb_eq.
    + now apply distinct_distinctb.
    + apply forallb_forall. intros v Hv. destruct (Hc v Hv) as [Hd He].
      apply andb_true_iff. split; [now apply Nat.eqb_eq|].
      now apply Qeq_bool_iff.
Qed.

(** The adjacency data [find_shared_verts] leaves is well formed when the
    simplices are: [nC] of them, none with exactly [nd] distinct vertices,
    their vertices homogeneous with [d1] coordinates. *)
Lemma find_shared_verts_adjacency_ok (nd d1 : nat) (self s : tess) :
  ndim self = nd ->
  nC self = length (verts self) ->
  (forall i, i < nC self -> length (vset (simplex_at self i)) <> nd) ->
  (forall i v, i < nC self -> In v (simplex_at self i) ->
               length v = d1 /\ (nth (d1 - 1) v 0 == 1)%Q) ->
  Tesselation.find_shared_verts self = Ok s ->
  adjacency_ok nd d1 s = true.
Proof.
  intros Hnd Hn Hv Hh E.
  destruct (@find_shared_verts_adjacency self Hn)
    as (s' & E' & _ & Hlt & ND & _ & _ & Hsv).
  { intros i Hi. rewrite Hnd. now apply Hv. }
  rewrite E in E'. injection E' as <-.
  pose proof (@find_shared_verts_dims self s E) as (_ & HnC & _).
  apply adjacency_ok_intro.
  - rewrite Hsv. now rewrite length_map.
  - intros [i j] Hp. rewrite HnC. cbn [fst snd]. now apply Hlt.
  - exact ND.
  - intros V HV. rewrite Hsv in HV. apply in_map_iff in HV.
    destruct HV as ([i j] & <- & Hp). cbn [fst snd].
    pose proof (Hlt i j Hp) as Hij.
    rewrite find_shared_verts_scan in E by lia. injection E as E.
    rewrite <- E in Hp. cbn [shared_v_idx set_shared] in Hp.
    apply in_scan_pairs in Hp. destruct Hp as (_ & _ & Hf).
    unfold is_facet, shares in Hf. apply Nat.eqb_eq in Hf.
    split; [congruence|]. split; [apply intersection_distinct|].
    intros v Hvin. apply intersection_In in Hvin.
    apply (Hh i v); [lia | apply Hvin].
Qed.

Lemma simplex_at_In self i : i < length (verts self) ->
  In (simplex_at self i) (verts self).
Proof. intros H. now apply nth_In. Qed.

(** The tables of a 2D grid pass [tables_ok]. *)
Lemma grid_tables_ok n0 n1 a0 a1 b0 b1 zb vp :
  tables_ok (set_verts (configured 6 (4 * prod [n0; n1]) 2 [n0; n1]
                          [a0; a1] [b0; b1] zb vp)
               (grid_verts a0 b0 n0 a1 b1 n1) (grid_cells n0 n1)) = true.
Proof.
  unfold tables_ok. cbn [nC verts cells nc set_verts configured set_params
                         set_dims prod fold_right length].
  rewrite grid_verts_length, grid_cells_length, !Nat.eqb_refl.
  cbn [andb Nat.leb]. apply andb_true_iff. split.
  - apply forallb_forall. intros m Hm. apply Nat.eqb_eq.
    now apply in_grid_cells in Hm.
  - apply forallb_forall. intros s Hs. apply forallb_forall. intros v Hv.
    destruct (grid_vertex _ _ _ _ _ _ _ _ Hs Hv) as [Hl _].
    rewrite Hl. reflexivity.
Qed.

Lemma find_shared_verts_tables self s :
  Tesselation.find_shared_verts self = Ok s ->
  tables_ok s = tables_ok self /\
  (forall i, simplex_at s i = simplex_at self i) /\
  (forall i, cell_at s i = cell_at self i).
Proof.
  intros E.
  destruct (@find_shared_verts_dims self s E)
    as (_ & H1 & _ & H2 & H3 & H4 & _).
  unfold tables_ok, simplex_at, cell_at. rewrite H1, H2, H3, H4. auto.
Qed.

Lemma ghost_differs (v : vertex) (a : nat) :
  a < length v -> vertex_eqb v (ghost v a) = false.
Proof.
  intros H. apply not_true_iff_false. intros E.
  pose proof (vertex_eqb_nth _ _ E a) as En.
  destruct (ghost_spec v H) as (_ & Hg & _). rewrite Hg in En. lra.
Qed.

Lemma concatenate_lists_Ok {A} (a b r : list A) :
  concatenate_lists a b = Ok r -> r = a ++ b.
Proof.
  destruct a, b; simpl; intros [= <-]; reflexivity || discriminate.
Qed.

(** The virtual pairs keep the adjacency data well formed. *)
Lemma find_verts_outside_adjacency_ok (self s : tess) :
  tables_ok self = true -> adjacency_ok 2 3 self = true ->
  (forall i j, In (i, j) (shared_v_idx self) ->
               length (shares self i j) = 2) ->
  (forall i v, i < nC self -> In v (simplex_at self i) ->
               length v = 3 /\ (nth 2 v 0 == 1)%Q) ->
  Tesselation2D.find_verts_outside self = Ok s ->
  adjacency_ok 2 3 s = true /\ nC s = nC self /\
  n_params s = n_params self /\ ndim s = ndim self.
Proof.
  intros Htab Hadj Hint Hh E.
  unfold Tesselation2D.find_verts_outside in E.
  rewrite outside_scan_pairs in E by exact Htab. cbn [bind] in E.
  apply bind_Ok in E. destruct E as (sv' & E1 & E).
  apply bind_Ok in E. destruct E as (si' & E2 & E).
  injection E as <-.
  apply concatenate_lists_Ok in E1, E2. subst sv' si'.
  split; [|repeat split].
  destruct (adjacency_ok_spec _ _ _ Hadj) as (Hlen & Hidx & ND & HV).
  assert (Hvirt : forall i j,
            In (i, j) (scan_pairs (nC self) (is_virtual self)) ->
            i < j < nC self /\ length (shares self i j) = 1).
  { intros i j H. apply in_scan_pairs in H. destruct H as (H1 & H2 & H3).
    unfold is_virtual in H3. apply andb_true_iff in H3.
    destruct H3 as [H3 H4]. apply Nat.eqb_eq in H3.
    split; [|exact H3]. split; [|exact H2].
    destruct (Nat.eq_dec i j) as [->|]; [|lia].
    unfold on_some_edge, edges in H4. cbn [existsb] in H4.
    now rewrite !on_edge_irrefl in H4. }
  apply adjacency_ok_intro; cbn [shared_v shared_v_idx nC set_shared].
  - rewrite !length_app, length_map. lia.
  - intros p Hp. apply in_app_or in Hp. destruct Hp as [Hp|Hp].
    + now apply Hidx.
    + destruct p as [i j]. now apply Hvirt.
  - apply NoDup_app; [exact ND | apply scan_pairs_NoDup |].
    intros [i j] H1 H2. apply Hint in H1. apply Hvirt in H2. lia.
  - intros V HVin. apply in_app_or in HVin. destruct HVin as [HVin|HVin].
    + now apply HV.
    + apply in_map_iff in HVin. destruct HVin as ([i j] & <- & Hp).
      cbn [fst snd]. destruct (Hvirt i j Hp) as [Hij H1].
      unfold virtual_set.
      destruct (shares self i j) as [|v [|w rest]] eqn:Es; try discriminate.
      cbn [nth].
      assert (Hv : length v = 3 /\ (nth 2 v 0 == 1)%Q).
      { apply (Hh i v); [lia|]. apply (shares_In self i j).
        rewrite Es. now left. }
      destruct Hv as [Hvl Hv1].
      match goal with
      | |- context [ghost v ?x] => set (a := x)
      end.
      assert (Ha : a < 2)
        by (subst a;
            destruct (on_edge (nc self) LeftEdge _ _
                      || on_edge (nc self) RightEdge _ _); lia).
      destruct (ghost_spec v (a := a)) as (Hgl & _ & Hgo); [lia|].
      split; [reflexivity|]. split.
      * cbn [distinct vmem existsb]. rewrite ghost_differs by lia. auto.
      * intros u [<-|[<-|[]]]; [now split|].
        split; [lia|]. cbn [Nat.sub]. rewrite Hgo by lia. exact Hv1.
Qed.

Lemma cont_rows_widths nd np W idx sv :
  Forall (fun r => length r = W) (cont_rows nd np W idx sv).
Proof.
  apply Forall_forall. intros r Hr. unfold cont_rows in Hr.
  apply in_flat_map in Hr. destruct Hr as (p & _ & Hr).
  pose proof (cont_block_widths nd np W (fst p) (snd p)) as H.
  rewrite Forall_forall in H. now apply H.
Qed.

(** The zero-boundary rows in 2D have [6 * nC] entries. *)
Lemma zero_boundary2D_shaped (self : tess) xmin ymin xmax ymax :
  domain_min self = [xmin; ymin] -> domain_max self = [xmax; ymax] ->
  nC self <= length (verts self) ->
  (forall i v, i < nC self -> In v (simplex_at self i) -> length v = 3) ->
  exists M, Tesselation2D.create_zero_boundary_constrains self = Ok M /\
            shaped (6 * nC self) M.
Proof.
  intros Hmin Hmax Hn Hv.
  unfold Tesselation2D.create_zero_boundary_constrains.
  rewrite Hmin, Hmax. cbn [Tesselation2D.unpack2 bind].
  apply for_each_inv with (I := shaped (6 * nC self));
    [|split; [reflexivity | constructor]].
  intros c M Hc HM. apply in_range in Hc.
  rewrite (@getitem_nth simplex _ _ [] (Nat.lt_le_trans _ _ _ Hc Hn)).
  cbn [bind]. fold (simplex_at self c).
  apply for_each_inv with (I := shaped (6 * nC self)); [|exact HM].
  intros v N Hvin HN. specialize (Hv c v Hc Hvin).
  destruct v as [|x [|y [|z [|? ?]]]]; try discriminate.
  unfold Tesselation2D.boundary_step. cbn [getitem nth_error bind].
  assert (Hrow : forall vals, length vals = 6 ->
            exists r, set_slice (zeros (6 * nC self)) (6 * c) (6 * (c + 1))
                        vals = Ok r /\ length r = 6 * nC self).
  { intros vals Hl.
    destruct (@set_slice_length (zeros (6 * nC self)) (6 * c) (6 * (c + 1))
                vals) as (r & E & Hr); rewrite ?zeros_length; try lia.
    exists r. split; [exact E|]. now rewrite Hr, zeros_length. }
  assert (Hstep : forall (b : bool) vals P, length vals = 6 ->
            shaped (6 * nC self) P ->
            exists P', (if b
                        then row <- set_slice (zeros (6 * nC self))
                                      (6 * c) (6 * (c + 1)) vals ;;
                             vstack P [row]
                        else Ok P) = Ok P' /\ shaped (6 * nC self) P').
  { intros b vals P Hl HP. destruct b; [|now exists P].
    destruct (Hrow vals Hl) as (r & -> & Hr). cbn [bind].
    destruct (@vstack_shaped (6 * nC self) P [r] HP) as [E HP'].
    - constructor; [exact Hr | constructor].
    - eexists. split; [exact E | exact HP']. }
  destruct (Hstep (Qeq_bool x xmin || Qeq_bool x xmax)
              (zeros 3 ++ [x; y; z]) N eq_refl HN) as (N1 & -> & HN1).
  cbn [bind].
  apply (Hstep (Qeq_bool y ymin || Qeq_bool y ymax)
           ([x; y; z] ++ zeros 3) N1 eq_refl HN1).
Qed.

(** The last two steps of the constructor: the zero-boundary rows and the
    trace rows, when switched on, are put under the continuity rows. *)
Lemma init_blocks (m : methods) (s : tess) (Mc : matrix) (zb vp : bool)
  (W : nat) :
  W = n_params s * nC s -> n_params s = ndim s * (ndim s + 1) ->
  shaped W Mc ->
  (zb = true -> exists Mz,
      create_zero_boundary_constrains m (set_L s Mc) = Ok Mz /\ shaped W Mz) ->
  exists t,
    (self <- (if zb
              then temp <- create_zero_boundary_constrains m (set_L s Mc) ;;
                   M <- concatenate (L (set_L s Mc)) temp ;;
                   Ok (set_L (set_L s Mc) M)
              else Ok (set_L s Mc)) ;;
     self <- (if vp
              then temp <- Tesselation.create_zero_trace_constrains self ;;
                   M <- concatenate (L self) temp ;;
                   Ok (set_L self M)
              else Ok self) ;;
     Ok self) = Ok t /\
    shaped W (L t) /\ nC t = nC s /\ n_params t = n_params s /\
    shared_v t = shared_v s /\ shared_v_idx t = shared_v_idx s.
Proof.
  intros HW Hnp HMc Hzb.
  assert (H1 : exists s1,
            (if zb
             then temp <- create_zero_boundary_constrains m (set_L s Mc) ;;
                  M <- concatenate (L (set_L s Mc)) temp ;;
                  Ok (set_L (set_L s Mc) M)
             else Ok (set_L s Mc)) = Ok s1 /\
            shaped W (L s1) /\ nC s1 = nC s /\ n_params s1 = n_params s /\
            ndim s1 = ndim s /\
            shared_v s1 = shared_v s /\ shared_v_idx s1 = shared_v_idx s).
  { destruct zb.
    - destruct (Hzb eq_refl) as (Mz & -> & HMz). cbn [bind L set_L].
      destruct (concatenate_shaped HMc HMz) as [-> Hsh]. cbn [bind].
      eexists. split; [reflexivity|]. repeat split; apply Hsh.
    - eexists. split; [reflexivity|]. repeat split; apply HMc. }
  destruct H1 as (s1 & -> & Hs1 & Hn1 & Hp1 & Hd1 & Hv1 & Hi1). cbn [bind].
  destruct vp.
  - destruct (@zero_trace_shaped s1) as (Mt & -> & HMt & _).
    { now rewrite Hp1, Hd1. }
    cbn [bind]. rewrite Hp1, Hn1, <- HW in HMt.
    destruct (concatenate_shaped Hs1 HMt) as [-> Hsh]. cbn [bind].
    eexists. split; [reflexivity|]. repeat split; try assumption; apply Hsh.
  - cbn [bind]. exists s1. repeat split; try assumption; apply Hs1.
Qed.

(** Every 2D configuration over a domain that is not flat meets what the
    theorems on adjacency and continuity ask of the object: [find_verts] and
    [find_shared_verts] complete, the simplices are as many as [nC] with
    three different vertices each, and the adjacency data are well formed,
    also after [find_verts_outside] when that completes. *)
Lemma pipeline2D n0 n1 a0 a1 b0 b1 zb vp :
  ~ (a0 == b0)%Q -> ~ (a1 == b1)%Q ->
  exists s1 s2,
    Tesselation2D.find_verts
      (configured 6 (4 * prod [n0; n1]) 2 [n0; n1] [a0; a1] [b0; b1] zb vp)
    = Ok s1 /\
    Tesselation.find_shared_verts s1 = Ok s2 /\
    nC s1 = length (verts s1) /\
    (forall i, i < nC s1 -> length (vset (simplex_at s1 i)) <> ndim s1) /\
    tables_ok s1 = true /\ tables_ok s2 = true /\
    n_params s2 = 6 /\ ndim s2 = 2 /\ nC s2 = 4 * (n0 * (n1 * 1)) /\
    nC s2 = length (verts s2) /\
    domain_min s2 = [a0; a1] /\ domain_max s2 = [b0; b1] /\
    (forall i v, i < nC s2 -> In v (simplex_at s2 i) ->
                 length v = 3 /\ (nth 2 v 0 == 1)%Q) /\
    adjacency_ok 2 3 s2 = true /\
    forall s3, Tesselation2D.find_verts_outside s2 = Ok s3 ->
               adjacency_ok 2 3 s3 = true /\ nC s3 = nC s2 /\
               n_params s3 = 6 /\ ndim s3 = 2.
Proof.
  intros H0 H1.
  set (s0 := configured 6 (4 * prod [n0; n1]) 2 [n0; n1] [a0; a1] [b0; b1]
               zb vp).
  set (s1 := set_verts s0 (grid_verts a0 b0 n0 a1 b1 n1) (grid_cells n0 n1)).
  assert (Hn : nC s1 = length (verts s1)).
  { subst s1 s0. cbn [nC verts set_verts configured set_params set_dims prod
                       fold_right]. now rewrite grid_verts_length. }
  assert (Hsimp : forall i, i < nC s1 ->
                            In (simplex_at s1 i) (grid_verts a0 b0 n0 a1 b1 n1)).
  { intros i Hi. apply (simplex_at_In s1). lia. }
  assert (Hv : forall i, i < nC s1 ->
                         length (vset (simplex_at s1 i)) <> ndim s1).
  { intros i Hi.
    destruct (@grid_simplex_distinct a0 b0 n0 a1 b1 n1 _ H0 H1 (Hsimp i Hi))
      as [-> ->].
    discriminate. }
  assert (Hh : forall i v, i < nC s1 -> In v (simplex_at s1 i) ->
                           length v = 3 /\ (nth 2 v 0 == 1)%Q).
  { intros i v Hi Hvin.
    destruct (grid_vertex _ _ _ _ _ _ _ _ (Hsimp i Hi) Hvin) as [Hl ->].
    split; [exact Hl | reflexivity]. }
  assert (Htab : tables_ok s1 = true) by apply grid_tables_ok.
  destruct (@find_shared_verts_adjacency s1 Hn Hv)
    as (s2 & E2 & Hiff & Hlt & _).
  destruct (@find_shared_verts_tables s1 s2 E2) as (Ht2 & Hs2 & Hc2).
  destruct (@find_shared_verts_dims s1 s2 E2)
    as (Hp2 & Hn2 & Hd2 & Hvs2 & _ & _ & Hmin2 & Hmax2).
  assert (Hadj : adjacency_ok 2 3 s2 = true).
  { apply (@find_shared_verts_adjacency_ok 2 3 s1 s2); auto. }
  exists s1, s2.
  split; [now apply (@find_verts2D_ok s0 a0 a1 [] b0 b1 [] n0 n1 [])|].
  split; [exact E2|]. split; [exact Hn|]. split; [exact Hv|].
  split; [exact Htab|]. split; [now rewrite Ht2|].
  split; [now rewrite Hp2|]. split; [now rewrite Hd2|].
  split.
  { rewrite Hn2, Hn. subst s1. cbn [verts set_verts].
    apply grid_verts_length. }
  split; [now rewrite Hn2, Hvs2|].
  split; [now rewrite Hmin2|]. split; [now rewrite Hmax2|].
  split.
  { intros i v Hi Hvin. rewrite Hs2 in Hvin. apply (Hh i v); [lia|exact Hvin]. }
  split; [exact Hadj|].
  intros s3 E3.
  destruct (@find_verts_outside_adjacency_ok s2 s3) as (Ha & Hb & Hc & Hd);
    try assumption.
  - now rewrite Ht2.
  - intros i j Hin. unfold shares. rewrite !Hs2.
    pose proof (Hlt i j Hin) as Hij.
    apply (Hiff i j); [lia | lia | now left].
  - intros i v Hi Hvin. rewrite Hs2 in Hvin. apply (Hh i v); [lia|exact Hvin].
  - split; [exact Ha|]. split; [exact Hb|].
    split; [now rewrite Hc, Hp2 | now rewrite Hd, Hd2].
Qed.

(** In two dimensions the matrix of a completed construction has
    [n_params * nC = 6 * (4 * nc[0] * nc[1])] columns, and with zero boundary
    switched on every construction completes. *)
Lemma Tesselation2D_init_columns n0 n1 a0 a1 b0 b1 zb vp :
  ~ (a0 == b0)%Q -> ~ (a1 == b1)%Q ->
  (zb = true ->
   is_ok (Tesselation2D.init [n0; n1] [a0; a1] [b0; b1] zb vp) = true) /\
  forall t,
    Tesselation2D.init [n0; n1] [a0; a1] [b0; b1] zb vp = Ok t ->
    n_params t = 6 /\ nC t = 4 * (n0 * n1) /\ shaped (6 * nC t) (L t).
Proof.
  intros H0 H1.
  destruct (@pipeline2D n0 n1 a0 a1 b0 b1 zb vp H0 H1)
    as (s1 & s2 & E1 & E2 & Hn & _ & Ht1 & Ht2 & Hp & Hd & HnC & Hlen2 &
        Hmin2 & Hmax2 & Hvert2 & Hadj & Hout).
  unfold Tesselation2D.init, Tesselation.init.
  fold (configured 6 (4 * prod [n0; n1]) 2 [n0; n1] [a0; a1] [b0; b1] zb vp).
  cbv zeta. cbn [find_verts Tesselation2D.impl].
  rewrite E1. cbn [bind]. rewrite E2. cbn [bind].
  assert (Hcont : forall s, adjacency_ok 2 3 s = true -> nC s = nC s2 ->
            Tesselation2D.create_continuity_constrains s =
            Ok (Matrix (6 * nC s2)
                  (cont_rows 2 6 (6 * nC s2) (shared_v_idx s) (shared_v s)))).
  { intros s Hs Hns.
    destruct (adjacency_ok_spec _ _ _ Hs) as (Hlen & Hidx & _ & HV).
    rewrite continuity2D_rows; [now rewrite Hns | exact Hlen | |].
    - intros p Hin. specialize (Hidx p Hin). lia.
    - intros V HVin. destruct (HV V HVin) as (Ha & _ & Hb).
      split; [exact Ha|]. intros v Hvin. now apply Hb. }
  assert (Hsh : forall idx sv,
            shaped (6 * nC s2)
              (Matrix (6 * nC s2) (cont_rows 2 6 (6 * nC s2) idx sv))).
  { intros idx sv. split; [reflexivity | apply cont_rows_widths]. }
  assert (Htail : forall s, nC s = nC s2 -> n_params s = 6 -> ndim s = 2 ->
            (zb = true -> s = s2) ->
            forall Mc, shaped (6 * nC s2) Mc ->
            exists t,
              (self <- (if zb
                        then temp <- create_zero_boundary_constrains
                                       Tesselation2D.impl (set_L s Mc) ;;
                             M <- concatenate (L (set_L s Mc)) temp ;;
                             Ok (set_L (set_L s Mc) M)
                        else Ok (set_L s Mc)) ;;
               self <- (if vp
                        then temp <- Tesselation.create_zero_trace_constrains
                                       self ;;
                             M <- concatenate (L self) temp ;;
                             Ok (set_L self M)
                        else Ok self) ;;
               Ok self) = Ok t /\
              n_params t = 6 /\ nC t = 4 * (n0 * n1) /\
              shaped (6 * nC t) (L t)).
  { intros s Hns Hps Hds Hzb Mc HMc.
    destruct (@init_blocks Tesselation2D.impl s Mc zb vp (6 * nC s2))
      as (t & Et & Hsh' & Hnt & Hpt & _).
    - rewrite Hps, Hns. reflexivity.
    - rewrite Hps, Hds. reflexivity.
    - exact HMc.
    - intros Hz. rewrite (Hzb Hz).
      cbn [create_zero_boundary_constrains Tesselation2D.impl].
      apply (@zero_boundary2D_shaped (set_L s2 Mc) a0 a1 b0 b1).
      + exact Hmin2.
      + exact Hmax2.
      + cbn [nC verts set_L]. lia.
      + intros i v Hi Hvin. now apply (Hvert2 i v).
    - exists t. split; [exact Et|].
      split; [congruence|]. split; [lia|].
      rewrite Hnt, Hns. exact Hsh'. }
  destruct zb; cbn [negb].
  - cbn [bind create_continuity_constrains Tesselation2D.impl].
    rewrite (Hcont s2 Hadj eq_refl). cbn [bind].
    destruct (Htail s2 eq_refl Hp Hd (fun _ => eq_refl) _
                (Hsh (shared_v_idx s2) (shared_v s2)))
      as (t & Et & Ha & Hb & Hc).
    rewrite Et. split; [reflexivity|].
    intros t' [= <-]. auto.
  - split; [discriminate|].
    cbn [find_verts_outside Tesselation2D.impl].
    destruct (Tesselation2D.find_verts_outside s2) as [s3|e] eqn:E3;
      [|discriminate].
    destruct (Hout s3 eq_refl) as (Ha3 & Hn3 & Hp3 & Hd3).
    cbn [bind create_continuity_constrains Tesselation2D.impl].
    rewrite (Hcont s3 Ha3 Hn3). cbn [bind].
    destruct (Htail s3 Hn3 Hp3 Hd3 (fun H => False_ind _ (diff_false_true H))
                _ (Hsh (shared_v_idx s3) (shared_v s3)))
      as (t & Et & Ha & Hb & Hc).
    cbn [bind] in Et. rewrite Et. intros t' [= <-]. auto.
Qed.

(** ** The three-dimensional grid *)

(** With no more layers than rows, [find_verts] lists the boxes of
    [box_verts]: no vertex depends on the third entries of [domain_min] and
    [domain_max]. *)
Lemma find_verts3D_ok self a0 a1 ra b0 b1 rb n0 n1 n2 rn :
  domain_min self = a0 :: a1 :: ra -> domain_max self = b0 :: b1 :: rb ->
  nc self = n0 :: n1 :: n2 :: rn -> n2 <= n1 ->
  Tesselation3D.find_verts self =
  Ok (set_verts self (box_verts a0 b0 n0 a1 b1 n1 n2) (box_table n0 n1 n2)).
Proof.
  intros Ha Hb Hn Hle. unfold Tesselation3D.find_verts.
  rewrite Ha, Hb, Hn. cbn [getitem nth_error bind].
  rewrite for_each_collect
    with (f := fun i =>
                 flat2 (fun j =>
                   flat2 (fun k => (box_cells i j k,
                                    box_simplices a0 b0 n0 a1 b1 n1 i j k))
                         (range n0))
                   (range n1)).
  - cbn [bind app2 flat2 fst snd app]. reflexivity.
  - intros i acc Hi. apply in_range in Hi.
    apply for_each_collect. intros j acc' Hj. apply in_range in Hj.
    apply for_each_collect. intros k acc'' Hk. apply in_range in Hk.
    unfold Tesselation3D.box_step.
    rewrite !getitem_breakpoint by lia. reflexivity.
Qed.

Lemma for_each_raises_at {A S} (l1 l2 : list A) (a : A)
  (body : A -> S -> result S) (s : S) (e : exn) :
  (forall s', for_each l1 body s = Ok s' -> body a s' = Raise e) ->
  is_ok (for_each l1 body s) = true ->
  for_each (l1 ++ a :: l2) body s = Raise e.
Proof.
  intros H Hok. rewrite for_each_app.
  destruct (for_each l1 body s) as [s'|]; [|discriminate].
  cbn [bind for_each]. now rewrite (H s' eq_refl).
Qed.

(** With more layers than rows, [find_verts] reads past the last breakpoint
    of its table [Vz]. *)
Lemma find_verts3D_overrun self a0 a1 ra b0 b1 rb n0 n1 n2 rn :
  domain_min self = a0 :: a1 :: ra -> domain_max self = b0 :: b1 :: rb ->
  nc self = n0 :: n1 :: n2 :: rn -> 0 < n0 -> 0 < n1 -> n1 < n2 ->
  Tesselation3D.find_verts self = Raise IndexError.
Proof.
  intros Ha Hb Hn H0 H1 Hlt. unfold Tesselation3D.find_verts.
  rewrite Ha, Hb, Hn. cbn [getitem nth_error bind].
  assert (Hsplit : range n2 = range n1 ++ n1 :: seq (S n1) (n2 - S n1)).
  { unfold range. replace n2 with (n1 + S (n2 - S n1)) at 1 by lia.
    rewrite seq_app. reflexivity. }
  rewrite Hsplit.
  rewrite for_each_raises_at with (e := IndexError); [reflexivity | |].
  - intros acc _.
    destruct n1 as [|m1]; [lia|]. destruct n0 as [|m0]; [lia|].
    unfold range. cbn [seq for_each]. unfold Tesselation3D.box_step.
    rewrite !getitem_breakpoint by lia.
    cbn [bind].
    rewrite (@getitem_out Q (linspace a1 b1 (S m1 + 1)) (S m1 + 1))
      by (rewrite linspace_length; lia).
    reflexivity.
  - rewrite for_each_collect
      with (f := fun i =>
                   flat2 (fun j =>
                     flat2 (fun k => (box_cells i j k,
                                      box_simplices a0 b0 n0 a1 b1 n1 i j k))
                           (range n0))
                     (range n1)); [reflexivity|].
    intros i acc Hi. apply in_range in Hi.
    apply for_each_collect. intros j acc' Hj. apply in_range in Hj.
    apply for_each_collect. intros k acc'' Hk. apply in_range in Hk.
    unfold Tesselation3D.box_step.
    rewrite !getitem_breakpoint by lia. reflexivity.
Qed.

Lemma box_verts_length a0 b0 n0 a1 b1 n1 n2 :
  length (box_verts a0 b0 n0 a1 b1 n1 n2) = 6 * (n0 * (n1 * (n2 * 1))).
Proof.
  unfold box_verts.
  rewrite length_flat_map_const with (k := n1 * (n0 * 6)).
  - unfold range. rewrite length_seq. lia.
  - intros i _. rewrite length_flat_map_const with (k := n0 * 6).
    + unfold range. now rewrite length_seq.
    + intros j _. rewrite length_flat_map_const with (k := 6).
      * unfold range. now rewrite length_seq.
      * reflexivity.
Qed.

Lemma in_box_verts a0 b0 n0 a1 b1 n1 n2 s :
  In s (box_verts a0 b0 n0 a1 b1 n1 n2) ->
  exists i j k, i < n2 /\ j < n1 /\ k < n0 /\
                In s (box_simplices a0 b0 n0 a1 b1 n1 i j k).
Proof.
  unfold box_verts. intros H. apply in_flat_map in H.
  destruct H as (i & Hi & H). apply in_flat_map in H.
  destruct H as (j & Hj & H). apply in_flat_map in H.
  destruct H as (k & Hk & H). apply in_range in Hi, Hj, Hk.
  exists i, j, k. auto.
Qed.

(** The vertices of the boxes are homogeneous points of space. *)
Lemma box_vertex a0 b0 n0 a1 b1 n1 n2 s v :
  In s (box_verts a0 b0 n0 a1 b1 n1 n2) -> In v s ->
  length v = 4 /\ nth 3 v 0%Q = 1%Q.
Proof.
  intros Hs Hv. apply in_box_verts in Hs.
  destruct Hs as (i & j & k & _ & _ & _ & Hs). simpl in Hs.
  repeat (destruct Hs as [<-|Hs];
          [simpl in Hv;
           repeat (destruct Hv as [<-|Hv]; [split; reflexivity|]);
           contradiction|]).
  contradiction.
Qed.

(** On a domain that is not flat along its first two axes the five vertices
    of a simplex are different. *)
Lemma box_simplex_distinct a0 b0 n0 a1 b1 n1 n2 s :
  ~ (a0 == b0)%Q -> ~ (a1 == b1)%Q -> n2 <= n1 ->
  In s (box_verts a0 b0 n0 a1 b1 n1 n2) -> vset s = s /\ length s = 5.
Proof.
  intros H0 H1 Hle Hs. apply in_box_verts in Hs.
  destruct Hs as (i & j & k & Hi & Hj & Hk & Hs).
  assert (Hi' : i < n1) by lia.
  pose proof (@breakpoint_next a0 b0 n0 k H0 Hk) as Hx.
  pose proof (@breakpoint_next a1 b1 n1 j H1 Hj) as Hy.
  pose proof (@breakpoint_next a1 b1 n1 i H1 Hi') as Hz.
  assert (Ex : Qeq_bool (breakpoint a0 b0 n0 k) (breakpoint a0 b0 n0 (k + 1))
               = false).
  { apply not_true_iff_false. intros E. now apply Qeq_bool_iff in E. }
  assert (Ey : Qeq_bool (breakpoint a1 b1 n1 j) (breakpoint a1 b1 n1 (j + 1))
               = false).
  { apply not_true_iff_false. intros E. now apply Qeq_bool_iff in E. }
  assert (Ez : Qeq_bool (breakpoint a1 b1 n1 i) (breakpoint a1 b1 n1 (i + 1))
               = false).
  { apply not_true_iff_false. intros E. now apply Qeq_bool_iff in E. }
  pose proof (midpoint_left Hx) as Mxl. pose proof (midpoint_right Hx) as Mxr.
  pose proof Ex as Ex'. rewrite Qeq_bool_comm in Ex'.
  pose proof Ey as Ey'. rewrite Qeq_bool_comm in Ey'.
  pose proof Ez as Ez'. rewrite Qeq_bool_comm in Ez'.
  simpl in Hs.
  repeat (destruct Hs as [<-|Hs];
          [split; [|reflexivity];
           cbn [vset];
           repeat (cbn [filter vertex_eqb negb andb];
                   rewrite ?Mxl, ?Mxr, ?Ex, ?Ey, ?Ez, ?Ex', ?Ey',
                     ?Ez', ?andb_false_r);
           reflexivity|]).
  contradiction.
Qed.

(** Every 3D configuration with no more layers than rows, over a domain that
    is not flat along its first two axes, meets what the theorems on
    adjacency and continuity ask of the object. *)
Lemma pipeline3D n0 n1 n2 a0 a1 a2 b0 b1 b2 zb vp :
  ~ (a0 == b0)%Q -> ~ (a1 == b1)%Q -> n2 <= n1 ->
  exists s1 s2,
    Tesselation3D.find_verts
      (configured 12 (6 * prod [n0; n1; n2]) 3 [n0; n1; n2]
         [a0; a1; a2] [b0; b1; b2] zb vp) = Ok s1 /\
    verts s1 = box_verts a0 b0 n0 a1 b1 n1 n2 /\
    Tesselation.find_shared_verts s1 = Ok s2 /\
    nC s1 = length (verts s1) /\
    (forall i, i < nC s1 -> length (vset (simplex_at s1 i)) <> ndim s1) /\
    n_params s2 = 12 /\ ndim s2 = 3 /\
    adjacency_ok 3 4 s2 = true.
Proof.
  intros H0 H1 Hle.
  set (s0 := configured 12 (6 * prod [n0; n1; n2]) 3 [n0; n1; n2]
               [a0; a1; a2] [b0; b1; b2] zb vp).
  set (s1 := set_verts s0 (box_verts a0 b0 n0 a1 b1 n1 n2)
               (box_table n0 n1 n2)).
  assert (Hn : nC s1 = length (verts s1)).
  { subst s1 s0. cbn [nC verts set_verts configured set_params set_dims prod
                       fold_right]. now rewrite box_verts_length. }
  assert (Hsimp : forall i, i < nC s1 ->
            In (simplex_at s1 i) (box_verts a0 b0 n0 a1 b1 n1 n2)).
  { intros i Hi. apply (simplex_at_In s1). lia. }
  assert (Hv : forall i, i < nC s1 ->
                         length (vset (simplex_at s1 i)) <> ndim s1).
  { intros i Hi.
    destruct (@box_simplex_distinct a0 b0 n0 a1 b1 n1 n2 _ H0 H1 Hle
                (Hsimp i Hi)) as [-> ->].
    discriminate. }
  assert (Hh : forall i v, i < nC s1 -> In v (simplex_at s1 i) ->
                           length v = 4 /\ (nth 3 v 0 == 1)%Q).
  { intros i v Hi Hvin.
    destruct (@box_vertex a0 b0 n0 a1 b1 n1 n2 _ v (Hsimp i Hi) Hvin)
      as [Hl ->].
    split; [exact Hl | reflexivity]. }
  destruct (@find_shared_verts_adjacency s1 Hn Hv) as (s2 & E2 & _).
  destruct (@find_shared_verts_dims s1 s2 E2) as (Hp2 & _ & Hd2 & _).
  exists s1, s2.
  split; [now apply (@find_verts3D_ok s0 a0 a1 [a2] b0 b1 [b2] n0 n1 n2 [])|].
  split; [reflexivity|]. split; [exact E2|]. split; [exact Hn|].
  split; [exact Hv|]. split; [now rewrite Hp2|]. split; [now rewrite Hd2|].
  apply (@find_shared_verts_adjacency_ok 3 4 s1 s2); auto.
Qed.

(** Every 1D configuration over a domain that is not a single point meets
    what the theorem on adjacency asks of the object. *)
Lemma pipeline1D n a b zb vp :
  ~ (a == b)%Q ->
  exists s1,
    Tesselation1D.find_verts (configured 2 (prod [n]) 1 [n] [a] [b] zb vp)
    = Ok s1 /\
    nC s1 = length (verts s1) /\
    (forall i, i < nC s1 -> length (vset (simplex_at s1 i)) <> ndim s1).
Proof.
  intros Hab. eexists.
  split; [now apply (@find_verts1D_ok _ a b n [] [] [])|].
  cbn [nC verts ndim set_verts configured set_params set_dims prod
       fold_right].
  unfold intervals, range. rewrite length_map, length_seq.
  split; [lia|]. intros i Hi. rewrite Nat.mul_1_r in Hi.
  unfold simplex_at. cbn [verts set_verts].
  fold (range n). fold (intervals a b n). rewrite intervals_nth by exact Hi.
  unfold interval. cbn [vset filter]. rewrite vertex_eqb_1D.
  rewrite breakpoint_eqb by (assumption || lia).
  destruct (Nat.eqb_spec i (i + 1)); [lia|]. discriminate.
Qed.

(** ** The theorems at small configurations *)

Lemma find_shared_verts_adjacency_witness :
  nC one_cell_2D = length (verts one_cell_2D) /\
  exists s,
    Tesselation.find_shared_verts one_cell_2D = Ok s /\
    (forall i j, In (i, j) (shared_v_idx s) -> i < j < nC one_cell_2D) /\
    NoDup (shared_v_idx s).
Proof.
  split; [reflexivity|].
  destruct (find_shared_verts_adjacency one_cell_2D)
    as (s & E & _ & H & ND & _).
  - reflexivity.
  - intros i Hi.
    do 4 (destruct i as [|i]; [vm_compute; discriminate|]).
    vm_compute in Hi. lia.
  - exists s. auto.
Defined.

Lemma continuity_rows_per_pair_witness :
  adjacency_ok 2 3 grid22_outside = true /\
  adjacency_ok 3 4 one_box_3D = true /\
  (exists M,
     Tesselation2D.create_continuity_constrains grid22_outside = Ok M /\
     ncols M = 96 /\ length (rows M) = 96) /\
  (exists M,
     Tesselation3D.create_continuity_constrains one_box_3D = Ok M /\
     ncols M = 72).
Proof.
  assert (H2 : adjacency_ok 2 3 grid22_outside = true)
    by (vm_compute; reflexivity).
  assert (H3 : adjacency_ok 3 4 one_box_3D = true)
    by (vm_compute; reflexivity).
  split; [exact H2|]. split; [exact H3|]. split.
  - destruct (@continuity_rows_per_pair 2 grid22_outside
                (or_introl eq_refl) eq_refl eq_refl H2)
      as (M & E & Hc & Hr & _).
    exists M. split; [exact E|]. split; [exact Hc|].
    rewrite Hr. vm_compute. reflexivity.
  - destruct (@continuity_rows_per_pair 3 one_box_3D
                (or_intror eq_refl) eq_refl eq_refl H3)
      as (M & E & Hc & _).
    exists M. split; [exact E | exact Hc].
Defined.

Lemma virtual_boundary_pairs_witness :
  tables_ok grid22_shared = true /\
  exists sv si,
    Tesselation2D.find_verts_outside grid22_shared
    = Ok (set_shared grid22_shared (shared_v grid22_shared ++ sv)
            (shared_v_idx grid22_shared ++ si)) /\
    NoDup si /\ length sv = length si.
Proof.
  assert (H : tables_ok grid22_shared = true) by (vm_compute; reflexivity).
  split; [exact H|].
  destruct (virtual_boundary_pairs grid22_shared H)
    as ((sv & si & E & _ & _ & _ & ND & Hl & _) & _).
  exists sv, si. split; [|split; [exact ND|exact Hl]].
  apply E.
  assert (R : is_ok (Tesselation2D.find_verts_outside grid22_shared) = true)
    by (vm_compute; reflexivity).
  destruct (Tesselation2D.find_verts_outside grid22_shared) as [s'|] eqn:Es;
    [|discriminate].
  destruct (proj1 (E s') eq_refl) as (A & B & C).
  repeat split; [apply A|apply A|apply B|apply B].
Defined.

(** ** The trace rows *)

Lemma eye_row_from (d s n m : nat) :
  s + n <= d -> s * (d + 1) <= m ->
  nth (m - s * (d + 1))
      (flat_map (fun r => map (fun c => if r =? c then 1%Q else 0%Q) (range d)
                          ++ [0%Q])
                (seq s n)) 0%Q =
  if existsb (fun r => m =? r * (d + 1) + r) (seq s n) then 1%Q else 0%Q.
Proof.
  revert s. induction n as [|n IH]; intros s Hs Hm.
  - cbn. now destruct (m - s * (d + 1)).
  - cbn [seq flat_map existsb].
    set (g := map (fun c => if s =? c then 1%Q else 0%Q) (range d) ++ [0%Q]).
    assert (Lg : length g = d + 1).
    { unfold g, range. rewrite length_app, length_map, length_seq. reflexivity. }
    destruct (Nat.lt_ge_cases (m - s * (d + 1)) (d + 1)) as [Hk|Hk].
    + rewrite app_nth1 by lia.
      assert (R : existsb (fun r => m =? r * (d + 1) + r) (seq (S s) n) = false).
      { apply not_true_is_false. intros E. apply existsb_exists in E.
        destruct E as (r & Hr & E). apply in_seq in Hr.
        apply Nat.eqb_eq in E. nia. }
      rewrite R, orb_false_r.
      destruct (Nat.eqb_spec m (s * (d + 1) + s)) as [E|E].
      * subst m. replace (s * (d + 1) + s - s * (d + 1)) with s by lia.
        unfold g. rewrite app_nth1
          by (unfold range; rewrite length_map, length_seq; lia).
        rewrite (nth_map_seq (fun c => if s =? c then 1%Q else 0%Q))
          by lia.
        now rewrite Nat.eqb_refl.
      * unfold g.
        destruct (Nat.lt_ge_cases (m - s * (d + 1)) d) as [Hd|Hd].
        -- rewrite app_nth1
             by (unfold range; rewrite length_map, length_seq; lia).
           rewrite (nth_map_seq (fun c => if s =? c then 1%Q else 0%Q))
             by lia.
           destruct (Nat.eqb_spec s (m - s * (d + 1))); [lia|reflexivity].
        -- rewrite app_nth2
             by (unfold range; rewrite length_map, length_seq; lia).
           unfold range. rewrite length_map, length_seq.
           replace (m - s * (d + 1) - d) with 0 by lia. reflexivity.
    + rewrite app_nth2 by lia. rewrite Lg.
      replace (m - s * (d + 1) - (d + 1)) with (m - S s * (d + 1)) by lia.
      rewrite IH by lia.
      destruct (Nat.eqb_spec m (s * (d + 1) + s)) as [E|E]; [lia|].
      reflexivity.
Qed.

Lemma eye_row_nth (d k : nat) :
  nth k (Tesselation.eye_row d) 0%Q =
  if existsb (fun r => k =? r * (d + 1) + r) (range d) then 1%Q else 0%Q.
Proof.
  unfold Tesselation.eye_row, range.
  pose proof (@eye_row_from d 0 d k) as H.
  rewrite Nat.mul_0_l, Nat.sub_0_r in H. apply H; lia.
Qed.

Lemma getitem_middle {A} (done rest : list A) (x : A) :
  getitem (done ++ x :: rest) (length done) = Ok x.
Proof.
  unfold getitem. rewrite nth_error_app2 by lia.
  now rewrite Nat.sub_diag.
Qed.

Lemma setitem_row_middle (W : nat) (done rest : list row) (r r' : row)
  (upd : row -> result row) :
  upd r = Ok r' ->
  setitem_row (Matrix W (done ++ r :: rest)) (length done) upd =
  Ok (Matrix W (done ++ r' :: rest)).
Proof.
  intros H. unfold setitem_row. cbn [rows ncols].
  rewrite getitem_middle. cbn [bind]. rewrite H. cbn [bind].
  rewrite firstn_app, firstn_all, Nat.sub_diag, firstn_0, app_nil_r.
  replace (S (length done)) with (length (done ++ [r]))
    by (rewrite length_app; cbn; lia).
  replace (done ++ r :: rest) with ((done ++ [r]) ++ rest)
    by (now rewrite <- app_assoc).
  rewrite skipn_app, skipn_all, Nat.sub_diag. reflexivity.
Qed.

(** A loop that fills the rows of a zero matrix one after the other. *)
Lemma for_each_fill_rows {A} (W : nat) (ps : list (nat * A))
  (body : nat * A -> matrix -> result matrix) (f : nat * A -> row) :
  forall done,
    map fst ps = seq (length done) (length ps) ->
    (forall p d rest, In p ps -> length d = fst p ->
       body p (Matrix W (d ++ zeros W :: rest)) =
       Ok (Matrix W (d ++ f p :: rest))) ->
    for_each ps body (Matrix W (done ++ repeat (zeros W) (length ps))) =
    Ok (Matrix W (done ++ map f ps)).
Proof.
  induction ps as [|p ps IH]; intros done Hs Hb.
  - reflexivity.
  - cbn [length seq map] in Hs. injection Hs as Hp Hs.
    cbn [for_each length repeat map].
    rewrite (Hb p done _ (or_introl eq_refl) (eq_sym Hp)). cbn [bind].
    replace (done ++ f p :: repeat (zeros W) (length ps))
      with ((done ++ [f p]) ++ repeat (zeros W) (length ps))
      by (now rewrite <- app_assoc).
    rewrite IH.
    + now rewrite <- app_assoc.
    + rewrite length_app. cbn. now rewrite Nat.add_1_r.
    + intros q d rest Hq. apply Hb. now right.
Qed.

Lemma trace_rows_loop (W n : nat) (upd : nat -> row -> result row)
  (f : nat -> row) :
  (forall c, c < n -> upd c (zeros W) = Ok (f c)) ->
  for_each (range n) (fun c M => setitem_row M c (upd c)) (zeros2 n W) =
  Ok (Matrix W (map f (range n))).
Proof.
  intros H.
  pose proof (@for_each_fill_rows unit W (map (fun c => (c, tt)) (range n))
                (fun p M => setitem_row M (fst p) (upd (fst p)))
                (fun p => f (fst p)) []) as G.
  rewrite length_map in G. unfold range in *. rewrite length_seq in G.
  cbn [app length] in G.
  assert (E : forall (l : list nat) M,
             for_each (map (fun c => (c, tt)) l)
               (fun p M => setitem_row M (fst p) (upd (fst p))) M =
             for_each l (fun c M => setitem_row M c (upd c)) M).
  { induction l as [|c l IH]; intros M; [reflexivity|].
    cbn [map for_each fst]. destruct (setitem_row M c (upd c)); cbn [bind];
      [apply IH|reflexivity]. }
  rewrite E in G. unfold zeros2. rewrite G.
  - now rewrite map_map.
  - rewrite map_map. cbn [fst]. now rewrite map_id.
  - intros p d rest Hp Hd. apply in_map_iff in Hp.
    destruct Hp as (c & <- & Hc). apply in_seq in Hc. cbn [fst] in *.
    rewrite <- Hd. apply setitem_row_middle. apply H. lia.
Qed.

Lemma firstn_zeros (W k : nat) : k <= W -> firstn k (zeros W) = zeros k.
Proof.
  intros H. unfold zeros. replace W with (k + (W - k)) by lia.
  rewrite repeat_app, firstn_app, repeat_length, Nat.sub_diag, firstn_0.
  rewrite app_nil_r. apply firstn_all2. now rewrite repeat_length.
Qed.

Lemma skipn_zeros (W k : nat) : skipn k (zeros W) = zeros (W - k).
Proof.
  unfold zeros. destruct (Nat.le_ge_cases k W) as [H|H].
  - replace W with (k + (W - k)) at 1 by lia.
    rewrite repeat_app, skipn_app, repeat_length, Nat.sub_diag.
    rewrite skipn_all2 by (now rewrite repeat_length). reflexivity.
  - rewrite skipn_all2 by (rewrite repeat_length; lia).
    now replace (W - k) with 0 by lia.
Qed.

(** The row a slice assignment into zeros leaves. *)
Lemma set_slice_zeros (W lo hi : nat) (vals : list Q) :
  hi = lo + length vals -> hi <= W ->
  set_slice (zeros W) lo hi vals =
  Ok (zeros lo ++ vals ++ zeros (W - hi)).
Proof.
  intros Hh Hw. rewrite set_slice_fits; [|assumption|now rewrite zeros_length].
  rewrite firstn_zeros by lia. now rewrite skipn_zeros.
Qed.

Lemma block_nth (lo k : nat) (vals : list Q) (c : nat) :
  nth c (zeros lo ++ vals ++ zeros k) 0%Q =
  if (lo <=? c) && (c <? lo + length vals) then nth (c - lo) vals 0%Q
  else 0%Q.
Proof.
  destruct (Nat.leb_spec lo c) as [H1|H1]; cbn [andb].
  - rewrite app_nth2 by (rewrite zeros_length; lia). rewrite zeros_length.
    destruct (Nat.ltb_spec c (lo + length vals)) as [H2|H2].
    + now rewrite app_nth1 by lia.
    + rewrite app_nth2 by lia. apply nth_zeros.
  - rewrite app_nth1 by (rewrite zeros_length; lia). apply nth_zeros.
Qed.

Lemma zero_trace_rows_eq (self : tess) :
  n_params self = ndim self * (ndim self + 1) ->
  Tesselation.create_zero_trace_constrains self =
  Ok (Matrix (n_params self * nC self)
        (map (fun c => zeros (n_params self * c)
                       ++ Tesselation.eye_row (ndim self)
                       ++ zeros (n_params self * nC self
                                 - n_params self * (c + 1)))
             (range (nC self)))).
Proof.
  intros Hnp. unfold Tesselation.create_zero_trace_constrains.
  apply trace_rows_loop. intros c Hc.
  apply set_slice_zeros.
  - rewrite eye_row_length. lia.
  - nia.
Qed.

(** X1: when [n_params = ndim * (ndim + 1)], [create_zero_trace_constrains]
    returns one row per simplex, each as wide as the parameter vector; the
    row of simplex [c] holds 1 in the columns
    [n_params * c + r * (ndim + 1) + r], [r < ndim], the diagonal of the
    linear part of the affine map of [c], and 0 in every other column. *)
Theorem zero_trace_rows (self : tess)
  (Hnp : n_params self = ndim self * (ndim self + 1)) :
  exists M,
    Tesselation.create_zero_trace_constrains self = Ok M /\
    ncols M = n_params self * nC self /\
    length (rows M) = nC self /\
    forall c, c < nC self ->
      length (nth c (rows M) []) = n_params self * nC self /\
      forall col,
        nth col (nth c (rows M) []) 0%Q =
        if on_diagonal (n_params self) (ndim self) c col then 1%Q else 0%Q.
Proof.
  eexists. split; [apply (@zero_trace_rows_eq self Hnp)|]. cbn [ncols rows].
  split; [reflexivity|]. split.
  { unfold range. now rewrite length_map, length_seq. }
  intros c Hc. unfold range at 1 2.
  rewrite (nth_map_seq _ _ Hc). split.
  { rewrite !length_app, !zeros_length, eye_row_length. nia. }
  intros col. rewrite block_nth, eye_row_length, eye_row_nth.
  unfold on_diagonal.
  set (np := n_params self) in *. set (d := ndim self) in *.
  assert (X : forall b1 b2 : bool, b1 = b2 ->
            (if b1 then 1%Q else 0%Q) = (if b2 then 1%Q else 0%Q))
    by (intros; now subst).
  destruct (Nat.leb_spec (np * c) col) as [H1|H1]; cbn [andb].
  - destruct (Nat.ltb_spec col (np * c + d * (d + 1))) as [H2|H2].
    + apply X. apply eq_true_iff_eq. rewrite !existsb_exists.
      split; intros (r & Hr & E); exists r; (split; [exact Hr|]);
        apply Nat.eqb_eq in E; apply Nat.eqb_eq; lia.
    + symmetry. apply (X _ false). apply not_true_is_false. intros E.
      apply existsb_exists in E. destruct E as (r & Hr & E).
      apply in_seq in Hr. apply Nat.eqb_eq in E. nia.
  - symmetry. apply (X _ false). apply not_true_is_false. intros E.
    apply existsb_exists in E. destruct E as (r & Hr & E).
    apply Nat.eqb_eq in E. lia.
Qed.

(** X2: on an object with at least one simplex whose [n_params] is not
    [ndim * (ndim + 1)], [create_zero_trace_constrains] raises ValueError:
    the flattened [eye | 0] block does not fit the slice of the first
    row. *)
Theorem zero_trace_needs_affine_blocks (self : tess)
  (HnC : 0 < nC self)
  (Hnp : n_params self <> ndim self * (ndim self + 1)) :
  Tesselation.create_zero_trace_constrains self = Raise ValueError.
Proof.
  unfold Tesselation.create_zero_trace_constrains.
  destruct (nC self) as [|n] eqn:En; [lia|].
  unfold range. cbn [seq for_each].
  assert (E : setitem_row (zeros2 (S n) (n_params self * S n)) 0
                (fun r => set_slice r (n_params self * 0)
                            (n_params self * (0 + 1))
                            (Tesselation.eye_row (ndim self)))
              = Raise ValueError).
  { unfold zeros2. cbn [repeat].
    unfold setitem_row. cbn [rows getitem nth_error bind].
    rewrite set_slice_mismatch; [reflexivity| | | |].
    - lia.
    - rewrite zeros_length. nia.
    - rewrite eye_row_length. lia.
    - rewrite eye_row_length. intros E.
      destruct (ndim self) as [|[|d]]; cbn in E; lia. }
  rewrite E. reflexivity.
Qed.

(** ** The grids of [find_verts] *)

Lemma step_pos (a b : Q) (n : nat) :
  0 < n -> (a < b)%Q -> (0 < (b - a) / inject_Z (Z.of_nat n))%Q.
Proof.
  intros Hn Hab. apply Qlt_shift_div_l.
  - change 0%Q with (inject_Z 0). rewrite <- Zlt_Qlt. lia.
  - lra.
Qed.

Lemma breakpoint_lt (a b : Q) (n i : nat) :
  (a < b)%Q -> i < n ->
  (breakpoint a b n i < breakpoint a b n (i + 1))%Q.
Proof.
  intros Hab Hi.
  rewrite !breakpoint_value by lia.
  pose proof (@step_pos a b n ltac:(lia) Hab) as Hs.
  rewrite Nat2Z.inj_add, inject_Z_plus. change (inject_Z (Z.of_nat 1)) with 1%Q.
  set (st := ((b - a) / inject_Z (Z.of_nat n))%Q) in *.
  set (I := inject_Z (Z.of_nat i)). nra.
Qed.

Lemma breakpoint_bounds (a b : Q) (n i : nat) :
  (a <= b)%Q -> i <= n ->
  (a <= breakpoint a b n i)%Q /\ (breakpoint a b n i <= b)%Q.
Proof.
  intros Hab Hi. destruct n as [|n].
  - replace i with 0 by lia. rewrite breakpoint_first. split; [lra|exact Hab].
  - rewrite breakpoint_value by lia.
    set (N := inject_Z (Z.of_nat (S n))).
    set (I := inject_Z (Z.of_nat i)).
    assert (HN : (0 < N)%Q).
    { unfold N. change 0%Q with (inject_Z 0). rewrite <- Zlt_Qlt. lia. }
    assert (HI : (0 <= I)%Q /\ (I <= N)%Q).
    { unfold I, N. change 0%Q with (inject_Z 0). rewrite <- !Zle_Qle. lia. }
    assert (E : (I * ((b - a) / N) == (I / N) * (b - a))%Q)
      by (field; lra).
    rewrite E.
    assert (F : (0 <= I / N)%Q /\ (I / N <= 1)%Q).
    { split.
      - apply Qle_shift_div_l; lra.
      - apply Qle_shift_div_r; lra. }
    set (q := (I / N)%Q) in *. nra.
Qed.

(** X3: for [n >= 1] cells of a domain [a < b], [find_verts] in 1D lists
    [n] intervals; interval [i] runs from breakpoint [i] to breakpoint
    [i + 1], so that each interval ends where the next begins; the
    breakpoints are [a + i * (b - a) / n], strictly increasing, the first
    equal to [a] and the last exactly [b]. *)
Theorem find_verts1D_tiles (self : tess) (a b : Q) (n : nat)
  (ra rb : list Q) (rn : list nat)
  (Hmin : domain_min self = a :: ra) (Hmax : domain_max self = b :: rb)
  (Hnc : nc self = n :: rn) (Hn : 0 < n) (Hab : (a < b)%Q) :
  exists s,
    Tesselation1D.find_verts self = Ok s /\
    length (verts s) = n /\
    (forall i, i < n ->
       nth i (verts s) [] =
       [[breakpoint a b n i; 1%Q]; [breakpoint a b n (i + 1); 1%Q]]) /\
    (breakpoint a b n 0 == a)%Q /\
    breakpoint a b n n = b /\
    (forall i, i < n ->
       (breakpoint a b n i < breakpoint a b n (i + 1))%Q) /\
    (forall i, i <= n ->
       (breakpoint a b n i ==
        a + inject_Z (Z.of_nat i) * ((b - a) / inject_Z (Z.of_nat n)))%Q).
Proof.
  eexists. split; [apply (find_verts1D_ok self Hmin Hmax Hnc)|].
  cbn [verts set_verts]. split.
  { unfold intervals, range. now rewrite length_map, length_seq. }
  split. { intros i Hi. now rewrite intervals_nth. }
  split; [apply breakpoint_first|].
  split; [now apply breakpoint_last|].
  split. { intros i Hi. now apply breakpoint_lt. }
  intros i Hi. now apply breakpoint_value.
Qed.

Lemma nth_flat_map_block {A B} (f : A -> list B) (k : nat) (a0 : A) (d : B) :
  (forall a, length (f a) = k) ->
  forall (l : list A) (i t : nat),
    i < length l -> t < k ->
    nth (i * k + t) (flat_map f l) d = nth t (f (nth i l a0)) d.
Proof.
  intros Hk. induction l as [|a l IH]; intros i t Hi Ht; [cbn in Hi; lia|].
  cbn [flat_map]. destruct i as [|i].
  - cbn [Nat.mul Nat.add nth]. apply app_nth1. now rewrite Hk.
  - rewrite app_nth2 by (rewrite Hk; lia). rewrite Hk.
    replace (S i * k + t - k) with (i * k + t) by lia.
    cbn [nth]. apply IH; [cbn in Hi; lia|exact Ht].
Qed.

Lemma nth_range (n i : nat) : i < n -> nth i (range n) 0 = i.
Proof. intros H. unfold range. now rewrite seq_nth. Qed.

Lemma grid_verts_nth a0 b0 n0 a1 b1 n1 i j t :
  i < n1 -> j < n0 -> t < 4 ->
  nth (4 * (i * n0 + j) + t) (grid_verts a0 b0 n0 a1 b1 n1) [] =
  nth t (triangles a0 b0 n0 a1 b1 n1 i j) [].
Proof.
  intros Hi Hj Ht. unfold grid_verts.
  replace (4 * (i * n0 + j) + t) with (i * (n0 * 4) + (j * 4 + t)) by lia.
  rewrite (@nth_flat_map_block _ _ _ (n0 * 4) 0).
  - rewrite nth_range by exact Hi.
    rewrite (@nth_flat_map_block _ _ _ 4 0).
    + now rewrite nth_range.
    + reflexivity.
    + unfold range. now rewrite length_seq.
    + exact Ht.
  - intros a. rewrite (@length_flat_map_const _ _ _ _ 4).
    + unfold range. now rewrite length_seq.
    + reflexivity.
  - unfold range. now rewrite length_seq.
  - nia.
Qed.

Lemma grid_cells_nth n0 n1 i j t :
  i < n1 -> j < n0 -> t < 4 ->
  nth (4 * (i * n0 + j) + t) (grid_cells n0 n1) [] = [j; i; t].
Proof.
  intros Hi Hj Ht. unfold grid_cells.
  replace (4 * (i * n0 + j) + t) with (i * (n0 * 4) + (j * 4 + t)) by lia.
  rewrite (@nth_flat_map_block _ _ _ (n0 * 4) 0).
  - rewrite nth_range by exact Hi.
    rewrite (@nth_flat_map_block _ _ _ 4 0).
    + rewrite nth_range by exact Hj. unfold triangle_cells.
      destruct t as [|[|[|[|t]]]]; try reflexivity; lia.
    + reflexivity.
    + unfold range. now rewrite length_seq.
    + exact Ht.
  - intros a. rewrite (@length_flat_map_const _ _ _ _ 4).
    + unfold range. now rewrite length_seq.
    + reflexivity.
  - unfold range. now rewrite length_seq.
  - nia.
Qed.

(** X4: [find_verts] in 2D lists [4 * n0 * n1] triangles and as many
    multi-indices, row by row; the triangle of number
    [4 * (i * n0 + j) + t] has the multi-index [(j, i, t)], and its
    vertices are the centre of the cell in row [i] and column [j] followed
    by the corners [t] and [t + 1 mod 4] of that cell, the corners counted
    from the one at the lower breakpoints on both axes, first along x. *)
Theorem find_verts2D_layout (self : tess) (a0 a1 b0 b1 : Q) (n0 n1 : nat)
  (ra rb : list Q) (rn : list nat)
  (Hmin : domain_min self = a0 :: a1 :: ra)
  (Hmax : domain_max self = b0 :: b1 :: rb)
  (Hnc : nc self = n0 :: n1 :: rn) :
  exists s,
    Tesselation2D.find_verts self = Ok s /\
    length (verts s) = 4 * (n0 * n1) /\
    length (cells s) = 4 * (n0 * n1) /\
    forall i j t, i < n1 -> j < n0 -> t < 4 ->
      let x := breakpoint a0 b0 n0 j in
      let x' := breakpoint a0 b0 n0 (j + 1) in
      let y := breakpoint a1 b1 n1 i in
      let y' := breakpoint a1 b1 n1 (i + 1) in
      let center := [((x + x') / 2)%Q; ((y + y') / 2)%Q; 1%Q] in
      let corners := [[x; y; 1%Q]; [x'; y; 1%Q]; [x'; y'; 1%Q];
                      [x; y'; 1%Q]] in
      nth (4 * (i * n0 + j) + t) (cells s) [] = [j; i; t] /\
      nth (4 * (i * n0 + j) + t) (verts s) [] =
      [center; nth t corners []; nth ((t + 1) mod 4) corners []].
Proof.
  eexists. split; [apply (find_verts2D_ok self Hmin Hmax Hnc)|].
  cbn [verts cells set_verts].
  split; [rewrite grid_verts_length; lia|].
  split; [rewrite grid_cells_length; lia|].
  intros i j t Hi Hj Ht. cbv zeta. split.
  - now apply grid_cells_nth.
  - rewrite grid_verts_nth by assumption. unfold triangles.
    destruct t as [|[|[|[|t]]]]; try reflexivity; lia.
Qed.

(** X5: every vertex [find_verts] lists in 2D has three coordinates, lies
    in the rectangle [[a0, b0] x [a1, b1]] of the domain, and ends in the
    homogeneous coordinate 1. *)
Theorem find_verts2D_inside_domain (self : tess) (a0 a1 b0 b1 : Q)
  (n0 n1 : nat) (ra rb : list Q) (rn : list nat)
  (Hmin : domain_min self = a0 :: a1 :: ra)
  (Hmax : domain_max self = b0 :: b1 :: rb)
  (Hnc : nc self = n0 :: n1 :: rn)
  (H0 : (a0 <= b0)%Q) (H1 : (a1 <= b1)%Q) :
  exists s,
    Tesselation2D.find_verts self = Ok s /\
    forall T v, In T (verts s) -> In v T ->
      length v = 3 /\
      (a0 <= nth 0 v 0)%Q /\ (nth 0 v 0 <= b0)%Q /\
      (a1 <= nth 1 v 0)%Q /\ (nth 1 v 0 <= b1)%Q /\
      nth 2 v 0%Q = 1%Q.
Proof.
  eexists. split; [apply (find_verts2D_ok self Hmin Hmax Hnc)|].
  cbn [verts set_verts]. intros T v HT Hv.
  destruct (in_grid_verts _ _ _ _ _ _ _ HT) as (i & j & Hi & Hj & HT').
  pose proof (@breakpoint_bounds a0 b0 n0 j H0 ltac:(lia)) as [X1 X2].
  pose proof (@breakpoint_bounds a0 b0 n0 (j + 1) H0 ltac:(lia)) as [X3 X4].
  pose proof (@breakpoint_bounds a1 b1 n1 i H1 ltac:(lia)) as [Y1 Y2].
  pose proof (@breakpoint_bounds a1 b1 n1 (i + 1) H1 ltac:(lia)) as [Y3 Y4].
  assert (M : forall p q lo hi : Q,
             (lo <= p)%Q -> (p <= hi)%Q -> (lo <= q)%Q -> (q <= hi)%Q ->
             (lo <= (p + q) / 2)%Q /\ ((p + q) / 2 <= hi)%Q).
  { intros p q lo hi ? ? ? ?.
    assert (E : ((p + q) / 2 == (1 # 2) * p + (1 # 2) * q)%Q) by field.
    rewrite E. split; lra. }
  destruct (M _ _ _ _ X1 X2 X3 X4) as [MX1 MX2].
  destruct (M _ _ _ _ Y1 Y2 Y3 Y4) as [MY1 MY2].
  unfold triangles in HT'. cbv zeta in HT'.
  cbn [In] in HT'.
  repeat (destruct HT' as [<-|HT']; [
    cbn [In] in Hv;
    repeat (destruct Hv as [<-|Hv];
            [cbn [nth length]; repeat split; assumption|]);
    contradiction |]).
  contradiction.
Qed.

(** ** The steps of the constructor *)

Lemma find_shared_verts_fields (s s' : tess) :
  Tesselation.find_shared_verts s = Ok s' ->
  verts s' = verts s /\ cells s' = cells s /\ ndim s' = ndim s /\
  nC s' = nC s /\ n_params s' = n_params s /\ nc s' = nc s /\
  domain_min s' = domain_min s /\ domain_max s' = domain_max s.
Proof.
  unfold Tesselation.find_shared_verts. intros H.
  destruct (for_each _ _ _) as [[sv si]|e]; cbn [bind] in H; [|discriminate].
  injection H as <-. cbn. repeat split.
Qed.

Lemma find_verts_outside2D_fields (s s' : tess) :
  Tesselation2D.find_verts_outside s = Ok s' ->
  verts s' = verts s /\ cells s' = cells s /\ ndim s' = ndim s /\
  nC s' = nC s /\ n_params s' = n_params s /\ nc s' = nc s /\
  domain_min s' = domain_min s /\ domain_max s' = domain_max s.
Proof.
  unfold Tesselation2D.find_verts_outside. intros H.
  destruct (Tesselation2D.outside_scan s) as [[sv si]|e]; cbn [bind] in H;
    [|discriminate].
  destruct (concatenate_lists (shared_v s) sv); cbn [bind] in H;
    [|discriminate].
  destruct (concatenate_lists (shared_v_idx s) si); cbn [bind] in H;
    [|discriminate].
  injection H as <-. cbn. repeat split.
Qed.

(** The steps of the constructor, and what its last steps leave alone. *)
Lemma init_steps (m : methods) (self : tess) (c : list nat)
  (dmin dmax : list Q) (zb vp : bool) (t : tess) :
  Tesselation.init m self c dmin dmax zb vp = Ok t ->
  exists s1 s2 s3 Mc,
    find_verts m (set_params self c dmin dmax zb vp) = Ok s1 /\
    Tesselation.find_shared_verts s1 = Ok s2 /\
    (if negb zb then find_verts_outside m s2 else Ok s2) = Ok s3 /\
    create_continuity_constrains m s3 = Ok Mc /\
    verts t = verts s3 /\ cells t = cells s3 /\ ndim t = ndim s3 /\
    nC t = nC s3 /\ n_params t = n_params s3 /\
    shared_v t = shared_v s3 /\ shared_v_idx t = shared_v_idx s3 /\
    exists Mz Mt,
      (if zb then create_zero_boundary_constrains m (set_L s3 Mc)
       else Ok (Matrix (ncols Mc) [])) = Ok Mz /\
      (if vp then Tesselation.create_zero_trace_constrains s3
       else Ok (Matrix (ncols Mc) [])) = Ok Mt /\
      rows (L t) = rows Mc ++ rows Mz ++ rows Mt /\
      ncols (L t) = ncols Mc.
Proof.
  unfold Tesselation.init. intros H.
  destruct (find_verts m _) as [s1|] eqn:E1; cbn [bind] in H; [|discriminate].
  destruct (Tesselation.find_shared_verts s1) as [s2|] eqn:E2;
    cbn [bind] in H; [|discriminate].
  destruct (if negb zb then find_verts_outside m s2 else Ok s2) as [s3|] eqn:E3;
    cbn [bind] in H; [|discriminate].
  destruct (create_continuity_constrains m s3) as [Mc|] eqn:E4;
    cbn [bind] in H; [|discriminate].
  exists s1, s2, s3, Mc. do 4 (split; [first [assumption|reflexivity]|]).
  assert (T : forall s M, Tesselation.create_zero_trace_constrains (set_L s M)
                          = Tesselation.create_zero_trace_constrains s)
    by reflexivity.
  destruct zb.
  - destruct (create_zero_boundary_constrains m (set_L s3 Mc)) as [Mz|] eqn:E5;
      cbn [bind] in H; [|discriminate].
    cbn [L set_L] in H. unfold concatenate at 1 in H.
    destruct (ncols Mc =? ncols Mz) eqn:E6; cbn [bind] in H; [|discriminate].
    destruct vp.
    + cbn [L set_L] in H. rewrite !T in H.
      destruct (Tesselation.create_zero_trace_constrains s3) as [Mt|] eqn:E7;
        cbn [bind] in H; [|discriminate].
      unfold concatenate in H. cbn [ncols rows] in H.
      destruct (ncols Mc =? ncols Mt) eqn:E8; cbn [bind] in H; [|discriminate].
      injection H as <-. cbn. repeat split.
      exists Mz, Mt. repeat split. now rewrite app_assoc.
    + cbn [bind] in H. injection H as <-. cbn. repeat split.
      eexists Mz, _. repeat split. cbn. now rewrite app_nil_r.
  - cbn [bind] in H. destruct vp.
    + cbn [L set_L] in H. rewrite !T in H.
      destruct (Tesselation.create_zero_trace_constrains s3) as [Mt|] eqn:E7;
        cbn [bind] in H; [|discriminate].
      unfold concatenate in H. cbn [ncols rows] in H.
      destruct (ncols Mc =? ncols Mt) eqn:E8; cbn [bind] in H; [|discriminate].
      injection H as <-. cbn. repeat split.
      eexists _, Mt. repeat split.
    + cbn [bind] in H. injection H as <-. cbn. repeat split.
      eexists _, _. repeat split. cbn. now rewrite app_nil_r.
Qed.

Lemma regular_intro (vs : list simplex) (nv d1 : nat) :
  0 < length vs -> 0 < nv ->
  (forall s, In s vs -> length s = nv /\ forall v, In v s -> length v = d1) ->
  regular vs = true /\ length (hd [] (hd [] vs)) = d1.
Proof.
  intros Hl Hnv H. destruct vs as [|s0 rest]; [cbn in Hl; lia|].
  destruct (H s0 (or_introl eq_refl)) as [L0 V0].
  destruct s0 as [|v0 r0]; [cbn in L0; lia|].
  split.
  - cbn [regular]. apply forallb_forall. intros s Hs.
    destruct (H s Hs) as [Ls Vs].
    apply andb_true_intro. split.
    + apply Nat.eqb_eq. rewrite L0. exact Ls.
    + apply forallb_forall. intros v Hv. apply Nat.eqb_eq.
      rewrite (Vs v Hv). symmetry. apply V0. now left.
  - cbn [hd]. apply V0. now left.
Qed.

(** ** Cell centres *)

Lemma init1D_tables n a b zb vp t :
  Tesselation1D.init [n] [a] [b] zb vp = Ok t ->
  verts t = intervals a b n /\ ndim t = 1 /\ nC t = n /\ n_params t = 2.
Proof.
  unfold Tesselation1D.init. intros H.
  destruct (@init_steps _ _ _ _ _ _ _ _ H)
    as (s1 & s2 & s3 & Mc & E1 & E2 & E3 & _ & Hv & _ & Hd & Hc & Hp & _).
  cbn [find_verts Tesselation1D.impl] in E1.
  rewrite (@find_verts1D_ok _ a b n [] [] []) in E1 by reflexivity.
  injection E1 as <-.
  destruct (@find_shared_verts_fields _ _ E2) as (V2 & _ & D2 & C2 & P2 & _).
  assert (s3 = s2) as ->.
  { destruct zb; cbn [negb find_verts_outside Tesselation1D.impl] in E3;
      unfold Tesselation1D.find_verts_outside in E3; congruence. }
  rewrite Hv, Hd, Hc, Hp, V2, D2, C2, P2. cbn. repeat split. lia.
Qed.

Lemma mean2 (x y : Q) : (mean [x; y] == (x + y) / 2)%Q.
Proof. unfold mean. cbn [fold_left length]. change (inject_Z (Z.of_nat 2)) with 2%Q. field. Qed.

(** X6: after a 1D construction over [n >= 1] cells of a domain [a < b],
    [get_cell_centers] returns [n] points of one coordinate; the point of
    interval [i] is the midpoint of its two breakpoints, strictly between
    them. *)
Theorem cell_centers_1D (n : nat) (a b : Q) (zb vp : bool)
  (Hn : 0 < n) (Hab : (a < b)%Q) :
  exists t cs,
    Tesselation1D.init [n] [a] [b] zb vp = Ok t /\
    get_cell_centers t = Ok cs /\
    length cs = n /\
    forall i, i < n ->
      exists m, nth i cs [] = [m] /\
        (m == (breakpoint a b n i + breakpoint a b n (i + 1)) / 2)%Q /\
        (breakpoint a b n i < m)%Q /\ (m < breakpoint a b n (i + 1))%Q.
Proof.
  assert (Hne : ~ (a == b)%Q) by lra.
  destruct (@Tesselation1D_init_ok n a b zb vp Hn Hne) as (t & Ht & _).
  destruct (@init1D_tables _ _ _ _ _ _ Ht) as (Hv & Hd & _).
  destruct (@regular_intro (intervals a b n) 2 2) as [R1 R2].
  { unfold intervals, range. rewrite length_map, length_seq. lia. }
  { lia. }
  { intros s Hs. unfold intervals in Hs. apply in_map_iff in Hs.
    destruct Hs as (i & <- & _). split; [reflexivity|].
    intros v [<-|[<-|[]]]; reflexivity. }
  exists t. eexists. split; [exact Ht|].
  unfold get_cell_centers. rewrite Hv, Hd, R1, R2. split; [reflexivity|].
  split. { unfold intervals, range. now rewrite !length_map, length_seq. }
  intros i Hi. eexists. split.
  { unfold intervals, range. rewrite map_map.
    rewrite (nth_map_seq _ _ Hi). reflexivity. }
  pose proof (@breakpoint_lt a b n i Hab Hi) as Hlt.
  unfold interval. cbn [map nth]. rewrite mean2.
  set (x := breakpoint a b n i) in *.
  set (y := breakpoint a b n (i + 1)) in *.
  assert (E : ((x + y) / 2 == (1 # 2) * x + (1 # 2) * y)%Q) by field.
  split; [reflexivity|]. rewrite E. split; lra.
Qed.

Lemma init2D_tables n0 n1 a0 a1 b0 b1 zb vp t :
  Tesselation2D.init [n0; n1] [a0; a1] [b0; b1] zb vp = Ok t ->
  verts t = grid_verts a0 b0 n0 a1 b1 n1 /\ cells t = grid_cells n0 n1 /\
  ndim t = 2 /\ nC t = 4 * (n0 * n1) /\ n_params t = 6.
Proof.
  unfold Tesselation2D.init. intros H.
  destruct (@init_steps _ _ _ _ _ _ _ _ H)
    as (s1 & s2 & s3 & Mc & E1 & E2 & E3 & _ & Hv & Hce & Hd & Hc & Hp & _).
  cbn [find_verts Tesselation2D.impl] in E1.
  rewrite (@find_verts2D_ok _ a0 a1 [] b0 b1 [] n0 n1 []) in E1
    by reflexivity.
  injection E1 as <-.
  destruct (@find_shared_verts_fields _ _ E2) as (V2 & Ce2 & D2 & C2 & P2 & _).
  assert (X : verts s3 = verts s2 /\ cells s3 = cells s2 /\
              ndim s3 = ndim s2 /\ nC s3 = nC s2 /\
              n_params s3 = n_params s2).
  { destruct zb; cbn [negb] in E3.
    - injection E3 as <-. repeat split.
    - cbn [find_verts_outside Tesselation2D.impl] in E3.
      destruct (@find_verts_outside2D_fields _ _ E3) as (? & ? & ? & ? & ? & _).
      repeat split; assumption. }
  destruct X as (V3 & Ce3 & D3 & C3 & P3).
  rewrite Hv, Hce, Hd, Hc, Hp, V3, Ce3, D3, C3, P3, V2, Ce2, D2, C2, P2.
  cbn. repeat split. lia.
Qed.

Lemma centroid_between (x x' p q : Q) :
  (x < x')%Q -> (x <= p)%Q -> (p <= x')%Q -> (x <= q)%Q -> (q <= x')%Q ->
  (x < mean [(x + x') / 2; p; q])%Q /\ (mean [(x + x') / 2; p; q] < x')%Q.
Proof.
  intros H Hp1 Hp2 Hq1 Hq2.
  assert (E : (mean [(x + x') / 2; p; q] ==
               (1 # 6) * x + (1 # 6) * x' + (1 # 3) * p + (1 # 3) * q)%Q).
  { unfold mean. cbn [fold_left length].
    change (inject_Z (Z.of_nat 3)) with 3%Q. field. }
  rewrite E. split; lra.
Qed.

(** X7: a 2D construction with zero boundary over [n0 x n1 >= 1 x 1] cells
    of a domain with [a0 < b0], [a1 < b1] completes; after any 2D
    construction that completes, [get_cell_centers] returns
    [4 * n0 * n1] points of two coordinates, and the point of triangle
    [4 * (i * n0 + j) + k] lies strictly inside the cell in row [i] and
    column [j]. *)
Theorem cell_centers_2D (n0 n1 : nat) (a0 a1 b0 b1 : Q) (zb vp : bool)
  (Hn0 : 0 < n0) (Hn1 : 0 < n1) (H0 : (a0 < b0)%Q) (H1 : (a1 < b1)%Q) :
  (zb = true ->
   is_ok (Tesselation2D.init [n0; n1] [a0; a1] [b0; b1] zb vp) = true) /\
  forall t,
    Tesselation2D.init [n0; n1] [a0; a1] [b0; b1] zb vp = Ok t ->
    exists cs,
      get_cell_centers t = Ok cs /\
      length cs = 4 * (n0 * n1) /\
      forall i j k, i < n1 -> j < n0 -> k < 4 ->
        exists px py,
          nth (4 * (i * n0 + j) + k) cs [] = [px; py] /\
          (breakpoint a0 b0 n0 j < px)%Q /\
          (px < breakpoint a0 b0 n0 (j + 1))%Q /\
          (breakpoint a1 b1 n1 i < py)%Q /\
          (py < breakpoint a1 b1 n1 (i + 1))%Q.
Proof.
  assert (Hne0 : ~ (a0 == b0)%Q) by lra.
  assert (Hne1 : ~ (a1 == b1)%Q) by lra.
  split.
  { apply (@Tesselation2D_init_columns n0 n1 a0 a1 b0 b1 zb vp Hne0 Hne1). }
  intros t Ht.
  destruct (@init2D_tables _ _ _ _ _ _ _ _ _ Ht) as (Hv & _ & Hd & _).
  destruct (@regular_intro (grid_verts a0 b0 n0 a1 b1 n1) 3 3) as [R1 R2].
  { rewrite grid_verts_length. nia. }
  { lia. }
  { intros s Hs. split.
    - destruct (@in_grid_verts _ _ _ _ _ _ _ Hs) as (i & j & _ & _ & Hs').
      unfold triangles in Hs'. cbn [In] in Hs'.
      repeat (destruct Hs' as [<-|Hs']; [reflexivity|]). contradiction.
    - intros v Hv'. apply (@grid_vertex _ _ _ _ _ _ _ _ Hs Hv'). }
  eexists. unfold get_cell_centers. rewrite Hv, Hd, R1, R2.
  split; [reflexivity|].
  split. { rewrite length_map, grid_verts_length. lia. }
  intros i j k Hi Hj Hk.
  assert (Hlen : 4 * (i * n0 + j) + k
                 < length (grid_verts a0 b0 n0 a1 b1 n1)).
  { rewrite grid_verts_length. nia. }
  rewrite (nth_indep _ []
             (map (fun k0 => mean (map (fun v : vertex => nth k0 v 0%Q) []))
                  (range (Nat.min 2 3))))
    by (now rewrite length_map).
  rewrite (map_nth (fun s : simplex =>
             map (fun k0 => mean (map (fun v : vertex => nth k0 v 0%Q) s))
                 (range (Nat.min 2 3)))).
  rewrite grid_verts_nth by assumption.
  pose proof (@breakpoint_lt a0 b0 n0 j H0 Hj) as Hx.
  pose proof (@breakpoint_lt a1 b1 n1 i H1 Hi) as Hy.
  unfold triangles. cbv zeta.
  set (x := breakpoint a0 b0 n0 j) in *.
  set (x' := breakpoint a0 b0 n0 (j + 1)) in *.
  set (y := breakpoint a1 b1 n1 i) in *.
  set (y' := breakpoint a1 b1 n1 (i + 1)) in *.
  destruct k as [|[|[|[|k]]]]; [| | | |lia];
    cbn [nth map range seq Nat.min];
    do 2 eexists; (split; [reflexivity|]);
    repeat split; apply centroid_between; lra.
Qed.

(** X8: a 2D construction with zero boundary and a cell count of zero on
    some axis completes with an object of no simplex, and
    [get_cell_centers] raises IndexError on it: the empty vertex array has
    one axis and is indexed with three. *)
Theorem cell_centers_empty_grid (n0 n1 : nat) (a0 a1 b0 b1 : Q) (vp : bool)
  (Hz : n0 = 0 \/ n1 = 0) (H0 : ~ (a0 == b0)%Q) (H1 : ~ (a1 == b1)%Q) :
  exists t,
    Tesselation2D.init [n0; n1] [a0; a1] [b0; b1] true vp = Ok t /\
    nC t = 0 /\
    get_cell_centers t = Raise IndexError.
Proof.
  destruct (@Tesselation2D_init_columns n0 n1 a0 a1 b0 b1 true vp H0 H1)
    as [Hok _].
  specialize (Hok eq_refl).
  destruct (Tesselation2D.init [n0; n1] [a0; a1] [b0; b1] true vp)
    as [t|] eqn:Ht; [|discriminate].
  exists t. split; [reflexivity|].
  destruct (@init2D_tables _ _ _ _ _ _ _ _ _ Ht) as (Hv & _ & _ & Hc & _).
  split; [rewrite Hc; nia|].
  unfold get_cell_centers. rewrite Hv.
  assert (E : grid_verts a0 b0 n0 a1 b1 n1 = []).
  { apply length_zero_iff_nil. rewrite grid_verts_length. nia. }
  rewrite E. reflexivity.
Qed.

(** ** The 1D matrix applied to a parameter vector *)

Lemma dot_from_zeros (k m : nat) (theta : list Q) :
  (dot_from k (zeros m) theta == 0)%Q.
Proof.
  revert k. induction m as [|m IH]; intros k; cbn; [reflexivity|].
  rewrite IH. ring.
Qed.

Lemma dot_from_app (k : nat) (r1 r2 : row) (theta : list Q) :
  (dot_from k (r1 ++ r2) theta ==
   dot_from k r1 theta + dot_from (k + length r1) r2 theta)%Q.
Proof.
  revert k. induction r1 as [|x r1 IH]; intros k; cbn [app dot_from length].
  - rewrite Nat.add_0_r. ring.
  - rewrite IH. replace (S k + length r1) with (k + S (length r1)) by lia.
    ring.
Qed.

Lemma dot_block (lo m : nat) (vals : list Q) (theta : list Q) :
  (dot (zeros lo ++ vals ++ zeros m) theta == dot_from lo vals theta)%Q.
Proof.
  unfold dot. rewrite !dot_from_app, !dot_from_zeros, zeros_length.
  cbn [Nat.add]. ring.
Qed.

Lemma shares1D (a b : Q) (n i : nat) :
  ~ (a == b)%Q -> i + 1 < n ->
  intersection (interval a b n i) (interval a b n (i + 1)) =
  [[breakpoint a b n (i + 1); 1%Q]].
Proof.
  intros Hab Hi.
  assert (E1 : (i =? i + 1) = false) by (apply Nat.eqb_neq; lia).
  assert (E2 : (i =? i + 1 + 1) = false) by (apply Nat.eqb_neq; lia).
  assert (E3 : (i + 1 =? i + 1 + 1) = false) by (apply Nat.eqb_neq; lia).
  unfold intersection, interval, vset, vmem.
  repeat (cbn [filter existsb vertex_eqb negb andb orb];
          change (Qeq_bool 1 1) with true;
          rewrite ?andb_true_r, ?orb_false_r;
          rewrite ?breakpoint_eqb by (assumption || lia);
          rewrite ?E1, ?E2, ?E3, ?Nat.eqb_refl).
  reflexivity.
Qed.

Lemma enumerate_map_range {A} (g : nat -> A) (k : nat) :
  enumerate (map g (range k)) = map (fun i => (i, g i)) (range k).
Proof.
  unfold enumerate, range. rewrite length_map, length_seq.
  generalize 0. induction k as [|k IH]; intros s; [reflexivity|].
  cbn [seq map combine]. now rewrite IH.
Qed.

Lemma continuity1D_rows (s : tess) (n : nat) (g : nat -> Q) :
  nC s = n -> 0 < n ->
  shared_v s = map (fun i => [[g i; 1%Q]]) (range (n - 1)) ->
  Tesselation1D.create_continuity_constrains s =
  Ok (Matrix (2 * n)
        (map (fun i => zeros (2 * i)
                       ++ ([g i; 1%Q] ++ map Qopp [g i; 1%Q])
                       ++ zeros (2 * n - 2 * (i + 2)))
             (range (n - 1)))).
Proof.
  intros Hc Hn Hs. unfold Tesselation1D.create_continuity_constrains.
  rewrite Hc, Hs. destruct (Nat.eqb_spec n 0) as [E|_]; [lia|].
  rewrite enumerate_map_range.
  pose proof (@for_each_fill_rows (list vertex) (2 * n)
                (map (fun i => (i, [[g i; 1%Q]])) (range (n - 1)))
                (fun iv Ltemp =>
                   v0 <- getitem (snd iv) 0 ;;
                   setitem_row Ltemp (fst iv)
                     (fun r => set_slice r (2 * fst iv) (2 * (fst iv + 2))
                                 (v0 ++ map Qopp v0)))
                (fun iv => zeros (2 * fst iv)
                           ++ ([g (fst iv); 1%Q] ++ map Qopp [g (fst iv); 1%Q])
                           ++ zeros (2 * n - 2 * (fst iv + 2)))
                []) as G.
  unfold range in *. rewrite length_map, length_seq in G.
  cbn [app length] in G. unfold zeros2. cbv zeta.
  etransitivity; [apply G|].
  3: now rewrite map_map.
  - rewrite map_map. cbn [fst]. now rewrite map_id.
  - intros p d rest Hp Hd. apply in_map_iff in Hp.
    destruct Hp as (i & <- & Hi). apply in_seq in Hi. cbn [fst snd] in *.
    cbn [getitem nth_error bind]. rewrite <- Hd.
    apply setitem_row_middle. rewrite Hd.
    apply set_slice_zeros; [cbn [length app map]; lia|lia].
Qed.

Lemma zero_boundary1D_rows (s : tess) (a b : Q) (ra rb : list Q) (n : nat) :
  domain_min s = a :: ra -> domain_max s = b :: rb -> nC s = n -> 0 < n ->
  Tesselation1D.create_zero_boundary_constrains s =
  Ok (Matrix (2 * n) [[a; 1%Q] ++ zeros (2 * n - 2);
                      zeros (2 * n - 2) ++ [b; 1%Q]]).
Proof.
  intros Ha Hb Hc Hn. unfold Tesselation1D.create_zero_boundary_constrains.
  rewrite Ha, Hb, Hc. cbn [getitem nth_error bind].
  unfold zeros2. cbn [repeat].
  rewrite (@setitem_row_middle (2 * n) [] [zeros (2 * n)] (zeros (2 * n))
             ([a; 1%Q] ++ zeros (2 * n - 2))).
  2:{ unfold set_slice_Z, slice_bound. rewrite zeros_length.
      destruct (Z.ltb_spec 0 0) as [|_]; [lia|].
      destruct (Z.ltb_spec 2 0) as [|_]; [lia|].
      replace (Nat.min (Z.to_nat 0) (2 * n)) with 0 by lia.
      replace (Nat.min (Z.to_nat 2) (2 * n)) with 2 by lia.
      rewrite (@set_slice_zeros (2 * n) 0 2 [a; 1%Q]) by (cbn; lia).
      reflexivity. }
  cbn [bind app].
  rewrite (@setitem_row_middle (2 * n) [[a; 1%Q] ++ zeros (2 * n - 2)] []
             (zeros (2 * n)) (zeros (2 * n - 2) ++ [b; 1%Q])).
  - reflexivity.
  - unfold set_slice_Z, slice_bound. rewrite zeros_length.
    destruct (Z.ltb_spec (-2) 0) as [_|]; [|lia].
    destruct (Z.ltb_spec (Z.of_nat (2 * n)) 0) as [|_]; [lia|].
    replace (Z.to_nat (Z.max 0 (-2 + Z.of_nat (2 * n)))) with (2 * n - 2)
      by lia.
    replace (Nat.min (Z.to_nat (Z.of_nat (2 * n))) (2 * n)) with (2 * n)
      by lia.
    rewrite (@set_slice_zeros (2 * n) (2 * n - 2) (2 * n) [b; 1%Q])
      by (cbn [length]; lia).
    rewrite Nat.sub_diag. cbn [zeros repeat]. now rewrite app_nil_r.
Qed.

Lemma init1D_matrix n a b zb vp t :
  0 < n -> ~ (a == b)%Q ->
  Tesselation1D.init [n] [a] [b] zb vp = Ok t ->
  rows (L t) =
  map (fun i => zeros (2 * i)
                ++ ([breakpoint a b n (i + 1); 1%Q]
                    ++ map Qopp [breakpoint a b n (i + 1); 1%Q])
                ++ zeros (2 * n - 2 * (i + 2)))
      (range (n - 1))
  ++ (if zb then [[a; 1%Q] ++ zeros (2 * n - 2);
                  zeros (2 * n - 2) ++ [b; 1%Q]]
      else [])
  ++ (if vp then map (fun c => zeros (2 * c) ++ [1%Q; 0%Q]
                               ++ zeros (2 * n - 2 * (c + 1)))
                     (range n)
      else []).
Proof.
  intros Hn Hab H. unfold Tesselation1D.init in H.
  unfold prod in H. cbn [fold_right] in H. rewrite Nat.mul_1_r in H.
  destruct (@init_steps _ _ _ _ _ _ _ _ H)
    as (s1 & s2 & s3 & Mc & E1 & E2 & E3 & E4 & _ & _ & _ & _ & _ & _ & _
        & Mz & Mt & Ez & Et & HL & _).
  cbn [find_verts Tesselation1D.impl] in E1.
  rewrite (@find_verts1D_ok _ a b n [] [] []) in E1 by reflexivity.
  injection E1 as <-.
  fold (configured 2 n 1 [n] [a] [b] zb vp) in E2.
  rewrite (pipeline1D_shared n zb vp Hab) in E2. injection E2 as <-.
  assert (s3 = set_shared
                 (set_verts (configured 2 n 1 [n] [a] [b] zb vp)
                    (intervals a b n) (map (fun i => [i]) (range n)))
                 (map (fun p => shares
                                  (set_verts
                                     (configured 2 n 1 [n] [a] [b] zb vp)
                                     (intervals a b n)
                                     (map (fun i => [i]) (range n)))
                                  (fst p) (snd p))
                      (map (fun i => (i, i + 1)) (range (n - 1))))
                 (map (fun i => (i, i + 1)) (range (n - 1)))) as ->.
  { destruct zb; cbn [negb find_verts_outside Tesselation1D.impl] in E3;
      unfold Tesselation1D.find_verts_outside in E3; congruence. }
  set (s1 := set_verts _ _ _) in *.
  set (s3 := set_shared _ _ _) in *.
  rewrite HL. f_equal; [|f_equal].
  - cbn [create_continuity_constrains Tesselation1D.impl] in E4.
    rewrite (@continuity1D_rows s3 n (fun i => breakpoint a b n (i + 1)))
      in E4; [now injection E4 as <-|reflexivity|exact Hn|].
    subst s3. cbn [shared_v set_shared]. rewrite map_map. cbn [fst snd].
    apply map_ext_in. intros i Hi. apply in_seq in Hi.
    unfold shares, simplex_at. subst s1. cbn [verts set_verts].
    rewrite !intervals_nth by lia. apply shares1D; [exact Hab|lia].
  - destruct zb; [|now injection Ez as <-].
    cbn [create_zero_boundary_constrains Tesselation1D.impl] in Ez.
    rewrite (@zero_boundary1D_rows _ a b [] [] n) in Ez
      by (reflexivity || exact Hn).
    now injection Ez as <-.
  - destruct vp; [|now injection Et as <-].
    rewrite zero_trace_rows_eq in Et by reflexivity.
    injection Et as <-. cbn [rows].
    replace (nC s3) with n by reflexivity.
    replace (n_params s3) with 2 by reflexivity.
    replace (ndim s3) with 1 by reflexivity.
    reflexivity.
Qed.

Lemma Forall_map_range {A} (P : A -> Prop) (f : nat -> A) (n : nat) :
  Forall P (map f (range n)) <-> forall i, i < n -> P (f i).
Proof.
  rewrite Forall_forall. split.
  - intros H i Hi. apply H. apply in_map. apply in_seq. lia.
  - intros H x Hx. apply in_map_iff in Hx. destruct Hx as (i & <- & Hi).
    apply in_seq in Hi. apply H. lia.
Qed.

(** What the rows of the 1D matrix ask of a parameter vector. *)
Lemma kernel1D_blocks n a b zb vp t theta :
  0 < n -> ~ (a == b)%Q ->
  Tesselation1D.init [n] [a] [b] zb vp = Ok t ->
  in_kernel (get_constrain_matrix t) theta <->
  (forall i, i + 1 < n ->
     (velocity1D theta i (breakpoint a b n (i + 1)) ==
      velocity1D theta (i + 1) (breakpoint a b n (i + 1)))%Q) /\
  (zb = true ->
     (velocity1D theta 0 a == 0)%Q /\ (velocity1D theta (n - 1) b == 0)%Q) /\
  (vp = true -> forall c, c < n -> (nth (2 * c) theta 0 == 0)%Q).
Proof.
  intros Hn Hab H. unfold in_kernel, get_constrain_matrix.
  rewrite (@init1D_matrix n a b zb vp t Hn Hab H).
  rewrite !Forall_app, Forall_map_range.
  assert (A : forall i x,
             (dot (zeros (2 * i) ++ ([x; 1] ++ map Qopp [x; 1])
                   ++ zeros (2 * n - 2 * (i + 2))) theta == 0)%Q <->
             (velocity1D theta i x == velocity1D theta (i + 1) x)%Q).
  { intros i x. rewrite dot_block. unfold velocity1D.
    cbn [app map dot_from].
    replace (S (2 * i)) with (2 * i + 1) by lia.
    replace (S (2 * i + 1)) with (2 * (i + 1)) by lia.
    replace (S (2 * (i + 1))) with (2 * (i + 1) + 1) by lia.
    split; intros E; lra. }
  assert (B : (dot ([a; 1] ++ zeros (2 * n - 2)) theta == 0)%Q <->
              (velocity1D theta 0 a == 0)%Q).
  { unfold dot, velocity1D. rewrite dot_from_app, dot_from_zeros.
    cbn [dot_from Nat.mul Nat.add]. split; intros E; lra. }
  assert (C : (dot (zeros (2 * n - 2) ++ [b; 1]) theta == 0)%Q <->
              (velocity1D theta (n - 1) b == 0)%Q).
  { unfold dot, velocity1D. rewrite dot_from_app, dot_from_zeros.
    rewrite zeros_length. cbn [dot_from Nat.add].
    replace (S (2 * n - 2)) with (2 * (n - 1) + 1) by lia.
    replace (2 * n - 2) with (2 * (n - 1)) by lia.
    split; intros E; lra. }
  assert (D : forall c,
             (dot (zeros (2 * c) ++ [1; 0] ++ zeros (2 * n - 2 * (c + 1)))
                  theta == 0)%Q <-> (nth (2 * c) theta 0 == 0)%Q).
  { intros c. rewrite dot_block. cbn [dot_from]. split; intros E; lra. }
  split.
  - intros (H1 & H2 & H3). split; [|split].
    + intros i Hi. apply A. apply H1. lia.
    + intros ->. rewrite <- B, <- C.
      inversion H2 as [|? ? X1 X2]; subst.
      inversion X2 as [|? ? X3 _]; subst. now split.
    + intros -> c Hc. apply D. rewrite Forall_map_range in H3. now apply H3.
  - intros (H1 & H2 & H3). split; [|split].
    + intros i Hi. apply A. apply H1. lia.
    + destruct zb; [|constructor].
      destruct (H2 eq_refl) as [X1 X2].
      constructor; [now apply B|]. constructor; [now apply C|constructor].
    + destruct vp; [|constructor].
      apply Forall_map_range. intros c Hc. apply D. now apply H3.
Qed.

(** X9: a 1D construction over [n >= 1] cells of a domain that is not a
    single point completes, and a parameter vector [theta] of [2 * n]
    entries satisfies [L @ theta = 0] for the matrix of
    [get_constrain_matrix] exactly when the velocities of neighbouring
    intervals agree at their common breakpoint, and, with zero boundary,
    the velocity vanishes at both ends of the domain, and, with volume
    preservation, the slope of every interval is zero. *)
Theorem kernel1D_meaning (n : nat) (a b : Q) (zb vp : bool) (theta : list Q)
  (Hn : 0 < n) (Hab : ~ (a == b)%Q) (Hlen : length theta = 2 * n) :
  exists t,
    Tesselation1D.init [n] [a] [b] zb vp = Ok t /\
    ncols (get_constrain_matrix t) = length theta /\
    (in_kernel (get_constrain_matrix t) theta <->
     (forall i, i + 1 < n ->
        (velocity1D theta i (breakpoint a b n (i + 1)) ==
         velocity1D theta (i + 1) (breakpoint a b n (i + 1)))%Q) /\
     (zb = true ->
        (velocity1D theta 0 a == 0)%Q /\
        (velocity1D theta (n - 1) b == 0)%Q) /\
     (vp = true -> forall c, c < n -> (nth (2 * c) theta 0 == 0)%Q)).
Proof.
  destruct (@Tesselation1D_init_ok n a b zb vp Hn Hab)
    as (t & Ht & _ & _ & [Hs _] & _).
  exists t. split; [exact Ht|]. split.
  - unfold get_constrain_matrix. rewrite Hs. lia.
  - apply (@kernel1D_blocks n a b zb vp t theta Hn Hab Ht).
Qed.

(** X10: in 1D with volume preservation the constraints leave only the
    constant velocity fields: [L @ theta = 0] exactly when every slope is
    zero and all offsets are equal; with zero boundary in addition, only
    [theta = 0] is left. *)
Theorem kernel1D_volume_preserving (n : nat) (a b : Q) (zb : bool)
  (theta : list Q)
  (Hn : 0 < n) (Hab : ~ (a == b)%Q) (Hlen : length theta = 2 * n) :
  exists t,
    Tesselation1D.init [n] [a] [b] zb true = Ok t /\
    (in_kernel (get_constrain_matrix t) theta <->
     (forall c, c < n ->
        (nth (2 * c) theta 0 == 0)%Q /\
        (nth (2 * c + 1) theta 0 == nth 1 theta 0)%Q) /\
     (zb = true -> forall k, (nth k theta 0 == 0)%Q)).
Proof.
  destruct (@Tesselation1D_init_ok n a b zb true Hn Hab) as (t & Ht & _).
  exists t. split; [exact Ht|].
  rewrite (@kernel1D_blocks n a b zb true t theta Hn Hab Ht).
  unfold velocity1D. split.
  - intros (H1 & H2 & H3). specialize (H3 eq_refl).
    assert (Hoff : forall c, c < n ->
                   (nth (2 * c + 1) theta 0 == nth 1 theta 0)%Q).
    { induction c as [|c IH]; intros Hc; [reflexivity|].
      specialize (H1 c ltac:(lia)).
      rewrite (H3 c) in H1 by lia. rewrite (H3 (c + 1)) in H1 by lia.
      rewrite <- IH by lia.
      replace (S c) with (c + 1) by lia. lra. }
    split.
    + intros c Hc. split; [now apply H3|now apply Hoff].
    + intros Hz k. destruct (H2 Hz) as [X1 _].
      rewrite (H3 0) in X1 by lia. cbn [Nat.mul Nat.add] in X1.
      destruct (Nat.lt_ge_cases k (2 * n)) as [Hk|Hk].
      * destruct (Nat.Even_or_Odd k) as [[c ->]|[c ->]].
        -- apply H3. lia.
        -- rewrite Hoff by lia. lra.
      * rewrite nth_overflow by lia. reflexivity.
  - intros (H1 & H2). split; [|split].
    + intros i Hi. destruct (H1 i ltac:(lia)) as [X1 X2].
      destruct (H1 (i + 1) ltac:(lia)) as [Y1 Y2].
      rewrite X1, X2, Y1, Y2. reflexivity.
    + intros Hz. specialize (H2 Hz). rewrite !H2. split; lra.
    + intros _ c Hc. now apply H1.
Qed.

(** ** Comparisons of grid vertices *)

Lemma mid_value (a b : Q) (n j : nat) :
  j < n ->
  ((breakpoint a b n j + breakpoint a b n (j + 1)) / 2 ==
   a + (inject_Z (Z.of_nat (2 * j + 1)) / 2)
       * ((b - a) / inject_Z (Z.of_nat n)))%Q.
Proof.
  intros Hj. rewrite !breakpoint_value by lia.
  assert (Hd : ~ (inject_Z (Z.of_nat n) == 0)%Q).
  { change 0%Q with (inject_Z 0). rewrite inject_Z_injective. lia. }
  rewrite !Nat2Z.inj_add, Nat2Z.inj_mul, !inject_Z_plus, inject_Z_mult.
  change (inject_Z (Z.of_nat 1)) with 1%Q.
  change (inject_Z (Z.of_nat 2)) with 2%Q.
  field. exact Hd.
Qed.

Lemma step_nonzero (a b : Q) (n : nat) :
  0 < n -> ~ (a == b)%Q -> ~ ((b - a) / inject_Z (Z.of_nat n) == 0)%Q.
Proof.
  intros Hn Hab Hs. apply Hab.
  assert (Hd : ~ (inject_Z (Z.of_nat n) == 0)%Q).
  { change 0%Q with (inject_Z 0). rewrite inject_Z_injective. lia. }
  assert (Hba : (b - a == 0)%Q).
  { setoid_replace (b - a)%Q
      with ((b - a) / inject_Z (Z.of_nat n) * inject_Z (Z.of_nat n))%Q
      by (field; exact Hd).
    rewrite Hs. ring. }
  lra.
Qed.

Lemma mid_bp_eqb (a b : Q) (n j k : nat) :
  ~ (a == b)%Q -> j < n -> k <= n ->
  Qeq_bool ((breakpoint a b n j + breakpoint a b n (j + 1)) / 2)
           (breakpoint a b n k) = false.
Proof.
  intros Hab Hj Hk. apply not_true_iff_false. intros E.
  apply Qeq_bool_iff in E.
  rewrite mid_value, breakpoint_value in E by lia.
  pose proof (@step_nonzero a b n ltac:(lia) Hab) as Hs.
  apply (proj1 (Qplus_inj_l _ _ _)) in E.
    apply (proj1 (Qmult_inj_r _ _ _ Hs)) in E.
  assert (E' : (inject_Z (Z.of_nat (2 * j + 1)) ==
                inject_Z (Z.of_nat (2 * k)))%Q).
  { rewrite (Nat2Z.inj_mul 2 k), inject_Z_mult.
    change (inject_Z (Z.of_nat 2)) with 2%Q. rewrite <- E. field. }
  apply (proj1 (inject_Z_injective _ _)) in E'. lia.
Qed.

Lemma bp_mid_eqb (a b : Q) (n j k : nat) :
  ~ (a == b)%Q -> j < n -> k <= n ->
  Qeq_bool (breakpoint a b n k)
           ((breakpoint a b n j + breakpoint a b n (j + 1)) / 2) = false.
Proof.
  intros Hab Hj Hk. rewrite Qeq_bool_comm. now apply mid_bp_eqb.
Qed.

Lemma mid_mid_eqb (a b : Q) (n j k : nat) :
  ~ (a == b)%Q -> j < n -> k < n ->
  Qeq_bool ((breakpoint a b n j + breakpoint a b n (j + 1)) / 2)
           ((breakpoint a b n k + breakpoint a b n (k + 1)) / 2) = (j =? k).
Proof.
  intros Hab Hj Hk. apply eq_true_iff_eq.
  rewrite Qeq_bool_iff, Nat.eqb_eq. split.
  - intros E. rewrite !mid_value in E by lia.
    pose proof (@step_nonzero a b n ltac:(lia) Hab) as Hs.
    apply (proj1 (Qplus_inj_l _ _ _)) in E.
    apply (proj1 (Qmult_inj_r _ _ _ Hs)) in E.
    assert (E' : (inject_Z (Z.of_nat (2 * j + 1)) ==
                  inject_Z (Z.of_nat (2 * k + 1)))%Q).
    { setoid_replace (inject_Z (Z.of_nat (2 * j + 1)))
        with (inject_Z (Z.of_nat (2 * j + 1)) / 2 * 2)%Q by field.
      rewrite E. field. }
    apply (proj1 (inject_Z_injective _ _)) in E'. lia.
  - intros ->. reflexivity.
Qed.

(** Comparisons of grid vertices come down to comparisons of indices. *)
Ltac grid_eqb :=
  repeat (cbn [filter existsb vertex_eqb negb andb orb length nth Nat.add
               Nat.eqb];
          change (Qeq_bool 1 1) with true;
          rewrite ?andb_true_r, ?andb_false_r, ?orb_false_r;
          rewrite ?breakpoint_eqb, ?mid_bp_eqb, ?bp_mid_eqb, ?mid_mid_eqb
            by (assumption || lia)).

Lemma shares_inner a0 b0 n0 a1 b1 n1 :
  ~ (a0 == b0)%Q -> ~ (a1 == b1)%Q -> 0 < n0 -> 0 < n1 ->
  length (intersection (nth 0 (triangles a0 b0 n0 a1 b1 n1 0 0) [])
                       (nth 1 (triangles a0 b0 n0 a1 b1 n1 0 0) [])) = 2.
Proof.
  intros H0 H1 Hn0 Hn1.
  unfold intersection, vset, vmem, triangles. cbv zeta.
  grid_eqb. reflexivity.
Qed.

Lemma shares_top a0 b0 n0 a1 b1 n1 :
  ~ (a0 == b0)%Q -> ~ (a1 == b1)%Q -> 1 < n0 -> 0 < n1 ->
  length (intersection (nth 0 (triangles a0 b0 n0 a1 b1 n1 0 0) [])
                       (nth 0 (triangles a0 b0 n0 a1 b1 n1 0 1) [])) = 1.
Proof.
  intros H0 H1 Hn0 Hn1.
  unfold intersection, vset, vmem, triangles. cbv zeta.
  grid_eqb. reflexivity.
Qed.

Lemma shares_left a0 b0 n0 a1 b1 n1 :
  ~ (a0 == b0)%Q -> ~ (a1 == b1)%Q -> 0 < n0 -> 1 < n1 ->
  length (intersection (nth 3 (triangles a0 b0 n0 a1 b1 n1 0 0) [])
                       (nth 3 (triangles a0 b0 n0 a1 b1 n1 1 0) [])) = 1.
Proof.
  intros H0 H1 Hn0 Hn1.
  unfold intersection, vset, vmem, triangles. cbv zeta.
  grid_eqb. reflexivity.
Qed.

(** ** The open boundary in two dimensions *)

Lemma scan_pairs_nil (n : nat) (P : nat -> nat -> bool) :
  (forall i j, i < n -> j < n -> P i j = false) -> scan_pairs n P = [].
Proof.
  intros H. destruct (scan_pairs n P) as [|[i j] l] eqn:E; [reflexivity|].
  assert (Hin : In (i, j) (scan_pairs n P)) by (rewrite E; now left).
  apply in_scan_pairs in Hin. destruct Hin as (H1 & H2 & H3).
  rewrite H in H3 by lia. discriminate.
Qed.

Lemma scan_pairs_inhabited (n : nat) (P : nat -> nat -> bool) (i j : nat) :
  i <= j -> j < n -> P i j = true -> scan_pairs n P <> [].
Proof.
  intros H1 H2 H3 E.
  assert (Hin : In (i, j) (scan_pairs n P)) by (apply in_scan_pairs; auto).
  rewrite E in Hin. destruct Hin.
Qed.

(** The last steps of the 2D constructor on an object with well-formed
    adjacency data, zero boundary switched off. *)
Lemma init2D_open_tail (s3 : tess) (vp : bool) :
  adjacency_ok 2 3 s3 = true -> n_params s3 = 6 -> ndim s3 = 2 ->
  exists t,
    (M <- Tesselation2D.create_continuity_constrains s3 ;;
     self <- Ok (set_L s3 M) ;;
     self <- (if vp
              then temp <- Tesselation.create_zero_trace_constrains self ;;
                   M <- concatenate (L self) temp ;;
                   Ok (set_L self M)
              else Ok self) ;;
     Ok self) = Ok t.
Proof.
  intros Hadj Hp Hd.
  destruct (adjacency_ok_spec _ _ _ Hadj) as (Hlen & Hidx & _ & HV).
  rewrite continuity2D_rows; [|exact Hlen| |].
  2:{ intros p Hin. specialize (Hidx p Hin). lia. }
  2:{ intros V HVin. destruct (HV V HVin) as (Ha & _ & Hb).
      split; [exact Ha|]. intros v Hvin. now apply Hb. }
  cbn [bind].
  destruct (@init_blocks Tesselation2D.impl s3
              (Matrix (6 * nC s3)
                 (cont_rows 2 6 (6 * nC s3) (shared_v_idx s3) (shared_v s3)))
              false vp (6 * nC s3))
    as (t & Et & _).
  - now rewrite Hp.
  - now rewrite Hp, Hd.
  - split; [reflexivity|apply cont_rows_widths].
  - discriminate.
  - exists t. exact Et.
Qed.

Lemma concatenate_lists_outcome {A} (a b : list A) :
  concatenate_lists a b =
  match a, b with
  | [], [] => Ok []
  | _ :: _, _ :: _ => Ok (a ++ b)
  | _, _ => Raise ValueError
  end.
Proof. now destruct a, b. Qed.

(** The 2D constructor with zero boundary switched off, up to the
    concatenation of the interior and the virtual pairs. *)
Lemma init2D_open_steps n0 n1 a0 a1 b0 b1 vp :
  ~ (a0 == b0)%Q -> ~ (a1 == b1)%Q ->
  let s1 := set_verts
              (configured 6 (4 * prod [n0; n1]) 2 [n0; n1] [a0; a1] [b0; b1]
                 false vp)
              (grid_verts a0 b0 n0 a1 b1 n1) (grid_cells n0 n1) in
  let F := scan_pairs (nC s1) (is_facet s1) in
  let P := scan_pairs (nC s1) (is_virtual s1) in
  match F, P with
  | [], [] | _ :: _, _ :: _ =>
      is_ok (Tesselation2D.init [n0; n1] [a0; a1] [b0; b1] false vp) = true
  | _, _ =>
      Tesselation2D.init [n0; n1] [a0; a1] [b0; b1] false vp
      = Raise ValueError
  end.
Proof.
  intros H0 H1 s1 F P.
  set (s2 := set_shared s1 (map (fun p => shares s1 (fst p) (snd p)) F) F).
  change P with (scan_pairs (nC s2) (is_virtual s2)).
  clearbody P. clear P.
  set (P := scan_pairs (nC s2) (is_virtual s2)).
  destruct (@pipeline2D n0 n1 a0 a1 b0 b1 false vp H0 H1)
    as (s1' & s2' & E1 & E2 & Hn & _ & Ht1 & Ht2 & Hp & Hd & HnC & Hlen2 &
        Hmin2 & Hmax2 & Hvert2 & Hadj & Hout).
  rewrite (@find_verts2D_ok _ a0 a1 [] b0 b1 [] n0 n1 []) in E1
    by reflexivity.
  injection E1 as <-.
  assert (Hle : nC s1 <= length (verts s1))
    by exact (Nat.eq_le_incl _ _ Hn).
  change (Tesselation.find_shared_verts s1 = Ok s2') in E2.
  change (tables_ok s1 = true) in Ht1.
  rewrite (find_shared_verts_scan s1 Hle) in E2.
  fold F in E2. injection E2 as <-. fold s2 in Ht2, Hp, Hd, HnC, Hadj, Hout.
  assert (Einit : Tesselation2D.init [n0; n1] [a0; a1] [b0; b1] false vp =
                  (s3 <- Tesselation2D.find_verts_outside s2 ;;
                   M <- Tesselation2D.create_continuity_constrains s3 ;;
                   self <- Ok (set_L s3 M) ;;
                   self <- (if vp
                            then temp <- Tesselation.create_zero_trace_constrains
                                           self ;;
                                 M <- concatenate (L self) temp ;;
                                 Ok (set_L self M)
                            else Ok self) ;;
                   Ok self)).
  { unfold Tesselation2D.init, Tesselation.init.
    fold (configured 6 (4 * prod [n0; n1]) 2 [n0; n1] [a0; a1] [b0; b1]
            false vp).
    cbv zeta. cbn [find_verts Tesselation2D.impl negb].
    rewrite (@find_verts2D_ok _ a0 a1 [] b0 b1 [] n0 n1 []) by reflexivity.
    cbn [bind]. fold s1.
    rewrite (find_shared_verts_scan s1 Hle).
    fold F. cbn [bind]. fold s2. reflexivity. }
  assert (Eout : Tesselation2D.find_verts_outside s2 =
                 (sv' <- concatenate_lists
                           (map (fun p => shares s1 (fst p) (snd p)) F)
                           (map (fun p => virtual_set s2 (fst p) (snd p)) P) ;;
                  si' <- concatenate_lists F P ;;
                  Ok (set_shared s2 sv' si'))).
  { unfold Tesselation2D.find_verts_outside.
    rewrite (outside_scan_pairs s2 Ht2). reflexivity. }
  rewrite Einit, Eout, !concatenate_lists_outcome.
  destruct F as [|f F'] eqn:EF, P as [|p P'] eqn:EP; cbn [map bind];
    try reflexivity.
  - (* no cell at all *)
    destruct (@init2D_open_tail
                (set_shared s2 [] []) vp) as (t & Et).
    + apply (Hout (set_shared s2 [] [])).
      rewrite Eout, !concatenate_lists_outcome. reflexivity.
    + exact Hp.
    + exact Hd.
    + cbn [bind] in Et. cbn [bind]. rewrite Et. reflexivity.
  - match goal with
    | |- context [Tesselation2D.create_continuity_constrains ?s] =>
        destruct (@init2D_open_tail s vp) as (t & Et)
    end.
    + match goal with
      | |- adjacency_ok 2 3 ?s = true => apply (Hout s)
      end.
      rewrite Eout, !concatenate_lists_outcome. reflexivity.
    + exact Hp.
    + exact Hd.
    + cbn [bind] in Et. cbn [bind]. rewrite Et. reflexivity.
Qed.

Lemma grid_has_facet (self : tess) a0 b0 n0 a1 b1 n1 :
  verts self = grid_verts a0 b0 n0 a1 b1 n1 -> ndim self = 2 ->
  ~ (a0 == b0)%Q -> ~ (a1 == b1)%Q -> 0 < n0 -> 0 < n1 ->
  is_facet self 0 1 = true.
Proof.
  intros Hv Hd H0 H1 Hn0 Hn1. unfold is_facet, shares, simplex_at.
  rewrite Hv, Hd.
  pose proof (@grid_verts_nth a0 b0 n0 a1 b1 n1 0 0 0 Hn1 Hn0 ltac:(lia))
    as G0.
  pose proof (@grid_verts_nth a0 b0 n0 a1 b1 n1 0 0 1 Hn1 Hn0 ltac:(lia))
    as G1.
  cbn [Nat.mul Nat.add] in G0, G1. rewrite G0, G1.
  now rewrite shares_inner.
Qed.

Lemma grid_has_top_pair (self : tess) a0 b0 n0 a1 b1 n1 :
  verts self = grid_verts a0 b0 n0 a1 b1 n1 ->
  cells self = grid_cells n0 n1 ->
  ~ (a0 == b0)%Q -> ~ (a1 == b1)%Q -> 1 < n0 -> 0 < n1 ->
  is_virtual self 0 4 = true.
Proof.
  intros Hv Hc H0 H1 Hn0 Hn1.
  unfold is_virtual, on_some_edge, shares, simplex_at, cell_at.
  rewrite Hv, Hc.
  pose proof (@grid_verts_nth a0 b0 n0 a1 b1 n1 0 0 0 Hn1 ltac:(lia)
                ltac:(lia)) as G0.
  pose proof (@grid_verts_nth a0 b0 n0 a1 b1 n1 0 1 0 Hn1 Hn0 ltac:(lia))
    as G1.
  pose proof (@grid_cells_nth n0 n1 0 0 0 Hn1 ltac:(lia) ltac:(lia)) as C0.
  pose proof (@grid_cells_nth n0 n1 0 1 0 Hn1 Hn0 ltac:(lia)) as C1.
  cbn [Nat.mul Nat.add] in G0, G1, C0, C1. rewrite G0, G1, C0, C1.
  rewrite shares_top by assumption.
  unfold edges, on_edge, col, row_of, sub, adjacent.
  cbn [existsb nth Nat.eqb Nat.add andb orb].
  now rewrite !orb_true_r.
Qed.

Lemma grid_has_left_pair (self : tess) a0 b0 n0 a1 b1 n1 :
  verts self = grid_verts a0 b0 n0 a1 b1 n1 ->
  cells self = grid_cells n0 n1 ->
  ~ (a0 == b0)%Q -> ~ (a1 == b1)%Q -> 0 < n0 -> 1 < n1 ->
  is_virtual self 3 (4 * (1 * n0 + 0) + 3) = true.
Proof.
  intros Hv Hc H0 H1 Hn0 Hn1.
  unfold is_virtual, on_some_edge, shares, simplex_at, cell_at.
  rewrite Hv, Hc.
  pose proof (@grid_verts_nth a0 b0 n0 a1 b1 n1 0 0 3 ltac:(lia) Hn0
                ltac:(lia)) as G0.
  pose proof (@grid_cells_nth n0 n1 0 0 3 ltac:(lia) Hn0 ltac:(lia)) as C0.
  cbn [Nat.mul Nat.add] in G0, C0. rewrite G0, C0.
  rewrite (@grid_verts_nth a0 b0 n0 a1 b1 n1 1 0 3) by lia.
  rewrite (@grid_cells_nth n0 n1 1 0 3) by lia.
  rewrite shares_left by assumption.
  unfold edges, on_edge, col, row_of, sub, adjacent.
  cbn [existsb nth Nat.eqb Nat.add andb orb]. reflexivity.
Qed.

Lemma grid_one_cell_no_pair (self : tess) :
  cells self = grid_cells 1 1 -> nc self = [1; 1] ->
  forall i j, i < 4 -> j < 4 -> is_virtual self i j = false.
Proof.
  intros Hc Hnc i j Hi Hj. unfold is_virtual.
  assert (E : on_some_edge self i j = false).
  { unfold on_some_edge, cell_at. rewrite Hc, Hnc.
    destruct i as [|[|[|[|i]]]]; [| | | |lia];
      (destruct j as [|[|[|[|j]]]]; [| | | |lia]); reflexivity. }
  rewrite E. apply andb_false_r.
Qed.

(** X11: with zero boundary switched off, a 2D construction over the single
    cell [nc = [1, 1]] of a domain that is not flat raises ValueError:
    [find_shared_verts] records pairs of the four triangles,
    [find_verts_outside] finds no pair along the outer edges, and joining
    its empty list to the recorded pairs fails.  Over a grid with a zero
    cell count there is no simplex, both lists are empty, and the
    construction completes. *)
Theorem Tesselation2D_open_boundary (a0 a1 b0 b1 : Q) (vp : bool)
  (H0 : ~ (a0 == b0)%Q) (H1 : ~ (a1 == b1)%Q) :
  Tesselation2D.init [1; 1] [a0; a1] [b0; b1] false vp = Raise ValueError /\
  (exists s1 s2,
     Tesselation2D.find_verts
       (configured 6 4 2 [1; 1] [a0; a1] [b0; b1] false vp) = Ok s1 /\
     Tesselation.find_shared_verts s1 = Ok s2 /\
     shared_v_idx s2 <> [] /\
     Tesselation2D.outside_scan s2 = Ok ([], []) /\
     Tesselation2D.find_verts_outside s2 = Raise ValueError) /\
  (forall n0 n1, n0 = 0 \/ n1 = 0 ->
     exists t,
       Tesselation2D.init [n0; n1] [a0; a1] [b0; b1] false vp = Ok t /\
       nC t = 0 /\ verts t = []).
Proof.
  split; [|split].
  - pose proof (@init2D_open_steps 1 1 a0 a1 b0 b1 vp H0 H1) as S.
    cbv zeta in S.
    set (s1 := set_verts _ _ _) in S.
    assert (EF : scan_pairs (nC s1) (is_facet s1) <> []).
    { apply (@scan_pairs_inhabited _ _ 0 1); [lia|cbn; lia|].
      apply (@grid_has_facet s1 a0 b0 1 a1 b1 1); auto. }
    assert (EP : scan_pairs (nC s1) (is_virtual s1) = []).
    { apply scan_pairs_nil. intros i j Hi Hj.
      apply grid_one_cell_no_pair; auto. }
    rewrite EP in S.
    destruct (scan_pairs (nC s1) (is_facet s1)); [contradiction|]. exact S.
  - set (s1 := set_verts
                 (configured 6 (4 * prod [1; 1]) 2 [1; 1] [a0; a1] [b0; b1]
                    false vp)
                 (grid_verts a0 b0 1 a1 b1 1) (grid_cells 1 1)).
    set (F := scan_pairs (nC s1) (is_facet s1)).
    set (s2 := set_shared s1 (map (fun p => shares s1 (fst p) (snd p)) F) F).
    assert (Hle : nC s1 <= length (verts s1)).
    { change (nC s1) with 4. change (verts s1) with (grid_verts a0 b0 1 a1 b1 1).
      rewrite grid_verts_length. lia. }
    assert (E2 : Tesselation.find_shared_verts s1 = Ok s2)
      by apply (find_shared_verts_scan s1 Hle).
    assert (Ht2 : tables_ok s2 = true).
    { destruct (@find_shared_verts_tables _ _ E2) as [-> _].
      apply grid_tables_ok. }
    assert (EF : F <> []).
    { apply (@scan_pairs_inhabited _ _ 0 1); [lia|cbn; lia|].
      apply (@grid_has_facet s1 a0 b0 1 a1 b1 1); auto. }
    assert (EP : scan_pairs (nC s2) (is_virtual s2) = []).
    { apply scan_pairs_nil. intros i j Hi Hj.
      apply grid_one_cell_no_pair; auto. }
    exists s1, s2. split; [|split; [exact E2|split; [exact EF|split]]].
    + now apply (@find_verts2D_ok _ a0 a1 [] b0 b1 [] 1 1 []).
    + rewrite (outside_scan_pairs s2 Ht2), EP. reflexivity.
    + unfold Tesselation2D.find_verts_outside.
      rewrite (outside_scan_pairs s2 Ht2), EP. cbn [map bind].
      change (shared_v s2) with (map (fun p => shares s1 (fst p) (snd p)) F).
      destruct F; [contradiction|]. reflexivity.
  - intros n0 n1 Hz.
    pose proof (@init2D_open_steps n0 n1 a0 a1 b0 b1 vp H0 H1) as S.
    cbv zeta in S.
    set (s1 := set_verts _ _ _) in S.
    assert (HnC : nC s1 = 0) by (cbn; nia).
    rewrite HnC in S. cbn [scan_pairs range seq flat_map] in S.
    destruct (Tesselation2D.init [n0; n1] [a0; a1] [b0; b1] false vp)
      as [t|] eqn:Ht; [|discriminate].
    exists t. split; [reflexivity|].
    destruct (@init2D_tables _ _ _ _ _ _ _ _ _ Ht) as (Hv & _ & _ & Hc & _).
    split; [rewrite Hc; nia|].
    rewrite Hv. apply length_zero_iff_nil. rewrite grid_verts_length. nia.
Qed.

(** ** The 2D matrix applied to a parameter vector *)

Lemma dot_from_opp (k : nat) (v : list Q) (theta : list Q) :
  (dot_from k (map Qopp v) theta == - dot_from k v theta)%Q.
Proof.
  revert k. induction v as [|x v IH]; intros k; cbn [map dot_from].
  - reflexivity.
  - rewrite IH. ring.
Qed.

(** A continuity row is the vertex at the block of [i], its opposite at
    the block of [j], zeros around them. *)
Lemma cont_row_blocks np d1 W i j k (v : vertex) :
  length v = d1 ->
  np * i + k * d1 + d1 <= np * j + k * d1 ->
  np * j + k * d1 + d1 <= W ->
  cont_row np d1 W i j k v =
  zeros (np * i + k * d1) ++ v
  ++ zeros (np * j + k * d1 - (np * i + k * d1 + d1))
  ++ map Qopp v ++ zeros (W - (np * j + k * d1 + d1)).
Proof.
  intros Hv Hij Hw.
  set (bi := np * i + k * d1) in *. set (bj := np * j + k * d1) in *.
  apply (nth_ext _ _ 0%Q 0%Q).
  - rewrite cont_row_length, !length_app, !zeros_length, length_map. lia.
  - rewrite cont_row_length. intros c Hc. rewrite cont_row_nth by exact Hc.
    cbv zeta. fold bi bj.
    destruct (Nat.leb_spec bj c) as [H1|H1]; cbn [andb].
    + destruct (Nat.ltb_spec c (bj + d1)) as [H2|H2].
      * rewrite app_nth2 by (rewrite zeros_length; lia).
        rewrite app_nth2 by (rewrite zeros_length; lia).
        rewrite app_nth2 by (rewrite !zeros_length; lia).
        rewrite app_nth1 by (rewrite !zeros_length, length_map; lia).
        rewrite !zeros_length, nth_opp. f_equal. f_equal. lia.
      * destruct (Nat.leb_spec bi c) as [H3|H3]; [|lia]. cbn [andb].
        destruct (Nat.ltb_spec c (bi + d1)) as [H4|H4]; [lia|].
        rewrite app_nth2 by (rewrite zeros_length; lia).
        rewrite app_nth2 by (rewrite zeros_length; lia).
        rewrite app_nth2 by (rewrite !zeros_length; lia).
        rewrite app_nth2 by (rewrite !zeros_length, length_map; lia).
        now rewrite nth_zeros.
    + destruct (Nat.leb_spec bi c) as [H3|H3]; cbn [andb].
      * destruct (Nat.ltb_spec c (bi + d1)) as [H4|H4].
        -- rewrite app_nth2 by (rewrite zeros_length; lia).
           rewrite app_nth1 by (rewrite zeros_length; lia).
           now rewrite zeros_length.
        -- rewrite app_nth2 by (rewrite zeros_length; lia).
           rewrite app_nth2 by (rewrite zeros_length; lia).
           rewrite app_nth1 by (rewrite !zeros_length; lia).
           now rewrite nth_zeros.
      * rewrite app_nth1 by (rewrite zeros_length; lia).
        now rewrite nth_zeros.
Qed.

Lemma dot_cont_row np d1 W i j k (v : vertex) (theta : list Q) :
  length v = d1 ->
  np * i + k * d1 + d1 <= np * j + k * d1 ->
  np * j + k * d1 + d1 <= W ->
  (dot (cont_row np d1 W i j k v) theta ==
   dot_from (np * i + k * d1) v theta
   - dot_from (np * j + k * d1) v theta)%Q.
Proof.
  intros Hv Hij Hw. rewrite (@cont_row_blocks np d1 W i j k v Hv Hij Hw).
  unfold dot. rewrite !dot_from_app, !dot_from_zeros, dot_from_opp.
  rewrite !zeros_length. cbn [Nat.add].
  replace (np * i + k * d1 + length v
           + (np * j + k * d1 - (np * i + k * d1 + d1)))
    with (np * j + k * d1) by lia.
  ring.
Qed.

(** The matrix of a 2D construction: the continuity rows of the recorded
    pairs, the zero-boundary rows, the trace rows. *)
Lemma init2D_matrix n0 n1 a0 a1 b0 b1 zb vp t :
  ~ (a0 == b0)%Q -> ~ (a1 == b1)%Q ->
  Tesselation2D.init [n0; n1] [a0; a1] [b0; b1] zb vp = Ok t ->
  adjacency_ok 2 3 t = true /\ nC t = 4 * (n0 * n1) /\
  exists Mz,
    rows (L t) =
    cont_rows 2 6 (6 * nC t) (shared_v_idx t) (shared_v t)
    ++ rows Mz
    ++ (if vp
        then map (fun c => zeros (6 * c) ++ Tesselation.eye_row 2
                           ++ zeros (6 * nC t - 6 * (c + 1)))
                 (range (nC t))
        else []) /\
    (zb = false -> rows Mz = []).
Proof.
  intros H0 H1 H.
  destruct (@pipeline2D n0 n1 a0 a1 b0 b1 zb vp H0 H1)
    as (s1' & s2' & E1' & E2' & _ & _ & _ & _ & Hp & Hd & HnC & _ &
        _ & _ & _ & Hadj & Hout).
  unfold Tesselation2D.init in H.
  destruct (@init_steps _ _ _ _ _ _ _ _ H)
    as (s1 & s2 & s3 & Mc & E1 & E2 & E3 & E4 & _ & _ & Hd3 & Hc3 & Hp3 &
        Hsv & Hsi & Mz & Mt & Ez & Et & HL & _).
  cbn [find_verts Tesselation2D.impl] in E1.
  change (Tesselation2D.find_verts
            (configured 6 (4 * prod [n0; n1]) 2 [n0; n1] [a0; a1] [b0; b1]
               zb vp) = Ok s1) in E1.
  rewrite E1' in E1. injection E1 as <-.
  rewrite E2' in E2. injection E2 as <-.
  assert (X : adjacency_ok 2 3 s3 = true /\ nC s3 = nC s2' /\
              n_params s3 = 6 /\ ndim s3 = 2).
  { destruct zb; cbn [negb] in E3.
    - injection E3 as <-. auto.
    - cbn [find_verts_outside Tesselation2D.impl] in E3.
      apply (Hout s3 E3). }
  destruct X as (Hadj3 & HnC3 & Hp3' & Hd3').
  assert (Hadjt : adjacency_ok 2 3 t = true).
  { unfold adjacency_ok in *. now rewrite Hsv, Hsi, Hc3. }
  split; [exact Hadjt|]. split; [rewrite Hc3, HnC3, HnC; lia|].
  exists Mz. split.
  - rewrite HL. f_equal; [|f_equal].
    + cbn [create_continuity_constrains Tesselation2D.impl] in E4.
      destruct (adjacency_ok_spec _ _ _ Hadj3) as (Hlen & Hidx & _ & HV).
      rewrite continuity2D_rows in E4; [|exact Hlen| |].
      * injection E4 as <-. cbn [rows]. now rewrite Hsv, Hsi, Hc3.
      * intros p Hin. specialize (Hidx p Hin). lia.
      * intros V HVin. destruct (HV V HVin) as (Ha & _ & Hb).
        split; [exact Ha|]. intros v Hvin. now apply Hb.
    + destruct vp; [|now injection Et as <-].
      rewrite zero_trace_rows_eq in Et by (now rewrite Hp3', Hd3').
      injection Et as <-. cbn [rows]. now rewrite Hp3', Hd3', Hc3.
  - intros ->. now injection Ez as <-.
Qed.

(** X12: after a 2D construction with zero boundary switched off, a
    parameter vector satisfies [L @ theta = 0] for the matrix of
    [get_constrain_matrix] exactly when, for every recorded pair of
    triangles, interior or virtual, the two affine maps give the same
    velocity at both vertices recorded for the pair, in both components,
    and, with volume preservation, the linear part of every affine map
    has trace zero. *)
Theorem kernel2D_open_meaning (n0 n1 : nat) (a0 a1 b0 b1 : Q) (vp : bool)
  (t : tess) (theta : list Q)
  (H0 : ~ (a0 == b0)%Q) (H1 : ~ (a1 == b1)%Q)
  (Ht : Tesselation2D.init [n0; n1] [a0; a1] [b0; b1] false vp = Ok t) :
  in_kernel (get_constrain_matrix t) theta <->
  (forall i j V v k,
     In ((i, j), V) (combine (shared_v_idx t) (shared_v t)) ->
     In v V -> k < 2 ->
     (velocity2D theta i k v == velocity2D theta j k v)%Q) /\
  (vp = true ->
   forall c, c < nC t ->
     (nth (6 * c) theta 0 + nth (6 * c + 4) theta 0 == 0)%Q).
Proof.
  destruct (@init2D_matrix n0 n1 a0 a1 b0 b1 false vp t H0 H1 Ht)
    as (Hadj & HnC & Mz & HL & Hz).
  destruct (adjacency_ok_spec _ _ _ Hadj) as (Hlen & Hidx & _ & HV).
  unfold in_kernel, get_constrain_matrix.
  rewrite HL, (Hz eq_refl). cbn [app]. rewrite Forall_app.
  assert (A : forall i j V v k,
             In ((i, j), V) (combine (shared_v_idx t) (shared_v t)) ->
             In v V -> k < 2 ->
             (dot (cont_row 6 3 (6 * nC t) i j k v) theta ==
              velocity2D theta i k v - velocity2D theta j k v)%Q).
  { intros i j V v k Hin Hv Hk.
    pose proof (in_combine_l _ _ _ _ Hin) as Hp.
    pose proof (in_combine_r _ _ _ _ Hin) as HVin.
    specialize (Hidx _ Hp). cbn [fst snd] in Hidx.
    destruct (HV V HVin) as (_ & _ & Hb). destruct (Hb v Hv) as [Hl _].
    unfold velocity2D. rewrite dot_cont_row by (assumption || lia).
    now rewrite (Nat.mul_comm k 3). }
  assert (D : forall c,
             (dot (zeros (6 * c) ++ Tesselation.eye_row 2
                   ++ zeros (6 * nC t - 6 * (c + 1))) theta == 0)%Q <->
             (nth (6 * c) theta 0 + nth (6 * c + 4) theta 0 == 0)%Q).
  { intros c. rewrite dot_block.
    change (Tesselation.eye_row 2) with [1%Q; 0%Q; 0%Q; 0%Q; 1%Q; 0%Q].
    cbn [dot_from].
    replace (S (S (S (S (6 * c))))) with (6 * c + 4) by lia.
    split; intros E; lra. }
  unfold cont_rows, cont_block. split.
  - intros [Hc Htr]. split.
    + intros i j V v k Hin Hv Hk.
      rewrite Forall_forall in Hc.
      assert (E : (dot (cont_row 6 3 (6 * nC t) i j k v) theta == 0)%Q).
      { apply Hc. apply in_flat_map. exists ((i, j), V). split; [exact Hin|].
        cbn [fst snd]. apply in_flat_map. exists v. split; [exact Hv|].
        apply in_map_iff. exists k. split; [reflexivity|].
        apply in_seq. lia. }
      rewrite (A i j V v k Hin Hv Hk) in E. lra.
    + intros -> c Hc'. apply D. rewrite Forall_map_range in Htr.
      now apply Htr.
  - intros [Hc Htr]. split.
    + apply Forall_forall. intros r Hr.
      apply in_flat_map in Hr. destruct Hr as ([[i j] V] & Hin & Hr).
      cbn [fst snd] in Hr. apply in_flat_map in Hr.
      destruct Hr as (v & Hv & Hr). apply in_map_iff in Hr.
      destruct Hr as (k & <- & Hk). apply in_seq in Hk.
      rewrite (A i j V v k Hin Hv ltac:(lia)).
      rewrite (Hc i j V v k Hin Hv ltac:(lia)). ring.
    + destruct vp; [|constructor].
      apply Forall_map_range. intros c Hc'. apply D. now apply Htr.
Qed.

(** ** Further theorems at small configurations *)

Lemma zero_trace_rows_witness :
  exists M,
    Tesselation.create_zero_trace_constrains
      (configured 6 4 2 [1; 1] [0%Q; 0%Q] [1%Q; 1%Q] true true) = Ok M /\
    length (rows M) = 4 /\
    nth 4 (nth 0 (rows M) []) 0%Q = 1%Q /\
    nth 5 (nth 0 (rows M) []) 0%Q = 0%Q.
Proof.
  destruct (@zero_trace_rows
              (configured 6 4 2 [1; 1] [0%Q; 0%Q] [1%Q; 1%Q] true true)
              eq_refl) as (M & E & _ & Hr & Hc).
  exists M. split; [exact E|]. split; [exact Hr|].
  destruct (Hc 0 ltac:(cbn; lia)) as [_ Hn].
  split; rewrite Hn; reflexivity.
Defined.

Lemma zero_trace_needs_affine_blocks_witness :
  Tesselation.create_zero_trace_constrains
    (configured 6 4 3 [1; 1] [0%Q; 0%Q] [1%Q; 1%Q] true true)
  = Raise ValueError.
Proof.
  apply zero_trace_needs_affine_blocks.
  - cbn. lia.
  - cbn. lia.
Defined.

Lemma find_verts1D_tiles_witness :
  exists s,
    Tesselation1D.find_verts
      (configured 2 3 1 [3] [0%Q] [1%Q] true false) = Ok s /\
    length (verts s) = 3.
Proof.
  destruct (@find_verts1D_tiles
              (configured 2 3 1 [3] [0%Q] [1%Q] true false)
              0%Q 1%Q 3 [] [] [] eq_refl eq_refl eq_refl
              ltac:(lia) eq_refl) as (s & E & Hl & _).
  exists s. split; [exact E | exact Hl].
Defined.

Lemma find_verts2D_layout_witness :
  exists s,
    Tesselation2D.find_verts
      (configured 6 8 2 [2; 1] [0%Q; 0%Q] [1%Q; 1%Q] true false) = Ok s /\
    nth 5 (cells s) [] = [1; 0; 1].
Proof.
  destruct (@find_verts2D_layout
              (configured 6 8 2 [2; 1] [0%Q; 0%Q] [1%Q; 1%Q] true false)
              0%Q 0%Q 1%Q 1%Q 2 1 [] [] [] eq_refl eq_refl eq_refl)
    as (s & E & _ & _ & H).
  exists s. split; [exact E|].
  destruct (H 0 1 1 ltac:(lia) ltac:(lia) ltac:(lia)) as [Hc _].
  exact Hc.
Defined.

Lemma find_verts2D_inside_domain_witness :
  exists s,
    Tesselation2D.find_verts
      (configured 6 8 2 [2; 1] [0%Q; 0%Q] [1%Q; 1%Q] true false) = Ok s /\
    forall T v, In T (verts s) -> In v T -> (nth 0 v 0 <= 1)%Q.
Proof.
  destruct (@find_verts2D_inside_domain
              (configured 6 8 2 [2; 1] [0%Q; 0%Q] [1%Q; 1%Q] true false)
              0%Q 0%Q 1%Q 1%Q 2 1 [] [] [] eq_refl eq_refl eq_refl
              ltac:(discriminate) ltac:(discriminate))
    as (s & E & H).
  exists s. split; [exact E|].
  intros T v HT Hv. apply (H T v HT Hv).
Defined.

Lemma cell_centers_1D_witness :
  exists t cs,
    Tesselation1D.init [2] [0%Q] [1%Q] true false = Ok t /\
    get_cell_centers t = Ok cs /\ length cs = 2.
Proof.
  destruct (@cell_centers_1D 2 0%Q 1%Q true false ltac:(lia) eq_refl)
    as (t & cs & E & Hc & Hl & _).
  exists t, cs. auto.
Defined.

Lemma cell_centers_2D_witness :
  is_ok (Tesselation2D.init [1; 1] [0%Q; 0%Q] [1%Q; 1%Q] true false) = true.
Proof.
  apply (@cell_centers_2D 1 1 0%Q 0%Q 1%Q 1%Q true false
           ltac:(lia) ltac:(lia) eq_refl eq_refl).
  reflexivity.
Defined.

Lemma cell_centers_empty_grid_witness :
  exists t,
    Tesselation2D.init [0; 2] [0%Q; 0%Q] [1%Q; 1%Q] true true = Ok t /\
    get_cell_centers t = Raise IndexError.
Proof.
  destruct (@cell_centers_empty_grid 0 2 0%Q 0%Q 1%Q 1%Q true
              (or_introl eq_refl) ltac:(discriminate) ltac:(discriminate))
    as (t & E & _ & H).
  exists t. auto.
Defined.

Lemma kernel1D_meaning_witness :
  exists t,
    Tesselation1D.init [2] [0%Q] [1%Q] true true = Ok t /\
    ncols (get_constrain_matrix t) = 4.
Proof.
  destruct (@kernel1D_meaning 2 0%Q 1%Q true true [0%Q; 0%Q; 0%Q; 0%Q]
              ltac:(lia) ltac:(discriminate) eq_refl)
    as (t & E & Hc & _).
  exists t. auto.
Defined.

Lemma kernel1D_volume_preserving_witness :
  exists t,
    Tesselation1D.init [2] [0%Q] [1%Q] true true = Ok t /\
    ~ in_kernel (get_constrain_matrix t) [0%Q; 1%Q; 0%Q; 1%Q].
Proof.
  destruct (@kernel1D_volume_preserving 2 0%Q 1%Q true
              [0%Q; 1%Q; 0%Q; 1%Q]
              ltac:(lia) ltac:(discriminate) eq_refl)
    as (t & E & H).
  exists t. split; [exact E|].
  intros K. apply H in K. destruct K as [_ K].
  specialize (K eq_refl 1). cbn in K. discriminate K.
Defined.

Lemma Tesselation2D_open_boundary_witness :
  Tesselation2D.init [1; 1] [0%Q; 0%Q] [1%Q; 1%Q] false true
  = Raise ValueError /\
  is_ok (Tesselation2D.init [0; 3] [0%Q; 0%Q] [1%Q; 1%Q] false true) = true.
Proof.
  destruct (@Tesselation2D_open_boundary 0%Q 0%Q 1%Q 1%Q true
              ltac:(discriminate) ltac:(discriminate)) as (H & _ & G).
  split; [exact H|].
  destruct (G 0 3 (or_introl eq_refl)) as (t & -> & _). reflexivity.
Defined.

Lemma kernel2D_open_meaning_witness :
  in_kernel
    (get_constrain_matrix
       (value_of (Tesselation2D.init [2; 1] [0%Q; 0%Q] [1%Q; 1%Q]
                    false false)))
    (zeros 48).
Proof.
  apply (@kernel2D_open_meaning 2 1 0%Q 0%Q 1%Q 1%Q false
           (value_of (Tesselation2D.init [2; 1] [0%Q; 0%Q] [1%Q; 1%Q]
                        false false))
           (zeros 48) ltac:(discriminate) ltac:(discriminate)).
  - vm_compute. reflexivity.
  - split; [|discriminate].
    intros i j V v k _ _ _. unfold velocity2D.
    assert (Z : forall b (w : vertex), (dot_from b w (zeros 48) == 0)%Q).
    { intros b w. revert b. induction w as [|x w IH]; intros b; cbn [dot_from].
      - reflexivity.
      - rewrite IH, nth_zeros. ring. }
    now rewrite !Z.
Defined.

(** ** The 1D constructor on every input *)

Lemma breakpoint_point (a b : Q) (n i : nat) :
  (a == b)%Q -> i <= n -> (breakpoint a b n i == a)%Q.
Proof.
  intros Hab Hi. destruct (Nat.eq_dec n 0) as [->|Hn].
  - replace i with 0 by lia. apply breakpoint_first.
  - rewrite breakpoint_value by lia.
    assert (Hd : ~ (inject_Z (Z.of_nat n) == 0)%Q).
    { change 0%Q with (inject_Z 0). rewrite inject_Z_injective. lia. }
    rewrite <- Hab. field. exact Hd.
Qed.

Lemma breakpoint_point_eqb (a b : Q) (n i j : nat) :
  (a == b)%Q -> i <= n -> j <= n ->
  Qeq_bool (breakpoint a b n i) (breakpoint a b n j) = true.
Proof.
  intros Hab Hi Hj. apply Qeq_bool_iff.
  now rewrite !breakpoint_point.
Qed.

(** On a domain that is a single point any two intervals have one vertex
    in common, also an interval and itself. *)
Lemma point_shares (a b : Q) (n i j : nat) :
  (a == b)%Q -> i < n -> j < n ->
  intersection (interval a b n i) (interval a b n j) =
  [[breakpoint a b n i; 1%Q]].
Proof.
  intros Hab Hi Hj. unfold intersection, interval, vset, vmem.
  repeat (cbn [filter existsb vertex_eqb negb andb orb];
          change (Qeq_bool 1 1) with true;
          rewrite ?breakpoint_point_eqb by (assumption || lia)).
  reflexivity.
Qed.

Lemma scan_pairs_first_row (n : nat) (P : nat -> nat -> bool) :
  (forall j, j < n -> P 0 j = true) -> n <= length (scan_pairs n P).
Proof.
  intros H.
  assert (E : length (map (pair 0) (range n)) = n)
    by (unfold range; now rewrite length_map, length_seq).
  rewrite <- E at 1. apply NoDup_incl_length.
  - unfold range. generalize (seq_NoDup n 0). generalize (seq 0 n).
    induction l as [|x l IH]; intros Hnd; cbn [map]; constructor.
    + intros Hin. apply in_map_iff in Hin.
      destruct Hin as (y & [= ->] & Hy). now inversion Hnd.
    + apply IH. now inversion Hnd.
  - intros [i j] Hin. apply in_map_iff in Hin.
    destruct Hin as (j' & [= <- <-] & Hj). apply in_seq in Hj.
    apply in_scan_pairs. repeat split; try lia. apply H. lia.
Qed.

Lemma enumerate_app {A} (l1 l2 : list A) :
  enumerate (l1 ++ l2) =
  enumerate l1 ++ combine (seq (length l1) (length l2)) l2.
Proof.
  unfold enumerate. rewrite length_app.
  assert (G : forall k,
             combine (seq k (length l1 + length l2)) (l1 ++ l2) =
             combine (seq k (length l1)) l1
             ++ combine (seq (k + length l1) (length l2)) l2).
  { induction l1 as [|x l1 IH]; intros k.
    - cbn [app length Nat.add seq combine]. now rewrite Nat.add_0_r.
    - cbn [app length Nat.add seq combine]. rewrite IH.
      now replace (S k + length l1) with (k + S (length l1)) by lia. }
  apply (G 0).
Qed.

(** With more recorded pairs than rows the 1D continuity builder runs out
    of rows. *)
Lemma continuity1D_overflow (s : tess) :
  0 < nC s -> nC s <= length (shared_v s) ->
  (forall V, In V (shared_v s) ->
             exists v rest, V = v :: rest /\ length v = 2) ->
  Tesselation1D.create_continuity_constrains s = Raise IndexError.
Proof.
  intros Hn Hlen HV. unfold Tesselation1D.create_continuity_constrains.
  destruct (Nat.eqb_spec (nC s) 0) as [E|_]; [lia|].
  rewrite <- (firstn_skipn (nC s - 1) (shared_v s)).
  assert (L1 : length (firstn (nC s - 1) (shared_v s)) = nC s - 1)
    by (rewrite length_firstn; lia).
  destruct (skipn (nC s - 1) (shared_v s)) as [|V l2] eqn:E2.
  { assert (X : length (skipn (nC s - 1) (shared_v s)) = 0)
      by (now rewrite E2).
    rewrite length_skipn in X. lia. }
  assert (HinV : In V (shared_v s)).
  { apply (@in_skipn _ (shared_v s) (nC s - 1)). rewrite E2. now left. }
  rewrite enumerate_app. cbn [length seq combine]. rewrite L1.
  destruct (zeros2_shaped (nC s - 1) (2 * nC s)) as [H1 H2].
  destruct (@for_each_inv _ _
              (fun M => shaped (2 * nC s) M /\
                        length (rows M) = nC s - 1)
              (enumerate (firstn (nC s - 1) (shared_v s)))
              (fun (iv : nat * list vertex) Ltemp =>
                 let idx := fst iv in
                 v0 <- getitem (snd iv) 0 ;;
                 setitem_row Ltemp idx
                   (fun r => set_slice r (2 * idx) (2 * (idx + 2))
                               (v0 ++ map Qopp v0))))
    with (s := zeros2 (nC s - 1) (2 * nC s)) as (M' & EM & IM).
  { intros [idx W] M Hin [HM HR]. apply in_enumerate in Hin.
    destruct Hin as [Hidx HinW]. rewrite L1 in Hidx.
    apply in_firstn in HinW.
    destruct (HV W HinW) as (v & rest & -> & Hv).
    cbn [fst snd getitem nth_error bind].
    destruct (setitem_row_shaped (W := 2 * nC s) (M := M) (i := idx)
                (fun r => set_slice r (2 * idx) (2 * (idx + 2))
                            (v ++ map Qopp v)))
      as (M'' & E & HM' & HR'); [exact HM | lia | |].
    - intros r Hr. rewrite <- Hr. apply set_slice_length.
      + rewrite length_app, length_map, Hv. lia.
      + lia.
    - exists M''. split; [exact E|]. split; [exact HM' | lia]. }
  { now split. }
  apply for_each_raises_at.
  - intros M'' EM''.
    assert (X : Ok M' = Ok M'') by (rewrite <- EM; exact EM'').
    injection X as <-.
    destruct IM as [_ IR].
    destruct (HV V HinV) as (v & rest & -> & Hv).
    cbn [fst snd getitem nth_error bind]. unfold setitem_row.
    rewrite getitem_out by lia. reflexivity.
  - match goal with |- is_ok ?m = true => change m with
      (for_each (enumerate (firstn (nC s - 1) (shared_v s)))
         (fun (iv : nat * list vertex) Ltemp =>
            let idx := fst iv in
            v0 <- getitem (snd iv) 0 ;;
            setitem_row Ltemp idx
              (fun r => set_slice r (2 * idx) (2 * (idx + 2))
                          (v0 ++ map Qopp v0)))
         (zeros2 (nC s - 1) (2 * nC s))) end.
    now rewrite EM.
Qed.

Lemma init1D_point (n : nat) (a b : Q) (zb vp : bool) :
  0 < n -> (a == b)%Q ->
  Tesselation1D.init [n] [a] [b] zb vp = Raise IndexError.
Proof.
  intros Hn Hab. unfold Tesselation1D.init, Tesselation.init.
  unfold prod. cbn [fold_right]. rewrite Nat.mul_1_r.
  fold (configured 2 n 1 [n] [a] [b] zb vp). cbv zeta.
  cbn [find_verts Tesselation1D.impl].
  rewrite (@find_verts1D_ok _ a b n [] [] []) by reflexivity.
  cbn [bind].
  set (s1 := set_verts _ _ _).
  assert (Hlen : nC s1 <= length (verts s1)).
  { cbn. unfold intervals, range. rewrite length_map, length_seq. lia. }
  rewrite (find_shared_verts_scan s1 Hlen). cbn [bind].
  set (F := scan_pairs (nC s1) (is_facet s1)).
  set (s2 := set_shared s1 _ F).
  assert (Hout : (if negb zb
                  then find_verts_outside Tesselation1D.impl s2
                  else Ok s2) = Ok s2) by now destruct zb.
  rewrite Hout. cbn [bind].
  cbn [create_continuity_constrains Tesselation1D.impl].
  assert (Hsh : forall i j, i < n -> j < n ->
                shares s1 i j = [[breakpoint a b n i; 1%Q]]).
  { intros i j Hi Hj. unfold shares, simplex_at. subst s1.
    cbn [verts set_verts]. rewrite !intervals_nth by assumption.
    now apply point_shares. }
  rewrite continuity1D_overflow; [reflexivity| | |].
  - exact Hn.
  - subst s2. cbn [nC shared_v set_shared]. rewrite length_map.
    apply scan_pairs_first_row. intros j Hj. unfold is_facet.
    change (nC s1) with n in Hj. rewrite Hsh by lia. reflexivity.
  - intros V HVin. subst s2. cbn [shared_v set_shared] in HVin.
    apply in_map_iff in HVin. destruct HVin as ([i j] & <- & Hin).
    apply in_scan_pairs in Hin. change (nC s1) with n in Hin.
    cbn [fst snd]. rewrite Hsh by lia. eexists _, _. split; reflexivity.
Qed.

(** On a domain that is a single point: the tables [find_verts] and
    [find_shared_verts] leave, and where the construction stops. *)
Lemma init1D_point_steps (n : nat) (a b : Q) (zb vp : bool) :
  0 < n -> (a == b)%Q ->
  exists s1 s2,
    Tesselation1D.find_verts (configured 2 n 1 [n] [a] [b] zb vp) = Ok s1 /\
    Tesselation.find_shared_verts s1 = Ok s2 /\
    (forall i j, i <= j -> j < n -> In (i, j) (shared_v_idx s2)) /\
    Tesselation1D.create_continuity_constrains s2 = Raise IndexError.
Proof.
  intros Hn Hab.
  set (s1 := set_verts (configured 2 n 1 [n] [a] [b] zb vp)
               (intervals a b n) (map (fun i => [i]) (range n))).
  assert (Hlen : nC s1 <= length (verts s1)).
  { cbn. unfold intervals, range. rewrite length_map, length_seq. lia. }
  set (F := scan_pairs (nC s1) (is_facet s1)).
  set (s2 := set_shared s1 (map (fun p => shares s1 (fst p) (snd p)) F) F).
  assert (Hsh : forall i j, i < n -> j < n ->
                shares s1 i j = [[breakpoint a b n i; 1%Q]]).
  { intros i j Hi Hj. unfold shares, simplex_at. subst s1.
    cbn [verts set_verts]. rewrite !intervals_nth by assumption.
    now apply point_shares. }
  exists s1, s2. split; [|split; [|split]].
  - now apply (@find_verts1D_ok _ a b n [] [] []).
  - apply (find_shared_verts_scan s1 Hlen).
  - intros i j Hij Hj. change (shared_v_idx s2) with F. unfold F.
    apply in_scan_pairs. change (nC s1) with n.
    split; [exact Hij|]. split; [exact Hj|].
    unfold is_facet. rewrite Hsh by lia. reflexivity.
  - apply continuity1D_overflow.
    + exact Hn.
    + subst s2. cbn [nC shared_v set_shared]. rewrite length_map.
      apply scan_pairs_first_row. intros j Hj. unfold is_facet.
      change (nC s1) with n in Hj. rewrite Hsh by lia. reflexivity.
    + intros V HVin. subst s2. cbn [shared_v set_shared] in HVin.
      apply in_map_iff in HVin. destruct HVin as ([i j] & <- & Hin).
      apply in_scan_pairs in Hin. change (nC s1) with n in Hin.
      cbn [fst snd]. rewrite Hsh by lia. eexists _, _. split; reflexivity.
Qed.




(** X13: a 1D construction that completes has at least one cell and a
    domain that is not a single point.  With no cell the allocation of the
    continuity rows raises ValueError.  On a single point every two
    intervals, also an interval and itself, have their one vertex in
    common: [find_shared_verts] records every pair [(i, j)] with
    [i <= j], more pairs than the [n - 1] continuity rows, and the
    continuity builder raises IndexError. *)
Theorem Tesselation1D_outcome (n : nat) (a b : Q) (zb vp : bool) :
  (forall t, Tesselation1D.init [n] [a] [b] zb vp = Ok t ->
             0 < n /\ ~ (a == b)%Q) /\
  (n = 0 -> Tesselation1D.init [n] [a] [b] zb vp = Raise ValueError) /\
  (0 < n -> (a == b)%Q ->
   Tesselation1D.init [n] [a] [b] zb vp = Raise IndexError /\
   exists s1 s2,
     Tesselation1D.find_verts (configured 2 n 1 [n] [a] [b] zb vp)
     = Ok s1 /\
     Tesselation.find_shared_verts s1 = Ok s2 /\
     (forall i j, i <= j -> j < n -> In (i, j) (shared_v_idx s2)) /\
     Tesselation1D.create_continuity_constrains s2 = Raise IndexError).
Proof.
  assert (Z : Tesselation1D.init [0] [a] [b] zb vp = Raise ValueError)
    by (destruct zb; reflexivity).
  split; [|split].
  - intros t Ht. destruct n as [|n]; [rewrite Z in Ht; discriminate|].
    split; [lia|]. intros Hab.
    rewrite (@init1D_point (S n) a b zb vp ltac:(lia) Hab) in Ht.
    discriminate.
  - intros ->. exact Z.
  - intros Hn Hab. split; [now apply init1D_point|].
    destruct (@init1D_point_steps n a b zb vp Hn Hab)
      as (s1 & s2 & E1 & E2 & E3 & E4).
    exists s1, s2. auto.
Qed.

Lemma Tesselation1D_outcome_witness :
  Tesselation1D.init [0] [0%Q] [1%Q] true true = Raise ValueError /\
  Tesselation1D.init [3] [1%Q] [1%Q] false true = Raise IndexError /\
  (forall t, Tesselation1D.init [3] [0%Q] [1%Q] false true = Ok t ->
             0 < 3 /\ ~ (0 == 1)%Q).
Proof.
  destruct (Tesselation1D_outcome 0 0%Q 1%Q true true) as (_ & H0 & _).
  destruct (Tesselation1D_outcome 3 1%Q 1%Q false true) as (_ & _ & H1).
  destruct (Tesselation1D_outcome 3 0%Q 1%Q false true) as (H2 & _).
  split; [apply H0; reflexivity|].
  split; [apply H1; [lia|reflexivity]|exact H2].
Defined.

(** ** Input that is not checked *)



(** ** The sampling aligner *)

Section SamplingProperties.

Context {data params rng F : Type}.
Variable T : CpabAligner.Cpab data params rng F.

Lemma sampling_loop_zero (x1 x2 : data) (size : nat * nat)
  (st : CpabAligner.state params rng) :
  CpabAligner.sampling_loop T x1 x2 size 0 st = CpabAligner.Returns st.
Proof. reflexivity. Qed.

(** X14: with [maxiter = 0] [alignment_by_sampling] never returns a
    sample: when the type checks, the shape assertion and the first error
    pass, the loop body does not run and the acceptance ratio
    [accept_ratio / maxiter] divides by zero. *)
Theorem sampling_without_iterations (x1 x2 : data) (g : rng) :
  (forall theta,
     CpabAligner.alignment_by_sampling T x1 x2 0%Z g
     <> CpabAligner.Returns theta) /\
  (forall h w theta0 d e,
     CpabAligner._check_type T x1 = inr tt ->
     CpabAligner._check_type T x2 = inr tt ->
     CpabAligner.shape T x1 = CpabAligner.shape T x2 ->
     getitem (CpabAligner.shape T x2) 1 = Ok h ->
     getitem (CpabAligner.shape T x2) 2 = Ok w ->
     CpabAligner.identity T 1 = inr theta0 ->
     CpabAligner.minus T x1 x2 = inr d ->
     CpabAligner.norm T d = inr e ->
     CpabAligner.alignment_by_sampling T x1 x2 0%Z g
     = CpabAligner.Fails (CpabAligner.Python ZeroDivisionError)).
Proof.
  split.
  - intros theta. unfold CpabAligner.alignment_by_sampling.
    destruct (CpabAligner._check_type T x1) as [f|u]; cbn; [discriminate|].
    destruct (CpabAligner._check_type T x2) as [f|u']; cbn; [discriminate|].
    destruct (list_eq_dec _ _ _); [|discriminate].
    destruct (CpabAligner.outsize T x2) as [size|f]; cbn; [|discriminate].
    destruct (CpabAligner.identity T 1) as [f|t0]; cbn; [discriminate|].
    destruct (CpabAligner.minus T x1 x2) as [f|d1]; cbn; [discriminate|].
    destruct (CpabAligner.norm T d1) as [f|e1]; cbn; discriminate.
  - intros h w theta0 d e C1 C2 Hs H1 H2 Hi Hm Hn.
    unfold CpabAligner.alignment_by_sampling, CpabAligner.outsize.
    rewrite C1, C2. cbn.
    destruct (list_eq_dec _ _ _) as [_|N]; [|contradiction].
    rewrite H1, H2. cbn. rewrite Hi. cbn. rewrite Hm. cbn. rewrite Hn.
    reflexivity.
Qed.

Lemma less_lt (x y : Q) : CpabAligner.less x y = true -> (x < y)%Q.
Proof.
  unfold CpabAligner.less. intros H. apply negb_true_iff in H.
  apply Qnot_le_lt. intros L. apply Qle_bool_iff in L. congruence.
Qed.

Lemma sampling_step_improved x1 x2 size theta0 e0 st st' :
  CpabAligner.improved T x1 x2 size theta0 e0 st ->
  CpabAligner.sampling_step T x1 x2 size st = CpabAligner.Returns st' ->
  CpabAligner.improved T x1 x2 size theta0 e0 st'.
Proof.
  destruct st as [[[cs ce] acc] g]. intros I H.
  unfold CpabAligner.sampling_step in H.
  destruct (CpabAligner.sample_transformation T g 1 _) as [f|[theta g']];
    cbn in H; [discriminate|].
  destruct (CpabAligner.error_of T x1 x2 size theta) as [ne|f] eqn:E;
    cbn in H; [|discriminate].
  destruct (CpabAligner.less ne ce) eqn:L; injection H as <-.
  - right. split; [lia|]. split; [exact E|].
    apply less_lt in L. destruct I as [(_ & _ & ->)|(_ & _ & Hlt)].
    + exact L.
    + now apply Qlt_trans with ce.
  - exact I.
Qed.

Lemma sampling_loop_improved x1 x2 size theta0 e0 iterations :
  forall st st',
    CpabAligner.improved T x1 x2 size theta0 e0 st ->
    CpabAligner.sampling_loop T x1 x2 size iterations st
    = CpabAligner.Returns st' ->
    CpabAligner.improved T x1 x2 size theta0 e0 st'.
Proof.
  induction iterations as [|k IH]; intros st st' I H.
  - injection H as <-. exact I.
  - cbn [CpabAligner.sampling_loop] in H.
    destruct (CpabAligner.sampling_step T x1 x2 size st) as [st1|f] eqn:E;
      cbn in H; [|discriminate].
    apply (IH st1 st'); [|exact H].
    now apply (@sampling_step_improved x1 x2 size theta0 e0 st st1).
Qed.

(** X15: whenever [alignment_by_sampling] returns, [maxiter] is not zero,
    and the sample returned is the one of [T.identity(1)], or a sample
    whose error, the norm of [transform_data(x1, theta) - x2], is strictly
    smaller than the error [norm(x1 - x2)] the loop started from.  For a
    negative [maxiter] the loop does not run and the sample returned is
    the one of [T.identity(1)]. *)
Theorem sampling_never_worse (x1 x2 : data) (maxiter : Z) (g : rng)
  (theta : params)
  (H : CpabAligner.alignment_by_sampling T x1 x2 maxiter g
       = CpabAligner.Returns theta) :
  maxiter <> 0%Z /\
  exists theta0 d e0 size,
    CpabAligner.identity T 1 = inr theta0 /\
    CpabAligner.minus T x1 x2 = inr d /\
    CpabAligner.norm T d = inr e0 /\
    CpabAligner.outsize T x2 = CpabAligner.Returns size /\
    ((maxiter < 0)%Z -> theta = theta0) /\
    (theta = theta0 \/
     exists e, CpabAligner.error_of T x1 x2 size theta
               = CpabAligner.Returns e /\ (e < e0)%Q).
Proof.
  unfold CpabAligner.alignment_by_sampling in H.
  destruct (CpabAligner._check_type T x1) as [f|u]; cbn in H;
    [discriminate|].
  destruct (CpabAligner._check_type T x2) as [f|u']; cbn in H;
    [discriminate|].
  destruct (list_eq_dec _ _ _); [|discriminate].
  destruct (CpabAligner.outsize T x2) as [size|f] eqn:Es; cbn in H;
    [|discriminate].
  destruct (CpabAligner.identity T 1) as [f|theta0] eqn:Ei; cbn in H;
    [discriminate|].
  destruct (CpabAligner.minus T x1 x2) as [f|d] eqn:Em; cbn in H;
    [discriminate|].
  destruct (CpabAligner.norm T d) as [f|e0] eqn:En; cbn in H;
    [discriminate|].
  destruct (CpabAligner.sampling_loop T x1 x2 size (Z.to_nat maxiter) _)
    as [[[[cs ce] acc] g']|f] eqn:EL; cbn in H; [|discriminate].
  unfold CpabAligner.ratio in H.
  destruct (Z.eqb_spec maxiter 0) as [Ez|Ez]; cbn in H; [discriminate|].
  injection H as <-.
  split; [exact Ez|].
  exists theta0, d, e0, size. do 4 (split; [assumption || reflexivity|]).
  split.
  - intros Hneg. replace (Z.to_nat maxiter) with 0 in EL by lia.
    cbn [CpabAligner.sampling_loop] in EL. now injection EL as <- _ _ _.
  - pose proof (@sampling_loop_improved x1 x2 size theta0 e0
                  (Z.to_nat maxiter)
                  (theta0, e0, 0, g) (cs, ce, acc, g')
                  (or_introl (conj eq_refl (conj eq_refl eq_refl))) EL) as I.
    destruct I as [(_ & -> & _)|(_ & E & Hlt)].
    + now left.
    + right. exists ce. split; assumption.
Qed.

End SamplingProperties.

Lemma sampling_without_iterations_witness :
  CpabAligner.alignment_by_sampling translations 0%Q 1%Q 0%Z [1%Q]
  = CpabAligner.Fails (CpabAligner.Python ZeroDivisionError).
Proof.
  destruct (sampling_without_iterations translations 0%Q 1%Q [1%Q])
    as [_ H].
  apply (H 1 1 0%Q (0 - 1)%Q ((0 - 1) * (0 - 1))%Q); reflexivity.
Defined.

Lemma sampling_never_worse_witness :
  CpabAligner.alignment_by_sampling translations 0%Q 1%Q 2%Z [1%Q; (-1)%Q]
  = CpabAligner.Returns 1%Q /\
  CpabAligner.alignment_by_sampling translations 0%Q 1%Q (-1)%Z [1%Q]
  = CpabAligner.Returns 0%Q /\
  2%Z <> 0%Z /\ (-1)%Z <> 0%Z.
Proof.
  assert (H : CpabAligner.alignment_by_sampling translations 0%Q 1%Q 2%Z
                [1%Q; (-1)%Q] = CpabAligner.Returns 1%Q)
    by (vm_compute; reflexivity).
  assert (H' : CpabAligner.alignment_by_sampling translations 0%Q 1%Q
                 (-1)%Z [1%Q] = CpabAligner.Returns 0%Q)
    by (vm_compute; reflexivity).
  split; [exact H|]. split; [exact H'|]. split.
  - apply (@sampling_never_worse _ _ _ _ translations 0%Q 1%Q 2%Z
             [1%Q; (-1)%Q] 1%Q H).
  - apply (@sampling_never_worse _ _ _ _ translations 0%Q 1%Q (-1)%Z
             [1%Q] 0%Q H').
Defined.

(** ** Which triangles of the 2D grid share an edge *)

(** Decide the comparisons of indices that linear arithmetic decides. *)
Ltac eqb_lia :=
  repeat match goal with
         | |- context [?x =? ?y] =>
             first [ rewrite (proj2 (Nat.eqb_eq x y)) by lia
                   | rewrite (proj2 (Nat.eqb_neq x y)) by lia ]
         end.

Lemma position_cases (c c' : nat) :
  c' = c \/ c' = c + 1 \/ c = c' + 1 \/
  (c' <> c /\ c' <> c + 1 /\ c <> c' + 1).
Proof. lia. Qed.

Lemma facet_formula a0 b0 n0 a1 b1 n1 r c t r' c' t' :
  ~ (a0 == b0)%Q -> ~ (a1 == b1)%Q ->
  r < n1 -> c < n0 -> t < 4 -> r' < n1 -> c' < n0 -> t' < 4 ->
  (length (intersection (nth t (triangles a0 b0 n0 a1 b1 n1 r c) [])
                        (nth t' (triangles a0 b0 n0 a1 b1 n1 r' c') []))
   =? 2) = neighbour r c t r' c' t'.
Proof.
  intros H0 H1 Hr Hc Ht Hr' Hc' Ht'.
  unfold neighbour, intersection, vset, vmem, triangles. cbv zeta.
  destruct t as [|[|[|[|t]]]]; [| | | |lia];
    (destruct t' as [|[|[|[|t']]]]; [| | | |lia]);
    cbn [nth Nat.modulo Nat.divmod Nat.add fst snd Nat.sub];
    destruct (position_cases c c') as [Ec|[Ec|[Ec|Ec]]];
    destruct (position_cases r r') as [Er|[Er|[Er|Er]]];
    try subst c'; try subst r'; try subst c; try subst r;
    repeat (cbn [filter existsb vertex_eqb negb andb orb length];
            change (Qeq_bool 1 1) with true;
            rewrite ?andb_true_r, ?andb_false_r, ?orb_false_r;
            rewrite ?breakpoint_eqb, ?mid_bp_eqb, ?bp_mid_eqb, ?mid_mid_eqb
              by (assumption || lia);
            eqb_lia);
    reflexivity.
Qed.

Lemma index_decompose (n0 n1 I : nat) :
  I < 4 * (n0 * n1) ->
  exists r c t, r < n1 /\ c < n0 /\ t < 4 /\ I = triangle_number n0 r c t.
Proof.
  intros H. assert (Hn0 : n0 <> 0) by nia.
  exists (I / 4 / n0), ((I / 4) mod n0), (I mod 4).
  assert (Hq : I / 4 < n0 * n1) by (apply Nat.Div0.div_lt_upper_bound; lia).
  split; [now apply Nat.Div0.div_lt_upper_bound|].
  split; [now apply Nat.mod_upper_bound|].
  split; [apply Nat.mod_upper_bound; lia|].
  unfold triangle_number.
  pose proof (Nat.div_mod_eq I 4) as E1.
  pose proof (Nat.div_mod_eq (I / 4) n0) as E2. nia.
Qed.

Lemma grid_is_facet (self : tess) a0 b0 n0 a1 b1 n1 r c t r' c' t' :
  verts self = grid_verts a0 b0 n0 a1 b1 n1 -> ndim self = 2 ->
  ~ (a0 == b0)%Q -> ~ (a1 == b1)%Q ->
  r < n1 -> c < n0 -> t < 4 -> r' < n1 -> c' < n0 -> t' < 4 ->
  is_facet self (triangle_number n0 r c t) (triangle_number n0 r' c' t')
  = neighbour r c t r' c' t'.
Proof.
  intros Hv Hd H0 H1 Hr Hc Ht Hr' Hc' Ht'.
  unfold is_facet, shares, simplex_at, triangle_number. rewrite Hv, Hd.
  rewrite !grid_verts_nth by assumption. now apply facet_formula.
Qed.

Lemma filter_count (f : nat -> bool) (N : nat) (L : list nat) :
  NoDup L ->
  (forall J, In J L -> J < N /\ f J = true) ->
  (forall J, J < N -> f J = true -> In J L) ->
  length (filter f (range N)) = length L.
Proof.
  intros Hnd H1 H2. apply Nat.le_antisymm.
  - apply NoDup_incl_length.
    + apply NoDup_filter. apply seq_NoDup.
    + intros J HJ. apply filter_In in HJ. destruct HJ as [HJ Hf].
      apply in_seq in HJ. apply H2; [lia|exact Hf].
  - apply NoDup_incl_length; [exact Hnd|].
    intros J HJ. destruct (H1 J HJ) as [Hlt Hf].
    apply filter_In. split; [apply in_seq; lia|exact Hf].
Qed.

Lemma neighbour_true r c t r' c' t' :
  neighbour r c t r' c' t' = true <->
  (r = r' /\ c = c' /\ (t' = (t + 1) mod 4 \/ t = (t' + 1) mod 4)) \/
  (r = r' /\ c + 1 = c' /\ t = 1 /\ t' = 3) \/
  (r = r' /\ c = c' + 1 /\ t = 3 /\ t' = 1) \/
  (c = c' /\ r + 1 = r' /\ t = 2 /\ t' = 0) \/
  (c = c' /\ r = r' + 1 /\ t = 0 /\ t' = 2).
Proof.
  unfold neighbour.
  rewrite !orb_true_iff, !andb_true_iff, !orb_true_iff, !Nat.eqb_eq.
  tauto.
Qed.

(** The neighbours of a triangle that the scan meets after it. *)
Lemma later_neighbours_count (self : tess) a0 b0 n0 a1 b1 n1 r c t :
  verts self = grid_verts a0 b0 n0 a1 b1 n1 -> ndim self = 2 ->
  ~ (a0 == b0)%Q -> ~ (a1 == b1)%Q ->
  r < n1 -> c < n0 -> t < 4 ->
  length (filter (fun J => (triangle_number n0 r c t <=? J)
                           && is_facet self (triangle_number n0 r c t) J)
                 (range (4 * (n0 * n1))))
  = length (later_neighbours n0 n1 r c t).
Proof.
  intros Hv Hd H0 H1 Hr Hc Ht. apply filter_count.
  - unfold later_neighbours. cbv zeta.
    destruct t as [|[|[|t]]].
    + constructor; [intros [E|[]]; lia|]. constructor; [intros []|constructor].
    + destruct (c + 1 <? n0).
      * constructor; [intros [E|[]]; lia|].
        constructor; [intros []|constructor].
      * constructor; [intros []|constructor].
    + destruct (r + 1 <? n1).
      * constructor; [intros [E|[]]; lia|].
        constructor; [intros []|constructor].
      * constructor; [intros []|constructor].
    + constructor.
  - intros J HJ.
    assert (G : exists r' c' t',
               r' < n1 /\ c' < n0 /\ t' < 4 /\
               J = triangle_number n0 r' c' t' /\
               triangle_number n0 r c t <= J /\
               neighbour r c t r' c' t' = true).
    { unfold later_neighbours in HJ. cbv zeta in HJ.
      unfold triangle_number in *.
      destruct t as [|[|[|t]]].
      - destruct HJ as [<-|[<-|[]]].
        + exists r, c, 1. repeat split; try lia.
          apply neighbour_true. left. repeat split. now left.
        + exists r, c, 3. repeat split; try lia.
          apply neighbour_true. left. repeat split. now right.
      - destruct HJ as [<-|HJ].
        + exists r, c, 2. repeat split; try lia.
          apply neighbour_true. left. repeat split. now left.
        + destruct (Nat.ltb_spec (c + 1) n0) as [L|L]; [|destruct HJ].
          destruct HJ as [<-|[]].
          exists r, (c + 1), 3. repeat split; try lia.
          apply neighbour_true. right. left. repeat split.
      - destruct HJ as [<-|HJ].
        + exists r, c, 3. repeat split; try lia.
          apply neighbour_true. left. repeat split. now left.
        + destruct (Nat.ltb_spec (r + 1) n1) as [L|L]; [|destruct HJ].
          destruct HJ as [<-|[]].
          exists (r + 1), c, 0. repeat split; try lia.
          apply neighbour_true. do 3 right. left. repeat split.
      - destruct HJ. }
    destruct G as (r' & c' & t' & Hr' & Hc' & Ht' & -> & Hle & Hnb).
    split; [unfold triangle_number; nia|].
    apply andb_true_intro. split; [now apply Nat.leb_le|].
    rewrite (@grid_is_facet self a0 b0 n0 a1 b1 n1) by assumption.
    exact Hnb.
  - intros J HJ Hf. apply andb_true_iff in Hf. destruct Hf as [Hle Hf].
    apply Nat.leb_le in Hle.
    destruct (@index_decompose n0 n1 J HJ)
      as (r' & c' & t' & Hr' & Hc' & Ht' & ->).
    rewrite (@grid_is_facet self a0 b0 n0 a1 b1 n1) in Hf by assumption.
    apply neighbour_true in Hf.
    unfold later_neighbours. cbv zeta. unfold triangle_number in *.
    destruct t as [|[|[|[|t]]]]; [| | | |lia];
      (destruct t' as [|[|[|[|t']]]]; [| | | |lia]);
      cbn [Nat.modulo Nat.divmod Nat.add fst snd Nat.sub] in Hf;
      try (exfalso; nia);
      try (destruct (Nat.ltb_spec (c + 1) n0));
      try (destruct (Nat.ltb_spec (r + 1) n1));
      cbn [In]; nia.
Qed.

(** ** Counting the pairs of the 2D grid *)

Lemma sum_blocks (g : nat -> nat) (base m : nat) :
  list_sum (map g (seq base (4 * m))) =
  list_sum (map (fun c => g (base + 4 * c) + g (base + 4 * c + 1)
                          + g (base + 4 * c + 2) + g (base + 4 * c + 3))
                (range m)).
Proof.
  unfold range. induction m as [|m IH]; [reflexivity|].
  replace (4 * S m) with (4 * m + 4) by lia.
  rewrite seq_app, map_app, list_sum_app, IH.
  rewrite (seq_S m 0), map_app, list_sum_app. cbn [seq map list_sum Nat.add].
  replace (S (base + 4 * m)) with (base + 4 * m + 1) by lia.
  replace (S (base + 4 * m + 1)) with (base + 4 * m + 2) by lia.
  replace (S (base + 4 * m + 2)) with (base + 4 * m + 3) by lia.
  f_equal. unfold list_sum. cbn [fold_right]. lia.
Qed.

Lemma sum_grid (g : nat -> nat) (n0 n1 : nat) :
  list_sum (map g (range (4 * (n0 * n1)))) =
  list_sum
    (map (fun r =>
            list_sum
              (map (fun c => g (triangle_number n0 r c 0)
                             + g (triangle_number n0 r c 1)
                             + g (triangle_number n0 r c 2)
                             + g (triangle_number n0 r c 3))
                   (range n0)))
         (range n1)).
Proof.
  unfold range. induction n1 as [|n1 IH].
  - now rewrite Nat.mul_0_r.
  - replace (4 * (n0 * S n1)) with (4 * (n0 * n1) + 4 * n0) by lia.
    rewrite seq_app, map_app, list_sum_app, IH.
    rewrite (seq_S n1 0), map_app, list_sum_app. cbn [map Nat.add].
    f_equal. unfold list_sum at 2. cbn [fold_right]. rewrite Nat.add_0_r.
    rewrite sum_blocks. unfold range. f_equal.
    apply map_ext. intros c. unfold triangle_number.
    replace (4 * (n0 * n1) + 4 * c) with (4 * (n1 * n0 + c)) by lia.
    now rewrite Nat.add_0_r.
Qed.

Lemma list_sum_ext {A} (f g : A -> nat) (l : list A) :
  (forall x, In x l -> f x = g x) ->
  list_sum (map f l) = list_sum (map g l).
Proof.
  intros H. f_equal. now apply map_ext_in.
Qed.

Lemma sum_inner (n0 k m : nat) :
  m <= n0 ->
  list_sum (map (fun c => 4 + (if c + 1 <? n0 then 1 else 0) + k)
                (range m))
  = 4 * m + Nat.min m (n0 - 1) + k * m.
Proof.
  unfold range. induction m as [|m IH]; intros Hm; [simpl; lia|].
  rewrite (seq_S m 0), map_app, list_sum_app, IH by lia.
  cbn [map Nat.add]. unfold list_sum. cbn [fold_right].
  destruct (Nat.ltb_spec (m + 1) n0); lia.
Qed.

Lemma sum_outer (n0 n1 m : nat) :
  0 < n0 -> m <= n1 ->
  list_sum (map (fun r => 4 * n0 + (n0 - 1)
                          + (if r + 1 <? n1 then 1 else 0) * n0)
                (range m))
  = (5 * n0 - 1) * m + n0 * Nat.min m (n1 - 1).
Proof.
  unfold range. intros Hn0. induction m as [|m IH]; intros Hm; [simpl; lia|].
  rewrite (seq_S m 0), map_app, list_sum_app, IH by lia.
  cbn [map Nat.add]. unfold list_sum. cbn [fold_right].
  destruct (Nat.ltb_spec (m + 1) n1); nia.
Qed.

(** The number of pairs the scan records on the grid. *)
Lemma grid_facets_count (self : tess) a0 b0 n0 a1 b1 n1 :
  verts self = grid_verts a0 b0 n0 a1 b1 n1 -> ndim self = 2 ->
  ~ (a0 == b0)%Q -> ~ (a1 == b1)%Q -> 0 < n0 -> 0 < n1 ->
  length (scan_pairs (4 * (n0 * n1)) (is_facet self))
  = 6 * (n0 * n1) - n0 - n1.
Proof.
  intros Hv Hd H0 H1 Hn0 Hn1. unfold scan_pairs.
  rewrite length_flat_map.
  rewrite (@sum_grid (fun I => length (scan_row (4 * (n0 * n1))
                                         (is_facet self) I)) n0 n1).
  rewrite (@list_sum_ext _ _
             (fun r => 4 * n0 + (n0 - 1)
                       + (if r + 1 <? n1 then 1 else 0) * n0)).
  - rewrite sum_outer by lia. rewrite Nat.min_r by lia. nia.
  - intros r Hr. apply in_seq in Hr.
    rewrite (@list_sum_ext _ _
               (fun c => 4 + (if c + 1 <? n0 then 1 else 0)
                         + (if r + 1 <? n1 then 1 else 0))).
    + rewrite sum_inner by lia. rewrite Nat.min_r by lia. lia.
    + intros c Hc. apply in_seq in Hc.
      unfold scan_row. rewrite !length_map.
      rewrite !(@later_neighbours_count self a0 b0 n0 a1 b1 n1)
        by (assumption || lia).
      unfold later_neighbours. cbv zeta.
      destruct (c + 1 <? n0), (r + 1 <? n1); reflexivity.
Qed.

(** ** The pairs along the outer edges *)

Ltac bool_simpl :=
  repeat (progress (cbn [andb orb];
                    rewrite ?andb_false_r, ?andb_true_r, ?orb_false_r,
                      ?orb_true_r)).

(** Neighbours along an outer edge have exactly one vertex in common. *)
Lemma virtual_shares a0 b0 n0 a1 b1 n1 r c t :
  ~ (a0 == b0)%Q -> ~ (a1 == b1)%Q -> t < 4 ->
  let r' := if Nat.even t then r else r + 1 in
  let c' := if Nat.even t then c + 1 else c in
  r' < n1 -> c' < n0 ->
  length (intersection (nth t (triangles a0 b0 n0 a1 b1 n1 r c) [])
                       (nth t (triangles a0 b0 n0 a1 b1 n1 r' c') [])) = 1.
Proof.
  intros H0 H1 Ht.
  unfold intersection, vset, vmem, triangles. cbv zeta.
  destruct t as [|[|[|[|t]]]]; [| | | |lia];
    cbn [Nat.even nth]; intros Hr Hc;
    repeat (cbn [filter existsb vertex_eqb negb andb orb length];
            change (Qeq_bool 1 1) with true;
            rewrite ?andb_true_r, ?andb_false_r, ?orb_false_r;
            rewrite ?breakpoint_eqb, ?mid_bp_eqb, ?bp_mid_eqb, ?mid_mid_eqb
              by (assumption || lia);
            eqb_lia);
    reflexivity.
Qed.

Lemma grid_on_some_edge (self : tess) n0 n1 r c t r' c' t' :
  cells self = grid_cells n0 n1 -> nc self = [n0; n1] ->
  r < n1 -> c < n0 -> t < 4 -> r' < n1 -> c' < n0 -> t' < 4 ->
  on_some_edge self (triangle_number n0 r c t) (triangle_number n0 r' c' t')
  = ((c =? 0) && (c' =? 0) && (t =? 3) && (t' =? 3) && adjacent r r')
    || ((c + 1 =? n0) && (c' + 1 =? n0) && (t =? 1) && (t' =? 1)
        && adjacent r r')
    || ((r =? 0) && (r' =? 0) && (t =? 0) && (t' =? 0) && adjacent c c')
    || ((r + 1 =? n1) && (r' + 1 =? n1) && (t =? 2) && (t' =? 2)
        && adjacent c c').
Proof.
  intros Hc Hnc Hr Hcc Ht Hr' Hc' Ht'.
  unfold on_some_edge, cell_at, triangle_number. rewrite Hc, Hnc.
  rewrite !grid_cells_nth by assumption.
  unfold edges, on_edge, col, row_of, sub. cbn [existsb nth].
  now rewrite orb_false_r, !orb_assoc.
Qed.

Lemma later_virtual_count (self : tess) a0 b0 n0 a1 b1 n1 r c t :
  verts self = grid_verts a0 b0 n0 a1 b1 n1 ->
  cells self = grid_cells n0 n1 -> nc self = [n0; n1] ->
  ~ (a0 == b0)%Q -> ~ (a1 == b1)%Q ->
  r < n1 -> c < n0 -> t < 4 ->
  length (filter (fun J => (triangle_number n0 r c t <=? J)
                           && is_virtual self (triangle_number n0 r c t) J)
                 (range (4 * (n0 * n1))))
  = length (later_virtual n0 n1 r c t).
Proof.
  intros Hv Hce Hnc H0 H1 Hr Hc Ht. apply filter_count.
  - unfold later_virtual. cbv zeta.
    destruct t as [|[|[|t]]];
      match goal with |- NoDup (if ?b then _ else _) => destruct b end;
      repeat constructor; intros [].
  - intros J HJ.
    assert (G : exists r' c',
               r' < n1 /\ c' < n0 /\
               J = triangle_number n0 r' c' t /\
               triangle_number n0 r c t <= J /\
               r' = (if Nat.even t then r else r + 1) /\
               c' = (if Nat.even t then c + 1 else c) /\
               on_some_edge self (triangle_number n0 r c t)
                 (triangle_number n0 r' c' t) = true).
    { unfold later_virtual in HJ. cbv zeta in HJ.
      destruct t as [|[|[|[|t]]]]; [| | | |lia];
        match type of HJ with
        | In _ (if ?b then _ else _) =>
            destruct b eqn:Eb; [|destruct HJ]
        end;
        apply andb_true_iff in Eb; destruct Eb as [E1 E2];
        apply Nat.eqb_eq in E1; apply Nat.ltb_lt in E2;
        destruct HJ as [<-|[]]; cbn [Nat.even].
      - exists r, (c + 1). repeat split; try (unfold triangle_number; lia).
        rewrite (@grid_on_some_edge self n0 n1) by (assumption || lia).
        unfold adjacent. subst r. eqb_lia. bool_simpl. reflexivity.
      - exists (r + 1), c. repeat split; try (unfold triangle_number; lia).
        rewrite (@grid_on_some_edge self n0 n1) by (assumption || lia).
        unfold adjacent. eqb_lia. bool_simpl. reflexivity.
      - exists r, (c + 1). repeat split; try (unfold triangle_number; lia).
        rewrite (@grid_on_some_edge self n0 n1) by (assumption || lia).
        unfold adjacent. eqb_lia. bool_simpl. reflexivity.
      - exists (r + 1), c. repeat split; try (unfold triangle_number; lia).
        rewrite (@grid_on_some_edge self n0 n1) by (assumption || lia).
        unfold adjacent. subst c. eqb_lia. bool_simpl. reflexivity. }
    destruct G as (r' & c' & Hr' & Hc' & -> & Hle & Er & Ec & Hon).
    split; [unfold triangle_number; nia|].
    apply andb_true_intro. split; [now apply Nat.leb_le|].
    unfold is_virtual. rewrite Hon, andb_true_r.
    unfold shares, simplex_at, triangle_number. rewrite Hv.
    rewrite !grid_verts_nth by assumption. subst r' c'.
    rewrite (@virtual_shares a0 b0 n0 a1 b1 n1 r c t) by assumption.
    reflexivity.
  - intros J HJ Hf. apply andb_true_iff in Hf. destruct Hf as [Hle Hf].
    apply Nat.leb_le in Hle.
    destruct (@index_decompose n0 n1 J HJ)
      as (r' & c' & t' & Hr' & Hc' & Ht' & ->).
    unfold is_virtual in Hf. apply andb_true_iff in Hf.
    destruct Hf as [_ Hf].
    rewrite (@grid_on_some_edge self n0 n1) in Hf by assumption.
    unfold adjacent in Hf.
    rewrite !orb_true_iff, !andb_true_iff, !orb_true_iff, !Nat.eqb_eq in Hf.
    unfold later_virtual. cbv zeta. unfold triangle_number in *.
    destruct t as [|[|[|[|t]]]]; [| | | |lia];
      match goal with
      | |- In _ (if (?x =? ?y) && (?u <? ?v) then _ else _) =>
          destruct (Nat.eqb_spec x y); destruct (Nat.ltb_spec u v);
          cbn [andb In]
      end;
      repeat match goal with
             | H : _ \/ _ |- _ => destruct H
             | H : _ /\ _ |- _ => destruct H
             end;
      subst; try discriminate; try lia; nia.
Qed.

Lemma sum_indicators (n A B C m : nat) :
  0 < n -> m <= n ->
  list_sum (map (fun c => A * (if c + 1 <? n then 1 else 0)
                          + B * (if c + 1 =? n then 1 else 0)
                          + C * (if c =? 0 then 1 else 0))
                (range m))
  = A * Nat.min m (n - 1) + B * (if n <=? m then 1 else 0)
    + C * (if 0 <? m then 1 else 0).
Proof.
  unfold range. intros Hn. induction m as [|m IH]; intros Hm.
  - cbn. destruct (Nat.leb_spec n 0); lia.
  - rewrite (seq_S m 0), map_app, list_sum_app, IH by lia.
    cbn [map Nat.add]. unfold list_sum. cbn [fold_right].
    destruct (Nat.ltb_spec (m + 1) n), (Nat.eqb_spec (m + 1) n),
      (Nat.eqb_spec m 0), (Nat.leb_spec n m), (Nat.leb_spec n (S m)),
      (Nat.ltb_spec 0 m), (Nat.ltb_spec 0 (S m)); try lia; nia.
Qed.

(** The number of pairs [find_verts_outside] finds on the grid. *)
Lemma grid_virtual_count (self : tess) a0 b0 n0 a1 b1 n1 :
  verts self = grid_verts a0 b0 n0 a1 b1 n1 ->
  cells self = grid_cells n0 n1 -> nc self = [n0; n1] ->
  ~ (a0 == b0)%Q -> ~ (a1 == b1)%Q -> 0 < n0 -> 0 < n1 ->
  length (scan_pairs (4 * (n0 * n1)) (is_virtual self))
  = 2 * (n0 - 1) + 2 * (n1 - 1).
Proof.
  intros Hv Hce Hnc H0 H1 Hn0 Hn1. unfold scan_pairs.
  rewrite length_flat_map.
  rewrite (@sum_grid (fun I => length (scan_row (4 * (n0 * n1))
                                         (is_virtual self) I)) n0 n1).
  rewrite (@list_sum_ext _ _
             (fun r => 2 * (if r + 1 <? n1 then 1 else 0)
                       + (n0 - 1) * (if r + 1 =? n1 then 1 else 0)
                       + (n0 - 1) * (if r =? 0 then 1 else 0))).
  - rewrite sum_indicators by lia.
    rewrite Nat.min_r by lia.
    destruct (Nat.leb_spec n1 n1), (Nat.ltb_spec 0 n1); lia.
  - intros r Hr. apply in_seq in Hr.
    rewrite (@list_sum_ext _ _
               (fun c => ((if r =? 0 then 1 else 0)
                          + (if r + 1 =? n1 then 1 else 0))
                         * (if c + 1 <? n0 then 1 else 0)
                         + (if r + 1 <? n1 then 1 else 0)
                           * (if c + 1 =? n0 then 1 else 0)
                         + (if r + 1 <? n1 then 1 else 0)
                           * (if c =? 0 then 1 else 0))).
    + rewrite sum_indicators by lia.
      rewrite Nat.min_r by lia.
      destruct (Nat.leb_spec n0 n0), (Nat.ltb_spec 0 n0),
        (Nat.eqb_spec r 0), (Nat.eqb_spec (r + 1) n1),
        (Nat.ltb_spec (r + 1) n1); lia.
    + intros c Hc. apply in_seq in Hc.
      unfold scan_row. rewrite !length_map.
      rewrite !(@later_virtual_count self a0 b0 n0 a1 b1 n1)
        by (assumption || lia).
      unfold later_virtual. cbv zeta.
      destruct (Nat.eqb_spec r 0), (Nat.eqb_spec (r + 1) n1),
        (Nat.ltb_spec (r + 1) n1), (Nat.eqb_spec c 0),
        (Nat.eqb_spec (c + 1) n0), (Nat.ltb_spec (c + 1) n0);
        cbn [andb length]; lia.
Qed.

(** ** The zero-boundary rows of the 2D grid *)

(** A loop whose passes add a known number of rows. *)
Lemma for_each_count {A} (W : nat) (l : list A)
  (body : A -> matrix -> result matrix) (w : A -> nat) :
  (forall a M, In a l -> shaped W M ->
     exists M', body a M = Ok M' /\ shaped W M' /\
                length (rows M') = length (rows M) + w a) ->
  forall M, shaped W M ->
    exists M', for_each l body M = Ok M' /\ shaped W M' /\
               length (rows M') = length (rows M) + list_sum (map w l).
Proof.
  induction l as [|a l IH]; intros Hb M HM.
  - exists M. cbn. repeat split; try assumption; try apply HM. lia.
  - destruct (Hb a M (or_introl eq_refl) HM) as (M1 & E1 & H1 & L1).
    destruct (IH (fun x N Hx => Hb x N (or_intror Hx)) M1 H1)
      as (M2 & E2 & H2 & L2).
    exists M2. cbn [for_each]. rewrite E1. cbn [bind].
    split; [exact E2|]. split; [exact H2|].
    rewrite L2, L1. cbn [map]. unfold list_sum. cbn [fold_right]. lia.
Qed.

Lemma zero_boundary2D_count (self : tess) xmin ymin xmax ymax :
  domain_min self = [xmin; ymin] -> domain_max self = [xmax; ymax] ->
  nC self <= length (verts self) ->
  (forall i v, i < nC self -> In v (simplex_at self i) -> length v = 3) ->
  exists M,
    Tesselation2D.create_zero_boundary_constrains self = Ok M /\
    shaped (6 * nC self) M /\
    length (rows M) =
    list_sum (map (fun c => list_sum (map (boundary_hits xmin ymin xmax ymax)
                                          (simplex_at self c)))
                  (range (nC self))).
Proof.
  intros Hmin Hmax Hn Hv.
  unfold Tesselation2D.create_zero_boundary_constrains.
  rewrite Hmin, Hmax. cbn [Tesselation2D.unpack2 bind].
  destruct (@for_each_count nat (6 * nC self) (range (nC self))
              (fun c Ltemp =>
                 vs <- getitem (verts self) c ;;
                 for_each vs
                   (Tesselation2D.boundary_step self xmin ymin xmax ymax c)
                   Ltemp)
              (fun c => list_sum (map (boundary_hits xmin ymin xmax ymax)
                                      (simplex_at self c))))
    with (M := Matrix (6 * nC self) [])
    as (M & E & HM & HL).
  - intros c M Hc HM. apply in_range in Hc.
    rewrite (@getitem_nth simplex _ _ [] (Nat.lt_le_trans _ _ _ Hc Hn)).
    cbn [bind]. fold (simplex_at self c).
    apply for_each_count; [|exact HM].
    intros v N Hvin HN. specialize (Hv c v Hc Hvin).
    destruct v as [|x [|y [|z [|? ?]]]]; try discriminate.
    unfold Tesselation2D.boundary_step, boundary_hits.
    cbn [getitem nth_error bind nth].
    assert (Hrow : forall vals, length vals = 6 ->
              exists r, set_slice (zeros (6 * nC self)) (6 * c) (6 * (c + 1))
                          vals = Ok r /\ length r = 6 * nC self).
    { intros vals Hl.
      destruct (@set_slice_length (zeros (6 * nC self)) (6 * c)
                  (6 * (c + 1)) vals) as (r & E & Hr);
        rewrite ?zeros_length; try lia.
      exists r. split; [exact E|]. now rewrite Hr, zeros_length. }
    assert (Hstep : forall (b : bool) vals P, length vals = 6 ->
              shaped (6 * nC self) P ->
              exists P', (if b
                          then row <- set_slice (zeros (6 * nC self))
                                        (6 * c) (6 * (c + 1)) vals ;;
                               vstack P [row]
                          else Ok P) = Ok P' /\ shaped (6 * nC self) P' /\
                         length (rows P') =
                         length (rows P) + (if b then 1 else 0)).
    { intros b vals P Hl HP. destruct b.
      - destruct (Hrow vals Hl) as (r & -> & Hr). cbn [bind].
        destruct (@vstack_shaped (6 * nC self) P [r] HP) as [E HP'].
        + constructor; [exact Hr | constructor].
        + eexists. split; [exact E|]. split; [exact HP'|].
          cbn [rows]. rewrite length_app. reflexivity.
      - exists P. repeat split; try apply HP. lia. }
    destruct (Hstep (Qeq_bool x xmin || Qeq_bool x xmax)
                (zeros 3 ++ [x; y; z]) N eq_refl HN)
      as (N1 & -> & HN1 & L1).
    cbn [bind].
    destruct (Hstep (Qeq_bool y ymin || Qeq_bool y ymax)
                ([x; y; z] ++ zeros 3) N1 eq_refl HN1)
      as (N2 & E2 & HN2 & L2).
    exists N2. split; [exact E2|]. split; [exact HN2|]. lia.
  - split; [reflexivity|constructor].
  - exists M. split; [exact E|]. split; [exact HM|].
    rewrite HL. reflexivity.
Qed.

Lemma Qeq_bool_ext (x y y' : Q) :
  (y == y')%Q -> Qeq_bool x y = Qeq_bool x y'.
Proof.
  intros H. apply eq_true_iff_eq. rewrite !Qeq_bool_iff. now rewrite H.
Qed.

Lemma bp_min_eqb (a b : Q) (n j : nat) :
  ~ (a == b)%Q -> j <= n ->
  Qeq_bool (breakpoint a b n j) a = (j =? 0).
Proof.
  intros Hab Hj.
  rewrite <- (@Qeq_bool_ext _ _ _ (breakpoint_first a b n)).
  apply breakpoint_eqb; [exact Hab|exact Hj|lia].
Qed.

Lemma bp_max_eqb (a b : Q) (n j : nat) :
  ~ (a == b)%Q -> 0 < n -> j <= n ->
  Qeq_bool (breakpoint a b n j) b = (j =? n).
Proof.
  intros Hab Hn Hj.
  rewrite (@Qeq_bool_ext _ b (breakpoint a b n n))
    by (now rewrite breakpoint_last).
  apply breakpoint_eqb; [exact Hab|exact Hj|lia].
Qed.

Lemma mid_min_eqb (a b : Q) (n j : nat) :
  ~ (a == b)%Q -> j < n ->
  Qeq_bool ((breakpoint a b n j + breakpoint a b n (j + 1)) / 2) a = false.
Proof.
  intros Hab Hj.
  rewrite <- (@Qeq_bool_ext _ _ _ (breakpoint_first a b n)).
  apply mid_bp_eqb; [exact Hab|exact Hj|lia].
Qed.

Lemma mid_max_eqb (a b : Q) (n j : nat) :
  ~ (a == b)%Q -> j < n ->
  Qeq_bool ((breakpoint a b n j + breakpoint a b n (j + 1)) / 2) b = false.
Proof.
  intros Hab Hj.
  rewrite (@Qeq_bool_ext _ b (breakpoint a b n n))
    by (rewrite breakpoint_last by lia; reflexivity).
  apply mid_bp_eqb; [exact Hab|exact Hj|lia].
Qed.

(** The rows one cell of the grid adds to the zero-boundary block. *)
Lemma cell_boundary_hits a0 b0 n0 a1 b1 n1 r c :
  ~ (a0 == b0)%Q -> ~ (a1 == b1)%Q -> r < n1 -> c < n0 ->
  list_sum (map (fun T => list_sum (map (boundary_hits a0 a1 b0 b1) T))
                (triangles a0 b0 n0 a1 b1 n1 r c))
  = 4 * ((if c =? 0 then 1 else 0) + (if c + 1 =? n0 then 1 else 0)
         + (if r =? 0 then 1 else 0) + (if r + 1 =? n1 then 1 else 0)).
Proof.
  intros H0 H1 Hr Hc. unfold triangles, boundary_hits. cbv zeta.
  cbn [map nth]. 
  rewrite !bp_min_eqb, !bp_max_eqb, !mid_min_eqb, !mid_max_eqb
    by (assumption || lia).
  unfold list_sum. cbn [fold_right orb].
  destruct (Nat.eqb_spec c 0), (Nat.eqb_spec (c + 1) n0),
    (Nat.eqb_spec r 0), (Nat.eqb_spec (r + 1) n1),
    (Nat.eqb_spec c n0), (Nat.eqb_spec (c + 1) 0),
    (Nat.eqb_spec r n1), (Nat.eqb_spec (r + 1) 0);
    try lia; cbn [orb]; lia.
Qed.

Lemma grid_boundary_count a0 b0 n0 a1 b1 n1 (self : tess) :
  verts self = grid_verts a0 b0 n0 a1 b1 n1 ->
  ~ (a0 == b0)%Q -> ~ (a1 == b1)%Q -> 0 < n0 -> 0 < n1 ->
  list_sum (map (fun I => list_sum (map (boundary_hits a0 a1 b0 b1)
                                        (simplex_at self I)))
                (range (4 * (n0 * n1))))
  = 8 * (n0 + n1).
Proof.
  intros Hv H0 H1 Hn0 Hn1.
  rewrite (@sum_grid (fun I => list_sum (map (boundary_hits a0 a1 b0 b1)
                                             (simplex_at self I))) n0 n1).
  rewrite (@list_sum_ext _ _
             (fun r => 8 * (if r + 1 <? n1 then 1 else 0)
                       + (8 + 4 * n0) * (if r + 1 =? n1 then 1 else 0)
                       + (4 * n0) * (if r =? 0 then 1 else 0))).
  - rewrite sum_indicators by lia. rewrite Nat.min_r by lia.
    destruct (Nat.leb_spec n1 n1), (Nat.ltb_spec 0 n1); lia.
  - intros r Hr. apply in_seq in Hr.
    set (K := 4 * ((if r =? 0 then 1 else 0)
                   + (if r + 1 =? n1 then 1 else 0))).
    rewrite (@list_sum_ext _ _
               (fun c => K * (if c + 1 <? n0 then 1 else 0)
                         + (4 + K) * (if c + 1 =? n0 then 1 else 0)
                         + 4 * (if c =? 0 then 1 else 0))).
    + rewrite sum_indicators by lia. rewrite Nat.min_r by lia. subst K.
      destruct (Nat.leb_spec n0 n0), (Nat.ltb_spec 0 n0),
        (Nat.eqb_spec r 0), (Nat.eqb_spec (r + 1) n1),
        (Nat.ltb_spec (r + 1) n1); try lia; nia.
    + intros c Hc. apply in_seq in Hc.
      pose proof (@cell_boundary_hits a0 b0 n0 a1 b1 n1 r c H0 H1
                    ltac:(lia) ltac:(lia)) as E.
      unfold simplex_at, triangle_number. rewrite Hv.
      rewrite !grid_verts_nth by lia.
      unfold triangles in *. cbv zeta in *. cbn [map nth] in *.
      unfold list_sum at 1 in E. cbn [fold_right] in E.
      subst K.
      destruct (Nat.eqb_spec c 0), (Nat.eqb_spec (c + 1) n0),
        (Nat.ltb_spec (c + 1) n0); lia.
Qed.

(** ** The size of the 2D constraint matrix *)

Lemma cont_rows_length (W : nat) (idx : list (nat * nat))
  (sv : list (list vertex)) :
  length sv = length idx ->
  (forall V, In V sv -> length V = 2) ->
  length (cont_rows 2 6 W idx sv) = 4 * length idx.
Proof.
  intros Hlen HV. unfold cont_rows.
  rewrite (@length_flat_map_const _ _ _ _ 4).
  - rewrite length_combine, Hlen, Nat.min_id. lia.
  - intros [p V] Hin. cbn [fst snd]. rewrite cont_block_length.
    apply in_combine_r in Hin. rewrite (HV V Hin). reflexivity.
Qed.

(** The adjacency list and the parts of the matrix of a 2D construction
    over a grid with at least one cell. *)
Lemma init2D_parts n0 n1 a0 a1 b0 b1 zb vp t :
  ~ (a0 == b0)%Q -> ~ (a1 == b1)%Q -> 0 < n0 -> 0 < n1 ->
  Tesselation2D.init [n0; n1] [a0; a1] [b0; b1] zb vp = Ok t ->
  let s1 := set_verts
              (configured 6 (4 * prod [n0; n1]) 2 [n0; n1] [a0; a1] [b0; b1]
                 zb vp)
              (grid_verts a0 b0 n0 a1 b1 n1) (grid_cells n0 n1) in
  shared_v_idx t
  = scan_pairs (4 * (n0 * n1)) (is_facet s1)
    ++ (if zb then [] else scan_pairs (4 * (n0 * n1)) (is_virtual s1)) /\
  length (shared_v_idx t)
  = 6 * (n0 * n1) - n0 - n1
    + (if zb then 0 else 2 * (n0 - 1) + 2 * (n1 - 1)) /\
  ncols (L t) = 24 * (n0 * n1) /\
  length (rows (L t))
  = 4 * length (shared_v_idx t)
    + (if zb then 8 * (n0 + n1) else 0)
    + (if vp then 4 * (n0 * n1) else 0).
Proof.
  intros H0 H1 Hn0 Hn1 H. cbv zeta.
  destruct (@pipeline2D n0 n1 a0 a1 b0 b1 zb vp H0 H1)
    as (s1' & s2' & E1' & E2' & Hn & _ & Ht1 & Ht2 & Hp & Hd & HnC & Hlen2 &
        Hmin2 & Hmax2 & Hvert2 & Hadj & Hout).
  rewrite (@find_verts2D_ok _ a0 a1 [] b0 b1 [] n0 n1 []) in E1'
    by reflexivity.
  injection E1' as <-.
  set (s1 := set_verts
               (configured 6 (4 * prod [n0; n1]) 2 [n0; n1] [a0; a1] [b0; b1]
                  zb vp)
               (grid_verts a0 b0 n0 a1 b1 n1) (grid_cells n0 n1)) in *.
  assert (Hle : nC s1 <= length (verts s1))
    by exact (Nat.eq_le_incl _ _ Hn).
  assert (HN : nC s1 = 4 * (n0 * n1)) by (cbn; lia).
  change (Tesselation.find_shared_verts s1 = Ok s2') in E2'.
  rewrite (find_shared_verts_scan s1 Hle) in E2'. injection E2' as <-.
  set (F := scan_pairs (nC s1) (is_facet s1)) in *.
  set (s2 := set_shared s1 (map (fun p => shares s1 (fst p) (snd p)) F) F)
    in *.
  assert (HF : length F = 6 * (n0 * n1) - n0 - n1).
  { unfold F. rewrite HN.
    apply (@grid_facets_count s1 a0 b0 n0 a1 b1 n1); auto. }
  assert (HP : length (scan_pairs (nC s2) (is_virtual s2))
               = 2 * (n0 - 1) + 2 * (n1 - 1)).
  { change (nC s2) with (nC s1). rewrite HN.
    apply (@grid_virtual_count s2 a0 b0 n0 a1 b1 n1); auto. }
  unfold Tesselation2D.init in H.
  destruct (@init_steps _ _ _ _ _ _ _ _ H)
    as (s1' & s2' & s3 & Mc & E1 & E2 & E3 & E4 & _ & _ & Hd3 & Hc3 & Hp3 &
        Hsv & Hsi & Mz & Mt & Ez & Et & HL & Hcols).
  cbn [find_verts Tesselation2D.impl] in E1.
  change (Tesselation2D.find_verts
            (configured 6 (4 * prod [n0; n1]) 2 [n0; n1] [a0; a1] [b0; b1]
               zb vp) = Ok s1') in E1.
  rewrite (@find_verts2D_ok _ a0 a1 [] b0 b1 [] n0 n1 []) in E1
    by reflexivity.
  injection E1 as <-.
  change (Tesselation.find_shared_verts s1 = Ok s2') in E2.
  rewrite (find_shared_verts_scan s1 Hle) in E2.
  change (Ok s2 = Ok s2') in E2. injection E2 as <-.
  assert (X : adjacency_ok 2 3 s3 = true /\ nC s3 = 4 * (n0 * n1) /\
              n_params s3 = 6 /\ ndim s3 = 2 /\
              shared_v_idx s3
              = F ++ (if zb then []
                      else scan_pairs (nC s2) (is_virtual s2)) /\
              (zb = true -> s3 = s2)).
  { destruct zb; cbn [negb] in E3.
    - injection E3 as <-.
      split; [exact Hadj|]. split; [exact HN|]. split; [exact Hp|].
      split; [exact Hd|]. split; [|reflexivity].
      change (shared_v_idx s2) with F. now rewrite app_nil_r.
    - cbn [find_verts_outside Tesselation2D.impl] in E3.
      destruct (Hout s3 E3) as (A1 & A2 & A3 & A4).
      split; [exact A1|]. split; [rewrite A2; exact HN|].
      split; [exact A3|]. split; [exact A4|]. split; [|discriminate].
      unfold Tesselation2D.find_verts_outside in E3.
      rewrite (outside_scan_pairs s2 Ht2) in E3. cbn [bind] in E3.
      destruct (concatenate_lists (shared_v s2) _) as [sv'|] eqn:C1;
        cbn [bind] in E3; [|discriminate].
      destruct (concatenate_lists (shared_v_idx s2) _) as [si'|] eqn:C2;
        cbn [bind] in E3; [|discriminate].
      injection E3 as <-. cbn [shared_v_idx set_shared].
      apply concatenate_lists_Ok in C2. rewrite C2. reflexivity. }
  destruct X as (Hadj3 & HnC3 & Hp3' & Hd3' & Hidx3 & Hzb).
  destruct (adjacency_ok_spec _ _ _ Hadj3) as (Hlen & Hidx & _ & HV).
  assert (Hpairs : length (shared_v_idx s3)
                   = 6 * (n0 * n1) - n0 - n1
                     + (if zb then 0 else 2 * (n0 - 1) + 2 * (n1 - 1))).
  { rewrite Hidx3, length_app, HF. destruct zb; [reflexivity|].
    now rewrite HP. }
  split.
  { rewrite Hsi, Hidx3. unfold F. change (nC s2) with (nC s1).
    rewrite HN. reflexivity. }
  split; [now rewrite Hsi|].
  cbn [create_continuity_constrains Tesselation2D.impl] in E4.
  rewrite continuity2D_rows in E4; [|exact Hlen| |].
  2:{ intros p Hin. specialize (Hidx p Hin). lia. }
  2:{ intros V HVin. destruct (HV V HVin) as (Ha & _ & Hb).
      split; [exact Ha|]. intros v Hvin. now apply Hb. }
  injection E4 as <-. cbn [ncols rows] in *.
  split; [rewrite Hcols, HnC3; lia|].
  rewrite HL, !length_app, cont_rows_length; [|exact Hlen|].
  2:{ intros V HVin. now destruct (HV V HVin). }
  assert (HMz : length (rows Mz) = if zb then 8 * (n0 + n1) else 0);
    [|assert (HMt : length (rows Mt) = if vp then 4 * (n0 * n1) else 0);
      [|rewrite Hsi, HMz, HMt; lia]].
  - destruct zb; [|now injection Ez as <-].
    cbn [create_zero_boundary_constrains Tesselation2D.impl] in Ez.
    match type of Ez with
    | Tesselation2D.create_zero_boundary_constrains ?s = _ =>
        destruct (@zero_boundary2D_count s a0 a1 b0 b1)
          as (M & EM & _ & LM)
    end.
    + now rewrite (Hzb eq_refl).
    + now rewrite (Hzb eq_refl).
    + rewrite (Hzb eq_refl). exact Hle.
    + rewrite (Hzb eq_refl). intros i v Hi Hvin.
      apply (Hvert2 i v Hi Hvin).
    + assert (X : Ok M = Ok Mz) by (rewrite <- EM; exact Ez).
      injection X as X. rewrite <- X, LM, (Hzb eq_refl).
      change (nC (set_L s2 _)) with (nC s1). rewrite HN.
      apply (@grid_boundary_count a0 b0 n0 a1 b1 n1); auto.
  - destruct vp; [|now injection Et as <-].
    rewrite zero_trace_rows_eq in Et by (now rewrite Hp3', Hd3').
    injection Et as <-. cbn [rows]. unfold range.
    now rewrite length_map, length_seq.
Qed.

(** X16: a 2D tesselation of [n0 x n1] cells, both at least one, on a
    domain whose two sides are not single points, with
    [zero_boundary = True]: the constructor completes, records
    [6 n0 n1 - n0 - n1] pairs of neighbouring triangles, and the constraint
    matrix has [24 n0 n1] columns and four rows per pair, [8 (n0 + n1)]
    zero-boundary rows and, with [volume_perservation], one trace row per
    triangle. *)
Theorem rows_2D_zero_boundary (n0 n1 : nat) (a0 a1 b0 b1 : Q) (vp : bool)
  (Hn0 : 0 < n0) (Hn1 : 0 < n1)
  (H0 : ~ (a0 == b0)%Q) (H1 : ~ (a1 == b1)%Q) :
  exists t,
    Tesselation2D.init [n0; n1] [a0; a1] [b0; b1] true vp = Ok t /\
    length (shared_v_idx t) = 6 * (n0 * n1) - n0 - n1 /\
    ncols (get_constrain_matrix t) = 24 * (n0 * n1) /\
    length (rows (get_constrain_matrix t))
    = 4 * (6 * (n0 * n1) - n0 - n1) + 8 * (n0 + n1)
      + (if vp then 4 * (n0 * n1) else 0).
Proof.
  destruct (@Tesselation2D_init_columns n0 n1 a0 a1 b0 b1 true vp H0 H1)
    as [Hok _].
  specialize (Hok eq_refl).
  destruct (Tesselation2D.init [n0; n1] [a0; a1] [b0; b1] true vp)
    as [t|] eqn:Ht; [|discriminate].
  exists t. split; [reflexivity|].
  destruct (@init2D_parts n0 n1 a0 a1 b0 b1 true vp t H0 H1 Hn0 Hn1 Ht)
    as (_ & Hi & Hc & Hr).
  unfold get_constrain_matrix. rewrite Hr, Hi.
  repeat split; try assumption; lia.
Qed.

(** X17: the same grid with [zero_boundary = False], unless it is the
    single cell [1 x 1]: the constructor completes, [find_verts_outside]
    adds [2 (n0 - 1) + 2 (n1 - 1)] pairs along the outer edges, which
    makes [6 n0 n1 + n0 + n1 - 4] pairs, and the constraint matrix has four
    rows per pair and, with [volume_perservation], one trace row per
    triangle. *)
Theorem rows_2D_open_boundary (n0 n1 : nat) (a0 a1 b0 b1 : Q) (vp : bool)
  (Hn0 : 0 < n0) (Hn1 : 0 < n1) (Hne : n0 <> 1 \/ n1 <> 1)
  (H0 : ~ (a0 == b0)%Q) (H1 : ~ (a1 == b1)%Q) :
  exists t,
    Tesselation2D.init [n0; n1] [a0; a1] [b0; b1] false vp = Ok t /\
    length (shared_v_idx t) = 6 * (n0 * n1) + n0 + n1 - 4 /\
    ncols (get_constrain_matrix t) = 24 * (n0 * n1) /\
    length (rows (get_constrain_matrix t))
    = 4 * (6 * (n0 * n1) + n0 + n1 - 4)
      + (if vp then 4 * (n0 * n1) else 0).
Proof.
  pose proof (@init2D_open_steps n0 n1 a0 a1 b0 b1 vp H0 H1) as S.
  cbv zeta in S.
  set (s1 := set_verts _ _ _) in S.
  assert (HN : nC s1 = 4 * (n0 * n1)) by (cbn; lia).
  assert (HF : length (scan_pairs (nC s1) (is_facet s1))
               = 6 * (n0 * n1) - n0 - n1).
  { rewrite HN. apply (@grid_facets_count s1 a0 b0 n0 a1 b1 n1); auto. }
  assert (HP : length (scan_pairs (nC s1) (is_virtual s1))
               = 2 * (n0 - 1) + 2 * (n1 - 1)).
  { rewrite HN. apply (@grid_virtual_count s1 a0 b0 n0 a1 b1 n1); auto. }
  destruct (scan_pairs (nC s1) (is_facet s1)) as [|f F];
    [cbn [length] in HF; nia|].
  destruct (scan_pairs (nC s1) (is_virtual s1)) as [|p P];
    [cbn [length] in HP; lia|].
  destruct (Tesselation2D.init [n0; n1] [a0; a1] [b0; b1] false vp)
    as [t|] eqn:Ht; [|discriminate].
  exists t. split; [reflexivity|].
  destruct (@init2D_parts n0 n1 a0 a1 b0 b1 false vp t H0 H1 Hn0 Hn1 Ht)
    as (_ & Hi & Hc & Hr).
  unfold get_constrain_matrix. rewrite Hr, Hi.
  repeat split; try assumption; nia.
Qed.

(** ** The adjacency list of the 2D grid *)

Lemma triangle_number_lt (n0 n1 r c t : nat) :
  r < n1 -> c < n0 -> t < 4 -> triangle_number n0 r c t < 4 * (n0 * n1).
Proof. intros Hr Hc Ht. unfold triangle_number. nia. Qed.

(** On the grid the test of [find_verts_outside] is [edge_neighbour]: two
    triangles next to each other along an outer edge always have exactly
    one vertex in common. *)
Lemma grid_is_virtual (self : tess) a0 b0 n0 a1 b1 n1 r c t r' c' t' :
  verts self = grid_verts a0 b0 n0 a1 b1 n1 ->
  cells self = grid_cells n0 n1 -> nc self = [n0; n1] ->
  ~ (a0 == b0)%Q -> ~ (a1 == b1)%Q ->
  r < n1 -> c < n0 -> t < 4 -> r' < n1 -> c' < n0 -> t' < 4 ->
  is_virtual self (triangle_number n0 r c t) (triangle_number n0 r' c' t')
  = edge_neighbour n0 n1 r c t r' c' t'.
Proof.
  intros Hv Hce Hnc H0 H1 Hr Hc Ht Hr' Hc' Ht'.
  unfold is_virtual.
  rewrite (@grid_on_some_edge self n0 n1) by assumption.
  change (((c =? 0) && (c' =? 0) && (t =? 3) && (t' =? 3) && adjacent r r')
          || ((c + 1 =? n0) && (c' + 1 =? n0) && (t =? 1) && (t' =? 1)
              && adjacent r r')
          || ((r =? 0) && (r' =? 0) && (t =? 0) && (t' =? 0)
              && adjacent c c')
          || ((r + 1 =? n1) && (r' + 1 =? n1) && (t =? 2) && (t' =? 2)
              && adjacent c c'))
    with (edge_neighbour n0 n1 r c t r' c' t').
  destruct (edge_neighbour n0 n1 r c t r' c' t') eqn:E;
    [rewrite andb_true_r|apply andb_false_r].
  assert (G : (t' = t /\ r' = (if Nat.even t then r else r + 1) /\
               c' = (if Nat.even t then c + 1 else c)) \/
              (t = t' /\ r = (if Nat.even t' then r' else r' + 1) /\
               c = (if Nat.even t' then c' + 1 else c'))).
  { unfold edge_neighbour, adjacent in E.
    rewrite !orb_true_iff, !andb_true_iff, !orb_true_iff, !Nat.eqb_eq in E.
    destruct t as [|[|[|[|t]]]]; [| | | |lia];
      destruct t' as [|[|[|[|t']]]]; try lia; cbn [Nat.even]; lia. }
  unfold shares, simplex_at, triangle_number. rewrite Hv.
  destruct G as [(-> & -> & ->)|(-> & -> & ->)].
  - rewrite !grid_verts_nth by assumption.
    rewrite (@virtual_shares a0 b0 n0 a1 b1 n1 r c t) by assumption.
    reflexivity.
  - rewrite intersection_length_sym.
    rewrite !grid_verts_nth by assumption.
    rewrite (@virtual_shares a0 b0 n0 a1 b1 n1 r' c' t') by assumption.
    reflexivity.
Qed.

(** X18: which triangles a 2D tesselation with [zero_boundary = True]
    records as adjacent.  Every recorded pair has its smaller number first
    and both numbers below [4 n0 n1]; and the pair of the triangle [k] of
    the cell in row [r], column [c] and the triangle [k'] of the cell in
    row [r'], column [c'] is recorded exactly when the first number is not
    above the second and the two triangles are [neighbour]s: consecutive
    triangles of one cell, or the two triangles on either side of the
    border between two cells next to each other. *)
Theorem adjacency_2D_zero_boundary (n0 n1 : nat) (a0 a1 b0 b1 : Q)
  (vp : bool)
  (Hn0 : 0 < n0) (Hn1 : 0 < n1)
  (H0 : ~ (a0 == b0)%Q) (H1 : ~ (a1 == b1)%Q) :
  exists t,
    Tesselation2D.init [n0; n1] [a0; a1] [b0; b1] true vp = Ok t /\
    (forall I J, In (I, J) (shared_v_idx t) -> I <= J < 4 * (n0 * n1)) /\
    forall r c k r' c' k',
      r < n1 -> c < n0 -> k < 4 -> r' < n1 -> c' < n0 -> k' < 4 ->
      (In (triangle_number n0 r c k, triangle_number n0 r' c' k')
          (shared_v_idx t)
       <-> triangle_number n0 r c k <= triangle_number n0 r' c' k' /\
           neighbour r c k r' c' k' = true).
Proof.
  destruct (@Tesselation2D_init_columns n0 n1 a0 a1 b0 b1 true vp H0 H1)
    as [Hok _].
  specialize (Hok eq_refl).
  destruct (Tesselation2D.init [n0; n1] [a0; a1] [b0; b1] true vp)
    as [t|] eqn:Ht; [|discriminate].
  exists t. split; [reflexivity|].
  destruct (@init2D_parts n0 n1 a0 a1 b0 b1 true vp t H0 H1 Hn0 Hn1 Ht)
    as (Hi & _).
  rewrite app_nil_r in Hi. rewrite Hi. split.
  - intros I J Hin. apply in_scan_pairs in Hin. lia.
  - intros r c k r' c' k' Hr Hc Hk Hr' Hc' Hk'.
    rewrite in_scan_pairs.
    rewrite (@grid_is_facet _ a0 b0 n0 a1 b1 n1) by (assumption || reflexivity).
    pose proof (@triangle_number_lt n0 n1 r' c' k' Hr' Hc' Hk'). tauto.
Qed.

(** X19: with [zero_boundary = False], on a grid other than [1 x 1], the
    recorded pairs are those of X18 together with the pairs of
    [edge_neighbour]s: the same sub-triangle of two cells next to each
    other along one outer edge of the grid. *)
Theorem adjacency_2D_open_boundary (n0 n1 : nat) (a0 a1 b0 b1 : Q)
  (vp : bool)
  (Hn0 : 0 < n0) (Hn1 : 0 < n1) (Hne : n0 <> 1 \/ n1 <> 1)
  (H0 : ~ (a0 == b0)%Q) (H1 : ~ (a1 == b1)%Q) :
  exists t,
    Tesselation2D.init [n0; n1] [a0; a1] [b0; b1] false vp = Ok t /\
    (forall I J, In (I, J) (shared_v_idx t) -> I <= J < 4 * (n0 * n1)) /\
    forall r c k r' c' k',
      r < n1 -> c < n0 -> k < 4 -> r' < n1 -> c' < n0 -> k' < 4 ->
      (In (triangle_number n0 r c k, triangle_number n0 r' c' k')
          (shared_v_idx t)
       <-> triangle_number n0 r c k <= triangle_number n0 r' c' k' /\
           (neighbour r c k r' c' k'
            || edge_neighbour n0 n1 r c k r' c' k') = true).
Proof.
  pose proof (@init2D_open_steps n0 n1 a0 a1 b0 b1 vp H0 H1) as S.
  cbv zeta in S.
  set (s1 := set_verts _ _ _) in S.
  assert (HN : nC s1 = 4 * (n0 * n1)) by (cbn; lia).
  assert (HF : length (scan_pairs (nC s1) (is_facet s1))
               = 6 * (n0 * n1) - n0 - n1).
  { rewrite HN. apply (@grid_facets_count s1 a0 b0 n0 a1 b1 n1); auto. }
  assert (HP : length (scan_pairs (nC s1) (is_virtual s1))
               = 2 * (n0 - 1) + 2 * (n1 - 1)).
  { rewrite HN. apply (@grid_virtual_count s1 a0 b0 n0 a1 b1 n1); auto. }
  destruct (scan_pairs (nC s1) (is_facet s1)) as [|f F];
    [cbn [length] in HF; nia|].
  destruct (scan_pairs (nC s1) (is_virtual s1)) as [|p P];
    [cbn [length] in HP; lia|].
  destruct (Tesselation2D.init [n0; n1] [a0; a1] [b0; b1] false vp)
    as [t|] eqn:Ht; [|discriminate].
  exists t. split; [reflexivity|].
  destruct (@init2D_parts n0 n1 a0 a1 b0 b1 false vp t H0 H1 Hn0 Hn1 Ht)
    as (Hi & _).
  rewrite Hi. split.
  - intros I J Hin. apply in_app_or in Hin.
    destruct Hin as [Hin|Hin]; apply in_scan_pairs in Hin; lia.
  - intros r c k r' c' k' Hr Hc Hk Hr' Hc' Hk'.
    rewrite in_app_iff, !in_scan_pairs.
    rewrite (@grid_is_facet _ a0 b0 n0 a1 b1 n1) by (assumption || reflexivity).
    rewrite (@grid_is_virtual _ a0 b0 n0 a1 b1 n1)
      by (assumption || reflexivity).
    pose proof (@triangle_number_lt n0 n1 r' c' k' Hr' Hc' Hk').
    rewrite orb_true_iff. tauto.
Qed.

(** ** The 2D counts at small configurations *)

Lemma rows_2D_zero_boundary_witness :
  exists t,
    Tesselation2D.init [2; 1] [0%Q; 0%Q] [1%Q; 1%Q] true true = Ok t /\
    length (shared_v_idx t) = 9 /\
    ncols (get_constrain_matrix t) = 48 /\
    length (rows (get_constrain_matrix t)) = 68.
Proof.
  exact (@rows_2D_zero_boundary 2 1 0%Q 0%Q 1%Q 1%Q true
           ltac:(lia) ltac:(lia) ltac:(discriminate) ltac:(discriminate)).
Defined.

Lemma rows_2D_open_boundary_witness :
  exists t,
    Tesselation2D.init [2; 1] [0%Q; 0%Q] [1%Q; 1%Q] false false = Ok t /\
    length (shared_v_idx t) = 11 /\
    ncols (get_constrain_matrix t) = 48 /\
    length (rows (get_constrain_matrix t)) = 44.
Proof.
  exact (@rows_2D_open_boundary 2 1 0%Q 0%Q 1%Q 1%Q false
           ltac:(lia) ltac:(lia) ltac:(left; lia)
           ltac:(discriminate) ltac:(discriminate)).
Defined.

Lemma adjacency_2D_zero_boundary_witness :
  exists t,
    Tesselation2D.init [2; 1] [0%Q; 0%Q] [1%Q; 1%Q] true false = Ok t /\
    In (1, 7) (shared_v_idx t) /\ ~ In (0, 4) (shared_v_idx t).
Proof.
  destruct (@adjacency_2D_zero_boundary 2 1 0%Q 0%Q 1%Q 1%Q false
              ltac:(lia) ltac:(lia) ltac:(discriminate) ltac:(discriminate))
    as (t & E & _ & H).
  exists t. split; [exact E|]. split.
  - apply (proj2 (H 0 0 1 0 1 3 ltac:(lia) ltac:(lia) ltac:(lia)
                    ltac:(lia) ltac:(lia) ltac:(lia))).
    split; [unfold triangle_number; lia|reflexivity].
  - intros Hin.
    apply (proj1 (H 0 0 0 0 1 0 ltac:(lia) ltac:(lia) ltac:(lia)
                    ltac:(lia) ltac:(lia) ltac:(lia))) in Hin.
    destruct Hin as [_ Hin]. discriminate Hin.
Defined.

Lemma adjacency_2D_open_boundary_witness :
  exists t,
    Tesselation2D.init [2; 1] [0%Q; 0%Q] [1%Q; 1%Q] false false = Ok t /\
    In (1, 7) (shared_v_idx t) /\ In (0, 4) (shared_v_idx t).
Proof.
  destruct (@adjacency_2D_open_boundary 2 1 0%Q 0%Q 1%Q 1%Q false
              ltac:(lia) ltac:(lia) ltac:(left; lia)
              ltac:(discriminate) ltac:(discriminate))
    as (t & E & _ & H).
  exists t. split; [exact E|]. split.
  - apply (proj2 (H 0 0 1 0 1 3 ltac:(lia) ltac:(lia) ltac:(lia)
                    ltac:(lia) ltac:(lia) ltac:(lia))).
    split; [unfold triangle_number; lia|reflexivity].
  - apply (proj2 (H 0 0 0 0 1 0 ltac:(lia) ltac:(lia) ltac:(lia)
                    ltac:(lia) ltac:(lia) ltac:(lia))).
    split; [unfold triangle_number; lia|reflexivity].
Defined.
